(* ===== verification/_CoqProject ===== *)
-Q . S2P
Prelude.v
Sections.v
Json.v
Rpcserver.v
RpcserverFacts.v
Guiclient.v
GuiclientFacts.v
Eint.v
Serialize.v
Caps.v
Privileges.v
CapsFacts.v
PrivilegesFacts.v
SerializeFacts.v
Hexstr.v
Cryptobasic.v
Multikeys.v
MultikeysFacts.v
Crypto.v
CryptoFacts.v
HandshakeFacts.v
Peering.v
PeeringFacts.v
Routing.v
RoutingFacts.v
Peerref.v
Ntrupp.v
NtruppFacts.v
Guiorders.v
Tunserver.v
Tunpackets.v
Tunrpc.v
Tunjson.v
Toy.v
TunpacketsFacts.v
NodeFacts.v
TunjsonFacts.v
GuiordersFacts.v
ForwardFacts.v
AuthFacts.v
FindFacts.v
DeliverFacts.v
HiFacts.v
MeetFacts.v
EndtoendFacts.v
Datastore.v
DatastoreFacts.v
Keystore.v
KeystoreFacts.v
Tab.v
TabFacts.v
Ndp.v
NdpFacts.v
Devices.v
DevicesFacts.v
Loop.v
LoopFacts.v
Cables.v
CablesFacts.v
Config.v
ConfigFacts.v
Newloop.v
Program.v
Mutexed.v
MutexedFacts.v
Threads.v
Peerlist.v
PeerlistFacts.v
ProgramFacts.v
