(* ===== verification/Prelude.v ===== *)
(** * Verification of Galaxy42

    Galaxy42 is a mesh network daemon: every node has an IPv6 address that is a
    hash of its public keys (a "hash-ip"), talks to peers over UDP, carries the
    packets of a TUN device through end-to-end encrypted tunnels, and forwards
    the tunneled data of others.  A remote control server and a graphical
    interface drive it.  This library models the program's own logic, the files
    under src/src/ and src/src-gui/, and proves what makes it correct; it is
    written against the Linux build with asserts enabled (the build files strip
    NDEBUG).

    ** Parts of the program and files of the library

    The language and the base:
    - [Prelude]: the language.  A piece of C++ code is a value of [outcome]
      (it returns, throws, aborts on a failed assert, or does something the
      language leaves undefined) or, with state, of the monad [M].  [mcatch] is
      try/catch and keeps what was changed before the throw.  Hoare triples
      over [M] with their rules are here too.
    - [Sections]: operations that take a mutex several times, as sequences of
      locked sections between which another thread may run.
    - [Eint]: stdplus/eint.hpp, checked arithmetic on machine integers.
    - [Tab], [TabFacts]: stdplus/tab.hpp, the ranges of stdplus/misc.hpp,
      stdplus/arrayvector.hpp, netbuf.cpp and the welds of
      galaxysrv_engine.cpp: checked copies, views, buffers, over a flat memory.
    - [Serialize], [SerializeFacts]: trivialserialize.hpp/cpp, the generator and
      the parser of the wire format.  The parser's state is the buffer and the
      cursor; the generator's is the string written so far.
    - [Mutexed], [MutexedFacts]: mutex.hpp, stdplus/with_mutex.hpp and
      stdplus/vector_mutexed_obj.hpp: threads that interleave at every access
      to shared memory; [Threads]: utils/wrap_thread, counter.cpp.
    - [Hexstr]: string_as_hex and string_as_bin of strings_utils.cpp.
    - [Json]: the JSON library as a class with its documented behaviour.

    Keys, tunnels, files:
    - [Cryptobasic]: crypto/crypto_basic, the enumeration of crypto systems with
      its serialized identifiers, hashes, and helpers of stdplus/misc.
    - [Multikeys], [MultikeysFacts]: crypto/multikeys, collections of keys per
      crypto system: serialization, fingerprint and address, signatures,
      generation.
    - [Crypto], [CryptoFacts]: crypto/crypto.cpp and sidhpp.cpp, key agreement
      (c_stream::calculate_KCT) and tunnels (c_crypto_tunnel);
      [HandshakeFacts]: the whole protocol that opens a tunnel.
    - [Ntrupp], [NtruppFacts]: crypto/ntrupp.cpp and the generation of SIDH
      keys, an implementation of part of the interface that [Crypto] uses.
    - [Datastore], [DatastoreFacts]: datastore.cpp and text_ui.cpp, the files of
      the user, over a file system that is a parameter.
    - [Keystore], [KeystoreFacts]: key collections as files, generate_crypto.cpp,
      the key actions of tunserver.cpp, and the start of the program in
      the_program_tunserver.cpp.
    - [Config], [ConfigFacts]: c_json_genconf.cpp, c_json_load.cpp (the
      configuration files) and mo_reader.cpp (translations).

    The node:
    - [Peering], [PeeringFacts]: haship, c_ip46_addr, protocol,
      httpdbg/peering_stats and c_peering: addresses, commands, counters, a
      peer and the datagrams it is sent.
    - [Routing], [RoutingFacts]: c_routing_manager of tunserver.cpp, against the
      class [GalaxyNode], the interface c_galaxy_node of the source.
    - [Peerref]: peers written as text (galaxy42_utils.cpp, galaxysrv_peers.cpp).
    - [Tunserver]: the state of c_tunserver and its operations on peers, black
      list, tunnels and identity; it implements [GalaxyNode].  Adding and
      deleting a peer by its text lock m_peer_etc_mutex several times and are
      [sections].
    - [Tunpackets]: what c_tunserver::event_loop does with one event: a packet
      of the TUN device, a datagram, or the ping of all peers.
    - [Devices], [DevicesFacts]: the Linux TUN device (c_tun_device.cpp), the
      UDP socket (c_udp_wrapper.cpp), waiting for both (c_event_manager.cpp),
      packets with their addresses apart (tuntap/linux/c_tuntap_linux_obj.cpp).
    - [Loop], [LoopFacts]: c_tunserver::prepare_socket, the loop of event_loop
      turn by turn (timer, select, reads, handlers, restart of the device) and
      c_tunserver::run.
    - [Caps], [CapsFacts]: utils/capmodpp, changes of Linux capabilities;
      [Privileges], [PrivilegesFacts]: utils/privileges.cpp.
    - [Ndp], [NdpFacts]: c_ndp and ipv6.cpp, the answers to neighbour
      solicitations of the Windows device.
    - [Toy]: concrete parameters and nodes, at which properties are
      instantiated and evaluated.
    - [TunpacketsFacts], [NodeFacts], [ForwardFacts], [AuthFacts], [FindFacts],
      [DeliverFacts], [HiFacts], [MeetFacts], [EndtoendFacts]: the theorems
      about the node.

    The start, and the new loop:
    - [Cables], [CablesFacts]: cable/, addresses, selectors, the UDP cable, the
      group of cards and the services they run on.
    - [Newloop]: galaxysrv.cpp, galaxysrv_peers.cpp, the_program_newloop.cpp,
      the server of the new loop, its peers, its start and its self-test.
    - [Program], [ProgramFacts]: g42-main.cpp, the_program.cpp, utils/misc.hpp:
      what main does around either program.

    Remote control:
    - [Rpcserver], [RpcserverFacts]: rpc/rpc.cpp, the server with its sessions,
      as a machine driven by completions of asynchronous operations.
    - [Guiclient], [GuiclientFacts]: src-gui/dataeater and netclient.
    - [Tunrpc]: the remote commands as operations of the node, each a sequence
      of locked sections, and histories of events and commands, with events
      between the sections of a command; [Tunjson], [TunjsonFacts]: the same
      commands as functions on JSON text, registered with the server.
    - [Guiorders], [GuiordersFacts]: the orders of the interface: the requests
      it writes and what it does with replies.
    - [Peerlist], [PeerlistFacts]: src-gui/meshpeer, peersmodel, addressmodel
      and the actions of the user on the list of peers.

    The layers are composed as in the code: the loop waits with [Devices] and
    hands events to [Tunpackets]; the node parses datagrams with [Serialize],
    loads keys with [Multikeys], opens tunnels with [Crypto], finds routes with
    [Routing], which calls back into the node through [GalaxyNode], and sends
    through [Peering]; the interface's orders pass [Guiclient] and [Rpcserver]
    to [Tunjson].

    ** What the theorems show

    - Wire format: no reader leaves its buffer on any input (but the one that
      fills a block of the caller writes past a block of exactly the size asked
      for); integers, variable-length integers, strings, vectors and maps round-trip; which
      inputs throw and which abort the process.
    - Memory: a checked copy between containers writes exactly the given range
      or throws, unless an offset lies beyond the end; a weld hands out its own
      memory only.
    - Keys: saved collections load back; signing then verifying; verification
      accepts exactly complete sets of valid signatures; how the fingerprint
      and its cache behave; no start of the program overwrites a file without
      consent, and what the first start makes.
    - Tunnels: the two sides agree on the key for every number of X25519, NTRU
      and SIDH keys; the whole opening of a tunnel succeeds and each side then
      reads the other; messages unbox in any order; what happens when no crypto
      system is shared; the wrappers of NTRU and SIDH keep the laws that the
      key exchange relies on.
    - Threads: no interleaving of the operations of a shared container races or
      stops; configuration: a written catalogue of translations is read back.
    - Routing: knowledge only grows, every branch of the search, the router's
      recursion ends.
    - Node: after any history, peers stay filed under the address their key
      hashes to, and on the black list only if events of the main loop fell
      between the two sections of a ban; a banned peer stays out; a stranger can do nothing but a signed "hi", and a "hi" changes only its
      signer's entries; two configured nodes meet; forwarding is not amplified
      and is bounded in hops; only authenticated packets reach the TUN device;
      findhip messages and references round-trip; a packet of TCP, UDP or ICMPv6
      sent into a tunnel arrives unchanged over any chain of forwarding nodes;
      and two strangers that hear each other's "hi" deliver each other's packets.
    - Main loop: each turn does exactly the events that are due and ready, in
      their order, and no exception leaves it; pings are on time by the clock
      of each turn's start; the process has no privileges left when
      the loop starts, and what each change of capabilities does.
    - Remote control: a sender without the key gets nothing done, commands are
      answered in order, what each command does and answers, and how a command
      goes from the client to the server and back; the interface does not
      survive the node's answer to its greeting; the list of peers that is shown
      refines a map, with distinct addresses.
    - Cables: there is one card for each address.  New loop: what holds of the
      server, its peers and the privileges when its start ends.

    [TunpacketsFacts.packet_closed] lists the elementary changes that packets
    make to a node: an invariant is shown for these and then holds for the
    main loop ([preserves_loop]); [ends_in] of [Sections] does the same for
    commands that are interrupted.  [pushes] and [pops] of [SerializeFacts] are
    the specifications of writers and readers that compose; [acts] of
    [LoopFacts] is the relation between the loop and the list of its events.

    ** Parameters, fuel, bounds

    Code outside the repository is a parameter, a class of operations with its
    documented behaviour as a second class: [CryptoLib] with [CryptoLaws],
    [BoxLaws], [FreshLaws] and [SequenceLaws] (libsodium, sodiumpp boxers, NTRU,
    SIDH, their randomness), and under it [NtruLib] with [NtruLaws], [PassLib]
    with [PassLaws], [SidhLib] with [SidhLaws];
    [NetLib] with [WireLaws] and [HexdotLaw] (address parsers and printers of
    boost::asio and libc); [JsonLib] with [JsonLaws] and
    [JsonTree] (nlohmann::json); [EndpointLib] with [EndpointLaws]
    (endpoints of boost::asio);
    [CapNg] with [CapNgLaws] and [OsUser] (libcap-ng, users); [FsLib] with
    [FsLaws] and [PathLaws] (boost::filesystem, the C files, the console).  The
    authenticators of the remote control are arguments of its definitions, and
    so is what the operating system answers to the calls of [Devices],
    [Loop], [Cables] and [Newloop], and what Qt and the user answer in
    [Peerlist].  [CryptoFacts.toy_lib], [Toy.toy_net], [Json.toy_json_lib] and
    others instantiate them.

    Loops that are not structural take fuel: the counted reads of [Serialize]
    take the octets left plus one (each element reads at least one),
    [parse_cables] the length of its text, [route_detail] 2 (the code's bound on
    recurse_level), [save_with] 2 (at most one retry, with consent), [fold16]
    of the checksum 6 (a sum of 64 bits), [erase_loop] the number of arguments
    plus one; theorems show that the fuel is never used up.  Machine integers are [Z] with their wrap-around
    written out.

    ** Not modelled

    The drivers of Windows, macOS and FreeBSD (they are not part of the Linux
    build); boost::asio itself, and with it the asynchronous operations of
    cables and shared memory; the declaration of program options by
    boost::program_options; xint.hpp, aliases of boost's integers; logging,
    status output and the debug web page; the windows of the graphical
    interface; newloop.cpp, demonstrations of the error macros that the source
    marks as deprecated; the simulations under src-tools.  The main loop of the new loop
    (c_galaxysrv::main_loop) is compiled out of the source.  An event of
    the main loop is handled as one step, since none changes the peers or the
    black list in more than one section of m_peer_etc_mutex; remote commands,
    which run on another thread, are interleaved with the events section by
    section.  References to peers that the main loop keeps after it released
    the mutex are not modelled: their use while a command erases the peer is a
    data race.  Between the sections of a command, the remote control server
    itself handles no other event: it has one thread. *)
From Stdlib Require Export ZArith Lia Bool.
From Stdlib Require Import Ascii String.
From Stdlib.Strings Require Import Byte.
From stdpp Require Export base decidable countable numbers list gmap sorting strings.
From stdpp Require Import pretty.

Open Scope Z_scope.

(** ** Exceptions and outcomes of C++ code *)

(** The exception classes the modelled code throws; the text of [what()] is
    dropped, the class is what a handler can distinguish. *)
Inductive exn : Type :=
  | ex_runtime_error | ex_invalid_argument | ex_out_of_range | ex_range_error
  | ex_overflow_error | ex_logic_error | ex_bad_alloc | ex_bad_function_call
  | ex_format_error_read | ex_format_error_read_badformat
  | ex_format_error_read_delimiter | ex_format_error_read_invalid_version
  | ex_format_error_write_value_too_big
  | ex_err_check_prog | ex_err_check_user | ex_err_check_input | ex_err_check_sys | ex_err_check_sys_soft
  | ex_expected_not_found | ex_expected_not_found_missing_pubkey
  | ex_bad_numeric_cast
  | ex_capmodpp_error
  | ex_system_error
  | ex_error_no_match_found | ex_error_not_enough_match_found
  | ex_boost_lexical_cast | ex_crypto_error
  | ex_overwrite_error | ex_filesystem_error | ex_exception_error_exit | ex_bad_any_cast
  | ex_tuntap_error_devtun | ex_tuntap_error_ip | ex_tuntap_error_mtu | ex_length_error | ex_bad_cast | ex_err_check_user_soft | ex_domain_error
  | ex_exception.

#[export] Instance exn_eq_dec : EqDecision exn.
Proof. solve_decision. Defined.

(** Result of running a piece of code: normal return, a thrown exception, the
    process aborted by a failed [assert] (asserts are compiled in: the build
    strips NDEBUG), or an operation the language leaves undefined. *)
Inductive outcome (A : Type) : Type :=
  | Ret (a : A)
  | Throw (e : exn)
  | Abort_
  | Undef.
Arguments Ret {A} _.
Arguments Throw {A} _.
Arguments Abort_ {A}.
Arguments Undef {A}.

#[export] Instance outcome_eq_dec {A} `{EqDecision A} : EqDecision (outcome A).
Proof. solve_decision. Defined.

Definition outcome_bind {A B} (f : A -> outcome B) (m : outcome A) : outcome B :=
  match m with
  | Ret a => f a
  | Throw e => Throw e
  | Abort_ => Abort_
  | Undef => Undef
  end.
#[export] Instance outcome_mret : MRet outcome := fun A a => Ret a.
#[export] Instance outcome_mbind : MBind outcome := fun A B f m => outcome_bind f m.

Definition oassert (b : bool) : outcome unit := if b then Ret tt else Abort_.
Definition othrow_if (b : bool) (e : exn) : outcome unit := if b then Throw e else Ret tt.

(** ** Code with state: a thrown exception keeps the state reached so far *)

Definition M (St A : Type) : Type := St -> outcome A * St.

Definition mthrow {St A} (e : exn) : M St A := fun s => (Throw e, s).
Definition mabort {St A} : M St A := fun s => (Abort_, s).
Definition mundef {St A} : M St A := fun s => (Undef, s).
Definition mget {St} : M St St := fun s => (Ret s, s).
Definition mput {St} (s' : St) : M St unit := fun _ => (Ret tt, s').
Definition mmodify {St} (f : St -> St) : M St unit := fun s => (Ret tt, f s).
Definition mlift {St A} (o : outcome A) : M St A := fun s => (o, s).

#[export] Instance M_mret {St} : MRet (M St) := fun A a s => (Ret a, s).
#[export] Instance M_mbind {St} : MBind (M St) := fun A B f m s =>
  match m s with
  | (Ret a, s') => f a s'
  | (Throw e, s') => (Throw e, s')
  | (Abort_, s') => (Abort_, s')
  | (Undef, s') => (Undef, s')
  end.

Definition massert {St} (b : bool) : M St unit := mlift (oassert b).
Definition mthrow_if {St} (b : bool) (e : exn) : M St unit := mlift (othrow_if b e).

(** [try { m } catch(e) { h e }] *)
Definition mcatch {St A} (m : M St A) (h : exn -> M St A) : M St A := fun s =>
  match m s with
  | (Throw e, s') => h e s'
  | r => r
  end.

(** A state function as a computation of the monad. *)
Definition mrun {St A} (f : St -> outcome A * St) : M St A := f.

Definition when {St} (b : bool) (m : M St unit) : M St unit := if b then m else mret tt.

Fixpoint mfor {St A} (l : list A) (body : A -> M St unit) : M St unit :=
  match l with
  | [] => mret tt
  | x :: l' => body x;; mfor l' body
  end.

Lemma M_bind_ret {St A B} (m : M St A) (f : A -> M St B) s a s' :
  m s = (Ret a, s') -> (m ≫= f) s = f a s'.
Proof. by unfold mbind, M_mbind; intros ->. Qed.

Lemma M_bind_throw {St A B} (m : M St A) (f : A -> M St B) s e s' :
  m s = (Throw e, s') -> (m ≫= f) s = (Throw e, s').
Proof. by unfold mbind, M_mbind; intros ->. Qed.

Lemma M_bind_ext {St A B} (m : M St A) (f g : A -> M St B) s :
  (forall a s', f a s' = g a s') -> (m ≫= f) s = (m ≫= g) s.
Proof. intros H. unfold mbind, M_mbind. destruct (m s) as [[a|e| |] s']; auto. Qed.

Lemma M_bind_inv {St A B} (m : M St A) (f : A -> M St B) s b s' :
  (m ≫= f) s = (Ret b, s') -> exists a s1, m s = (Ret a, s1) /\ f a s1 = (Ret b, s').
Proof.
  unfold mbind, M_mbind. destruct (m s) as [[a|e| |] s1]; intros H; try discriminate; eauto.
Qed.

(** Rewriting with what a first step does. *)
Lemma bind_lift {St A B} (a : A) (f : A -> M St B) s : (mlift (Ret a) ≫= f) s = f a s.
Proof. done. Qed.
Lemma bind_throw {St A B} e (f : A -> M St B) s : (mlift (Throw e) ≫= f) s = (Throw e, s).
Proof. done. Qed.
Lemma bind_abort {St A B} (f : A -> M St B) s : (mlift Abort_ ≫= f) s = (Abort_, s).
Proof. done. Qed.
Lemma bind_undef {St A B} (f : A -> M St B) s : (mlift Undef ≫= f) s = (Undef, s).
Proof. done. Qed.
Lemma bind_mthrow {St A B} e (f : A -> M St B) s : (mthrow e ≫= f) s = (Throw e, s).
Proof. done. Qed.
Lemma bind_eq {St A B} (m : M St A) (f : A -> M St B) s :
  (m ≫= f) s = match m s with (Ret a, s') => f a s' | (Throw e, s') => (Throw e, s') | (Abort_, s') => (Abort_, s') | (Undef, s') => (Undef, s') end.
Proof. unfold mbind, M_mbind. by destruct (m s) as [[a|e| |] s']. Qed.
Create HintDb binds discriminated.
#[export] Hint Rewrite @bind_lift @bind_throw @bind_abort @bind_undef @bind_mthrow : binds.

(** A result known by its first component, for results found by evaluation. *)
Lemma ret_pair {A B} (x : outcome A * B) a : x.1 = Ret a -> x = (Ret a, x.2).
Proof. destruct x as [o b]. cbn. by intros ->. Qed.

(** Hoare triples over every outcome: [P] before, [Q] after, whatever happens. *)
Definition preserves {St A} (P : St -> Prop) (m : M St A) : Prop :=
  forall s, P s -> P (m s).2.

Lemma preserves_bind {St A B} (P : St -> Prop) (m : M St A) (f : A -> M St B) :
  preserves P m -> (forall a, preserves P (f a)) -> preserves P (m ≫= f).
Proof.
  intros Hm Hf s Hs. unfold mbind, M_mbind. specialize (Hm s Hs).
  destruct (m s) as [[a|e| |] s1]; cbn in *; auto. by apply Hf.
Qed.

Lemma preserves_ret {St A} (P : St -> Prop) (a : A) : preserves P (mret a : M St A).
Proof. by intros s Hs. Qed.

Lemma preserves_lift {St A} (P : St -> Prop) (o : outcome A) : preserves P (mlift o : M St A).
Proof. by intros s Hs. Qed.

Lemma preserves_throw {St A} (P : St -> Prop) e : preserves P (mthrow e : M St A).
Proof. by intros s Hs. Qed.

Lemma preserves_mfor {St A} (P : St -> Prop) (l : list A) body :
  (forall x, preserves P (body x)) -> preserves P (mfor l body).
Proof.
  intros Hb. induction l; simpl; [apply preserves_ret|].
  apply preserves_bind; auto.
Qed.

Lemma preserves_catch {St A} (P : St -> Prop) (m : M St A) h :
  preserves P m -> (forall e, preserves P (h e)) -> preserves P (mcatch m h).
Proof.
  intros Hm Hh s Hs. unfold mcatch. specialize (Hm s Hs).
  destruct (m s) as [[a|e| |] s1]; cbn in *; auto. by apply Hh.
Qed.

Lemma preserves_when {St} (P : St -> Prop) b (m : M St unit) :
  preserves P m -> preserves P (when b m).
Proof. destruct b; simpl; auto using preserves_ret. Qed.

(** The same of the runs that go on: those that return or throw. *)
Definition settles {St A} (P : St -> Prop) (m : M St A) : Prop :=
  forall s, P s -> match (m s).1 with Ret _ | Throw _ => P (m s).2 | _ => True end.

Lemma settles_preserves {St A} (P : St -> Prop) (m : M St A) : preserves P m -> settles P m.
Proof. intros Hm s Hs. specialize (Hm s Hs). by destruct (m s) as [[a|e| |] s1]. Qed.

Lemma settles_bind {St A B} (P : St -> Prop) (m : M St A) (f : A -> M St B) :
  settles P m -> (forall a, settles P (f a)) -> settles P (m ≫= f).
Proof.
  intros Hm Hf s Hs. unfold mbind, M_mbind. specialize (Hm s Hs).
  destruct (m s) as [[a|e| |] s1]; cbn in *; try done. by apply Hf.
Qed.

Lemma settles_catch {St A} (P : St -> Prop) (m : M St A) h :
  settles P m -> (forall e, settles P (h e)) -> settles P (mcatch m h).
Proof.
  intros Hm Hh s Hs. unfold mcatch. specialize (Hm s Hs).
  destruct (m s) as [[a|e| |] s1]; cbn in *; try done. by apply Hh.
Qed.

Create HintDb preserves discriminated.
#[export] Hint Resolve preserves_bind preserves_ret preserves_lift preserves_throw
  preserves_mfor preserves_catch preserves_when : preserves.

(** Triples that also exclude undefined behaviour: from [P], [m] returns with
    [Q], throws with [E], or aborts. *)
Definition hoare {St A} (P : St -> Prop) (m : M St A) (Q : A -> St -> Prop) (E : exn -> St -> Prop) : Prop :=
  forall s, P s -> match m s with
    | (Ret a, s') => Q a s' | (Throw e, s') => E e s' | (Abort_, _) => True | (Undef, _) => False end.

Lemma hoare_bind {St A B} P (m : M St A) (f : A -> M St B) R Q E :
  hoare P m R E -> (forall a, hoare (R a) (f a) Q E) -> hoare P (m ≫= f) Q E.
Proof.
  intros Hm Hf s Hs. unfold mbind, M_mbind. specialize (Hm s Hs).
  destruct (m s) as [[a|e| |] s1]; try done. by apply Hf.
Qed.

Lemma hoare_catch {St A} P (m : M St A) h Q E E' :
  hoare P m Q E' -> (forall e, hoare (E' e) (h e) Q E) -> hoare P (mcatch m h) Q E.
Proof.
  intros Hm Hh s Hs. unfold mcatch. specialize (Hm s Hs).
  destruct (m s) as [[a|e| |] s1]; try done. by apply Hh.
Qed.

Lemma hoare_ret {St A} (a : A) (Q : A -> St -> Prop) E : hoare (Q a) (mret a) Q E.
Proof. by intros s Hs. Qed.

Lemma hoare_throw {St A} e (Q : A -> St -> Prop) (E : exn -> St -> Prop) : hoare (E e) (mthrow e) Q E.
Proof. by intros s Hs. Qed.

Lemma hoare_get {St} P (E : exn -> St -> Prop) : hoare P mget (fun a s => P s /\ a = s) E.
Proof. by intros s Hs. Qed.

Lemma hoare_lift {St A} (P : St -> Prop) (o : outcome A) : o <> Undef ->
  hoare P (mlift o) (fun a s => P s /\ o = Ret a) (fun _ => P).
Proof. intros Ho s Hs. by destruct o. Qed.

Lemma hoare_pre {St A} (P P' : St -> Prop) (m : M St A) Q E : hoare P' m Q E -> (forall s, P s -> P' s) -> hoare P m Q E.
Proof. intros Hm HP s Hs. by apply Hm, HP. Qed.

Lemma hoare_post {St A} P (m : M St A) Q Q' (E E' : exn -> St -> Prop) : hoare P m Q E ->
  (forall a s, Q a s -> Q' a s) -> (forall e s, E e s -> E' e s) -> hoare P m Q' E'.
Proof. intros Hm HQ HE s Hs. specialize (Hm s Hs). destruct (m s) as [[a|e| |] s1]; auto. Qed.

(** ** Octets: std::string is a sequence of octets *)

Notation bytes := (list Byte.byte).

Definition byte_val (b : Byte.byte) : Z := Z.of_N (Byte.to_N b).
Definition byte_of_Z (z : Z) : Byte.byte :=
  match Byte.of_N (Z.to_N (z mod 256)) with Some b => b | None => Byte.x00 end.

(** A C string literal. *)
Definition str (s : string) : bytes := list_byte_of_string s.
Arguments str _%_string_scope.

Definition zlen {A} (l : list A) : Z := Z.of_nat (length l).

(** [ostream << n] *)
Definition dec (n : Z) : bytes := list_byte_of_string (pretty n).

#[export] Instance byte_eq_dec : EqDecision Byte.byte := Byte.byte_eq_dec.

#[export] Program Instance byte_countable : Countable Byte.byte :=
  inj_countable Byte.to_N Byte.of_N _.
Next Obligation. intros b. apply Byte.of_to_N. Qed.

Lemma byte_val_range b : 0 <= byte_val b < 256.
Proof. unfold byte_val. pose proof (Byte.to_N_bounded b). lia. Qed.

Lemma byte_of_Z_val b : byte_of_Z (byte_val b) = b.
Proof.
  unfold byte_of_Z. rewrite Z.mod_small by apply byte_val_range.
  unfold byte_val. by rewrite N2Z.id, Byte.of_to_N.
Qed.

Lemma byte_val_of_Z z : byte_val (byte_of_Z z) = z mod 256.
Proof.
  unfold byte_of_Z, byte_val. pose proof (Z.mod_pos_bound z 256 ltac:(lia)).
  destruct (Byte.of_N _) as [b|] eqn:E.
  - apply Byte.to_of_N in E. rewrite E. lia.
  - apply Byte.of_N_None_iff in E. lia.
Qed.

Lemma byte_val_inj a b : byte_val a = byte_val b -> a = b.
Proof. intros H. by rewrite <- (byte_of_Z_val a), H, byte_of_Z_val. Qed.

(** Order of std::string: octets compared as unsigned, a proper prefix first. *)
Fixpoint string_leb (a b : bytes) : bool :=
  match a, b with
  | [], _ => true
  | _ :: _, [] => false
  | x :: a', y :: b' =>
      if byte_val x <? byte_val y then true else if byte_val y <? byte_val x then false else string_leb a' b'
  end.
Definition string_le (a b : bytes) : Prop := string_leb a b = true.
#[export] Instance string_le_dec : RelDecision string_le := fun a b => decide (string_leb a b = true).

Create HintDb octets discriminated.
#[export] Hint Resolve byte_val_range : octets.
#[export] Hint Rewrite @byte_val_of_Z @byte_of_Z_val : octets.

(** ** Lists *)

Lemma zlen_nonneg {A} (l : list A) : 0 <= zlen l.
Proof. unfold zlen; lia. Qed.

Lemma zlen_app {A} (l k : list A) : zlen (l ++ k) = zlen l + zlen k.
Proof. unfold zlen. rewrite length_app. lia. Qed.

Lemma zlen_cons {A} (x : A) l : zlen (x :: l) = 1 + zlen l.
Proof. unfold zlen. simpl. lia. Qed.

Lemma zlen_nil {A} : zlen (@nil A) = 0.
Proof. done. Qed.

Lemma zlen_0_nil {A} (l : list A) : zlen l = 0 -> l = [].
Proof. unfold zlen. destruct l; simpl; [done|lia]. Qed.

Lemma zlen_pos {A} (l : list A) : l <> [] -> 0 < zlen l.
Proof. unfold zlen. destruct l; simpl; [done|lia]. Qed.

#[export] Hint Rewrite @zlen_app @zlen_cons @zlen_nil : sizes.

(** [sub l from n]: the octets [from .. from+n) of a buffer. *)
Definition sub {A} (l : list A) (from n : Z) : list A :=
  take (Z.to_nat n) (drop (Z.to_nat from) l).

Lemma sub_app_exact {A} (p q r : list A) : sub (p ++ q ++ r) (zlen p) (zlen q) = q.
Proof.
  unfold sub, zlen. rewrite !Nat2Z.id, drop_app_length, take_app_length. done.
Qed.

Lemma zlen_sub {A} (l : list A) from n :
  0 <= from -> 0 <= n -> from + n <= zlen l -> zlen (sub l from n) = n.
Proof.
  unfold sub, zlen. intros. rewrite length_take, length_drop. lia.
Qed.

(** ** Machine integers *)

Definition wrap (w z : Z) : Z := z mod 2 ^ w.
Definition u64 (z : Z) : Z := wrap 64 z.

Lemma u64_small z : 0 <= z < 2 ^ 64 -> u64 z = z.
Proof. unfold u64, wrap. apply Z.mod_small. Qed.

Lemma wrap_wrap w z : 0 <= w -> wrap w (wrap w z) = wrap w z.
Proof. intros. unfold wrap. rewrite Z.mod_mod; [done|]. pose proof (Z.pow_pos_nonneg 2 w). lia. Qed.

Lemma wrap_small w z : 0 <= z < 2 ^ w -> wrap w z = z.
Proof. apply Z.mod_small. Qed.

(** ** Tactics of the development *)

Ltac case_bool :=
  match goal with
  | |- context [if ?b then _ else _] => destruct b eqn:?
  | H : context [if ?b then _ else _] |- _ => destruct b eqn:?
  end.

(** Unfold the monad down to the state function. *)
Ltac munfold :=
  unfold mthrow_if, massert, when, mbind, M_mbind, mret, M_mret, outcome_mret, outcome_mbind,
    mget, mput, mmodify, mlift, mthrow, mabort, mundef, othrow_if, oassert, outcome_bind in *.

Ltac zbool :=
  repeat match goal with
  | H : (_ <? _) = true |- _ => apply Z.ltb_lt in H
  | H : (_ <? _) = false |- _ => apply Z.ltb_ge in H
  | H : (_ <=? _) = true |- _ => apply Z.leb_le in H
  | H : (_ <=? _) = false |- _ => apply Z.leb_gt in H
  | H : (_ =? _) = true |- _ => apply Z.eqb_eq in H
  | H : (_ =? _) = false |- _ => apply Z.eqb_neq in H
  | H : negb _ = true |- _ => apply negb_true_iff in H
  | H : negb _ = false |- _ => apply negb_false_iff in H
  | H : (_ && _) = true |- _ => apply andb_true_iff in H; destruct H
  | H : (_ || _) = false |- _ => apply orb_false_iff in H; destruct H
  end.

#[global] Arguments Z.ltb : simpl never.
#[global] Arguments Z.leb : simpl never.
#[global] Arguments Z.eqb : simpl never.
#[global] Arguments Z.add : simpl never.
#[global] Arguments Z.sub : simpl never.
#[global] Arguments Z.modulo : simpl never.
#[global] Arguments Z.div : simpl never.
#[global] Arguments Z.pow : simpl never.
#[global] Arguments Z.shiftr : simpl never.
#[global] Arguments Z.shiftl : simpl never.
#[global] Arguments Z.to_nat : simpl never.

(** Run [m] on one component of a larger state. *)
Definition on_fst {S1 S2 A} (m : M S1 A) : M (S1 * S2) A := fun s =>
  let '(o, s1) := m s.1 in (o, (s1, s.2)).
Definition on_snd {S1 S2 A} (m : M S2 A) : M (S1 * S2) A := fun s =>
  let '(o, s2) := m s.2 in (o, (s.1, s2)).

(** [container.at(i)]: the element or std::out_of_range. *)
Definition at_ {A} (l : list A) (i : Z) : outcome A :=
  if (0 <=? i) then match l !! Z.to_nat i with Some x => Ret x | None => Throw ex_out_of_range end
  else Throw ex_out_of_range.

(** Loops [for (x : l) body] of code without state. *)
Fixpoint ofold {A B} (f : A -> B -> outcome A) (acc : A) (l : list B) : outcome A :=
  match l with
  | [] => Ret acc
  | x :: l' => acc' ← f acc x; ofold f acc' l'
  end.

Lemma outcome_bind_inv {A B} (m : outcome A) (f : A -> outcome B) b :
  (m ≫= f) = Ret b -> exists a, m = Ret a /\ f a = Ret b.
Proof. destruct m; intros H; try discriminate. eauto. Qed.

Fixpoint omap_list {A B} (f : A -> outcome B) (l : list A) : outcome (list B) :=
  match l with
  | [] => Ret []
  | x :: l' => y ← f x; ys ← omap_list f l'; Ret (y :: ys)
  end.

Lemma omap_list_app {A B} (f : A -> outcome B) l k :
  omap_list f (l ++ k) = (x ← omap_list f l; y ← omap_list f k; Ret (x ++ y)).
Proof.
  induction l as [|a l IH]; simpl.
  - by destruct (omap_list f k).
  - unfold mbind, outcome_mbind in *. destruct (f a); simpl; try done. rewrite IH.
    destruct (omap_list f l); simpl; try done. by destruct (omap_list f k).
Qed.
