(* ===== verification/Sections.v ===== *)
(** * Code that holds a mutex part of the time

    An operation that takes a mutex several times is a sequence of sections:
    what it does while it holds the mutex is one step, and between two steps
    other threads may run.  [sections S A] is such an operation on a shared
    state [S]: a resumption, whose next section is a computation of the monad
    [M] and whose continuation gets the outcome of that section, an exception
    included.

    [uninterrupted] runs the sections one after the other; [interrupted] runs
    what the other thread does before each of them.  The state of the other
    thread is the first part of the whole state. *)
From S2P Require Import Prelude.

Inductive sections (S A : Type) : Type :=
  | s_done (o : outcome A)
  | s_section (X : Type) (m : M S X) (k : outcome X -> sections S A).
Arguments s_done {_ _} _.
Arguments s_section {_ _} _ _ _.

(** One section. *)
Definition section {S A} (m : M S A) : sections S A := s_section A m s_done.
(** Code outside of the mutex that does not touch the shared state. *)
Definition s_lift {S A} (o : outcome A) : sections S A := s_done o.

#[export] Instance sections_mret {S} : MRet (sections S) := fun A a => s_done (Ret a).
#[export] Instance sections_mbind {S} : MBind (sections S) := fun A B f =>
  fix bind (p : sections S A) : sections S B :=
    match p with
    | s_done (Ret a) => f a
    | s_done (Throw e) => s_done (Throw e)
    | s_done Abort_ => s_done Abort_
    | s_done Undef => s_done Undef
    | s_section X m k => s_section X m (fun o => bind (k o))
    end.

(** [try { p } catch (e) { h e }] *)
Fixpoint s_catch {S A} (p : sections S A) (h : exn -> sections S A) : sections S A :=
  match p with
  | s_done (Throw e) => h e
  | s_done o => s_done o
  | s_section X m k => s_section X m (fun o => s_catch (k o) h)
  end.

Fixpoint uninterrupted {S A} (p : sections S A) : M S A :=
  match p with
  | s_done o => mlift o
  | s_section X m k => fun s => let '(o, s') := m s in uninterrupted (k o) s'
  end.

(** [others]: what the other thread does before each section. *)
Fixpoint interrupted {R S A} (others : list (M (R * S) unit)) (p : sections S A) : M (R * S) A :=
  match p with
  | s_done o => mlift o
  | s_section X m k =>
      _ ← default (mret tt) (head others);
      mrun (fun s => let '(o, s') := on_snd m s in interrupted (tail others) (k o) s')
  end.

(** ** Uninterrupted runs are computations of the monad *)
Section Uninterrupted.
Context {S : Type}.

Lemma uninterrupted_section {A} (m : M S A) s : uninterrupted (section m) s = m s.
Proof. cbn. by destruct (m s). Qed.

Lemma uninterrupted_lift {A} (o : outcome A) (s : S) : uninterrupted (s_lift o) s = (o, s).
Proof. done. Qed.

Lemma s_lift_bind {A B} (a : A) (f : A -> sections S B) : (s_lift (Ret a) ≫= f) = f a.
Proof. done. Qed.

Lemma uninterrupted_ret {A} (a : A) (s : S) : uninterrupted (mret a) s = (Ret a, s).
Proof. done. Qed.

Lemma uninterrupted_bind {A B} (p : sections S A) (f : A -> sections S B) : forall s,
  uninterrupted (p ≫= f) s = (uninterrupted p ≫= (fun a => uninterrupted (f a))) s.
Proof.
  induction p as [[a|e| |]|X m k IH]; intros s; [done..|]. unfold mbind at 1. cbn. rewrite bind_eq. cbn.
  destruct (m s) as [o s']. rewrite <- bind_eq. apply IH.
Qed.

Lemma uninterrupted_catch {A} (p : sections S A) h : forall s,
  uninterrupted (s_catch p h) s = mcatch (uninterrupted p) (fun e => uninterrupted (h e)) s.
Proof.
  induction p as [[a|e| |]|X m k IH]; intros s; [done..|]. unfold mcatch. cbn. destruct (m s) as [o s']. apply IH.
Qed.

Lemma interrupted_never {R A} (p : sections S A) : forall (r : R) s,
  interrupted [] p (r, s) = (let '(o, s') := uninterrupted p s in (o, (r, s'))).
Proof.
  induction p as [o|X m k IH]; intros r s; [done|]. cbn [interrupted head tail default]. rewrite bind_eq. cbn -[interrupted]. unfold mrun, on_snd. cbn -[interrupted].
  destruct (m s) as [o s']. apply IH.
Qed.
End Uninterrupted.

Create HintDb sections discriminated.
#[export] Hint Rewrite @uninterrupted_bind @uninterrupted_section @uninterrupted_catch @uninterrupted_lift @uninterrupted_ret : sections.

(** ** Invariants

    A property that every section keeps, and that the other thread keeps,
    holds after the operation. *)
Section Invariants.
Context {S : Type} (P : S -> Prop).

Fixpoint upholds {A} (p : sections S A) : Prop :=
  match p with
  | s_done _ => True
  | s_section X m k => preserves P m /\ forall o, upholds (k o)
  end.

Lemma upholds_section {A} (m : M S A) : preserves P m -> upholds (section m).
Proof. by intros Hm. Qed.

Lemma upholds_lift {A} (o : outcome A) : upholds (s_lift o).
Proof. done. Qed.

Lemma upholds_ret {A} (a : A) : upholds (mret a).
Proof. done. Qed.

Lemma upholds_bind {A B} (p : sections S A) (f : A -> sections S B) : upholds p -> (forall a, upholds (f a)) -> upholds (p ≫= f).
Proof.
  intros Hp Hf. induction p as [[a|e| |]|X m k IH]; [apply Hf|done..|]. destruct Hp as [Hm Hk]. split; [done|].
  intros o. by apply IH.
Qed.

Lemma upholds_catch {A} (p : sections S A) h : upholds p -> (forall e, upholds (h e)) -> upholds (s_catch p h).
Proof.
  intros Hp Hh. induction p as [[a|e| |]|X m k IH]; [done|apply Hh|done..|]. destruct Hp as [Hm Hk]. split; [done|].
  intros o. by apply IH.
Qed.

Lemma interrupted_keeps {R A} (p : sections S A) : upholds p -> forall others : list (M (R * S) unit),
  Forall (preserves (fun s => P s.2)) others -> preserves (fun s => P s.2) (interrupted others p).
Proof.
  induction p as [o|X m k IH]; intros Hp others Ho; [by intros s Hs|]. destruct Hp as [Hm Hk]. cbn [interrupted].
  apply preserves_bind.
  - destruct Ho; [by intros s Hs|done].
  - intros _ [r s] Hs. unfold mrun, on_snd. cbn [fst snd] in *. specialize (Hm s Hs). destruct (m s) as [o s']. cbn [fst snd] in *.
    apply IH; [done| |done]. by destruct Ho.
Qed.
End Invariants.

(** ** Runs that end

    [ends_in Q x]: a run that returned or threw left the shared state in [Q];
    an abort of the program, by either thread, leaves nothing. *)
Definition ends_in {R S A} (Q : S -> Prop) (x : outcome A * (R * S)) : Prop :=
  match x.1 with Ret _ | Throw _ => Q x.2.2 | _ => True end.

(** The other thread keeps [P] and lets nothing escape. *)
Definition quietly {R S} (P : S -> Prop) (m : M (R * S) unit) : Prop := forall w, P w.2 ->
  match m w with (Ret _, w') => P w'.2 | (Throw _, _) => False | _ => True end.

Lemma quietly_ret {R S} (P : S -> Prop) : quietly P (mret tt : M (R * S) unit).
Proof. by intros w Hw. Qed.

(** One section: [P] until it starts, then what it leaves. *)
Lemma ends_section {R S A X} (P Q : S -> Prop) others (m : M S X) (k : outcome X -> sections S A) (w : R * S) :
  quietly P (default (mret tt) (head others)) -> P w.2 ->
  (forall r s o s', P s -> m s = (o, s') -> ends_in Q (interrupted (tail others) (k o) (r, s'))) ->
  ends_in Q (interrupted others (s_section X m k) w).
Proof.
  intros Hq Hw Hk. cbn [interrupted]. rewrite bind_eq. specialize (Hq w Hw).
  destruct (default (mret tt) (head others) w) as [[[]|e| |] [r s]]; [|done..].
  unfold mrun, on_snd. cbn [fst snd] in *. destruct (m s) as [o s'] eqn:E. exact (Hk r s o s' Hq E).
Qed.

(** What is done with the result afterwards does not matter. *)
Lemma ends_then {R S A B} (Q : S -> Prop) (p : sections S A) (g : A -> outcome B) : forall others (w : R * S),
  ends_in Q (interrupted others p w) -> ends_in Q (interrupted others (p ≫= (fun a => s_lift (g a))) w).
Proof.
  induction p as [[a|e| |]|X m k IH]; intros others w Hp; try done.
  - unfold ends_in in *. cbn in *. by destruct (g a).
  - unfold mbind. cbn [sections_mbind interrupted] in *. revert Hp. rewrite !bind_eq.
    destruct (default (mret tt) (head others) w) as [[[]|e| |] w']; try done. unfold mrun.
    destruct (on_snd m w') as [o w'']. apply IH.
Qed.

Lemma ends_catch {R S A} (Q : S -> Prop) (p : sections S A) (h : exn -> outcome A) : forall others (w : R * S),
  ends_in Q (interrupted others p w) -> ends_in Q (interrupted others (s_catch p (fun e => s_lift (h e))) w).
Proof.
  induction p as [[a|e| |]|X m k IH]; intros others w Hp; try done.
  - unfold ends_in in *. cbn in *. by destruct (h e).
  - cbn [s_catch interrupted] in *. revert Hp. rewrite !bind_eq.
    destruct (default (mret tt) (head others) w) as [[[]|e| |] w']; try done. unfold mrun.
    destruct (on_snd m w') as [o w'']. apply IH.
Qed.

#[export] Hint Resolve upholds_section upholds_lift upholds_ret upholds_bind upholds_catch : preserves.
