(* ===== verification/Json.v ===== *)
(** * JSON values (nlohmann::json)

    The JSON library is not part of the repository: the class [JsonLib] has the
    operations the program uses, on an abstract type of values, and [JsonLaws]
    its documented behaviour.  [toy_json_lib] at the end is a concrete
    instance. *)
From stdpp Require Import countable.
From S2P Require Import Prelude.

Class JsonLib := {
  json : Type;
  json_null : json;
  json_of_string : bytes -> json;
  json_of_strings : list bytes -> json;
  json_of_number : Z -> json;
  (** [json::parse(text)]: throws std::invalid_argument. *)
  json_parse : bytes -> outcome json;
  (** [j.dump()] *)
  json_dump : json -> bytes;
  (** [j["k"]] as a value: null if an object has no such member; throws when
      [j] is neither an object nor null. *)
  json_at : json -> bytes -> outcome json;
  (** [j.find("k")], [None] for [j.end()]. *)
  json_find : json -> bytes -> option json;
  (** [j["k"] = v] *)
  json_set : json -> bytes -> json -> outcome json;
  (** [get<std::string>()], [get<std::vector<std::string>>()]; a number before
      its conversion to the C++ type. *)
  json_string : json -> outcome bytes;
  json_strings : json -> outcome (list bytes);
  json_number : json -> outcome Z
}.

Section Build.
Context `{!JsonLib}.

(** A [nlohmann::json] variable to which members are assigned one by one. *)
Definition json_object (members : list (bytes * json)) : outcome json :=
  ofold (fun j kv => json_set j kv.1 kv.2) json_null members.

(** [j["k"].get<std::string>()] *)
Definition json_get_string (j : json) (k : bytes) : outcome bytes := v ← json_at j k; json_string v.
Definition json_get_strings (j : json) (k : bytes) : outcome (list bytes) := v ← json_at j k; json_strings v.
End Build.

(** Documented behaviour: [json_is_object] are null and the objects, which
    take members and keep them, and [json_text] are the values whose text can
    be read back. *)
Class JsonLaws `{!JsonLib} := {
  json_is_object : json -> Prop;
  json_text : json -> Prop;
  json_null_object : json_is_object json_null;
  json_set_object : forall j k v, json_is_object j -> exists j', json_set j k v = Ret j' /\ json_is_object j';
  json_find_null : forall k, json_find json_null k = None;
  json_find_set : forall j k v j', json_set j k v = Ret j' -> json_find j' k = Some v;
  json_find_set_ne : forall j k v j' k', json_set j k v = Ret j' -> k <> k' -> json_find j' k' = json_find j k';
  json_at_find : forall j k v, json_find j k = Some v -> json_at j k = Ret v;
  json_at_missing : forall j k, json_is_object j -> json_find j k = None -> json_at j k = Ret json_null;
  json_string_of : forall s, json_string (json_of_string s) = Ret s;
  json_string_null : exists e, json_string json_null = Throw e;
  json_number_of : forall n, json_number (json_of_number n) = Ret n;
  json_strings_of : forall l, json_strings (json_of_strings l) = Ret l;
  json_strings_of_string : forall s, exists e, json_strings (json_of_string s) = Throw e;
  json_parse_defined : forall s, json_parse s <> Undef;
  json_at_defined : forall j k, json_at j k <> Undef;
  json_set_defined : forall j k v, json_set j k v <> Undef;
  json_string_defined : forall j, json_string j <> Undef;
  json_strings_defined : forall j, json_strings j <> Undef;
  json_number_defined : forall j, json_number j <> Undef;
  json_dump_nonempty : forall j, json_dump j <> [];
  json_parse_dump : forall j, json_text j -> json_parse (json_dump j) = Ret j;
  (** Strings must be UTF-8; ASCII is. *)
  text_ok : bytes -> Prop;
  text_ascii : forall s, forallb (fun c => byte_val c <? 128) s = true -> text_ok s;
  text_app : forall s t, text_ok s -> text_ok t -> text_ok (s ++ t);
  json_text_null : json_text json_null;
  json_text_string : forall s, text_ok s -> json_text (json_of_string s);
  json_text_number : forall n, - 2 ^ 63 <= n < 2 ^ 63 -> json_text (json_of_number n);
  json_text_set : forall j k v j', json_set j k v = Ret j' -> json_text j -> text_ok k -> json_text v -> json_text j'
}.

Section Laws.
Context `{!JsonLib} `{!JsonLaws}.

Lemma json_object_loop members : forall j, json_is_object j ->
  exists j', ofold (fun j kv => json_set j kv.1 kv.2) j members = Ret j' /\ json_is_object j' /\
    (forall k, k ∉ members.*1 -> json_find j' k = json_find j k) /\
    (NoDup members.*1 -> forall k v, (k, v) ∈ members -> json_find j' k = Some v).
Proof.
  induction members as [|[k v] members IH]; intros j Hj.
  { exists j. split_and!; try done. intros _ k v Hin. by apply not_elem_of_nil in Hin. }
  destruct (json_set_object j k v Hj) as (j1 & E1 & Hj1). destruct (IH j1 Hj1) as (j' & E & Hj' & Ho & Hi).
  exists j'. cbn [ofold fst snd]. unfold mbind, outcome_mbind. cbn. rewrite E1. split_and!; [done|done|..].
  - intros k' [Hne Hn]%not_elem_of_cons. rewrite Ho by done. by eapply json_find_set_ne.
  - cbn. intros [Hn Hnd]%NoDup_cons k' v' [[= -> ->]|Hin]%elem_of_cons; [|by apply Hi].
    rewrite Ho by done. by eapply json_find_set.
Qed.

(** Every member of an object that was built is found in it. *)
Lemma json_object_find members : NoDup members.*1 ->
  exists j, json_object members = Ret j /\ json_is_object j /\
    (forall k, k ∉ members.*1 -> json_find j k = None) /\
    (forall k v, (k, v) ∈ members -> json_find j k = Some v).
Proof.
  intros Hnd. destruct (json_object_loop members json_null json_null_object) as (j & E & Hj & Ho & Hi).
  exists j. split_and!; [done|done| |by apply Hi]. intros k Hk. by rewrite Ho, json_find_null.
Qed.

Lemma json_object_text members : Forall (fun kv => text_ok kv.1 /\ json_text kv.2) members ->
  forall j, json_object members = Ret j -> json_text j.
Proof.
  assert (forall j0, json_text j0 -> Forall (fun kv => text_ok kv.1 /\ json_text kv.2) members ->
    forall j, ofold (fun j kv => json_set j kv.1 kv.2) j0 members = Ret j -> json_text j) as Hl.
  { induction members as [|[k v] members IH]; intros j0 Hj0 Hm j E; cbn in E; [by injection E as <-|].
    apply Forall_cons in Hm as [[Hk Hv] Hm]. unfold mbind, outcome_mbind in E.
    destruct (json_set j0 k v) as [j1|e| |] eqn:E1; try done. cbn in E. eapply (IH j1); [by eapply json_text_set|done..]. }
  intros Hm j E. by eapply Hl; [apply json_text_null|..].
Qed.

(** Reading a string member that was written. *)
Lemma json_get_string_find j k s : json_find j k = Some (json_of_string s) -> json_get_string j k = Ret s.
Proof.
  intros E. unfold json_get_string, mbind, outcome_mbind. rewrite (json_at_find _ _ _ E). cbn. apply json_string_of.
Qed.
End Laws.

(** ** A concrete library

    A value is a tree: a string is a leaf, an array a node with number 0, an
    object a node with number 1 whose children are keys and values in turn, a
    number a node with number 2.
    The text of a value is its number in binary. *)
Notation toy_json := (gen_tree bytes).
Notation toy_string s := (GenLeaf s).
Notation toy_array l := (GenNode 0 l).
Notation toy_object l := (GenNode 1 l).
Notation toy_number l := (GenNode 2 l).

Fixpoint positive_text (p : positive) : bytes :=
  match p with xH => [Byte.x31] | xO p => Byte.x30 :: positive_text p | xI p => Byte.x31 :: positive_text p end.

Fixpoint text_positive (s : bytes) : option positive :=
  match s with
  | [] => None
  | [c] => if bool_decide (c = Byte.x31) then Some xH else None
  | c :: s => p ← text_positive s; Some (if bool_decide (c = Byte.x31) then xI p else xO p)
  end.

Lemma positive_text_nonempty p : positive_text p <> [].
Proof. by destruct p. Qed.

Lemma text_positive_text p : text_positive (positive_text p) = Some p.
Proof.
  induction p as [p IH|p IH|]; [..|done]; cbn [positive_text text_positive];
    (destruct (positive_text p) eqn:E; [by destruct (positive_text_nonempty p)|]); by rewrite IH.
Qed.

Fixpoint toy_members (l : list toy_json) (k : bytes) : option toy_json :=
  match l with
  | toy_string k' :: v :: l => if bool_decide (k = k') then Some v else toy_members l k
  | _ => None
  end.

Definition toy_find (j : toy_json) (k : bytes) : option toy_json :=
  match j with toy_object l => toy_members l k | _ => None end.

Definition toy_get_string (j : toy_json) : outcome bytes :=
  match j with toy_string s => Ret s | _ => Throw ex_runtime_error end.

Definition toy_json_lib : JsonLib := {|
  json := toy_json;
  json_null := toy_object [];
  json_of_string s := toy_string s;
  json_of_strings l := toy_array (map (fun s => toy_string s) l);
  json_of_number n := toy_number [toy_string (positive_text (encode n))];
  json_parse s := match text_positive s ≫= decode with Some j => Ret j | None => Throw ex_invalid_argument end;
  json_dump j := positive_text (encode j);
  json_at j k := match j with
    | toy_object _ => Ret (default (toy_object []) (toy_find j k)) | _ => Throw ex_runtime_error end;
  json_find := toy_find;
  json_set j k v := match j with
    | toy_object l => Ret (toy_object (toy_string k :: v :: l)) | _ => Throw ex_runtime_error end;
  json_string := toy_get_string;
  json_strings j := match j with toy_array l => omap_list toy_get_string l | _ => Throw ex_runtime_error end;
  json_number j := match j with
    | toy_number [toy_string s] => match text_positive s ≫= decode with Some n => Ret n | None => Throw ex_runtime_error end
    | _ => Throw ex_runtime_error end
|}.

#[local] Existing Instance toy_json_lib.

Definition toy_json_laws : JsonLaws.
Proof.
  unshelve eapply (@Build_JsonLaws toy_json_lib (fun j : toy_json => exists l, j = toy_object l) (fun _ => True)); [exact (fun _ => True)|..].
  - by exists [].
  - intros j k v [l ->]. eexists. split; [done|]. by eexists.
  - done.
  - intros [s|[|[|n]] l] k v j'; try done. intros [= <-]. cbn. by rewrite bool_decide_eq_true_2.
  - intros [s|[|[|n]] l] k v j' k'; try done. intros [= <-] Hk. cbn. by rewrite bool_decide_eq_false_2.
  - intros [s|[|[|n]] l] k v; try done. intros E. unfold json_at, toy_json_lib. unfold json_find, toy_json_lib in E. by rewrite E.
  - intros j k [l ->]. unfold json_at, json_find, toy_json_lib. by intros ->.
  - done.
  - by eexists.
  - intros n. cbn. rewrite text_positive_text. cbn. by rewrite decode_encode.
  - intros l. cbn. induction l as [|s l IH]; [done|]. cbn. by rewrite IH.
  - intros s. by eexists.
  - intros s. cbn. by destruct (text_positive s ≫= decode).
  - by intros [s|[|[|n]] l] k.
  - by intros [s|[|[|n]] l] k v.
  - by intros [s|n l].
  - intros [s|[|n] l]; try done. cbn. induction l as [|[s|n l0] l IH]; cbn; try done.
    unfold mbind, outcome_mbind, outcome_bind in *. by destruct (omap_list toy_get_string l).
  - intros [s|[|[|[|n]]] [|[s|m l0] [|]]]; try done. cbn. by destruct (text_positive s ≫= decode).
  - intros j. apply positive_text_nonempty.
  - intros j _. cbn. rewrite text_positive_text. cbn. by rewrite decode_encode.
  - done.
  - done.
  - done.
  - done.
  - done.
  - done.
Defined.
