(* ===== verification/Rpcserver.v ===== *)
(** * The remote control server (rpc/rpc.hpp, rpc/rpc.cpp)

    [c_rpc_server] with its sessions, as a machine driven by what boost::asio
    reports: a new connection, the completion of a session's pending operation,
    a connection reset by the other side.  A session is found by its number,
    which stands for its place in [m_session_list].  A session has at most one
    operation pending; its handler starts the next one.

    An RPC function runs on the rest of the program, the type [Env].  The HMAC
    functions of libsodium are parameters.  The reply is sent from two buffers
    of which the second, [hash], is a local array that is gone when
    [send_response] returns: what is found in its place when the data is sent
    is part of the completion event. *)
From S2P Require Import Prelude Json.

Definition crypto_auth_hmacsha512_BYTES : Z := 64.
Definition crypto_auth_hmacsha512_KEYBYTES : Z := 32.

(** The operation of boost::asio a session waits for. *)
Inductive rpc_operation :=
  | op_read_size
  | op_read_data
  | op_read_hmac
  | op_write (hash : bytes).
#[export] Instance rpc_operation_eq_dec : EqDecision rpc_operation.
Proof. solve_decision. Defined.

Record c_session := Session {
  m_received_data : bytes;
  m_write_data : bytes;
  m_data_size : bytes;
  m_hmac_authenticator : bytes;
  m_session_id : Z;
  m_rpc_command_counter : Z;
  s_pending : option rpc_operation;
  s_shutdown_works : bool    (* the connection still exists for [m_socket.shutdown] *)
}.

Definition set_received (d : bytes) (s : c_session) : c_session :=
  Session d (m_write_data s) (m_data_size s) (m_hmac_authenticator s) (m_session_id s) (m_rpc_command_counter s)
    (s_pending s) (s_shutdown_works s).
Definition set_write_data (d : bytes) (s : c_session) : c_session :=
  Session (m_received_data s) d (m_data_size s) (m_hmac_authenticator s) (m_session_id s) (m_rpc_command_counter s)
    (s_pending s) (s_shutdown_works s).
Definition set_data_size (d : bytes) (s : c_session) : c_session :=
  Session (m_received_data s) (m_write_data s) d (m_hmac_authenticator s) (m_session_id s) (m_rpc_command_counter s)
    (s_pending s) (s_shutdown_works s).
Definition set_authenticator (d : bytes) (s : c_session) : c_session :=
  Session (m_received_data s) (m_write_data s) (m_data_size s) d (m_session_id s) (m_rpc_command_counter s)
    (s_pending s) (s_shutdown_works s).
Definition set_counter (c : Z) (s : c_session) : c_session :=
  Session (m_received_data s) (m_write_data s) (m_data_size s) (m_hmac_authenticator s) (m_session_id s) c
    (s_pending s) (s_shutdown_works s).
Definition set_pending (o : option rpc_operation) (s : c_session) : c_session :=
  Session (m_received_data s) (m_write_data s) (m_data_size s) (m_hmac_authenticator s) (m_session_id s) (m_rpc_command_counter s)
    o (s_shutdown_works s).
Definition set_reset (s : c_session) : c_session :=
  Session (m_received_data s) (m_write_data s) (m_data_size s) (m_hmac_authenticator s) (m_session_id s) (m_rpc_command_counter s)
    (s_pending s) false.

(** The constructor: the first read is started. *)
Definition new_session (session_id : Z) : c_session :=
  Session [] [] [Byte.x00; Byte.x00] (replicate 64 Byte.x00) session_id 499 (Some op_read_size) true.

Section Server.
Context `{!JsonLib} {Env : Type}.
(** [crypto_auth_hmacsha512(message, key)], [None] for a nonzero result, and
    the result of [crypto_auth_hmacsha512_verify(authenticator, message, key)]. *)
Context (crypto_auth_hmacsha512 : bytes -> bytes -> option bytes).
Context (crypto_auth_hmacsha512_verify : bytes -> bytes -> bytes -> Z).

Record c_rpc_server := RpcServer {
  m_rpc_functions_map : gmap bytes (bytes -> M Env json);
  m_session_list : gmap Z c_session;
  m_session_counter : Z;
  m_hmac_key : bytes;
  io_running : bool;         (* [m_io_service.run] has not ended *)
  srv_env : Env;
  srv_sent : list (Z * bytes) (* what was written to the sockets of which sessions *)
}.

Definition with_functions (f : gmap bytes (bytes -> M Env json)) (v : c_rpc_server) : c_rpc_server :=
  RpcServer f (m_session_list v) (m_session_counter v) (m_hmac_key v) (io_running v) (srv_env v) (srv_sent v).
Definition with_sessions (l : gmap Z c_session) (v : c_rpc_server) : c_rpc_server :=
  RpcServer (m_rpc_functions_map v) l (m_session_counter v) (m_hmac_key v) (io_running v) (srv_env v) (srv_sent v).
Definition with_session_counter (c : Z) (v : c_rpc_server) : c_rpc_server :=
  RpcServer (m_rpc_functions_map v) (m_session_list v) c (m_hmac_key v) (io_running v) (srv_env v) (srv_sent v).
Definition with_running (b : bool) (v : c_rpc_server) : c_rpc_server :=
  RpcServer (m_rpc_functions_map v) (m_session_list v) (m_session_counter v) (m_hmac_key v) b (srv_env v) (srv_sent v).
Definition with_env (e : Env) (v : c_rpc_server) : c_rpc_server :=
  RpcServer (m_rpc_functions_map v) (m_session_list v) (m_session_counter v) (m_hmac_key v) (io_running v) e (srv_sent v).

Definition add_sent (id : Z) (d : bytes) (v : c_rpc_server) : c_rpc_server :=
  RpcServer (m_rpc_functions_map v) (m_session_list v) (m_session_counter v) (m_hmac_key v) (io_running v) (srv_env v)
    (srv_sent v ++ [(id, d)]).

(** The constructor; the thread runs, whether the server listens or not. *)
Definition new_rpc_server (env : Env) : c_rpc_server :=
  RpcServer ∅ ∅ 0 (replicate (Z.to_nat crypto_auth_hmacsha512_KEYBYTES) Byte.x42) true env [].

(** [emplace]: a name that is registered keeps its function. *)
Definition add_rpc_function (name : bytes) (f : bytes -> M Env json) : M c_rpc_server unit :=
  mmodify (fun v => match m_rpc_functions_map v !! name with
                    | Some _ => v
                    | None => with_functions (<[name := f]> (m_rpc_functions_map v)) v
                    end).

(** The session [id]; a session that was destroyed must not be used. *)
Definition get_session (id : Z) : M c_rpc_server c_session :=
  v ← mget; match m_session_list v !! id with Some s => mret s | None => mundef end.
Definition modify_session (id : Z) (f : c_session -> c_session) : M c_rpc_server unit :=
  s ← get_session id;
  mmodify (fun v => with_sessions (<[id := f s]> (m_session_list v)) v).

Definition accept_handler (error : bool) : M c_rpc_server unit :=
  when (negb error) (
    mmodify (fun v => with_session_counter (m_session_counter v + 1) v);;
    mmodify (fun v => with_sessions (<[m_session_counter v := new_session (m_session_counter v)]> (m_session_list v)) v)).

(** [shutdown] without an error code throws boost::system::system_error. *)
Definition delete_me (id : Z) : M c_rpc_server unit :=
  s ← get_session id;
  mthrow_if (negb (s_shutdown_works s)) ex_system_error;;
  mmodify (fun v => with_sessions (delete id (m_session_list v)) v).

Definition get_command_id (id : Z) : M c_rpc_server bytes :=
  modify_session id (fun s => set_counter (m_rpc_command_counter s + 1) s);;
  s ← get_session id;
  mret (dec (m_session_id s) ++ str "-srv" ++ dec (m_rpc_command_counter s)).

(** The two octets of a size, and the size in two octets. *)
Definition size_of_octets (d : bytes) : outcome Z :=
  hi ← at_ d 0; lo ← at_ d 1; Ret ((byte_val hi * 256 + byte_val lo) mod 65536).
Definition octets_of_size (size : Z) : bytes := [byte_of_Z (Z.shiftr size 8); byte_of_Z (Z.land size 255)].

Definition send_response (id : Z) (json_response : json) : M c_rpc_server unit :=
  mcatch (
    let response := json_dump json_response in
    massert (zlen response <=? 65535);;
    let size := zlen response mod 65536 in
    modify_session id (set_write_data (octets_of_size size ++ response));;
    _ ← mlift (at_ (octets_of_size size ++ response) 2);
    v ← mget;
    match crypto_auth_hmacsha512 response (m_hmac_key v) with
    | None => mthrow ex_runtime_error
    | Some hash => modify_session id (set_pending (Some (op_write hash)))
    end)
  (fun _ => delete_me id).

(** [m_rpc_functions_map.at(cmd_name)(input_message)] *)
Definition call_function (cmd_name input_message : bytes) : M c_rpc_server json :=
  v ← mget;
  match m_rpc_functions_map v !! cmd_name with
  | None => mthrow ex_out_of_range
  | Some f => mrun (fun v => let '(o, e) := f input_message (srv_env v) in (o, with_env e v))
  end.

Definition execute_rpc_command (id : Z) (input_message : bytes) : M c_rpc_server unit :=
  mcatch (
    j ← mlift (json_parse input_message);
    cmd_name ← mlift (json_get_string j (str "cmd"));
    json_response ← call_function cmd_name input_message;
    command_id ← get_command_id id;
    json_response ← mlift (json_set json_response (str "id") (json_of_string command_id));
    json_response ← match json_find j (str "id") with
                    | Some re => mlift (json_set json_response (str "re") re)
                    | None => mret json_response
                    end;
    send_response id json_response)
  (fun _ => delete_me id).

Definition read_handler_size (id : Z) (error : bool) (bytes_transferred : Z) : M c_rpc_server unit :=
  if error then delete_me id
  else if negb (bytes_transferred =? 2) then delete_me id
  else
    s ← get_session id;
    message_size ← mlift (size_of_octets (m_data_size s));
    let received := take (Z.to_nat message_size) (m_received_data s ++ replicate (Z.to_nat message_size) Byte.x00) in
    modify_session id (set_received received);;
    _ ← mlift (at_ received 0);
    modify_session id (set_pending (Some op_read_data)).

Definition read_handler_data (id : Z) (error : bool) : M c_rpc_server unit :=
  if error then delete_me id else modify_session id (set_pending (Some op_read_hmac)).

Definition read_handler_hmac (id : Z) (error : bool) : M c_rpc_server unit :=
  if error then delete_me id
  else
    s ← get_session id;
    v ← mget;
    let ret := crypto_auth_hmacsha512_verify (m_hmac_authenticator s) (m_received_data s) (m_hmac_key v) in
    if ret =? -1 then delete_me id
    else
      massert (ret =? 0);;
      mcatch (execute_rpc_command id (m_received_data s)) (fun _ => delete_me id).

Definition write_handler (id : Z) (error : bool) : M c_rpc_server unit :=
  mcatch (if error then delete_me id else modify_session id (set_pending (Some op_read_size)))
    (fun _ => delete_me id).

(** ** Events *)

Inductive rpc_event :=
  | ev_accept (error : bool)
  (** The pending operation of a session completed: its error, the number of
      octets transferred, the octets read, the memory of [hash] when it was
      read for writing. *)
  | ev_complete (id : Z) (error : bool) (bytes_transferred : Z) (data : bytes) (hash_memory : bytes)
  | ev_reset (id : Z).

(** The first octets of a buffer are overwritten. *)
Definition fill_buffer (data buffer : bytes) : bytes :=
  take (length buffer) (data ++ drop (length data) buffer).

(** What boost::asio does with the buffers of the operation. *)
Definition transfer (id : Z) (op : rpc_operation) (n : Z) (data hash_memory : bytes) : M c_rpc_server unit :=
  match op with
  | op_read_size => modify_session id (fun s => set_data_size (fill_buffer data (m_data_size s)) s)
  | op_read_data => modify_session id (fun s => set_received (fill_buffer data (m_received_data s)) s)
  | op_read_hmac => modify_session id (fun s => set_authenticator (fill_buffer data (m_hmac_authenticator s)) s)
  | op_write _ =>
      s ← get_session id;
      mmodify (add_sent id (take (Z.to_nat n) (m_write_data s ++ hash_memory)))
  end.

Definition run_handler (id : Z) (op : rpc_operation) (error : bool) (n : Z) : M c_rpc_server unit :=
  match op with
  | op_read_size => read_handler_size id error n
  | op_read_data => read_handler_data id error
  | op_read_hmac => read_handler_hmac id error
  | op_write _ => write_handler id error
  end.

Definition handle_rpc_event (ev : rpc_event) : M c_rpc_server unit :=
  match ev with
  | ev_accept error => accept_handler error
  | ev_reset id => v ← mget; match m_session_list v !! id with Some _ => modify_session id set_reset | None => mret tt end
  | ev_complete id error n data hash_memory =>
      v ← mget;
      match m_session_list v !! id with
      | Some s =>
          match s_pending s with
          | Some op =>
              modify_session id (set_pending None);;
              transfer id op n data hash_memory;;
              run_handler id op error n
          | None => mret tt
          end
      | None => mret tt
      end
  end.

(** The thread: an exception that leaves a handler ends [io_service::run]. *)
Definition rpc_step (ev : rpc_event) : M c_rpc_server unit :=
  v ← mget;
  if io_running v then mcatch (handle_rpc_event ev) (fun _ => mmodify (with_running false)) else mret tt.

(** [add_rpc_function] for a list of names, and events in their order. *)
Definition rpc_thread (evs : list rpc_event) : M c_rpc_server unit := mfor evs rpc_step.
End Server.
Arguments c_rpc_server {_} _.
