(* ===== verification/RpcserverFacts.v ===== *)
(** * Theorems about the remote control server

    The server against its specification [serve]: a connection is a sequence
    of framed commands, each answered in order until one is refused.  What a
    sender without the key can do, and that the machine of callbacks never
    uses a session that is gone. *)
From S2P Require Import Prelude Json Rpcserver.

Section Facts.
Context `{!JsonLib} `{!JsonLaws} {Env : Type}.
Context (hmac : bytes -> bytes -> option bytes) (verify : bytes -> bytes -> bytes -> Z).

Notation server := (@c_rpc_server _ Env).
Notation step := (rpc_step (Env := Env) hmac verify).

(** ** Steps of a session *)

Definition put (id : Z) (s : c_session) (v : server) : server := with_sessions (<[id := s]> (m_session_list v)) v.

Lemma put_same id s (v : server) : m_session_list v !! id = Some s -> put id s v = v.
Proof. intros E. unfold put, with_sessions. rewrite insert_id by done. by destruct v. Qed.

Lemma put_put id s s' (v : server) : put id s (put id s' v) = put id s v.
Proof. unfold put, with_sessions. cbn. by rewrite insert_insert_eq. Qed.

Lemma put_lookup id s (v : server) : m_session_list (put id s v) !! id = Some s.
Proof. cbn. by rewrite lookup_insert_eq. Qed.

Lemma get_put id s (v : server) : get_session id (put id s v) = (Ret s, put id s v).
Proof. unfold get_session, mbind, M_mbind, mget. by rewrite put_lookup. Qed.

Lemma modify_put id f s (v : server) : modify_session id f (put id s v) = (Ret tt, put id (f s) v).
Proof.
  unfold modify_session. rewrite (M_bind_ret _ _ _ _ _ (get_put id s v)). unfold mmodify.
  change (with_sessions (<[id:=f s]> (m_session_list (put id s v))) (put id s v)) with (put id (f s) (put id s v)).
  by rewrite put_put.
Qed.

(** A session waits for [op]; its operation completes and its handler runs. *)
Lemma complete_eval id error n data hm s op (v : server) : io_running v = true -> s_pending s = Some op ->
  step (ev_complete id error n data hm) (put id s v)
  = mcatch (transfer id op n data hm;; run_handler hmac verify id op error n)
      (fun _ => mmodify (with_running false)) (put id (set_pending None s) v).
Proof.
  intros Hr Hop. unfold rpc_step, mbind at 1, M_mbind at 1, mget at 1. cbn [io_running put with_sessions]. rewrite Hr.
  unfold mcatch at 1. cbn [handle_rpc_event]. unfold mbind at 1, M_mbind at 1, mget at 1.
  change (m_session_list (put id s v)) with (m_session_list (put id s v)). rewrite put_lookup, Hop.
  rewrite (M_bind_ret _ _ _ _ _ (modify_put id (set_pending None) s v)). done.
Qed.

Lemma size_step id hi lo hm s (v : server) : io_running v = true -> s_pending s = Some op_read_size -> length (m_data_size s) = 2%nat ->
  let n := byte_val hi * 256 + byte_val lo in
  let s' := set_received (take (Z.to_nat n) (m_received_data s ++ replicate (Z.to_nat n) Byte.x00)) (set_data_size [hi; lo] s) in
  step (ev_complete id false 2 [hi; lo] hm) (put id s v)
  = (Ret tt, if n =? 0 then with_running false (put id (set_pending None s') v) else put id (set_pending (Some op_read_data) s') v).
Proof.
  intros Hr Hp Hl n s'. rewrite (complete_eval id false 2 _ hm s op_read_size) by done. unfold mcatch.
  cbn [transfer run_handler]. rewrite (M_bind_ret _ _ _ _ _ (modify_put id _ _ v)).
  unfold read_handler_size. change (2 =? 2) with true. cbn [negb]. cbn match.
  cbv beta. rewrite (M_bind_ret _ _ _ _ _ (get_put id _ v)).
  assert (fill_buffer [hi; lo] (m_data_size (set_pending None s)) = [hi; lo]) as ->.
  { unfold fill_buffer. cbn. rewrite Hl, drop_ge by lia. done. }
  pose proof (byte_val_range hi). pose proof (byte_val_range lo). cbn [m_data_size set_data_size m_received_data set_pending].
  assert (size_of_octets [hi; lo] = Ret n) as ->.
  { unfold size_of_octets. change (at_ [hi; lo] 0) with (Ret hi). change (at_ [hi; lo] 1) with (Ret lo).
    unfold mbind, outcome_mbind. cbn [outcome_bind]. by rewrite Z.mod_small by lia. }
  unfold mbind at 1, M_mbind at 1, mlift at 1. rewrite (M_bind_ret _ _ _ _ _ (modify_put id _ _ v)).
  set (d := take _ _). assert (zlen d = n) as Hd.
  { unfold zlen, d. rewrite length_take, length_app, length_replicate. lia. }
  destruct (n =? 0) eqn:En; zbool.
  - assert (d = []) as Hnil by (apply zlen_0_nil; lia). unfold mbind, M_mbind, mlift, at_. rewrite Hnil. change (Z.to_nat 0) with 0%nat. cbn. unfold s'. fold d. by rewrite Hnil.
  - destruct d as [|c d'] eqn:Ed; [unfold zlen in Hd; cbn in Hd; lia|]. unfold mbind at 1, M_mbind at 1, mlift. change (at_ (c :: d') 0) with (Ret c).
    rewrite modify_put. unfold s'. fold d. by rewrite Ed.
Qed.

Lemma data_step id msg hm s (v : server) n : io_running v = true -> s_pending s = Some op_read_data ->
  length (m_received_data s) = length msg ->
  step (ev_complete id false n msg hm) (put id s v) = (Ret tt, put id (set_pending (Some op_read_hmac) (set_received msg s)) v).
Proof.
  intros Hr Hp Hl. rewrite (complete_eval id false n _ hm s op_read_data) by done. unfold mcatch. cbn [transfer run_handler read_handler_data].
  rewrite (M_bind_ret _ _ _ _ _ (modify_put id _ _ v)), modify_put. unfold fill_buffer. cbn [m_received_data set_pending].
  rewrite drop_ge by lia. by rewrite app_nil_r, Hl, firstn_all.
Qed.

Lemma write_step id hm s (v : server) hash n : io_running v = true -> s_pending s = Some (op_write hash) ->
  step (ev_complete id false n [] hm) (put id s v)
  = (Ret tt, put id (set_pending (Some op_read_size) s) (add_sent id (take (Z.to_nat n) (m_write_data s ++ hm)) v)).
Proof.
  intros Hr Hp. rewrite (complete_eval id false n _ hm s (op_write hash)) by done. unfold mcatch.
  assert (transfer id (op_write hash) n [] hm (put id (set_pending None s) v)
    = (Ret tt, put id (set_pending None s) (add_sent id (take (Z.to_nat n) (m_write_data s ++ hm)) v))) as E.
  { cbn [transfer]. by rewrite (M_bind_ret _ _ _ _ _ (get_put id _ v)). }
  rewrite (M_bind_ret _ _ _ _ _ E). cbn [run_handler]. unfold write_handler, mcatch. by rewrite modify_put.
Qed.

Lemma delete_eval id s (v : server) : s_shutdown_works s = true ->
  delete_me id (put id s v) = (Ret tt, with_sessions (delete id (m_session_list v)) v).
Proof.
  intros Hs. unfold delete_me. rewrite (M_bind_ret _ _ _ _ _ (get_put id s v)). unfold mthrow_if, othrow_if. rewrite Hs.
  unfold mbind, M_mbind, mlift, mmodify, put, with_sessions. cbn. by rewrite delete_insert_eq.
Qed.

(** ** The specification: a connection is a sequence of commands *)

(** The answer to an authentic command, on the rest of the program and the
    counter of the connection. *)
Definition answer (fs : gmap bytes (bytes -> M Env json)) (id : Z) (msg : bytes) : M (Env * Z) bytes :=
  j ← mlift (json_parse msg);
  cmd_name ← mlift (json_get_string j (str "cmd"));
  r ← match fs !! cmd_name with None => mthrow ex_out_of_range | Some f => on_fst (f msg) end;
  on_snd (mmodify (fun c => c + 1));;
  c ← on_snd mget;
  r ← mlift (json_set r (str "id") (json_of_string (dec id ++ str "-srv" ++ dec c)));
  r ← mlift (match json_find j (str "id") with Some re => json_set r (str "re") re | None => Ret r end);
  mret (json_dump r).

Definition reply (resp hash : bytes) : bytes := (octets_of_size (zlen resp) ++ resp) ++ hash.

Inductive status := st_open | st_closed | st_aborted | st_undefined.

(** Answers with their authenticators, final state and what became of the
    connection. *)
Fixpoint serve (fs : gmap bytes (bytes -> M Env json)) (key : bytes) (id : Z) (frames : list (bytes * bytes))
    (st : Env * Z) : list (bytes * bytes) * (Env * Z) * status :=
  match frames with
  | [] => ([], st, st_open)
  | (msg, auth) :: frames =>
      let ret := verify auth msg key in
      if ret =? -1 then ([], st, st_closed)
      else if negb (ret =? 0) then ([], st, st_aborted)
      else match answer fs id msg st with
      | (Ret resp, st) =>
          if negb (zlen resp <=? 65535) then ([], st, st_aborted)
          else match hmac resp key with
          | None => ([], st, st_closed)
          | Some hash => let '(out, st', s) := serve fs key id frames st in ((resp, hash) :: out, st', s)
          end
      | (Throw _, st) => ([], st, st_closed)
      | (Abort_, st) => ([], st, st_aborted)
      | (Undef, st) => ([], st, st_undefined)
      end
  end.

(** What is sent for a command, and the octets of a connection. *)
Definition frame (f : bytes * bytes) : bytes := octets_of_size (zlen f.1) ++ f.1 ++ f.2.

(** Each reply is written by one [async_write_some]: [ws] says, write by write,
    how many octets it takes and what the memory of the dead array [hash] holds
    then; after the list, all octets and the array as it was. *)
Notation writes := (list (Z * bytes)).

Definition this_write (ws : writes) (data hash : bytes) : Z * bytes :=
  default (zlen data + zlen hash, hash) (head ws).

(** What the other side gets of the answers. *)
Fixpoint on_wire (ws : writes) (out : list (bytes * bytes)) : list bytes :=
  match out with
  | [] => []
  | (resp, hash) :: out =>
      let data := octets_of_size (zlen resp) ++ resp in
      let '(n, memory) := this_write ws data hash in
      take (Z.to_nat n) (data ++ memory) :: on_wire (tail ws) out
  end.

Lemma on_wire_intact out : on_wire [] out = map (fun rh => reply rh.1 rh.2) out.
Proof.
  induction out as [|[resp hash] out IH]; [done|]. cbn [on_wire this_write head default map fst snd tail]. rewrite IH. f_equal.
  unfold reply. rewrite <- zlen_app. unfold zlen at 1. by rewrite Nat2Z.id, firstn_all.
Qed.

(** A network that delivers: a read ([async_read]) completes when all its
    octets have arrived, a write as [ws] says. *)
Fixpoint play (fuel : nat) (id : Z) (ws : writes) (inp : bytes) : M server bytes :=
  match fuel with
  | O => mundef
  | S fuel =>
      v ← mget;
      match m_session_list v !! id ≫= s_pending with
      | Some (op_write hash) =>
          s ← get_session id;
          let '(n, memory) := this_write ws (m_write_data s) hash in
          step (ev_complete id false n [] memory);; play fuel id (tail ws) inp
      | Some op =>
          s ← get_session id;
          let n := match op with op_read_size => 2 | op_read_data => zlen (m_received_data s) | _ => 64 end in
          if zlen inp <? n then mret inp
          else step (ev_complete id false n (take (Z.to_nat n) inp) []);; play fuel id ws (drop (Z.to_nat n) inp)
      | None => mret inp
      end
  end.

(** ** The implementation meets the specification *)

Lemma send_eval id j s (v : server) : s_shutdown_works s = true ->
  send_response hmac id j (put id s v) =
  let resp := json_dump j in
  if zlen resp <=? 65535 then
    match hmac resp (m_hmac_key v) with
    | Some h => (Ret tt, put id (set_pending (Some (op_write h)) (set_write_data (octets_of_size (zlen resp) ++ resp) s)) v)
    | None => (Ret tt, with_sessions (delete id (m_session_list v)) v)
    end
  else (Abort_, put id s v).
Proof.
  intros Hs. cbv zeta. unfold send_response, mcatch. set (resp := json_dump j). pose proof (zlen_nonneg resp).
  unfold massert, oassert, mbind at 1, M_mbind at 1, mlift at 1. destruct (zlen resp <=? 65535) eqn:El; [|done]. zbool.
  rewrite Z.mod_small by lia. rewrite (M_bind_ret _ _ _ _ _ (modify_put id _ s v)).
  unfold mbind at 1, M_mbind at 1, mlift at 1. unfold octets_of_size.
  pose proof (json_dump_nonempty j) as Hne. fold resp in Hne. destruct resp as [|c r] eqn:Er; [done|].
  change (at_ (([byte_of_Z (Z.shiftr (zlen (c :: r)) 8); byte_of_Z (Z.land (zlen (c :: r)) 255)]) ++ c :: r) 2) with (Ret c).
  unfold mbind at 1, M_mbind at 1, mget at 1. cbn [m_hmac_key put with_sessions].
  destruct (hmac (c :: r) (m_hmac_key v)); [by rewrite modify_put|]. unfold mthrow. by rewrite delete_eval.
Qed.

Lemma command_id_eval id s (v : server) :
  get_command_id id (put id s v) = (Ret (dec (m_session_id s) ++ str "-srv" ++ dec (m_rpc_command_counter s + 1)),
    put id (set_counter (m_rpc_command_counter s + 1) s) v).
Proof.
  unfold get_command_id. rewrite (M_bind_ret _ _ _ _ _ (modify_put id _ s v)). by rewrite (M_bind_ret _ _ _ _ _ (get_put id _ v)).
Qed.

Lemma execute_eval id msg s (v : server) : s_shutdown_works s = true -> m_session_id s = id ->
  let '(o, (env, c)) := answer (m_rpc_functions_map v) id msg (srv_env v, m_rpc_command_counter s) in
  execute_rpc_command hmac id msg (put id s v) =
  match o with
  | Ret resp =>
      if zlen resp <=? 65535 then
        match hmac resp (m_hmac_key v) with
        | Some h => (Ret tt, put id (set_pending (Some (op_write h)) (set_write_data (octets_of_size (zlen resp) ++ resp) (set_counter c s))) (with_env env v))
        | None => (Ret tt, with_sessions (delete id (m_session_list v)) (with_env env v))
        end
      else (Abort_, put id (set_counter c s) (with_env env v))
  | Throw _ => (Ret tt, with_sessions (delete id (m_session_list v)) (with_env env v))
  | Abort_ => (Abort_, put id (set_counter c s) (with_env env v))
  | Undef => (Undef, put id (set_counter c s) (with_env env v))
  end.
Proof.
  intros Hs Hid. pose proof (delete_eval id s v Hs) as Hdel.
  assert (with_env (srv_env v) v = v) as Hv by (by destruct v). assert (set_counter (m_rpc_command_counter s) s = s) as Hc by (by destruct s).
  unfold answer, execute_rpc_command, mcatch.
  destruct (json_parse msg) as [req|e| |]; autorewrite with binds; rewrite ?Hdel, ?Hv, ?Hc; try done.
  destruct (json_get_string req (str "cmd")) as [name|e| |]; autorewrite with binds; rewrite ?Hdel, ?Hv, ?Hc; try done.
  assert (call_function name msg (put id s v) = match m_rpc_functions_map v !! name with
    | None => (Throw ex_out_of_range, put id s v)
    | Some f => let '(o, e) := f msg (srv_env v) in (o, put id s (with_env e v)) end) as Ecall.
  { unfold call_function. unfold mbind, M_mbind, mget. cbn [m_rpc_functions_map put with_sessions].
    destruct (m_rpc_functions_map v !! name) as [f|]; [|done]. unfold mrun. cbn [srv_env put with_sessions].
    by destruct (f msg (srv_env v)) as [o e]. }
  rewrite (bind_eq (call_function name msg)), Ecall. clear Ecall.
  destruct (m_rpc_functions_map v !! name) as [f|]; autorewrite with binds; rewrite ?Hdel, ?Hv, ?Hc; try done.
  rewrite (bind_eq (on_fst (f msg))). unfold on_fst at 1. cbn [fst snd].
  destruct (f msg (srv_env v)) as [[r|e| |] env]; rewrite ?Hc; [|by rewrite ?delete_eval..].
  set (c1 := m_rpc_command_counter s + 1).
  rewrite (M_bind_ret (on_snd (mmodify (fun c => c + 1))) _ _ tt (env, c1)) by done.
  rewrite (M_bind_ret (on_snd mget) _ _ c1 (env, c1)) by done.
  rewrite (M_bind_ret (get_command_id id) _ _ _ _ (command_id_eval id s (with_env env v))), Hid. fold c1.
  assert (delete_me id (put id (set_counter c1 s) (with_env env v))
    = (Ret tt, with_sessions (delete id (m_session_list v)) (with_env env v))) as Hdel2 by (by rewrite delete_eval).
  destruct (json_set r (str "id") _) as [r1|e| |]; autorewrite with binds; rewrite ?Hdel2; try done.
  set (o := match json_find req (str "id") with Some re => json_set r1 (str "re") re | None => Ret r1 end).
  assert (match json_find req (str "id") with Some re => mlift (json_set r1 (str "re") re) | None => mret r1 end = @mlift server _ o) as ->
    by (unfold o; by destruct (json_find req (str "id"))).
  destruct o as [r2|e| |]; autorewrite with binds; rewrite ?Hdel2; try done.
  rewrite send_eval by done. cbn [m_hmac_key with_env]. unfold mret, M_mret.
  destruct (zlen (json_dump r2) <=? 65535); [|done]. by destruct (hmac (json_dump r2) (m_hmac_key v)).
Qed.

(** The handler of the authenticator, on a connection that still exists. *)
Lemma hmac_step id auth hm s (v : server) n : io_running v = true -> s_pending s = Some op_read_hmac ->
  length (m_hmac_authenticator s) = length auth -> s_shutdown_works s = true -> m_session_id s = id ->
  step (ev_complete id false n auth hm) (put id s v)
  = let s1 := set_authenticator auth (set_pending None s) in
    let ret := verify auth (m_received_data s) (m_hmac_key v) in
    if ret =? -1 then (Ret tt, with_sessions (delete id (m_session_list v)) v)
    else if negb (ret =? 0) then (Abort_, put id s1 v)
    else execute_rpc_command hmac id (m_received_data s) (put id s1 v).
Proof.
  intros Hr Hp Hl Hs Hid. cbv zeta. rewrite (complete_eval id false n _ hm s op_read_hmac) by done. unfold mcatch.
  cbn [transfer run_handler]. rewrite (M_bind_ret _ _ _ _ _ (modify_put id _ _ v)). cbv beta.
  assert (fill_buffer auth (m_hmac_authenticator (set_pending None s)) = auth) as ->.
  { unfold fill_buffer. cbn. rewrite drop_ge by lia. by rewrite app_nil_r, Hl, firstn_all. }
  set (s1 := set_authenticator auth (set_pending None s)). unfold read_handler_hmac.
  rewrite (M_bind_ret _ _ _ _ _ (get_put id _ v)), (M_bind_ret mget _ _ (put id s1 v) (put id s1 v)) by done.
  cbn [m_hmac_authenticator m_received_data m_hmac_key put with_sessions s1 set_authenticator set_pending].
  destruct (verify auth (m_received_data s) (m_hmac_key v) =? -1) eqn:E1.
  { fold s1. change (with_sessions (<[id:=s1]> (m_session_list v)) v) with (put id s1 v). by rewrite delete_eval. }
  change (with_sessions _ v) with (put id s1 v). unfold massert, oassert.
  destruct (verify auth (m_received_data s) (m_hmac_key v) =? 0) eqn:E2; [|done]. cbn [negb]. rewrite bind_lift. unfold mcatch.
  pose proof (execute_eval id (m_received_data s) s1 v Hs Hid) as Hex.
  destruct (answer _ _ _ _) as [o [env c]]. rewrite Hex.
  destruct o as [resp|e| |]; try done. destruct (zlen resp <=? 65535); [|done]. by destruct (hmac resp (m_hmac_key v)).
Qed.

(** A connection between two commands. *)
Record idle (id : Z) (s : c_session) : Prop := {
  idle_id : m_session_id s = id;
  idle_pending : s_pending s = Some op_read_size;
  idle_size : length (m_data_size s) = 2%nat;
  idle_auth : length (m_hmac_authenticator s) = 64%nat;
  idle_socket : s_shutdown_works s = true
}.

Definition framed (f : bytes * bytes) : Prop := 0 < zlen f.1 <= 65535 /\ zlen f.2 = 64.

(** The number of octets a read waits for. *)
Definition wanted (op : rpc_operation) (s : c_session) : Z :=
  match op with op_read_size => 2 | op_read_data => zlen (m_received_data s) | _ => 64 end.

Lemma play_read fuel id ws a rest s op (v : server) : s_pending s = Some op -> wanted op s = zlen a ->
  (forall h, op <> op_write h) ->
  play (S fuel) id ws (a ++ rest) (put id s v)
  = (step (ev_complete id false (zlen a) a []);; play fuel id ws rest) (put id s v).
Proof.
  intros Hp Hw Hop. cbn [play]. rewrite (M_bind_ret mget _ _ (put id s v) (put id s v)) by done.
  rewrite put_lookup. cbn [mbind option_bind]. rewrite Hp.
  assert (forall B (k : c_session -> M server B), (get_session id ≫= k) (put id s v) = k s (put id s v)) as Hget
    by (intros B k; by rewrite (M_bind_ret _ _ _ _ _ (get_put id s v))).
  assert ((if zlen (a ++ rest) <? zlen a then mret (a ++ rest)
    else step (ev_complete id false (zlen a) (take (Z.to_nat (zlen a)) (a ++ rest)) []);; play fuel id ws (drop (Z.to_nat (zlen a)) (a ++ rest))) (put id s v)
    = (step (ev_complete id false (zlen a) a []);; play fuel id ws rest) (put id s v)) as <-.
  { rewrite zlen_app. pose proof (zlen_nonneg rest). rewrite (proj2 (Z.ltb_ge _ _)) by lia.
    unfold zlen. by rewrite Nat2Z.id, take_app_length, drop_app_length. }
  destruct op as [| | |h]; [..|by destruct (Hop h)]; rewrite Hget; cbn in Hw; by rewrite ?Hw.
Qed.

Lemma octets_size n : 0 <= n <= 65535 ->
  exists hi lo, octets_of_size n = [hi; lo] /\ byte_val hi * 256 + byte_val lo = n.
Proof.
  intros Hn. do 2 eexists. split; [done|]. rewrite !byte_val_of_Z, Z.shiftr_div_pow2 by lia.
  change 255 with (Z.ones 8). rewrite Z.land_ones by lia. change (2 ^ 8) with 256.
  rewrite (Z.mod_small (n / 256)) by (split; [apply Z.div_pos; lia|apply Z.div_lt_upper_bound; lia]).
  rewrite Z.mod_mod by lia. pose proof (Z.div_mod n 256). lia.
Qed.

(** The first three reads of a command. *)
Lemma play_frame fuel id ws msg auth rest s (v : server) : io_running v = true -> idle id s -> framed (msg, auth) ->
  exists s', play (S (S (S fuel))) id ws (frame (msg, auth) ++ rest) (put id s v)
    = (step (ev_complete id false 64 auth []);; play fuel id ws rest) (put id s' v) /\
    s_pending s' = Some op_read_hmac /\ m_received_data s' = msg /\ length (m_hmac_authenticator s') = 64%nat /\
    s_shutdown_works s' = true /\ m_session_id s' = id /\ m_rpc_command_counter s' = m_rpc_command_counter s /\
    length (m_data_size s') = 2%nat.
Proof.
  intros Hr [Hi Hp Hs Ha Hk] [Hm Hau]. cbn [fst snd] in *. destruct (octets_size (zlen msg)) as (hi & lo & Ho & Hz); [lia|].
  set (s1 := set_pending (Some op_read_data) (set_received (take (Z.to_nat (zlen msg)) (m_received_data s ++ replicate (Z.to_nat (zlen msg)) Byte.x00))
    (set_data_size [hi; lo] s))).
  assert (length (m_received_data s1) = length msg) as Hl1.
  { cbn. rewrite length_take, length_app, length_replicate. unfold zlen. lia. }
  set (s2 := set_pending (Some op_read_hmac) (set_received msg s1)). exists s2. split; [|done].
  unfold frame. cbn [fst snd]. rewrite Ho, <- !app_assoc.
  rewrite (play_read _ id ws [hi; lo] _ s op_read_size v Hp eq_refl ltac:(done)).
  pose proof (size_step id hi lo [] s v Hr Hp Hs) as E1. cbv zeta in E1. rewrite Hz in E1.
  rewrite (proj2 (Z.eqb_neq _ _)) in E1 by lia. rewrite (M_bind_ret _ _ _ _ _ E1). fold s1.
  rewrite (play_read _ id ws msg _ s1 op_read_data v eq_refl) by (done || unfold wanted, zlen; by rewrite Hl1).
  rewrite (M_bind_ret _ _ _ _ _ (data_step id msg [] s1 v (zlen msg) Hr eq_refl Hl1)). fold s2.
  rewrite (play_read _ id ws auth _ s2 op_read_hmac v eq_refl) by (done || by rewrite Hau). by rewrite Hau.
Qed.

(** The reply is written and the next command awaited. *)
Lemma play_reply fuel id ws inp s (v : server) hash : io_running v = true -> s_pending s = Some (op_write hash) ->
  play (S fuel) id ws inp (put id s v)
  = let '(n, memory) := this_write ws (m_write_data s) hash in
    play fuel id (tail ws) inp (put id (set_pending (Some op_read_size) s) (add_sent id (take (Z.to_nat n) (m_write_data s ++ memory)) v)).
Proof.
  intros Hr Hp. cbn [play]. rewrite (M_bind_ret mget _ _ (put id s v) (put id s v)) by done.
  rewrite put_lookup. cbn [mbind option_bind]. rewrite Hp, (M_bind_ret _ _ _ _ _ (get_put id s v)).
  destruct (this_write ws (m_write_data s) hash) as [n memory].
  by rewrite (M_bind_ret _ _ _ _ _ (write_step id memory s v hash n Hr Hp)).
Qed.

(** What the machine ends with, for what the specification ends with. *)
Definition ends (id : Z) (st : status) (c : Z) (o : outcome bytes) (v' : server) : Prop :=
  match st with
  | st_open => o = Ret [] /\ exists s, m_session_list v' !! id = Some s /\ idle id s /\ m_rpc_command_counter s = c
  | st_closed => (exists inp, o = Ret inp) /\ m_session_list v' !! id = None
  | st_aborted => o = Abort_
  | st_undefined => o = Undef
  end.

Lemma play_gone fuel id ws inp (v : server) : m_session_list v !! id = None -> play (S fuel) id ws inp v = (Ret inp, v).
Proof. intros E. cbn [play]. rewrite (M_bind_ret mget _ _ v v) by done. by rewrite E. Qed.

Lemma play_idle fuel id ws s (v : server) : idle id s -> play (S fuel) id ws [] (put id s v) = (Ret [], put id s v).
Proof.
  intros [_ Hp _ _ _]. cbn [play]. rewrite (M_bind_ret mget _ _ (put id s v) (put id s v)) by done.
  rewrite put_lookup. cbn [mbind option_bind]. rewrite Hp. by rewrite (M_bind_ret _ _ _ _ _ (get_put id s v)).
Qed.

Lemma play_refines id frames : Forall framed frames -> forall fuel ws s (v : server),
  (4 * length frames < fuel)%nat -> io_running v = true -> idle id s ->
  let '(out, (env, c), st) := serve (m_rpc_functions_map v) (m_hmac_key v) id frames (srv_env v, m_rpc_command_counter s) in
  exists o v', play fuel id ws (concat (map frame frames)) (put id s v) = (o, v') /\
    srv_env v' = env /\ srv_sent v' = srv_sent v ++ map (pair id) (on_wire ws out) /\ io_running v' = true /\
    (forall id', id' <> id -> m_session_list v' !! id' = m_session_list v !! id') /\ ends id st c o v'.
Proof.
  induction 1 as [|[msg auth] frames Hf Hfs IH]; intros fuel ws s v Hfuel Hr Hs.
  { cbn. destruct fuel as [|fuel]; [lia|]. do 2 eexists. split; [by apply play_idle|]. cbn. rewrite app_nil_r.
    split_and!; try done. { intros id' Hne. by rewrite lookup_insert_ne. } exists s. by rewrite lookup_insert_eq. }
  cbn [length] in Hfuel. destruct fuel as [|[|[|[|fuel]]]]; try lia. cbn [map concat].
  destruct (play_frame (S fuel) id ws msg auth (concat (map frame frames)) s v Hr Hs Hf)
    as (s1 & E1 & Hp1 & Hm1 & Ha1 & Hk1 & Hi1 & Hc1 & Hd1). rewrite E1. clear E1.
  assert (forall (v' : server) inp, m_session_list v' = delete id (m_session_list v) ->
    ends id st_closed 0 (Ret inp) v' /\ (forall id', id' <> id -> m_session_list v' !! id' = m_session_list v !! id')) as Hgone.
  { intros v' inp E. split; [split; [by eexists|by rewrite E, lookup_delete_eq]|]. intros id' Hne. by rewrite E, lookup_delete_ne. }
  rewrite bind_eq. rewrite (hmac_step id auth [] s1 v 64 Hr Hp1) by (done || (destruct Hf as [_ Hf]; unfold zlen in Hf; cbn in Hf; lia)).
  cbv zeta. rewrite Hm1. cbn [serve].
  destruct (verify auth msg (m_hmac_key v) =? -1).
  { do 2 eexists. split; [by apply play_gone; cbn; rewrite lookup_delete_eq|].
    destruct (Hgone (with_sessions (delete id (m_session_list v)) v) (concat (map frame frames)) eq_refl) as [? ?].
    cbn [srv_env srv_sent io_running with_sessions]. by rewrite app_nil_r. }
  destruct (verify auth msg (m_hmac_key v) =? 0); cbn [negb].
  2: { do 2 eexists. split; [done|]. cbn. rewrite app_nil_r. split_and!; try done. by intros id' Hne; rewrite lookup_insert_ne. }
  set (s2 := set_authenticator auth (set_pending None s1)).
  pose proof (execute_eval id msg s2 v Hk1 Hi1) as Hex. change (m_rpc_command_counter s2) with (m_rpc_command_counter s1) in Hex.
  rewrite Hc1 in Hex. destruct (answer (m_rpc_functions_map v) id msg (srv_env v, m_rpc_command_counter s)) as [o [env c]].
  rewrite Hex. clear Hex. destruct o as [resp|e| |].
  2: { do 2 eexists. split; [by apply play_gone; cbn; rewrite lookup_delete_eq|].
    destruct (Hgone (with_sessions (delete id (m_session_list v)) (with_env env v)) (concat (map frame frames)) eq_refl) as [? ?].
    cbn [srv_env srv_sent io_running with_sessions with_env]. by rewrite app_nil_r. }
  2,3: do 2 eexists; split; [done|]; cbn; rewrite app_nil_r; split_and!; try done; by intros id' Hne; rewrite lookup_insert_ne.
  destruct (zlen resp <=? 65535); cbn [negb].
  2: { do 2 eexists. split; [done|]. cbn. rewrite app_nil_r. split_and!; try done. by intros id' Hne; rewrite lookup_insert_ne. }
  destruct (hmac resp (m_hmac_key v)) as [hash|].
  2: { do 2 eexists. split; [by apply play_gone; cbn; rewrite lookup_delete_eq|].
    destruct (Hgone (with_sessions (delete id (m_session_list v)) (with_env env v)) (concat (map frame frames)) eq_refl) as [? ?].
    cbn [srv_env srv_sent io_running with_sessions with_env]. by rewrite app_nil_r. }
  rewrite (play_reply fuel id _ _ _ (with_env env v) hash) by done. cbn [on_wire m_write_data set_pending set_write_data].
  destruct (this_write ws (octets_of_size (zlen resp) ++ resp) hash) as [n memory] eqn:Ew. set (v3 := add_sent id _ (with_env env v)). set (s3 := set_pending (Some op_read_size) _).
  specialize (IH fuel (tail ws) s3 v3 ltac:(lia) Hr). assert (idle id s3) as Hs3 by (split; try done; cbn; destruct Hf as [_ Hf]; unfold zlen in Hf; cbn in Hf; lia). specialize (IH Hs3).
  change (m_rpc_functions_map v3) with (m_rpc_functions_map v) in IH. change (m_hmac_key v3) with (m_hmac_key v) in IH.
  change (srv_env v3) with env in IH. change (m_rpc_command_counter s3) with c in IH.
  destruct (serve (m_rpc_functions_map v) (m_hmac_key v) id frames (env, c)) as [[out [env' c']] st].
  destruct IH as (o & v' & E & He & Ho & Hrun & Hoth & Hend). exists o, v'. split_and!; try done.
  rewrite Ho. unfold v3. cbn [on_wire srv_sent add_sent with_env map]. rewrite Ew. by rewrite <- app_assoc.
Qed.

(** ** No session is used after it is gone *)

Section Safety.
Context (fs : gmap bytes (bytes -> M Env json)) (key : bytes).
Hypothesis Hfs : forall name f msg env, fs !! name = Some f -> (f msg env).1 <> Undef.

(** What holds of a session in every handler; and between events. *)
Record session_basic (id counter : Z) (s : c_session) : Prop := {
  basic_id : m_session_id s = id;
  basic_counter : id <= counter;
  basic_size : length (m_data_size s) = 2%nat;
  basic_auth : length (m_hmac_authenticator s) = 64%nat
}.

Definition pending_ok (s : c_session) : Prop :=
  match s_pending s with
  | None => False
  | Some op_read_data => m_received_data s <> [] /\ zlen (m_received_data s) <= 65535
  | Some (op_write hash) => exists resp, m_write_data s = octets_of_size (zlen resp) ++ resp /\
      0 < zlen resp <= 65535 /\ hmac resp key = Some hash
  | _ => True
  end.

(** All sessions but [id] are well-formed. *)
Definition others_ok (id : Z) (v : server) : Prop :=
  m_rpc_functions_map v = fs /\ m_hmac_key v = key /\
  forall id' s, id' <> id -> m_session_list v !! id' = Some s -> session_basic id' (m_session_counter v) s /\ pending_ok s.

(** The session a handler works on exists. *)
Definition live (id : Z) (v : server) : Prop :=
  others_ok id v /\ exists s, m_session_list v !! id = Some s /\ session_basic id (m_session_counter v) s.

Definition server_ok (v : server) : Prop :=
  m_rpc_functions_map v = fs /\ m_hmac_key v = key /\
  (io_running v = true -> forall id s, m_session_list v !! id = Some s -> session_basic id (m_session_counter v) s /\ pending_ok s).

Notation triple P m Q := (hoare P%function m (fun _ => Q) (fun _ => P%function)).

Lemma get_live id : hoare (live id) (get_session id)
  (fun s v => live id v /\ m_session_list v !! id = Some s /\ session_basic id (m_session_counter v) s) (fun _ => live id).
Proof. intros v [Ho (s & Es & Hs)]. unfold get_session, mbind, M_mbind, mget. rewrite Es. cbn. split; [by split; [|exists s]|done]. Qed.

Lemma get_stays id : triple (live id) (get_session id) (live id).
Proof. eapply hoare_post; [apply get_live| |done]. by intros s v []. Qed.

Lemma others_put id s (v : server) : others_ok id v -> others_ok id (put id s v).
Proof. intros (H1 & H2 & H3). split_and!; try done. intros id' s' Hne. cbn. rewrite lookup_insert_ne by done. by apply H3. Qed.

Lemma modify_live id f : (forall c s, session_basic id c s -> session_basic id c (f s)) ->
  triple (live id) (modify_session id f) (live id).
Proof.
  intros Hf v [Ho (s & Es & Hs)]. rewrite <- (put_same id s v) by done. rewrite modify_put. split; [by apply others_put|].
  exists (f s). split; [apply put_lookup|by apply Hf].
Qed.

(** A handler ends by starting an operation or by destroying the session. *)
Lemma pending_done id f (P : c_session -> Prop) : (forall c s, session_basic id c s -> session_basic id c (f s)) ->
  (forall s, P s -> pending_ok (f s)) ->
  hoare (fun v => live id v /\ forall s, m_session_list v !! id = Some s -> P s) (modify_session id f) (fun _ => server_ok) (fun _ => live id).
Proof.
  intros Hf Hp v [[(H1 & H2 & H3) (s & Es & Hs)] HP]. specialize (HP s Es). rewrite <- (put_same id s v) by done. rewrite modify_put.
  split_and!; [done|done|]. intros _ id' s'. cbn. destruct (decide (id' = id)) as [->|Hne].
  - rewrite lookup_insert_eq. intros [= <-]. split; [by apply Hf|by apply Hp].
  - rewrite lookup_insert_ne by done. by apply H3.
Qed.

Lemma delete_live id : hoare (live id) (delete_me id) (fun _ => server_ok) (fun _ => live id).
Proof.
  intros v [(H1 & H2 & H3) (s & Es & Hs)]. pose proof (get_put id s v) as Eg. rewrite (put_same id s v Es) in Eg.
  unfold delete_me. rewrite (M_bind_ret _ _ _ _ _ Eg). unfold mthrow_if, othrow_if. destruct (s_shutdown_works s); cbn [negb].
  - rewrite bind_lift. cbn. split_and!; [done|done|]. intros _ id' s'. cbn. rewrite lookup_delete_Some. intros [Hne E]. by apply H3.
  - rewrite bind_throw. split; [done|]. by exists s.
Qed.

Lemma mlift_live {A} id (o : outcome A) : o <> Undef -> triple (live id) (mlift o) (live id).
Proof. intros Ho v Hv. by destruct o. Qed.

Lemma call_live id name msg : triple (live id) (call_function name msg) (live id).
Proof.
  intros v Hv. unfold call_function, mbind, M_mbind, mget.
  destruct (m_rpc_functions_map v !! name) as [f|] eqn:Ef; [|done]. unfold mrun.
  destruct Hv as [(H1 & H2 & H3) Hs]. rewrite H1 in Ef. specialize (Hfs name f msg (srv_env v) Ef).
  destruct (f msg (srv_env v)) as [[r|e| |] env]; done.
Qed.

Lemma send_live id j : hoare (live id) (send_response hmac id j) (fun _ => server_ok) (fun _ => live id).
Proof.
  unfold send_response. apply (hoare_catch _ _ _ _ _ (fun _ => live id)); [|intros e; apply delete_live].
  set (resp := json_dump j). pose proof (json_dump_nonempty j) as Hne. fold resp in Hne. pose proof (zlen_nonneg resp) as Hnn.
  intros v Hv. unfold massert, oassert. destruct (zlen resp <=? 65535) eqn:El; [|done]. rewrite bind_lift. zbool.
  assert (0 < zlen resp) as Hpos by (destruct (decide (zlen resp = 0)) as [E%zlen_0_nil|]; [done|lia]).
  rewrite Z.mod_small by lia. destruct Hv as [Ho (s & Es & Hs)]. rewrite <- (put_same id s v) by done.
  rewrite (M_bind_ret _ _ _ _ _ (modify_put id _ s v)). set (s1 := set_write_data _ s).
  assert (live id (put id s1 v)) as Hl1 by (split; [by apply others_put|]; exists s1; split; [apply put_lookup|by destruct Hs]).
  destruct (at_ _ 2) eqn:Eat; [|by destruct resp..]. rewrite bind_lift, (M_bind_ret mget _ _ (put id s1 v) (put id s1 v)) by done.
  cbn [m_hmac_key put with_sessions]. destruct (hmac resp (m_hmac_key v)) as [hash|] eqn:Eh; [|done].
  change (with_sessions (<[id:=s1]> (m_session_list v)) v) with (put id s1 v).
  refine (pending_done id _ (fun s => s = s1) _ _ (put id s1 v) _); [by intros c x []| |].
  - intros x ->. exists resp. destruct Ho as (_ & Hk & _). by rewrite Hk in Eh.
  - split; [done|]. intros x. rewrite put_lookup. by intros [= <-].
Qed.

Lemma execute_live id msg : hoare (live id) (execute_rpc_command hmac id msg) (fun _ => server_ok) (fun _ => live id).
Proof.
  unfold execute_rpc_command. apply (hoare_catch _ _ _ _ _ (fun _ => live id)); [|intros e; apply delete_live].
  apply (hoare_bind _ _ _ (fun _ => live id)); [apply mlift_live, json_parse_defined|intros j].
  apply (hoare_bind _ _ _ (fun _ => live id)); [apply mlift_live|intros name].
  { unfold json_get_string, mbind, outcome_mbind. pose proof (json_at_defined j (str "cmd")).
    destruct (json_at j (str "cmd")) as [x|e| |]; cbn [outcome_bind]; [apply json_string_defined|done..]. }
  apply (hoare_bind _ _ _ (fun _ => live id)); [apply call_live|intros r].
  apply (hoare_bind _ _ _ (fun _ => live id)).
  { unfold get_command_id. apply (hoare_bind _ _ _ (fun _ => live id)); [by apply modify_live; intros c s []|intros _].
    apply (hoare_bind _ _ _ (fun _ => live id)); [|by intros s v Hv].
    apply get_stays. }
  intros cid. apply (hoare_bind _ _ _ (fun _ => live id)); [apply mlift_live, json_set_defined|intros r1].
  apply (hoare_bind _ _ _ (fun _ => live id)); [|intros r2; apply send_live].
  destruct (json_find j (str "id")); [apply mlift_live, json_set_defined|by intros v Hv].
Qed.

Lemma handler_live id op error n : hoare (live id) (run_handler hmac verify id op error n) (fun _ => server_ok) (fun _ => live id).
Proof.
  assert (forall op', (forall s, pending_ok (set_pending (Some op') s)) ->
    hoare (live id) (modify_session id (set_pending (Some op'))) (fun _ => server_ok) (fun _ => live id)) as Hnext.
  { intros op' Hop. apply (hoare_pre _ _ _ _ _ (pending_done id (set_pending (Some op')) (fun _ => True) ltac:(by intros c s []) ltac:(intros s _; apply Hop))). done. }
  destruct op as [| | |h]; cbn [run_handler].
  - unfold read_handler_size. destruct error; [apply delete_live|]. destruct (negb (n =? 2)); [apply delete_live|].
    intros v Hv. pose proof Hv as [Ho (s & Es & Hs)]. rewrite <- (put_same id s v) by done.
    rewrite (M_bind_ret _ _ _ _ _ (get_put id s v)). destruct Hs as [Hi Hc Hz Ha].
    destruct (m_data_size s) as [|hi [|lo [|]]] eqn:Ed; try done.
    change (size_of_octets [hi; lo]) with (Ret ((byte_val hi * 256 + byte_val lo) mod 65536)). rewrite bind_lift.
    set (z := (byte_val hi * 256 + byte_val lo) mod 65536). pose proof (Z.mod_pos_bound (byte_val hi * 256 + byte_val lo) 65536 ltac:(lia)).
    set (d := take _ _). assert (zlen d <= 65535) as Hd by (unfold d, zlen; rewrite length_take; fold z; lia).
    rewrite (M_bind_ret _ _ _ _ _ (modify_put id _ s v)). set (s1 := set_received d s).
    assert (live id (put id s1 v)) as Hl1 by (split; [by apply others_put|]; exists s1; split; [apply put_lookup|]; split; [done|done|by cbn; rewrite Ed|done]).
    destruct d as [|c d'] eqn:Edd; [done|]. change (at_ (c :: d') 0) with (Ret c). rewrite bind_lift.
    refine (pending_done id _ (fun s => s = s1) _ _ (put id s1 v) _); [by intros x y []|by intros x ->|].
    split; [done|]. intros x. rewrite put_lookup. by intros [= <-].
  - unfold read_handler_data. destruct error; [apply delete_live|]. by apply Hnext.
  - unfold read_handler_hmac. destruct error; [apply delete_live|].
    apply (hoare_bind _ _ _ (fun _ => live id)).
    { apply get_stays. }
    intros s v Hv. rewrite (M_bind_ret mget _ _ v v) by done.
    destruct (verify _ _ _ =? -1); [by apply delete_live|]. unfold massert, oassert. destruct (verify _ _ _ =? 0); [|done].
    rewrite bind_lift. revert v Hv. change (hoare (live id) (mcatch (execute_rpc_command hmac id (m_received_data s)) (fun _ => delete_me id)) (fun _ => server_ok) (fun _ => live id)).
    apply (hoare_catch _ _ _ _ _ (fun _ => live id)); [apply execute_live|intros e; apply delete_live].
  - unfold write_handler. apply (hoare_catch _ _ _ _ _ (fun _ => live id)); [|intros e; apply delete_live].
    destruct error; [apply delete_live|by apply Hnext].
Qed.

Lemma transfer_live id op n data hm : triple (live id) (transfer id op n data hm) (live id).
Proof.
  assert (forall d b : bytes, length (fill_buffer d b) = length b) as Hfill
    by (intros d b; unfold fill_buffer; rewrite length_take, length_app, length_drop; lia).
  destruct op as [| | |h]; cbn [transfer]; [apply modify_live; intros c s []; split; try done; cbn; by rewrite Hfill..|].
  apply (hoare_bind _ _ _ (fun _ => live id)); [|intros s v Hv; exact Hv].
  apply get_stays.
Qed.

(** C17: whatever boost::asio reports and in whatever order (connections,
    completions with or without an error, with any data, resets), no handler
    touches a session that was destroyed or does anything else undefined; and
    while the thread runs every session has exactly one operation pending,
    with buffers of the right sizes: the invariant of the server. *)
Theorem rpc_server_well_formed ev (v : server) : server_ok v ->
  match step ev v with (Ret _, v') => server_ok v' | (Throw _, _) => False | (Abort_, _) => True | (Undef, _) => False end.
Proof.
  intros Hv. pose proof Hv as (H1 & H2 & H3). unfold rpc_step. rewrite (M_bind_ret mget _ _ v v) by done.
  destruct (io_running v) eqn:Er; [|done]. specialize (H3 eq_refl).
  assert (forall P Q : server -> Prop, (forall v, Q v -> m_rpc_functions_map v = fs /\ m_hmac_key v = key) -> P v ->
    hoare P (handle_rpc_event hmac verify ev) (fun _ => server_ok) (fun _ => Q) ->
    match mcatch (handle_rpc_event hmac verify ev) (fun _ => mmodify (with_running false)) v with
    | (Ret _, v') => server_ok v' | (Throw _, _) => False | (Abort_, _) => True | (Undef, _) => False end) as Hcatch.
  { intros P Q HQ HP Hh. specialize (Hh v HP). unfold mcatch.
    destruct (handle_rpc_event hmac verify ev v) as [[[]|e| |] v1]; try done. destruct (HQ v1 Hh). by split_and!. }
  destruct ev as [error|id error n data hm|id]; cbn [handle_rpc_event] in *.
  - apply (Hcatch server_ok (fun _ => False)); [done|done|]. clear. intros v (H1 & H2 & H3). unfold accept_handler.
    destruct error; cbn [negb when]; [done|]. unfold mbind, M_mbind, mmodify. cbn.
    split_and!; [done|done|]. intros Hr id s. cbn. destruct (decide (id = m_session_counter v + 1)) as [->|Hne].
    + rewrite lookup_insert_eq. intros [= <-]. split; [by split; cbn; lia|done].
    + rewrite lookup_insert_ne by done. intros E. destruct (H3 Hr id s E) as [[] ?]. split; [split; try done; cbn; lia|done].
  - unfold mcatch. rewrite (M_bind_ret mget _ _ v v) by done.
    destruct (m_session_list v !! id) as [s|] eqn:Es; [|done]. destruct (H3 id s Es) as [Hs Hp].
    destruct (s_pending s) as [op|] eqn:Eop; [|done].
    assert (live id v) as Hl by (split; [split_and!; [done|done|]; intros id' s' _; apply H3|by exists s]).
    assert (hoare (live id) (modify_session id (set_pending None);; transfer id op n data hm;; run_handler hmac verify id op error n)
      (fun _ => server_ok) (fun _ => live id)) as Hh.
    { apply (hoare_bind _ _ _ (fun _ => live id)); [by apply modify_live; intros c x []|intros _].
      apply (hoare_bind _ _ _ (fun _ => live id)); [apply transfer_live|intros _; apply handler_live]. }
    specialize (Hh v Hl). destruct ((modify_session id (set_pending None);; transfer id op n data hm;; run_handler hmac verify id op error n) v)
      as [[[]|e| |] v1]; try done. destruct Hh as [(? & ? & ?) ?]. by split_and!.
  - apply (Hcatch server_ok (fun _ => False)); [done|done|]. clear. intros v (H1 & H2 & H3).
    rewrite (M_bind_ret mget _ _ v v) by done. destruct (m_session_list v !! id) as [s|] eqn:Es; [|done].
    pose proof (modify_put id set_reset s v) as Em. rewrite (put_same id s v Es) in Em. rewrite Em.
    split_and!; [done|done|]. intros Hr id' s'. cbn.
    destruct (decide (id' = id)) as [->|Hne].
    + rewrite lookup_insert_eq. intros [= <-]. destruct (H3 Hr id s Es) as [[] ?]. by split.
    + rewrite lookup_insert_ne by done. by apply H3.
Qed.
End Safety.

(** ** Who can make the server run a command, and who can stop it *)

Section Quiet.
(** A property that sessions, their counter, the thread and the sockets do not touch. *)
Context (P : server -> Prop).
Hypothesis P_sessions : forall l v, P v -> P (with_sessions l v).
Hypothesis P_running : forall b v, P v -> P (with_running b v).
Hypothesis P_counter : forall c v, P v -> P (with_session_counter c v).
Hypothesis P_sent : forall id d v, P v -> P (add_sent id d v).
Notation quiet m := (preserves P m).

Lemma quiet_get {A} (f : server -> M server A) : (forall v, quiet (f v)) -> quiet (mget ≫= f).
Proof. intros Hf. apply preserves_bind; [by intros v Hv|apply Hf]. Qed.

Lemma quiet_session id : quiet (get_session id).
Proof. apply quiet_get. intros v. destruct (m_session_list v !! id); by intros w Hw. Qed.

Lemma quiet_modify id f : quiet (modify_session id f).
Proof. apply preserves_bind; [apply quiet_session|]. intros s v Hv. by apply P_sessions. Qed.

Lemma quiet_delete id : quiet (delete_me id).
Proof.
  apply preserves_bind; [apply quiet_session|intros s]. apply preserves_bind; [apply preserves_lift|]. intros _ v Hv. by apply P_sessions.
Qed.

Lemma quiet_transfer id op n data hm : quiet (transfer id op n data hm).
Proof.
  destruct op; cbn [transfer]; [apply quiet_modify..|]. apply preserves_bind; [apply quiet_session|]. intros s v Hv. by apply P_sent.
Qed.

Lemma quiet_handler id op error n : op <> op_read_hmac \/ error = true -> quiet (run_handler hmac verify id op error n).
Proof.
  intros Hop. destruct op as [| | |h]; cbn [run_handler].
  - unfold read_handler_size. destruct error; [apply quiet_delete|]. destruct (negb _); [apply quiet_delete|].
    apply preserves_bind; [apply quiet_session|intros s]. apply preserves_bind; [apply preserves_lift|intros z].
    apply preserves_bind; [apply quiet_modify|intros _]. apply preserves_bind; [apply preserves_lift|intros c]. apply quiet_modify.
  - unfold read_handler_data. destruct error; [apply quiet_delete|apply quiet_modify].
  - destruct Hop as [Hop| ->]; [done|]. apply quiet_delete.
  - apply preserves_catch; [destruct error; [apply quiet_delete|apply quiet_modify]|intros ex; apply quiet_delete].
Qed.

Lemma quiet_step m : quiet m -> quiet (mcatch m (fun _ => mmodify (with_running false))).
Proof. intros Hm. apply preserves_catch; [done|]. intros ex v Hv. by apply P_running. Qed.

Lemma quiet_accept error : quiet (accept_handler error).
Proof.
  destruct error; [by intros v Hv|]. intros v Hv. unfold accept_handler, mbind, M_mbind, mmodify. cbn [negb when snd].
  by apply P_sessions, P_counter.
Qed.

(** Then whole events keep it if the registered functions do, unless they end
    the program. *)
Hypothesis P_call : forall name msg, settles P (call_function name msg).

Lemma quiet_send id j : quiet (send_response hmac id j).
Proof.
  apply preserves_catch; [|intros ex; apply quiet_delete]. apply preserves_bind; [apply preserves_lift|intros _].
  apply preserves_bind; [apply quiet_modify|intros _]. apply preserves_bind; [apply preserves_lift|intros c].
  apply quiet_get. intros v. destruct (hmac _ _); [apply quiet_modify|apply preserves_throw].
Qed.

Lemma settles_execute id msg : settles P (execute_rpc_command hmac id msg).
Proof.
  apply settles_catch; [|intros ex; apply settles_preserves, quiet_delete].
  apply settles_bind; [apply settles_preserves, preserves_lift|intros j].
  apply settles_bind; [apply settles_preserves, preserves_lift|intros name].
  apply settles_bind; [apply P_call|intros r]. apply settles_preserves. apply preserves_bind.
  { apply preserves_bind; [apply quiet_modify|intros _]. apply preserves_bind; [apply quiet_session|intros s; apply preserves_ret]. }
  intros cid. apply preserves_bind; [apply preserves_lift|intros r1]. apply preserves_bind; [|intros r2; apply quiet_send].
  destruct (json_find j (str "id")); [apply preserves_lift|apply preserves_ret].
Qed.

Lemma settles_hmac id n error : settles P (run_handler hmac verify id op_read_hmac error n).
Proof.
  destruct error; [apply settles_preserves, quiet_delete|]. cbn [run_handler]. unfold read_handler_hmac.
  apply settles_bind; [apply settles_preserves, quiet_session|intros s1]. apply settles_bind; [by intros v Hv|intros w1].
  destruct (_ =? -1); [apply settles_preserves, quiet_delete|].
  apply settles_bind; [apply settles_preserves, preserves_lift|intros _].
  apply settles_catch; [apply settles_execute|intros ex; apply settles_preserves, quiet_delete].
Qed.

Lemma settles_event ev : settles P (step ev).
Proof.
  apply settles_bind; [by intros v Hv|]. intros v. destruct (io_running v); [|by intros w Hw].
  apply settles_catch; [|intros ex w Hw; by apply P_running].
  destruct ev as [error|id error n data hm|id]; cbn [handle_rpc_event].
  - apply settles_preserves, quiet_accept.
  - apply settles_bind; [by intros w Hw|]. intros w. destruct (m_session_list w !! id) as [s|]; [|by intros u Hu].
    destruct (s_pending s) as [op|]; [|by intros u Hu]. apply settles_bind; [apply settles_preserves, quiet_modify|intros _].
    apply settles_bind; [apply settles_preserves, quiet_transfer|intros _].
    destruct op; [apply settles_preserves, quiet_handler; by left..|apply settles_hmac|apply settles_preserves, quiet_handler; by left].
  - apply settles_preserves, quiet_get. intros w. destruct (m_session_list w !! id); [apply quiet_modify|apply preserves_ret].
Qed.
End Quiet.

(** C15: the rest of the program is only ever changed by the completion of a
    read of an authenticator that verifies under the server's key for the
    message received before it: connections, sizes, messages, wrong
    authenticators, errors and resets change nothing outside the server. *)
Theorem unauthenticated_runs_nothing ev (v : server) :
  srv_env (step ev v).2 = srv_env v \/
  exists id n data hm s, ev = ev_complete id false n data hm /\ m_session_list v !! id = Some s /\
    s_pending s = Some op_read_hmac /\
    verify (fill_buffer data (m_hmac_authenticator s)) (m_received_data s) (m_hmac_key v) = 0.
Proof.
  unfold rpc_step. rewrite (M_bind_ret mget _ _ v v) by done. destruct (io_running v); [|by left].
  destruct ev as [error|id error n data hm|id]; cbn [handle_rpc_event].
  - left. apply (quiet_step (fun w => srv_env w = srv_env v)); [done| |done]. by apply quiet_accept.
  - destruct (m_session_list v !! id) as [s|] eqn:Es.
    2: { left. unfold mcatch. rewrite (M_bind_ret mget _ _ v v) by done. by rewrite Es. }
    destruct (s_pending s) as [op|] eqn:Eop.
    2: { left. unfold mcatch. rewrite (M_bind_ret mget _ _ v v) by done. by rewrite Es, Eop. }
    assert (op <> op_read_hmac \/ error = true -> srv_env (mcatch (modify_session id (set_pending None);; transfer id op n data hm;;
      run_handler hmac verify id op error n) (fun _ => mmodify (with_running false)) v).2 = srv_env v) as Hq.
    { intros Hop. apply (quiet_step (fun w => srv_env w = srv_env v)); [done| |done]. apply preserves_bind; [by apply quiet_modify|intros _].
      apply preserves_bind; [by apply quiet_transfer|intros _]. by apply quiet_handler. }
    unfold mcatch in *. rewrite (M_bind_ret mget _ _ v v) by done. rewrite Es, Eop.
    destruct (decide (op <> op_read_hmac \/ error = true)) as [Hop|Hop]; [left; by apply Hq|].
    destruct error; [by destruct Hop; right|]. destruct op; try (by destruct Hop; left). clear Hop Hq.
    destruct (Z.eq_dec (verify (fill_buffer data (m_hmac_authenticator s)) (m_received_data s) (m_hmac_key v)) 0) as [E0|Hne];
      [right; by exists id, n, data, hm, s|left].
    rewrite <- (put_same id s v) by done. rewrite (M_bind_ret _ _ _ _ _ (modify_put id _ s v)).
    cbn [transfer]. rewrite (M_bind_ret _ _ _ _ _ (modify_put id _ _ v)). cbn [run_handler]. unfold read_handler_hmac.
    rewrite (M_bind_ret _ _ _ _ _ (get_put id _ v)). rewrite (M_bind_ret mget _ _ _ _ eq_refl).
    cbn [m_hmac_authenticator m_received_data m_hmac_key put with_sessions set_authenticator set_pending].
    destruct (_ =? -1).
    + match goal with |- context [delete_me id ?x] => set (w := x) end. pose proof (quiet_delete (fun w => srv_env w = srv_env v) ltac:(done) id w eq_refl) as Hd. destruct (delete_me id w) as [[[]|ex| |] w']; cbn in *; done.
    + rewrite (proj2 (Z.eqb_neq _ _)) by done. done.
  - left. apply (quiet_step (fun w => srv_env w = srv_env v)); [done| |done]. apply quiet_get. intros w.
    destruct (m_session_list w !! id); [by apply quiet_modify|by intros x Hx].
Qed.

Lemma stopped_forever evs (v : server) : io_running v = false -> rpc_thread (Env := Env) hmac verify evs v = (Ret tt, v).
Proof.
  intros Hr. unfold rpc_thread. induction evs as [|ev evs IH]; [done|]. cbn [mfor].
  assert (step ev v = (Ret tt, v)) as E by (unfold rpc_step; rewrite (M_bind_ret mget _ _ v v) by done; by rewrite Hr).
  by rewrite (M_bind_ret _ _ _ _ _ E).
Qed.

(** C16: anyone who can connect ends remote control for good, without the key:
    a message of size zero, or a connection that is reset while the server
    waits for a read, raises an exception that leaves the handler and the
    thread's io_service; no later event of any connection has any effect. *)
Theorem anyone_stops_rpc_server evs hm (v : server) : io_running v = true ->
  let id := m_session_counter v + 1 in
  (exists v', rpc_thread (Env := Env) hmac verify ([ev_accept false; ev_complete id false 2 [Byte.x00; Byte.x00] hm] ++ evs) v = (Ret tt, v')
    /\ io_running v' = false) /\
  (exists v', rpc_thread (Env := Env) hmac verify ([ev_accept false; ev_reset id; ev_complete id true 0 [] hm] ++ evs) v = (Ret tt, v')
    /\ io_running v' = false).
Proof.
  intros Hr id. set (v1 := with_session_counter id v).
  assert (step (ev_accept false) v = (Ret tt, put id (new_session id) v1)) as E1.
  { unfold rpc_step. rewrite (M_bind_ret mget _ _ v v) by done. by rewrite Hr. }
  assert (idle id (new_session id)) as Hi by done. assert (io_running v1 = true) as Hr1 by done.
  assert (forall (v2 : server) n, io_running v2 = false -> exists v', rpc_thread (Env := Env) hmac verify (drop n evs) v2 = (Ret tt, v') /\ io_running v' = false) as Hend
    by (intros v2 n H2; exists v2; by split; [apply stopped_forever|]).
  split; unfold rpc_thread; cbn [app mfor]; rewrite (M_bind_ret _ _ _ _ _ E1).
  - pose proof (size_step id Byte.x00 Byte.x00 hm (new_session id) v1 Hr1 eq_refl eq_refl) as E2. cbv zeta in E2.
    rewrite (M_bind_ret _ _ _ _ _ E2). by apply (Hend _ 0%nat).
  - assert (step (ev_reset id) (put id (new_session id) v1) = (Ret tt, put id (set_reset (new_session id)) v1)) as E2.
    { unfold rpc_step. rewrite (M_bind_ret mget _ _ _ _ eq_refl). cbn [io_running put with_sessions]. rewrite Hr1. unfold mcatch.
      cbn [handle_rpc_event]. rewrite (M_bind_ret mget _ _ _ _ eq_refl).
      change (with_sessions (<[id:=new_session id]> (m_session_list v1)) v1) with (put id (new_session id) v1). rewrite put_lookup. by rewrite modify_put. }
    rewrite (M_bind_ret _ _ _ _ _ E2).
    assert (exists v3, step (ev_complete id true 0 [] hm) (put id (set_reset (new_session id)) v1) = (Ret tt, v3) /\ io_running v3 = false) as (v3 & E3 & H3).
    { rewrite (complete_eval id true 0 [] hm _ op_read_size) by done. unfold mcatch. cbn [transfer run_handler].
      rewrite (M_bind_ret _ _ _ _ _ (modify_put id _ _ v1)). unfold read_handler_size, delete_me.
      rewrite (M_bind_ret _ _ _ _ _ (get_put id _ v1)). cbn. by eexists. }
    rewrite (M_bind_ret _ _ _ _ _ E3). by apply (Hend _ 0%nat).
Qed.

End Facts.

(** ** A concrete server

    Its state is a number and its one command adds one to it. *)
#[local] Existing Instance toy_json_lib.
#[local] Existing Instance toy_json_laws.

Definition toy_request (cmd : string) (more : list toy_json) : bytes :=
  json_dump (toy_object (toy_string (str "cmd") :: toy_string (str cmd) :: more) : json).

(** The authenticator is the key, filled up to 64 octets. *)
Definition toy_hmac (m k : bytes) : option bytes := Some (take 64 (k ++ replicate 64 Byte.x00)).
Definition toy_verify (a m k : bytes) : Z := if bool_decide (Some a = toy_hmac m k) then 0 else -1.
Definition toy_auth : bytes := replicate 32 Byte.x42 ++ replicate 32 Byte.x00.

Definition toy_inc : bytes -> M Z json := fun _ n => (json_object [(str "state", json_of_string (str "ok"))], n + 1).
Definition toy_server : c_rpc_server Z := (add_rpc_function (str "inc") toy_inc (new_rpc_server 5)).2.
Definition toy_connected : c_rpc_server Z := put 1 (new_session 1) (with_session_counter 1 toy_server).

Lemma toy_idle : idle 1 (new_session 1).
Proof. by split. Qed.

Lemma toy_hmac_ok m k a : toy_hmac m k = Some a -> zlen a = 64 /\ toy_verify a m k = 0.
Proof.
  intros E. unfold toy_verify. rewrite bool_decide_eq_true_2 by done. split; [|done].
  assert (zlen (take 64 (k ++ replicate 64 Byte.x00)) = 64) as Hz by (unfold zlen; rewrite length_take, length_app, length_replicate; lia).
  unfold toy_hmac in E. congruence.
Qed.


Lemma anyone_stops_rpc_server_witness : exists v',
  rpc_thread toy_hmac toy_verify ([ev_accept false; ev_complete 1 false 2 [Byte.x00; Byte.x00] []] ++ [ev_accept false]) toy_server = (Ret tt, v')
  /\ io_running v' = false.
Proof. apply (anyone_stops_rpc_server toy_hmac toy_verify [ev_accept false] [] toy_server eq_refl). Defined.

Lemma toy_functions_defined name f msg n : m_rpc_functions_map toy_server !! name = Some f -> (f msg n).1 <> Undef.
Proof.
  change (m_rpc_functions_map toy_server) with ({[ str "inc" := toy_inc ]} : gmap bytes (bytes -> M Z json)).
  intros [<- <-]%lookup_singleton_Some. by vm_compute.
Qed.

Lemma rpc_server_well_formed_witness :
  match rpc_step toy_hmac toy_verify (ev_accept false) toy_server with
  | (Ret _, v') => server_ok toy_hmac (m_rpc_functions_map toy_server) (m_hmac_key toy_server) v'
  | (Throw _, _) => False | (Abort_, _) => True | (Undef, _) => False end.
Proof.
  apply (rpc_server_well_formed toy_hmac toy_verify (m_rpc_functions_map toy_server) (m_hmac_key toy_server) toy_functions_defined).
  split; [reflexivity|split; [reflexivity|]]. intros _ id s E. change (m_session_list toy_server) with (∅ : gmap Z c_session) in E.
  apply lookup_empty_Some in E. destruct E.
Defined.
