(* ===== verification/Guiclient.v ===== *)
(** * The client of the remote control server (src-gui/netclient, dataeater)

    What the graphical interface does with the connection: framing and signing
    the commands it sends, cutting the stream it receives into replies and
    passing them on.  The socket of Qt and [commandExecutor] are lists of what
    they were given. *)
From S2P Require Import Prelude Json Rpcserver.

(** ** dataeater *)

Record dataeater := DataEater {
  m_internal_buffer : bytes;
  m_commands_list : list bytes;
  m_last_command : bytes;
  m_is_processing : bool;
  m_frame_size : option Z;     (* not initialised by the constructor *)
  m_current_index : option Z
}.

Definition new_dataeater : dataeater := DataEater [] [] [] false None None.

(** [pop_msg_size]: the size and what is left of the buffer. *)
Definition pop_msg_size (buffer : bytes) : outcome (Z * bytes) :=
  match buffer with
  | hi :: lo :: buffer => Ret ((byte_val hi * 256 + byte_val lo) mod 65536, buffer)
  | _ => Undef
  end.

(** The loop of [continiueProcessing]: buffer, command, index, and whether the
    frame is complete. *)
Fixpoint eat_loop (frame_size : Z) (buffer last : bytes) (index : Z) : bytes * bytes * Z * bool :=
  if index =? frame_size + crypto_auth_hmacsha512_BYTES then (buffer, last, index, true)
  else match buffer with
  | [] => ([], last, index, false)
  | c :: buffer => eat_loop frame_size buffer (last ++ [c]) (index + 1)
  end.

Definition eat_message : M dataeater unit :=
  d ← mget;
  match m_frame_size d, m_current_index d with
  | Some size, Some index =>
      let '(buffer, last, index, complete) := eat_loop size (m_internal_buffer d) (m_last_command d) index in
      if complete : bool then mput (DataEater buffer (m_commands_list d ++ [last]) [] false (Some size) (Some index))
      else mput (DataEater buffer (m_commands_list d) last (m_is_processing d) (Some size) (Some index))
  | _, _ => mundef
  end.

Definition continiueProcessing : M dataeater unit :=
  d ← mget;
  if m_is_processing d then eat_message
  else if zlen (m_internal_buffer d) <? 2 then mret tt
  else
    '(size, buffer) ← mlift (pop_msg_size (m_internal_buffer d));
    mput (DataEater buffer (m_commands_list d) (m_last_command d) true (Some size) (Some 0));;
    eat_message.

Definition eat (data : bytes) : M dataeater unit :=
  mmodify (fun d => DataEater (m_internal_buffer d ++ data) (m_commands_list d) (m_last_command d)
                      (m_is_processing d) (m_frame_size d) (m_current_index d));;
  continiueProcessing.

Definition getLastCommand (d : dataeater) : bytes := default [] (last (m_commands_list d)).

(** ** netClient *)

Record netClient := NetClient {
  m_data_eater : dataeater;
  nc_hmac_key : bytes;
  nc_connected : bool;
  nc_written : bytes;           (* what was written to the socket *)
  nc_executed : list bytes      (* what [parseAndExecMsg] was called with *)
}.

Definition new_netClient : netClient :=
  NetClient new_dataeater (replicate (Z.to_nat crypto_auth_hmacsha512_KEYBYTES) Byte.x42) true [] [].

Section Client.
Context (crypto_auth_hmacsha512 : bytes -> bytes -> option bytes).
Context (crypto_auth_hmacsha512_verify : bytes -> bytes -> bytes -> Z).
(** [QTcpSocket::write]: the number of octets taken. *)
Context (socket_write : bytes -> Z).

Definition serialize_msg (msg : bytes) : outcome bytes :=
  oassert (zlen msg <=? 65535);;
  Ret (octets_of_size (zlen msg) ++ msg).

Definition write_all (data : bytes) : M netClient unit :=
  mmodify (fun c => NetClient (m_data_eater c) (nc_hmac_key c) (nc_connected c)
             (nc_written c ++ take (Z.to_nat (socket_write data)) data) (nc_executed c));;
  mthrow_if (negb (socket_write data =? zlen data)) ex_runtime_error.

Definition send_msg (msg : bytes) : M netClient unit :=
  c ← mget;
  if negb (nc_connected c) then mret tt
  else
    packet ← mlift (serialize_msg msg);
    write_all packet;;
    match crypto_auth_hmacsha512 msg (nc_hmac_key c) with
    | None => mthrow ex_runtime_error
    | Some authenticator => write_all authenticator
    end.

Definition check_auth (key cmd_and_auth : bytes) : bool :=
  if zlen cmd_and_auth <=? crypto_auth_hmacsha512_BYTES then false
  else
    let cmd_size := zlen cmd_and_auth - crypto_auth_hmacsha512_BYTES in
    crypto_auth_hmacsha512_verify (drop (Z.to_nat cmd_size) cmd_and_auth) (take (Z.to_nat cmd_size) cmd_and_auth) key =? 0.

Definition on_eater (m : M dataeater unit) : M netClient unit := fun c =>
  let '(o, d) := m (m_data_eater c) in
  (o, NetClient d (nc_hmac_key c) (nc_connected c) (nc_written c) (nc_executed c)).

(** [onTcpReceive], with what [readAll] returned. *)
Definition onTcpReceive (data : bytes) : M netClient unit :=
  on_eater (eat data);;
  c ← mget;
  let last_cmd := getLastCommand (m_data_eater c) in
  if bool_decide (last_cmd = []) then mret tt
  else if negb (check_auth (nc_hmac_key c) last_cmd) then
    mput (NetClient (m_data_eater c) (nc_hmac_key c) false (nc_written c) (nc_executed c))
  else
    let last_cmd := take (length last_cmd - Z.to_nat crypto_auth_hmacsha512_BYTES) last_cmd in
    mput (NetClient (m_data_eater c) (nc_hmac_key c) (nc_connected c) (nc_written c) (nc_executed c ++ [last_cmd])).
End Client.
