(* ===== verification/GuiclientFacts.v ===== *)
(** * Theorems about the client of the remote control server

    The client cuts the stream into the replies that were sent, in order, for
    every way the network cuts it up; a command sent by the client is answered
    by the server and the answer reaches the interface; and the same answer is
    handed on again with every further piece of data. *)
From S2P Require Import Prelude Json Rpcserver RpcserverFacts Guiclient.

Section Eater.

(** A reply with its authenticator, as it is framed. *)
Definition sized (cmd : bytes) : Prop := 64 <= zlen cmd <= 65535 + 64.
Definition framed_cmd (cmd : bytes) : bytes := octets_of_size (zlen cmd - 64) ++ cmd.

Lemma eat_loop_eval size buffer : forall last index, index <= size + 64 ->
  eat_loop size buffer last index =
  let k := Z.to_nat (size + 64 - index) in
  if (k <=? length buffer)%nat then (drop k buffer, last ++ take k buffer, size + 64, true)
  else ([], last ++ buffer, index + zlen buffer, false).
Proof.
  induction buffer as [|c buffer IH]; intros last index Hi; cbn [eat_loop]; unfold crypto_auth_hmacsha512_BYTES; cbv zeta.
  - destruct (index =? size + 64) eqn:E; zbool.
    + subst. replace (size + 64 - (size + 64)) with 0 by lia. cbn. by rewrite app_nil_r.
    + rewrite (proj2 (Nat.leb_gt _ _)) by (cbn; lia). by rewrite app_nil_r, zlen_nil, Z.add_0_r.
  - destruct (index =? size + 64) eqn:E; zbool.
    + subst. replace (size + 64 - (size + 64)) with 0 by lia. change (Z.to_nat 0) with 0%nat. cbn [Nat.leb take drop length]. by rewrite app_nil_r.
    + rewrite IH by lia. cbv zeta. replace (Z.to_nat (size + 64 - index)) with (S (Z.to_nat (size + 64 - (index + 1)))) by lia.
      cbn [length Nat.leb take drop]. destruct (_ <=? _)%nat; rewrite <- app_assoc; [done|]. rewrite zlen_cons. do 2 f_equal. lia.
Qed.

(** What has been eaten: the commands, and the beginning of the next one. *)
Definition eaten (stream : bytes) (d : dataeater) : Prop :=
  Forall sized (m_commands_list d) /\
  if m_is_processing d then
    exists size, m_frame_size d = Some size /\ 0 <= size <= 65535 /\ m_current_index d = Some (zlen (m_last_command d)) /\
      zlen (m_last_command d) <= size + 64 /\
      stream = concat (map framed_cmd (m_commands_list d)) ++ octets_of_size size ++ m_last_command d ++ m_internal_buffer d
  else m_last_command d = [] /\ stream = concat (map framed_cmd (m_commands_list d)) ++ m_internal_buffer d.

Lemma eat_message_eval stream d : eaten stream d -> m_is_processing d = true ->
  exists d', eat_message d = (Ret tt, d') /\ eaten stream d'.
Proof.
  unfold eaten at 1. intros [Hc He] Hp. rewrite Hp in He. destruct He as (size & Es & Hs & Ei & Hi & ->).
  unfold eat_message. rewrite (M_bind_ret mget _ _ d d) by done. rewrite Es, Ei, eat_loop_eval by done. cbv zeta.
  set (k := Z.to_nat _). destruct (k <=? length (m_internal_buffer d))%nat eqn:Ek.
  - apply Nat.leb_le in Ek. eexists. split; [done|]. unfold eaten. cbn [m_commands_list m_is_processing m_last_command m_internal_buffer].
    assert (zlen (m_last_command d ++ take k (m_internal_buffer d)) = size + 64) as Hz.
    { rewrite zlen_app. unfold zlen at 2. rewrite length_take. pose proof (zlen_nonneg (m_last_command d)). unfold k in *. lia. }
    split_and!; [|done|].
    + apply Forall_app. split; [done|]. constructor; [|done]. unfold sized. rewrite Hz. lia.
    + rewrite map_app, concat_app. cbn [map concat]. unfold framed_cmd at 3. rewrite Hz, app_nil_r, <- !app_assoc.
      replace (size + 64 - 64) with size by lia. do 3 f_equal. by rewrite take_drop.
  - apply Nat.leb_gt in Ek. eexists. split; [done|]. unfold eaten. cbn. rewrite Hp. split; [done|]. exists size.
    rewrite zlen_app, app_nil_r. split_and!; try done; unfold k, zlen in *; lia.
Qed.

Lemma eat_eval stream d data : eaten stream d -> exists d', eat data d = (Ret tt, d') /\ eaten (stream ++ data) d'.
Proof.
  intros [Hc He]. unfold eat. rewrite (M_bind_ret (mmodify _) _ _ tt _ eq_refl).
  set (d1 := DataEater _ _ _ _ _ _). assert (eaten (stream ++ data) d1) as [Hc1 H1].
  { split; [done|]. cbn. destruct (m_is_processing d).
    - destruct He as (size & ? & ? & ? & ? & ->). exists size. split_and!; try done; [lia..|].
      cbn -[octets_of_size]. by rewrite <- !app_assoc.
    - destruct He as [? ->]. by rewrite <- app_assoc. }
  clearbody d1. unfold continiueProcessing. rewrite (M_bind_ret mget _ _ d1 d1) by done.
  destruct (m_is_processing d1) eqn:Ep; [by apply eat_message_eval; [split; [|rewrite Ep]|]|].
  destruct H1 as [Hl Hst]. destruct (zlen (m_internal_buffer d1) <? 2) eqn:Ez.
  { exists d1. split; [done|]. split; [done|]. by rewrite Ep. }
  zbool. destruct (m_internal_buffer d1) as [|hi [|lo buffer]] eqn:Eb; [by rewrite ?zlen_cons, ?zlen_nil in Ez; lia..|].
  pose proof (byte_val_range hi). pose proof (byte_val_range lo). set (size := byte_val hi * 256 + byte_val lo).
  assert (pop_msg_size (hi :: lo :: buffer) = Ret (size, buffer)) as ->.
  { unfold pop_msg_size. rewrite Z.mod_small by lia. done. }
  rewrite bind_lift. rewrite (M_bind_ret (mput _) _ _ tt _ eq_refl). apply eat_message_eval; [|done].
  split; [done|]. cbn [m_is_processing]. exists size. cbn -[octets_of_size]. rewrite Hl. change (zlen (@nil Byte.byte)) with 0. split_and!; try done; [lia..|].
  rewrite Hst. do 2 f_equal. assert (octets_of_size size = [hi; lo]) as ->; [|done].
  unfold octets_of_size. rewrite Z.shiftr_div_pow2 by lia. change 255 with (Z.ones 8). rewrite Z.land_ones by lia. change (2 ^ 8) with 256.
  unfold size. rewrite Z.div_add_l, Z.div_small, Z.add_0_r, byte_of_Z_val by lia.
  by rewrite Z.add_comm, Z_mod_plus_full, Z.mod_small, byte_of_Z_val by lia.
Qed.

Lemma eat_all chunks : forall stream d, eaten stream d ->
  exists d', mfor chunks eat d = (Ret tt, d') /\ eaten (stream ++ concat chunks) d'.
Proof.
  induction chunks as [|c chunks IH]; intros stream d Hd; cbn [mfor concat]; [by exists d; rewrite app_nil_r|].
  destruct (eat_eval stream d c Hd) as (d1 & E1 & H1). rewrite (M_bind_ret _ _ _ _ _ E1).
  destruct (IH _ d1 H1) as (d' & E & H2). exists d'. by rewrite app_assoc.
Qed.

Lemma eaten_new : eaten [] new_dataeater.
Proof. by split. Qed.

Lemma octets_inj m n : 0 <= m <= 65535 -> 0 <= n <= 65535 -> octets_of_size m = octets_of_size n -> m = n.
Proof.
  intros Hm Hn E. destruct (octets_size m Hm) as (h1 & l1 & E1 & <-). destruct (octets_size n Hn) as (h2 & l2 & E2 & <-).
  rewrite E1, E2 in E. by injection E as -> ->.
Qed.

(** Frames are read back in one way only. *)
Lemma frames_prefix cmds : forall rest rs, Forall sized cmds -> Forall sized rs ->
  concat (map framed_cmd cmds) ++ rest `prefix_of` concat (map framed_cmd rs) -> cmds `prefix_of` rs.
Proof.
  induction cmds as [|c cmds IH]; intros rest rs Hc Hr Hp; [apply prefix_nil|].
  apply Forall_cons in Hc as [Hc Hcs]. cbn [map concat] in Hp. unfold framed_cmd at 1 in Hp. rewrite <- !app_assoc in Hp.
  destruct rs as [|r rs]; [by apply prefix_nil_inv in Hp|]. apply Forall_cons in Hr as [Hr Hrs].
  cbn [map concat] in Hp. unfold framed_cmd at 2 in Hp. rewrite <- !app_assoc in Hp. unfold sized in Hc, Hr.
  assert (octets_of_size (zlen c - 64) = octets_of_size (zlen r - 64)) as Eo.
  { unfold octets_of_size in *. apply prefix_cons_inv_1 in Hp as H1. apply prefix_cons_inv_2 in Hp as Hp2.
    cbn [app] in Hp2. apply prefix_cons_inv_1 in Hp2 as H2. congruence. }
  assert (zlen c = zlen r) as El by (apply octets_inj in Eo; lia).
  rewrite Eo in Hp. apply prefix_app_inv in Hp. destruct Hp as [k Hk]. rewrite <- !app_assoc in Hk.
  apply app_inj_1 in Hk as [-> Hk]; [|unfold zlen in El; lia].
  apply prefix_cons. eapply (IH rest); [done..|]. exists k. by rewrite <- app_assoc.
Qed.

(** However the network cuts up the stream of replies, and wherever it
    ends for now, the client has cut out a beginning of the list of replies:
    whole, in order, none twice. *)
Lemma dataeater_in_order rs chunks : Forall sized rs -> concat chunks `prefix_of` concat (map framed_cmd rs) ->
  exists d, mfor chunks eat new_dataeater = (Ret tt, d) /\ m_commands_list d `prefix_of` rs.
Proof.
  intros Hr Hp. destruct (eat_all chunks [] new_dataeater eaten_new) as (d & E & Hc & Hd). exists d. split; [done|]. cbn [app] in Hd.
  destruct (m_is_processing d).
  - destruct Hd as (size & _ & _ & _ & _ & Hs). rewrite Hs in Hp. by eapply frames_prefix.
  - destruct Hd as [_ Hs]. rewrite Hs in Hp. by eapply frames_prefix.
Qed.
End Eater.

Section Call.
Context `{!JsonLib} `{!JsonLaws} {Env : Type}.
Context (hmac : bytes -> bytes -> option bytes) (verify : bytes -> bytes -> bytes -> Z) (socket_write : bytes -> Z).

Notation server := (@c_rpc_server _ Env).

(** Documented behaviour of libsodium's HMAC-SHA-512. *)
Hypothesis hmac_ok : forall m k a, hmac m k = Some a -> zlen a = 64 /\ verify a m k = 0.

(** A connected client that waits for a reply, [cmds] being the replies it
    has received. *)
Record waiting (cmds : list bytes) (c : netClient) : Prop := {
  waiting_connected : nc_connected c = true;
  waiting_buffer : m_internal_buffer (m_data_eater c) = [];
  waiting_commands : m_commands_list (m_data_eater c) = cmds;
  waiting_last : m_last_command (m_data_eater c) = [];
  waiting_idle : m_is_processing (m_data_eater c) = false
}.

(** A received reply passes the check and is cut off its authenticator. *)
Lemma accept_last key resp hash : zlen hash = 64 -> verify hash resp key = 0 -> 0 < zlen resp ->
  bool_decide (resp ++ hash = []) = false /\ check_auth verify key (resp ++ hash) = true /\
  take (length (resp ++ hash) - Z.to_nat crypto_auth_hmacsha512_BYTES) (resp ++ hash) = resp.
Proof.
  intros Hz Hv Hr. split_and!.
  - apply bool_decide_eq_false_2. destruct resp; [|done]. change (zlen (@nil Byte.byte)) with 0 in Hr. lia.
  - unfold check_auth, crypto_auth_hmacsha512_BYTES. rewrite zlen_app, Hz, (proj2 (Z.leb_gt _ _)) by lia.
    replace (zlen resp + 64 - 64) with (zlen resp) by lia. unfold zlen. by rewrite Nat2Z.id, drop_app_length, take_app_length, Hv.
  - rewrite length_app. change (Z.to_nat crypto_auth_hmacsha512_BYTES) with 64%nat.
    replace (length resp + length hash - 64)%nat with (length resp) by (unfold zlen in Hz; lia). by rewrite take_app_length.
Qed.

Lemma client_send_eval msg auth c : nc_connected c = true -> zlen msg <= 65535 -> hmac msg (nc_hmac_key c) = Some auth ->
  (forall d, socket_write d = zlen d) ->
  send_msg hmac socket_write msg c
  = (Ret tt, NetClient (m_data_eater c) (nc_hmac_key c) true (nc_written c ++ frame (msg, auth)) (nc_executed c)).
Proof.
  intros Hc Hm Hh Hw.
  assert (forall d c, write_all socket_write d c
    = (Ret tt, NetClient (m_data_eater c) (nc_hmac_key c) (nc_connected c) (nc_written c ++ d) (nc_executed c))) as Hwrite.
  { intros d c1. unfold write_all. rewrite (M_bind_ret (mmodify _) _ _ tt _ eq_refl). rewrite Hw, Z.eqb_refl.
    unfold mthrow_if, othrow_if. cbn [negb]. unfold zlen. by rewrite Nat2Z.id, firstn_all. }
  unfold send_msg. rewrite (M_bind_ret mget _ _ c c) by done. rewrite Hc. cbn [negb].
  unfold serialize_msg, oassert. rewrite (proj2 (Z.leb_le _ _)) by done.
  change (Ret tt ≫= _) with (Ret (octets_of_size (zlen msg) ++ msg)). rewrite bind_lift, (M_bind_ret _ _ _ _ _ (Hwrite _ c)), Hh, Hwrite.
  cbn [m_data_eater nc_hmac_key nc_connected nc_written nc_executed]. rewrite Hc. unfold frame. cbn [fst snd]. by rewrite <- !app_assoc.
Qed.

Lemma receive_eval cmds resp hash c : waiting cmds c -> 0 < zlen resp <= 65535 -> hmac resp (nc_hmac_key c) = Some hash ->
  exists c', onTcpReceive verify (reply resp hash) c = (Ret tt, c') /\ waiting (cmds ++ [resp ++ hash]) c' /\
    nc_executed c' = nc_executed c ++ [resp] /\ nc_hmac_key c' = nc_hmac_key c.
Proof.
  intros [Hc Hb Hcm Hl Hi] Hr Hh. destruct (hmac_ok _ _ _ Hh) as [Hz Hv].
  assert (eat (reply resp hash) (m_data_eater c) = (Ret tt, DataEater [] (cmds ++ [resp ++ hash]) [] false (Some (zlen resp)) (Some (zlen resp + 64)))) as E.
  { unfold eat. rewrite (M_bind_ret (mmodify _) _ _ tt _ eq_refl). unfold continiueProcessing. rewrite (M_bind_ret mget _ _ _ _ eq_refl).
    cbn [m_is_processing m_internal_buffer m_last_command m_commands_list]. rewrite Hi, Hb, Hl, Hcm. cbn [app].
    destruct (octets_size (zlen resp)) as (hi & lo & Eo & En); [lia|]. unfold reply. rewrite Eo. cbn [app].
    rewrite (proj2 (Z.ltb_ge _ _)) by (rewrite !zlen_cons; pose proof (zlen_nonneg (resp ++ hash)); lia).
    unfold pop_msg_size. rewrite En, Z.mod_small by lia. rewrite bind_lift, (M_bind_ret (mput _) _ _ tt _ eq_refl).
    unfold eat_message. rewrite (M_bind_ret mget _ _ _ _ eq_refl). cbn [m_frame_size m_current_index m_internal_buffer m_last_command m_commands_list].
    rewrite eat_loop_eval by lia. cbv zeta. replace (Z.to_nat (zlen resp + 64 - 0)) with (length (resp ++ hash)) by (rewrite length_app; unfold zlen in *; lia).
    rewrite Nat.leb_refl, drop_all, firstn_all. done. }
  unfold onTcpReceive. unfold on_eater, mbind at 1, M_mbind at 1. rewrite E. rewrite (M_bind_ret mget _ _ _ _ eq_refl).
  cbn [m_data_eater nc_hmac_key nc_connected nc_written nc_executed]. unfold getLastCommand. cbn [m_commands_list]. rewrite last_snoc. cbn [default].
  cbn [id]. destruct (accept_last (nc_hmac_key c) resp hash) as (-> & -> & ->); [done|done|lia|]. cbn [negb].
  eexists. split; [done|]. by split_and!.
Qed.

(** The reply is not taken out of the list of the client: any further
    octet that arrives, the start of the next reply, makes it execute the last
    reply again. *)
Lemma reply_executed_again cmds resp hash c octet : waiting (cmds ++ [resp ++ hash]) c -> 0 < zlen resp ->
  hmac resp (nc_hmac_key c) = Some hash ->
  exists c', onTcpReceive verify [octet] c = (Ret tt, c') /\ nc_executed c' = nc_executed c ++ [resp].
Proof.
  intros [Hc Hb Hcm Hl Hi] Hr Hh. destruct (hmac_ok _ _ _ Hh) as [Hz Hv].
  set (d := DataEater [octet] (cmds ++ [resp ++ hash]) [] false (m_frame_size (m_data_eater c)) (m_current_index (m_data_eater c))).
  assert (eat [octet] (m_data_eater c) = (Ret tt, d)) as E.
  { unfold eat. rewrite (M_bind_ret (mmodify _) _ _ tt _ eq_refl). unfold continiueProcessing. rewrite (M_bind_ret mget _ _ _ _ eq_refl).
    cbn [m_is_processing m_internal_buffer]. by rewrite Hi, Hb, Hl, Hcm. }
  unfold onTcpReceive. unfold on_eater, mbind at 1, M_mbind at 1. rewrite E. rewrite (M_bind_ret mget _ _ _ _ eq_refl).
  cbn [m_data_eater nc_hmac_key nc_connected nc_written nc_executed]. unfold getLastCommand. cbn [m_commands_list d]. rewrite last_snoc. cbn [default].
  cbn [id]. destruct (accept_last (nc_hmac_key c) resp hash) as (-> & -> & ->); [done|done|lia|]. cbn [negb].
  by eexists.
Qed.


End Call.

(** ** A concrete connection *)

#[local] Existing Instance toy_json_lib.
#[local] Existing Instance toy_json_laws.

Lemma toy_waiting : waiting [] new_netClient.
Proof. by split. Qed.

Definition toy_answer : bytes := match (answer (m_rpc_functions_map toy_server) 1 (toy_request "inc" []) (5, 499)).1 with Ret r => r | _ => [] end.


