(* ===== verification/Eint.v ===== *)
(** * stdplus::eint -- integer arithmetic that throws instead of overflowing

    Models [stdplus/eint.hpp].  A C++ integral type is its width and its
    signedness; the intermediate additions are evaluated after the integral
    promotion, at the width of the promoted type, and a signed overflow there
    is [Undef].  The theorems show that no call reaches an undefined
    operation, that a result is the mathematical one or [std::range_error],
    and that the mixed-sign comparisons are the comparisons of Z. *)
From S2P Require Import Prelude.

(** An integral type: [std::numeric_limits<T>]. *)
Record int_type := Int_type { width : Z; is_signed : bool }.

Definition t_min (T : int_type) : Z := if is_signed T then - 2 ^ (width T - 1) else 0.
Definition t_max (T : int_type) : Z :=
  if is_signed T then 2 ^ (width T - 1) - 1 else 2 ^ width T - 1.
Definition t_digits (T : int_type) : Z := if is_signed T then width T - 1 else width T.

Definition in_type (T : int_type) (z : Z) : bool := (t_min T <=? z) && (z <=? t_max T).

(** Integral promotion: types narrower than int become int. *)
Definition promote (T : int_type) : int_type :=
  if width T <? 32 then Int_type 32 true else T.

(** Value of an arithmetic expression whose operands have type [T]. *)
Definition arith (T : int_type) (z : Z) : outcome Z :=
  let P := promote T in
  if is_signed P then (if in_type P z then Ret z else Undef)
  else Ret (wrap (width P) z).

(** [static_cast<T>(z)], and the implicit conversion of a returned value. *)
Definition cast (T : int_type) (z : Z) : Z :=
  if is_signed T then wrap (width T) (z + 2 ^ (width T - 1)) - 2 ^ (width T - 1)
  else wrap (width T) z.

Definition eint_minus (T : int_type) (a b : Z) : outcome Z :=
  is_overflow ←
    (if b <? 0 then m ← arith T (t_max T + b); Ret (m <? a)
     else if 0 <? b then m ← arith T (t_min T + b); Ret (a <? m)
     else Ret false);
  if is_overflow : bool then Throw ex_range_error
  else r ← arith T (a - b); Ret (cast T r).

Definition eint_plus (T : int_type) (a b : Z) : outcome Z :=
  is_overflow ←
    (if 0 <? a then m ← arith T (t_max T - a); Ret (m <? b)
     else if a <? 0 then m ← arith T (t_min T - a); Ret (b <? m)
     else Ret false);
  if is_overflow : bool then Throw ex_range_error
  else r ← arith T (a + b); Ret (cast T r).

(** The three overloads of [eint_less], chosen by the signs of the types. *)
Definition eint_less_unsigned_signed (Ta Tb : int_type) (a b : Z) : bool :=
  if b <? 0 then false
  else if t_digits Tb <=? t_digits Ta then a <? cast Ta b
  else cast Tb a <? b.

Definition eint_less_signed_unsigned (Ta Tb : int_type) (a b : Z) : bool :=
  if a <? 0 then true
  else if t_digits Ta <=? t_digits Tb then cast Tb a <? b
  else a <? cast Ta b.

Definition eint_less_same_sign (a b : Z) : bool := a <? b.

Definition eint_less (Ta Tb : int_type) (a b : Z) : bool :=
  match is_signed Ta, is_signed Tb with
  | false, true => eint_less_unsigned_signed Ta Tb a b
  | true, false => eint_less_signed_unsigned Ta Tb a b
  | _, _ => eint_less_same_sign a b
  end.

(** The three overloads of [eint_equal]. *)
Definition eint_equal_unsigned_signed (Ta Tb : int_type) (a b : Z) : bool :=
  if b <? 0 then false
  else if t_digits Tb <=? t_digits Ta then a =? cast Ta b
  else cast Tb a =? b.

Definition eint_equal_signed_unsigned (Ta Tb : int_type) (a b : Z) : bool :=
  if a <? 0 then false
  else if t_digits Ta <=? t_digits Tb then cast Tb a =? b
  else a =? cast Ta b.

Definition eint_equal_same_sign (a b : Z) : bool := a =? b.

Definition eint_equal (Ta Tb : int_type) (a b : Z) : bool :=
  match is_signed Ta, is_signed Tb with
  | false, true => eint_equal_unsigned_signed Ta Tb a b
  | true, false => eint_equal_signed_unsigned Ta Tb a b
  | _, _ => eint_equal_same_sign a b
  end.

Definition eint_greater (Ta Tb : int_type) (a b : Z) : bool :=
  negb (eint_less Ta Tb a b || eint_equal Ta Tb a b).

(** ** Theorems *)

Definition wf_type (T : int_type) : bool := (if is_signed T then 2 else 1) <=? width T.

Lemma wf_type_pow T : wf_type T = true -> 1 <= 2 ^ (width T - 1) /\ 2 ^ width T = 2 * 2 ^ (width T - 1).
Proof.
  unfold wf_type. intros H. assert (1 <= width T) by (destruct (is_signed T); lia).
  split.
  - pose proof (Z.pow_pos_nonneg 2 (width T - 1)). lia.
  - rewrite <- Z.pow_succ_r by lia. f_equal. lia.
Qed.

Lemma in_type_iff T z : in_type T z = true <-> t_min T <= z <= t_max T.
Proof. unfold in_type. rewrite andb_true_iff, !Z.leb_le. lia. Qed.

Lemma cast_in_type T z : wf_type T = true -> in_type T z = true -> cast T z = z.
Proof.
  intros Hw Hz. apply in_type_iff in Hz. pose proof (wf_type_pow T Hw).
  unfold cast, wrap, t_min, t_max in *. destruct (is_signed T);
    rewrite Z.mod_small; lia.
Qed.

Lemma promote_wf T : wf_type T = true -> wf_type (promote T) = true.
Proof. unfold promote. by destruct (width T <? 32). Qed.

(** The values of a type are values of its promotion, as are sums of two
    values of a type narrower than int. *)
Lemma promote_in_type T z : wf_type T = true -> in_type T z = true -> in_type (promote T) z = true.
Proof.
  intros Hw. unfold promote. destruct (width T <? 32) eqn:E; [|done].
  rewrite !in_type_iff. pose proof (wf_type_pow T Hw).
  assert (2 ^ width T <= 2 ^ 31) by (apply Z.pow_le_mono_r; lia).
  unfold t_min, t_max. change (is_signed (Int_type 32 true)) with true.
  cbn [width is_signed]. change (2 ^ (32 - 1)) with (2 ^ 31).
  destruct (is_signed T); lia.
Qed.

Lemma arith_in_type T z : wf_type T = true -> in_type T z = true -> arith T z = Ret z.
Proof.
  intros Hw Hz. pose proof (promote_in_type T z Hw Hz) as Hp. unfold arith.
  destruct (is_signed (promote T)) eqn:E; [by rewrite Hp|].
  f_equal. pose proof (cast_in_type _ _ (promote_wf _ Hw) Hp) as Hc.
  unfold cast in Hc. by rewrite E in Hc.
Qed.

Ltac eint_range T :=
  let H := fresh in
  assert (H := wf_type_pow T ltac:(assumption));
  repeat match goal with
  | H : in_type _ _ = true |- _ => apply in_type_iff in H
  | H : in_type _ _ = false |- _ => apply not_true_iff_false in H; rewrite in_type_iff in H
  | |- in_type _ _ = true => apply in_type_iff
  end; unfold t_min, t_max in *; destruct (is_signed T); lia.

(** [eint_minus] returns the mathematical difference when the type can
    represent it and throws std::range_error otherwise, with no overflow in
    any intermediate expression. *)
Lemma eint_minus_correct T a b :
  wf_type T = true -> in_type T a = true -> in_type T b = true ->
  eint_minus T a b = if in_type T (a - b) then Ret (a - b) else Throw ex_range_error.
Proof.
  intros Hw Ha Hb. unfold eint_minus.
  assert (forall f : bool, f = negb (in_type T (a - b)) ->
    (if f then Throw ex_range_error else r ← arith T (a - b); Ret (cast T r)) =
    if in_type T (a - b) then Ret (a - b) else Throw ex_range_error) as Hfin.
  { intros f ->. destruct (in_type T (a - b)) eqn:E; cbn; [|done].
    rewrite arith_in_type by done. cbn. by rewrite cast_in_type. }
  destruct (b <? 0) eqn:E1; [|destruct (0 <? b) eqn:E2]; zbool.
  - rewrite (arith_in_type T (t_max T + b)) by first [done | eint_range T]. cbn. apply Hfin.
    destruct (in_type T (a - b)) eqn:E; cbn; [apply Z.ltb_ge | apply Z.ltb_lt]; eint_range T.
  - rewrite (arith_in_type T (t_min T + b)) by first [done | eint_range T]. cbn. apply Hfin.
    destruct (in_type T (a - b)) eqn:E; cbn; [apply Z.ltb_ge | apply Z.ltb_lt]; eint_range T.
  - cbn. apply (Hfin false). replace (a - b) with a by lia. by rewrite Ha.
Qed.

(** The same for [eint_plus]. *)
Theorem eint_plus_correct T a b :
  wf_type T = true -> in_type T a = true -> in_type T b = true ->
  eint_plus T a b = if in_type T (a + b) then Ret (a + b) else Throw ex_range_error.
Proof.
  intros Hw Ha Hb. unfold eint_plus.
  assert (forall f : bool, f = negb (in_type T (a + b)) ->
    (if f then Throw ex_range_error else r ← arith T (a + b); Ret (cast T r)) =
    if in_type T (a + b) then Ret (a + b) else Throw ex_range_error) as Hfin.
  { intros f ->. destruct (in_type T (a + b)) eqn:E; cbn; [|done].
    rewrite arith_in_type by done. cbn. by rewrite cast_in_type. }
  destruct (0 <? a) eqn:E1; [|destruct (a <? 0) eqn:E2]; zbool.
  - rewrite (arith_in_type T (t_max T - a)) by first [done | eint_range T]. cbn. apply Hfin.
    destruct (in_type T (a + b)) eqn:E; cbn; [apply Z.ltb_ge | apply Z.ltb_lt]; eint_range T.
  - rewrite (arith_in_type T (t_min T - a)) by first [done | eint_range T]. cbn. apply Hfin.
    destruct (in_type T (a + b)) eqn:E; cbn; [apply Z.ltb_ge | apply Z.ltb_lt]; eint_range T.
  - cbn. apply (Hfin false). replace (a + b) with b by lia. by rewrite Hb.
Qed.

(** A value of either type that is not negative fits the type with more
    value bits. *)
Lemma in_type_digits Ta Tb z :
  wf_type Ta = true -> wf_type Tb = true -> in_type Ta z = true -> 0 <= z ->
  t_digits Ta <= t_digits Tb -> in_type Tb z = true.
Proof.
  intros Hwa Hwb Ha H0 Hd. pose proof (wf_type_pow Ta Hwa). pose proof (wf_type_pow Tb Hwb).
  assert (2 ^ t_digits Ta <= 2 ^ t_digits Tb) by (apply Z.pow_le_mono_r; unfold t_digits, wf_type in *;
    destruct (is_signed Ta), (is_signed Tb); lia).
  apply in_type_iff in Ha. apply in_type_iff. unfold t_digits, t_min, t_max in *.
  destruct (is_signed Ta), (is_signed Tb); lia.
Qed.

Section Compare.
Context (Ta Tb : int_type) (a b : Z).
Context (Hwa : wf_type Ta = true) (Hwb : wf_type Tb = true).
Context (Ha : in_type Ta a = true) (Hb : in_type Tb b = true).

Lemma cast_right : 0 <= b -> t_digits Tb <= t_digits Ta -> cast Ta b = b.
Proof. intros. apply cast_in_type; [done|]. eauto using in_type_digits. Qed.

Lemma cast_left : 0 <= a -> t_digits Ta <= t_digits Tb -> cast Tb a = a.
Proof. intros. apply cast_in_type; [done|]. eauto using in_type_digits. Qed.

Lemma unsigned_nonneg T z : is_signed T = false -> in_type T z = true -> 0 <= z.
Proof. intros Hs Hz. apply in_type_iff in Hz. unfold t_min in Hz. rewrite Hs in Hz. lia. Qed.

Lemma eint_less_Z : eint_less Ta Tb a b = (a <? b).
Proof.
  unfold eint_less, eint_less_unsigned_signed, eint_less_signed_unsigned, eint_less_same_sign.
  destruct (is_signed Ta) eqn:Sa, (is_signed Tb) eqn:Sb; try done.
  - pose proof (unsigned_nonneg Tb b Sb Hb). repeat case_bool; zbool.
    + lia. + by rewrite cast_left by lia. + by rewrite cast_right by lia.
  - pose proof (unsigned_nonneg Ta a Sa Ha). repeat case_bool; zbool.
    + lia. + by rewrite cast_right by lia. + by rewrite cast_left by lia.
Qed.

Lemma eint_equal_Z : eint_equal Ta Tb a b = (a =? b).
Proof.
  unfold eint_equal, eint_equal_unsigned_signed, eint_equal_signed_unsigned, eint_equal_same_sign.
  destruct (is_signed Ta) eqn:Sa, (is_signed Tb) eqn:Sb; try done.
  - pose proof (unsigned_nonneg Tb b Sb Hb). repeat case_bool; zbool.
    + lia. + by rewrite cast_left by lia. + by rewrite cast_right by lia.
  - pose proof (unsigned_nonneg Ta a Sa Ha). repeat case_bool; zbool.
    + lia. + by rewrite cast_right by lia. + by rewrite cast_left by lia.
Qed.
End Compare.

(** For operands of any two types, mixed signs included, the comparisons
    are those of the mathematical values. *)
Lemma eint_comparisons_are_mathematical Ta Tb a b :
  wf_type Ta = true -> wf_type Tb = true -> in_type Ta a = true -> in_type Tb b = true ->
  eint_less Ta Tb a b = (a <? b) /\ eint_equal Ta Tb a b = (a =? b) /\
  eint_greater Ta Tb a b = (b <? a).
Proof.
  intros Hwa Hwb Ha Hb. unfold eint_greater.
  rewrite (eint_less_Z Ta Tb a b), (eint_equal_Z Ta Tb a b) by done.
  repeat split. lia.
Qed.

