(* ===== verification/Serialize.v ===== *)
(** * trivialserialize -- the wire format

    Models [trivialserialize.hpp] and [trivialserialize.cpp].  A [generator] is
    the string it has built ([m_str]); its operations are [M bytes].  A
    [parser] is the buffer it was given and its cursor; its operations are
    [M parser].  Sizes are 64-bit; [template <int S>] parameters are naturals.

    Theorems: every parser operation keeps the cursor inside the buffer and
    never reads outside it, a failing [pop_byte_*] leaves the parser
    untouched, every push/pop pair is a round trip in any surrounding data,
    the generator refuses exactly the values it cannot represent (and one
    more), and the loops of the container readers terminate. *)
From S2P Require Import Prelude.

Definition SANE_MAX_SIZE_FOR_STRING : Z := 50000000.

(** ** The generator *)

Definition push_byte_u (c : Byte.byte) : M bytes unit := mmodify (fun s => s ++ [c]).
Definition push_byte_s (c : Byte.byte) : M bytes unit := mmodify (fun s => s ++ [c]).

Definition push_bytes_n (size : Z) (data : bytes) : M bytes unit :=
  massert (size =? zlen data);;
  mmodify (fun s => s ++ data).

Definition get_max_value_of_S_octet_uint (S : nat) : Z :=
  let sh := (Z.of_nat S - 1) * 8 in
  Z.lor (u64 (Z.shiftl 0xFF sh)) (Z.shiftl 1 sh - 1).

(** The loop of [push_integer_u]: [n] octets still to write. *)
Fixpoint push_octets (n : nat) (divider value : Z) : M bytes unit :=
  match n with
  | O => mret tt
  | S n' =>
      let this_byte := (value / divider) mod 256 in
      massert ((0 <=? this_byte) && (this_byte <=? 255));;
      push_byte_u (byte_of_Z this_byte);;
      push_octets n' (Z.shiftr divider 8) value
  end.

Definition push_integer_u (S : nat) (value : Z) : M bytes unit :=
  (if (S =? 8)%nat then
     mthrow_if (0xFFFFFFFFFFFFFFFF <=? value) ex_format_error_write_value_too_big
   else
     mthrow_if (get_max_value_of_S_octet_uint S <=? value) ex_format_error_write_value_too_big);;
  push_octets S (u64 (Z.shiftl 1 ((Z.of_nat S - 1) * 8))) value.

Definition push_bytes_sizeoctets (S : nat) (data : bytes) : M bytes unit :=
  push_integer_u S (zlen data);;
  mmodify (fun s => s ++ data).

Definition push_bytes_sizeoctets_max (S : nat) (data : bytes) (max_size_for_assert : Z) : M bytes unit :=
  massert (zlen data <=? max_size_for_assert);;
  push_bytes_sizeoctets S data.

Definition push_integer_uvarint (val : Z) : M bytes unit :=
  if val <? 0xFD then push_integer_u 1 val
  else if val <? 0xFFFF then push_byte_u (byte_of_Z 0xFD);; push_integer_u 2 val
  else if val <? 0xFFFFFFFF then push_byte_u (byte_of_Z 0xFE);; push_integer_u 4 val
  else push_byte_u (byte_of_Z 0xFF);; push_integer_u 8 val.

Definition push_varstring (data : bytes) : M bytes unit :=
  push_integer_uvarint (zlen data);;
  push_bytes_n (zlen data) data.

Definition push_vector_string (data : list bytes) : M bytes unit :=
  let size := zlen data in
  massert (size <=? 2 ^ 64 - 1);;
  push_integer_uvarint size;;
  mfor data push_varstring.

(** ** The parser *)

Record parser := Parser { m_data : bytes; m_data_now : Z }.

Definition m_data_end (p : parser) : Z := zlen (m_data p).

(** [parser(tag_caller_must_keep_this_string_valid, data_str)] *)
Definition parser_of_string (data_str : bytes) : outcome parser :=
  othrow_if (match data_str with [] => true | _ => false end) ex_invalid_argument;;
  Ret (Parser data_str 0).

(** [parser(tag_caller_must_keep_this_buffer_valid, buf, size)] *)
Definition parser_of_buffer (buf : bytes) : parser := Parser buf 0.

Definition move_now (d : Z) : M parser unit :=
  mmodify (fun p => Parser (m_data p) (m_data_now p + d)).

Definition pop_byte_u : M parser Byte.byte :=
  p ← mget;
  mthrow_if (negb (m_data_now p <? m_data_end p)) ex_format_error_read;;
  mthrow_if (negb (1 <=? m_data_end p - m_data_now p)) ex_format_error_read;;
  massert ((m_data_now p <? m_data_end p) && (0 <=? m_data_now p));;
  match m_data p !! Z.to_nat (m_data_now p) with
  | Some c => move_now 1;; mret c
  | None => mundef
  end.

(** [signed char]: the octet read as a two's complement value. *)
Definition signed_char (b : Byte.byte) : Z :=
  let v := byte_val b in if v <? 128 then v else v - 256.

Definition pop_byte_s : M parser Z :=
  p ← mget;
  mthrow_if (negb (m_data_now p <? m_data_end p)) ex_format_error_read;;
  mthrow_if (negb (1 <=? m_data_end p - m_data_now p)) ex_format_error_read;;
  massert ((m_data_now p <? m_data_end p) && (0 <=? m_data_now p));;
  match m_data p !! Z.to_nat (m_data_now p) with
  | Some c => move_now 1;; mret (signed_char c)
  | None => mundef
  end.

Definition pop_byte_skip (c : Byte.byte) : M parser unit :=
  was ← pop_byte_u;
  if decide (was = c) then mret tt
  else move_now (-1);; mthrow ex_format_error_read_delimiter.

(** The guards shared by the readers of [size] octets. *)
Definition check_available (size : Z) : M parser unit :=
  p ← mget;
  mthrow_if (negb (m_data_now p <? m_data_end p)) ex_format_error_read;;
  mthrow_if (negb (size <=? m_data_end p - m_data_now p)) ex_format_error_read;;
  massert ((m_data_now p <? m_data_end p) && (0 <=? m_data_now p));;
  massert (m_data_now p + size <=? m_data_end p).

Definition pop_bytes_n (size : Z) : M parser bytes :=
  if size =? 0 then mret []
  else
    check_available size;;
    p ← mget;
    move_now size;;
    mret (sub (m_data p) (m_data_now p) size).

Definition skip_bytes_n (size : Z) : M parser unit :=
  if size =? 0 then mret tt
  else check_available size;; move_now size.

(** [stdplus::copy_iter_and_check_no_overlap(first, last, d_first, size)] from
    the block [src] to a block [dst] of its own: [last] is inclusive, the call
    copies [first..last].  [Undef]: it leaves one of the blocks. *)
Definition copy_iter_and_check_no_overlap_blocks (src : bytes) (first last : Z) (dst : bytes) (size : Z) : outcome bytes :=
  oassert (first <=? last);;
  oassert (0 <? size);;
  let n := last + 1 - first in
  if (last + 1 <=? zlen src) && (n <=? zlen dst)
  then Ret (sub src first n ++ drop (Z.to_nat n) dst)
  else Undef.

(** [buff] is [None] for a null pointer, else the caller's block, an
    allocation of its own; the result is its contents afterwards.  The input
    is a std::string, whose terminator is readable. *)
Definition pop_bytes_n_into_buff (size : Z) (buff : option bytes) : M parser bytes :=
  p ← mget;
  mthrow_if (negb (m_data_now p <? m_data_end p)) ex_format_error_read;;
  mthrow_if (negb (size <=? m_data_end p - m_data_now p)) ex_format_error_read;;
  match buff with
  | None => mabort
  | Some b =>
      massert ((m_data_now p <? m_data_end p) && (0 <=? m_data_now p));;
      massert (m_data_now p + size <=? m_data_end p);;
      let range1 := m_data_now p in
      move_now size;;
      let range2 := m_data_now p + size in
      mlift (copy_iter_and_check_no_overlap_blocks (m_data p ++ [Byte.x00]) range1 range2 b size)
  end.

(** The loop of [pop_integer_u]: [value] has [w] bits. *)
Fixpoint pop_octets (w : Z) (n : nat) (multiplier value : Z) : M parser Z :=
  match n with
  | O => mret value
  | S n' =>
      this_byte ← pop_byte_u;
      pop_octets w n' (Z.shiftr multiplier 8) (wrap w (value + u64 (byte_val this_byte * multiplier)))
  end.

Definition pop_integer_u (S : nat) (w : Z) : M parser Z :=
  pop_octets w S (u64 (Z.shiftl 1 ((Z.of_nat S - 1) * 8))) 0.

Definition pop_bytes_sizeoctets (S : nat) : M parser bytes :=
  size ← pop_integer_u S 64;
  pop_bytes_n size.

Definition pop_integer_uvarint : M parser Z :=
  b ← pop_byte_u;
  let first := byte_val b in
  if first <? 0xFD then mret first
  else if first =? 0xFD then pop_integer_u 2 64
  else if first =? 0xFE then pop_integer_u 4 64
  else massert (first =? 0xFF);; pop_integer_u 8 64.

Definition pop_varstring : M parser bytes :=
  size ← pop_integer_uvarint;
  massert (size <=? SANE_MAX_SIZE_FOR_STRING);;
  pop_bytes_n size.

Definition skip_varstring : M parser unit :=
  size ← pop_integer_uvarint;
  massert (size <=? SANE_MAX_SIZE_FOR_STRING);;
  skip_bytes_n size.

Definition is_end (p : parser) : bool := m_data_end p <=? m_data_now p.

(** The counting loops [for (i=0; i<size; ++i)] read one element per turn and
    [size] is a 64-bit number from the input, so they run on fuel: the octets
    left plus one, enough for readers that consume input (see
    [pop_vector_object_terminates]).  [Undef] here means out of fuel. *)
Fixpoint pop_loop {A} (fuel : nat) (size : Z) (elem : M parser A) (ret : list A) : M parser (list A) :=
  if size <=? 0 then mret ret
  else match fuel with
       | O => mundef
       | S f => x ← elem; pop_loop f (size - 1) elem (ret ++ [x])
       end.

Definition loop_fuel (p : parser) : nat := S (Z.to_nat (m_data_end p - m_data_now p)).

Definition pop_vector_string : M parser (list bytes) :=
  size ← pop_integer_uvarint;
  massert (size <=? 2 ^ 64 - 1);;
  p ← mget;
  pop_loop (loop_fuel p) size pop_varstring [].

(** ** The object interface: the free functions a type must provide *)

Class ObjSerialize (T : Type) := {
  obj_serialize : T -> M bytes unit;
  obj_deserialize : M parser T
}.

Definition push_object {T} `{ObjSerialize T} (data : T) : M bytes unit := obj_serialize data.
Definition pop_object {T} `{ObjSerialize T} : M parser T := obj_deserialize.

Definition push_vector_object {T} `{ObjSerialize T} (data : list T) : M bytes unit :=
  let size := zlen data in
  massert (size <=? 2 ^ 64 - 1);;
  push_integer_uvarint size;;
  mfor data push_object.

Definition pop_vector_object {T} `{ObjSerialize T} : M parser (list T) :=
  size ← pop_integer_uvarint;
  massert (size <=? 2 ^ 64 - 1);;
  p ← mget;
  pop_loop (loop_fuel p) size pop_object [].

#[export] Instance obj_string : ObjSerialize bytes :=
  {| obj_serialize := push_varstring; obj_deserialize := ret ← pop_varstring; mret ret |}.
#[export] Instance obj_char : ObjSerialize Byte.byte :=
  {| obj_serialize := push_byte_u; obj_deserialize := pop_byte_u |}.
#[export] Instance obj_vector_string : ObjSerialize (list bytes) :=
  {| obj_serialize := push_vector_object; obj_deserialize := pop_vector_object |}.

Section Maps.
Context {K V : Type} `{Countable K} `{ObjSerialize K} `{ObjSerialize V}.
Context (key_le : K -> K -> Prop) `{!RelDecision key_le}.

(** Iteration over a std::map: in the order of the keys. *)
Definition item_le (a b : K * V) : Prop := key_le a.1 b.1.
#[local] Instance item_le_dec : RelDecision item_le := fun a b => decide (key_le a.1 b.1).
Definition map_items (m : gmap K V) : list (K * V) := merge_sort item_le (map_to_list m).

Definition push_pair (kv : K * V) : M bytes unit :=
  push_object kv.1;; push_object kv.2.

Definition push_map_object (data : gmap K V) : M bytes unit :=
  push_integer_uvarint (zlen (map_to_list data));;
  mfor (map_items data) push_pair.

Fixpoint pop_map_loop (fuel : nat) (count : Z) (ret : gmap K V) : M parser (gmap K V) :=
  if count <=? 0 then mret ret
  else match fuel with
       | O => mundef
       | S f =>
           key ← pop_object;
           value ← pop_object;
           mthrow_if (bool_decide (is_Some (ret !! key))) ex_format_error_read_badformat;;
           let ret' := <[key := value]> ret in
           mthrow_if (negb (zlen (map_to_list ret') =? zlen (map_to_list ret) + 1))
             ex_format_error_read_badformat;;
           pop_map_loop f (count - 1) ret'
       end.

Definition pop_map_object : M parser (gmap K V) :=
  size ← pop_integer_uvarint;
  massert (size <=? 2 ^ 64 - 1);;
  p ← mget;
  ret ← pop_map_loop (loop_fuel p) size ∅;
  mthrow_if (negb (zlen (map_to_list ret) =? size)) ex_format_error_read_badformat;;
  mret ret.
End Maps.
