(* ===== verification/Caps.v ===== *)
(** * Capabilities of the process (capmodpp)

    Models [utils/capmodpp.hpp] and [utils/capmodpp.cpp]: the wrappers of
    libcap-ng that throw instead of returning error codes, states and changes
    of capabilities, their text, and applying a change to the process.

    libcap-ng and the kernel are the class [CapNg] on a state [S]: what the
    library remembers and what the process has.  Its constants are integers,
    as in the C interface. *)
From Stdlib Require Import String.
From S2P Require Import Prelude Serialize.

Class CapNg (S : Type) := {
  CAPNG_FAIL : Z; CAPNG_NONE : Z; CAPNG_PARTIAL : Z; CAPNG_FULL : Z;
  CAPNG_DROP : Z; CAPNG_ADD : Z;
  CAPNG_EFFECTIVE : Z; CAPNG_PERMITTED : Z; CAPNG_INHERITABLE : Z; CAPNG_BOUNDING_SET : Z;
  CAPNG_SELECT_CAPS : Z; CAPNG_SELECT_BOUNDS : Z; CAPNG_SELECT_BOTH : Z;
  CAP_LAST_CAP : Z;
  capng_have_capability : Z -> Z -> M S Z;
  capng_have_capabilities : Z -> M S Z;
  capng_capability_to_name : Z -> option bytes;   (* None: nullptr *)
  capng_name_to_capability : bytes -> Z;
  capng_get_caps_process : M S Z;
  capng_update : Z -> Z -> Z -> M S Z;            (* action, type, capability *)
  capng_apply : Z -> M S Z
}.

(** ** Numbers of capabilities *)

Section Numbers.
Context {S : Type} `{!CapNg S}.

Definition get_last_cap_nr : Z := CAP_LAST_CAP.
Definition get_cap_size : Z := wrap 32 (CAP_LAST_CAP + 1).

(** An [int] and an [unsigned int]. *)
Definition safe_less_eq_than (a b : Z) : bool :=
  if a <? 0 then true else wrap 32 a <=? b.

(** The string a pointer of type [const char*] points to: up to the first NUL. *)
Fixpoint c_string (s : bytes) : bytes :=
  match s with
  | [] => []
  | c :: s' => if bool_decide (c = Byte.x00) then [] else c :: c_string s'
  end.

Definition max_expected_cap_name_length : Z := 256.
End Numbers.

(** ** Wrappers that throw *)

Section Wrappers.
Context {S : Type} `{!CapNg S}.

Definition secure_capng_have_capability (which capability : Z) : M S Z :=
  ret ← capng_have_capability which capability;
  let fail := ret =? CAPNG_FAIL in
  let badval := negb ((ret =? 0) || (ret =? 1)) in
  mthrow_if (fail || badval) ex_capmodpp_error;;
  mret ret.

Definition secure_capng_have_capabilities (set : Z) : M S Z :=
  mthrow_if (negb ((set =? CAPNG_SELECT_CAPS) || (set =? CAPNG_SELECT_BOUNDS) || (set =? CAPNG_SELECT_BOTH))) ex_capmodpp_error;;
  ret ← capng_have_capabilities set;
  let fail := ret =? CAPNG_FAIL in
  let badval := negb ((ret =? CAPNG_NONE) || (ret =? CAPNG_PARTIAL) || (ret =? CAPNG_FULL)) in
  mthrow_if (fail || badval) ex_capmodpp_error;;
  mthrow_if (negb (ret =? CAPNG_FAIL) && negb (0 <=? ret)) ex_capmodpp_error;;
  mret ret.

Definition secure_capng_capability_to_name (capability : Z) : outcome bytes :=
  othrow_if (negb (capability <=? get_last_cap_nr)) ex_capmodpp_error;;
  match capng_capability_to_name capability with
  | Some name => Ret name
  | None => Throw ex_capmodpp_error
  end.

Definition secure_capng_name_to_capability (name : option bytes) : outcome Z :=
  match name with
  | None => Throw ex_capmodpp_error
  | Some name =>
      let len := zlen (c_string name) in
      othrow_if ((len <=? 0) || (max_expected_cap_name_length <? len)) ex_capmodpp_error;;
      let ret := capng_name_to_capability (c_string name) in
      let fail := ret =? -1 in
      let badval := negb ((0 <=? ret) && safe_less_eq_than ret get_last_cap_nr) in
      othrow_if (fail || badval) ex_capmodpp_error;;
      Ret ret
  end.

Definition secure_capng_get_caps_process : M S unit :=
  ret ← capng_get_caps_process;
  mthrow_if (negb (ret =? 0)) ex_capmodpp_error.

Definition secure_capng_update (action type capability : Z) : M S unit :=
  mthrow_if (negb ((action =? CAPNG_DROP) || (action =? CAPNG_ADD))) ex_capmodpp_error;;
  mthrow_if (negb ((type =? CAPNG_EFFECTIVE) || (type =? CAPNG_PERMITTED) || (type =? CAPNG_INHERITABLE)
    || (type =? CAPNG_BOUNDING_SET))) ex_capmodpp_error;;
  mthrow_if (negb (capability <=? get_last_cap_nr)) ex_capmodpp_error;;
  ret ← capng_update action type capability;
  mthrow_if (negb (ret =? 0)) ex_capmodpp_error.

Definition secure_capng_apply (set : Z) : M S unit :=
  mthrow_if (negb ((set =? CAPNG_SELECT_CAPS) || (set =? CAPNG_SELECT_BOUNDS) || (set =? CAPNG_SELECT_BOTH))) ex_capmodpp_error;;
  ret ← capng_apply set;
  mthrow_if (negb (ret =? 0)) ex_capmodpp_error.

Definition cap_nr_to_name (nr : Z) : outcome bytes :=
  othrow_if (CAP_LAST_CAP <? nr) ex_runtime_error;;
  secure_capng_capability_to_name nr.

Definition cap_name_to_nr (name : bytes) : outcome Z :=
  nr ← secure_capng_name_to_capability (Some name);
  othrow_if ((get_last_cap_nr <=? nr) || (nr <? 0)) ex_runtime_error;;
  Ret nr.
End Wrappers.

(** ** States *)

Inductive cap_area_type := area_eff | area_permit | area_inherit | area_bounding.
Inductive cap_perm := perm_no | perm_yes.

#[export] Instance cap_area_eq_dec : EqDecision cap_area_type.
Proof. solve_decision. Defined.
#[export] Instance cap_perm_eq_dec : EqDecision cap_perm.
Proof. solve_decision. Defined.

Definition is_true_perm (value : cap_perm) : bool := bool_decide (value = perm_yes).
Definition not_perm (value : cap_perm) : bool := negb (bool_decide (value = perm_yes)).

Record cap_state := CapState { s_eff : cap_perm; s_permit : cap_perm; s_inherit : cap_perm; s_bounding : cap_perm }.

Definition new_cap_state : cap_state := CapState perm_no perm_no perm_no perm_no.

Definition is_usable (s : cap_state) : bool :=
  if is_true_perm (s_eff s) then true
  else if is_true_perm (s_permit s) then true
  else if is_true_perm (s_inherit s) then true
  else false.

Definition is_any (s : cap_state) : bool :=
  if is_true_perm (s_eff s) then true
  else if is_true_perm (s_permit s) then true
  else if is_true_perm (s_inherit s) then true
  else if is_true_perm (s_bounding s) then true
  else false.

(** [std::map<cap_nr, cap_state>] *)
Notation cap_state_map := (gmap Z cap_state).

(** ** Changes *)

Inductive cap_permchange := pc_disable | pc_enable | pc_unchanged.

#[export] Instance cap_permchange_eq_dec : EqDecision cap_permchange.
Proof. solve_decision. Defined.

Record cap_statechange := CapStatechange {
  c_eff : cap_permchange; c_permit : cap_permchange; c_inherit : cap_permchange; c_bounding : cap_permchange
}.

Definition new_statechange : cap_statechange := CapStatechange pc_unchanged pc_unchanged pc_unchanged pc_unchanged.

Definition statechange (given_eff given_permit given_inherit : cap_permchange) : cap_statechange :=
  CapStatechange given_eff given_permit given_inherit pc_unchanged.

Definition statechange_set (area : cap_area_type) (value : cap_permchange) (c : cap_statechange) : cap_statechange :=
  match area with
  | area_eff => CapStatechange value (c_permit c) (c_inherit c) (c_bounding c)
  | area_permit => CapStatechange (c_eff c) value (c_inherit c) (c_bounding c)
  | area_inherit => CapStatechange (c_eff c) (c_permit c) value (c_bounding c)
  | area_bounding => CapStatechange (c_eff c) (c_permit c) (c_inherit c) value
  end.

Definition is_change (c : cap_statechange) : bool :=
  if negb (bool_decide (c_eff c = pc_unchanged)) then true
  else if negb (bool_decide (c_permit c = pc_unchanged)) then true
  else if bool_decide (c_inherit c = pc_unchanged) then true
  else if bool_decide (c_bounding c = pc_unchanged) then true
  else false.

Definition apply_change_perm (perm : cap_perm) (change : cap_permchange) : cap_perm :=
  match change with
  | pc_enable => perm_yes
  | pc_disable => perm_no
  | pc_unchanged => perm
  end.

Definition apply_change (change : cap_statechange) (s : cap_state) : cap_state :=
  CapState (apply_change_perm (s_eff s) (c_eff change)) (apply_change_perm (s_permit s) (c_permit change))
    (apply_change_perm (s_inherit s) (c_inherit change)) (apply_change_perm (s_bounding s) (c_bounding change)).

Record cap_statechange_full := StatechangeFull { given : gmap Z cap_statechange; all_others : cap_statechange }.

Definition new_statechange_full : cap_statechange_full := StatechangeFull ∅ new_statechange.

(** [std::map::emplace]: an entry that exists is kept. *)
Definition map_emplace {V} (k : Z) (v : V) (m : gmap Z V) : gmap Z V :=
  match m !! k with Some _ => m | None => <[k := v]> m end.

Section Process.
Context {S : Type} `{!CapNg S}.

Definition statechange_map_set (capname : bytes) (change : cap_statechange) (m : gmap Z cap_statechange) : outcome (gmap Z cap_statechange) :=
  nr ← cap_name_to_nr capname;
  Ret (map_emplace nr change m).

Definition set_given_cap (capname : bytes) (change : cap_statechange) (f : cap_statechange_full) : outcome cap_statechange_full :=
  g ← statechange_map_set capname change (given f);
  Ret (StatechangeFull g (all_others f)).

Definition set_all_others (change : cap_statechange) (f : cap_statechange_full) : cap_statechange_full :=
  StatechangeFull (given f) change.

Definition perm_of (ret : Z) : cap_perm := if 0 <? ret then perm_yes else perm_no.

Definition read_cap (nr : Z) (statemap : cap_state_map) : M S cap_state_map :=
  eff ← secure_capng_have_capability CAPNG_EFFECTIVE nr;
  permit ← secure_capng_have_capability CAPNG_PERMITTED nr;
  inherit ← secure_capng_have_capability CAPNG_INHERITABLE nr;
  bounding ← secure_capng_have_capability CAPNG_BOUNDING_SET nr;
  mret (map_emplace nr (CapState (perm_of eff) (perm_of permit) (perm_of inherit) (perm_of bounding)) statemap).

Fixpoint read_caps (nrs : list Z) (statemap : cap_state_map) : M S cap_state_map :=
  match nrs with
  | [] => mret statemap
  | nr :: nrs' => m ← read_cap nr statemap; read_caps nrs' m
  end.

(** [for (nr=0; nr<=CAP_LAST_CAP; ++nr)] *)
Definition all_caps : list Z := map Z.of_nat (seq 0 (Z.to_nat (CAP_LAST_CAP + 1))).

Definition read_process_caps : M S cap_state_map :=
  secure_capng_get_caps_process;;
  read_caps all_caps ∅.

(** The change that concerns number [nr]. *)
Definition change_for (f : cap_statechange_full) (nr : Z) : cap_statechange :=
  match given f !! nr with Some c => c | None => all_others f end.

Definition state_changed (f : cap_statechange_full) (state_old : cap_state_map) : cap_state_map :=
  map_imap (fun nr cap => Some (apply_change (change_for f nr) cap)) state_old.

(** [if (cap_new.x != cap_old.x) secure_capng_update(...)] *)
Definition update_difference (type nr : Z) (cap_old cap_new : cap_perm) : M S unit :=
  when (negb (bool_decide (cap_new = cap_old)))
    (secure_capng_update (if is_true_perm cap_new then CAPNG_ADD else CAPNG_DROP) type nr).

Definition apply_item (state_old : cap_state_map) (item : Z * cap_state) : M S unit :=
  let '(nr, cap_new) := item in
  match state_old !! nr with
  | None => mthrow ex_out_of_range
  | Some cap_old =>
      update_difference CAPNG_BOUNDING_SET nr (s_bounding cap_old) (s_bounding cap_new);;
      update_difference CAPNG_PERMITTED nr (s_permit cap_old) (s_permit cap_new);;
      update_difference CAPNG_EFFECTIVE nr (s_eff cap_old) (s_eff cap_new);;
      update_difference CAPNG_INHERITABLE nr (s_inherit cap_old) (s_inherit cap_new)
  end.

Definition security_apply_now (f : cap_statechange_full) : M S unit :=
  state_old ← read_process_caps;
  let state_new := state_changed f state_old in
  secure_capng_get_caps_process;;
  mfor (map_items Z.le state_new) (apply_item state_old);;
  secure_capng_apply CAPNG_SELECT_BOTH.
End Process.

(** ** Text *)

Section Text.
Context {S : Type} `{!CapNg S}.

(** [std::setw(2)] *)
Definition setw2 (s : bytes) : bytes := replicate (2 - length s) Byte.x20 ++ s.

Definition perm_text (p : cap_perm) : bytes := if is_true_perm p then str "YES" else str "no.".

Definition cap_state_text (s : cap_state) : bytes :=
  str "eff=" ++ perm_text (s_eff s) ++ str " permit=" ++ perm_text (s_permit s) ++
  str " inherit=" ++ perm_text (s_inherit s) ++ str " bound=" ++ perm_text (s_bounding s).

Definition cap_flags (s : cap_state) : bytes :=
  (if is_true_perm (s_eff s) then str "e" else []) ++ (if is_true_perm (s_permit s) then str "p" else []) ++
  (if is_true_perm (s_inherit s) then str "i" else []) ++ (if is_true_perm (s_bounding s) then str "b" else []).

(** One turn of the one-line loop: usable, any, first, text. *)
Definition print_short_item (acc : Z * Z * bool * bytes) (item : Z * cap_state) : outcome (Z * Z * bool * bytes) :=
  let '(count_usable, count_any, first, detail) := acc in
  let usable := is_usable item.2 in
  let any := is_any item.2 in
  if usable || any then
    name ← secure_capng_capability_to_name item.1;
    Ret (count_usable + Z.b2z usable, count_any + Z.b2z any, false,
      detail ++ (if first then [] else str ", ") ++ name ++ str "+" ++ cap_flags item.2)
  else Ret (count_usable, count_any, first, detail).

Definition print_long_item (level : Z) (acc : Z * bytes) (item : Z * cap_state) : outcome (Z * bytes) :=
  let '(skipped, text) := acc in
  let interesting := is_usable item.2 in
  let bounding := is_true_perm (s_bounding item.2) in
  if (20 <=? level) || interesting then
    name ← cap_nr_to_name item.1;
    Ret (skipped, text ++ setw2 (dec item.1) ++ str ": " ++ cap_state_text item.2 ++ str " " ++
      (if interesting then str "******" else if bounding then str " (b)  " else str "      ") ++
      str " " ++ name ++ [Byte.x0a])
  else Ret (skipped + 1, text).

Definition cap_state_map_print (level : Z) (m : cap_state_map) : outcome bytes :=
  if level =? 0 then
    '(count_usable, count_any, _, detail) ← ofold print_short_item (0, 0, true, []) (map_items Z.le m);
    Ret (str "CAP state: " ++ str " count: any=" ++ dec count_any ++ str ", usable=" ++ dec count_usable ++ str " / " ++
      dec (zlen (map_items Z.le m)) ++ str " [" ++ detail ++ str "]")
  else
    '(skipped, text) ← ofold (print_long_item level) (0, []) (map_items Z.le m);
    Ret (str "CAP state with " ++ dec (zlen (map_items Z.le m)) ++ str " CAPs defined:" ++ [Byte.x0a] ++ text ++
      (if skipped =? 0 then [] else str "Skipped " ++ dec skipped ++ str " non-interesting items" ++ [Byte.x0a])).

Definition permchange_text (c : cap_permchange) : bytes :=
  match c with pc_unchanged => str "(same)" | pc_enable => str "ENABLE" | pc_disable => str "remove" end.

Definition statechange_text (c : cap_statechange) : bytes :=
  str "eff=" ++ permchange_text (c_eff c) ++ str " permit=" ++ permchange_text (c_permit c) ++
  str " inherit=" ++ permchange_text (c_inherit c) ++ str " bound=" ++ permchange_text (c_bounding c).

Definition print_change_item (level : Z) (acc : Z * bytes) (item : Z * cap_statechange) : outcome (Z * bytes) :=
  let '(skipped, text) := acc in
  let interesting := is_change item.2 in
  if (20 <=? level) || interesting then
    name ← cap_nr_to_name item.1;
    Ret (skipped, text ++ setw2 (dec item.1) ++ str ": " ++ statechange_text item.2 ++ str " " ++
      (if interesting then str " ******" else str "      ") ++ str " " ++ name ++ [Byte.x0a])
  else Ret (skipped + 1, text).

Definition statechange_map_print (level : Z) (m : gmap Z cap_statechange) : outcome bytes :=
  '(skipped, text) ← ofold (print_change_item level) (0, []) (map_items Z.le m);
  Ret (str "CAP state CHANGE with " ++ dec (zlen (map_items Z.le m)) ++ str " CAP CHANGES defined:" ++ [Byte.x0a] ++ text ++
    (if skipped =? 0 then [] else str "Skipped " ++ dec skipped ++ str " non-interesting items" ++ [Byte.x0a])).

Definition statechange_full_print (level : Z) (f : cap_statechange_full) : outcome bytes :=
  text ← statechange_map_print level (given f);
  Ret (text ++ str "all_others: " ++ statechange_text (all_others f)).
End Text.
