(* ===== verification/Privileges.v ===== *)
(** * Dropping privileges (utils/privileges.cpp)

    Models the functions of [my_cap]: giving up root after sudo, and the steps
    by which the program gives up its capabilities before the main loop.

    Users and the environment are the class [OsUser] on the same state as
    libcap-ng.  What is written to the log at level 50 is computed only when
    that level is shown: [g_dbg_level] is an argument. *)
From S2P Require Import Prelude Serialize Caps.

Record passwd := Passwd { pw_uid : Z; pw_gid : Z; pw_dir : option bytes }.

Class OsUser (S : Type) := {
  getuid : S -> Z;
  geteuid : S -> Z;
  getenv : bytes -> S -> option bytes;
  getpwnam : bytes -> S -> option passwd;
  capng_change_id : Z -> Z -> M S Z          (* with CAPNG_DROP_SUPP_GRP | CAPNG_CLEAR_BOUNDING *)
}.

(** Of the exceptions this code meets, those that are a [std::runtime_error];
    [capmodpp_error] is not even a [std::exception]. *)
Definition is_runtime_error (e : exn) : bool :=
  match e with
  | ex_runtime_error | ex_system_error => true
  | _ => false
  end.

Section Privileges.
Context {S : Type} `{!CapNg S} `{!OsUser S}.
Context (g_dbg_level : Z).

(** [get_security_info], declared noexcept: its text is dropped, what is left
    is the reading of the capabilities and of their names, and the end of the
    program when anything but a std::runtime_error is thrown. *)
Definition get_security_info (verbose : bool) : M S unit :=
  mcatch
    (caps_now ← read_process_caps;
     _ ← mlift (cap_state_map_print 0 caps_now);
     when verbose (_ ← mlift (cap_state_map_print 20 caps_now); mret tt))
    (fun e => if is_runtime_error e then mret tt else mabort).

(** [_note], [_clue] *)
Definition note (m : M S unit) : M S unit := when (g_dbg_level <=? 50) m.

Definition security_apply_cap_change (change : cap_statechange_full) : M S unit :=
  note (get_security_info true);;
  note (_ ← mlift (statechange_full_print 20 change); mret tt);;
  security_apply_now change;;
  note (get_security_info true).

Definition do_we_need_to_change_uid_or_gid : M S bool :=
  s ← mget;
  if negb (getuid s =? geteuid s) then mabort
  else if geteuid s =? 0 then mret true
  else if getuid s =? 0 then mret true
  else mret false.

(** The home directory of the user, empty when nothing was changed. *)
Definition security_drop_root_from_sudo : M S bytes :=
  need ← do_we_need_to_change_uid_or_gid;
  if negb need then mret []
  else
    note (get_security_info false);;
    s ← mget;
    match getenv (str "SUDO_USER") s with
    | None => mthrow ex_runtime_error
    | Some sudo_user_name =>
        match getpwnam (c_string sudo_user_name) s with
        | None => mthrow ex_system_error
        | Some pw =>
            mthrow_if (pw_uid pw =? 0) ex_runtime_error;;
            secure_capng_get_caps_process;;
            ret ← capng_change_id (pw_uid pw) (pw_gid pw);
            mthrow_if (negb (ret =? 0)) ex_system_error;;
            note (get_security_info false);;
            still ← do_we_need_to_change_uid_or_gid;
            massert (negb still);;
            mret (match pw_dir pw with Some dir => c_string dir | None => [] end)
        end
    end.

Definition drop_privileges_on_startup : M S unit :=
  let change := set_all_others (statechange pc_disable pc_disable pc_disable) new_statechange_full in
  let keep := statechange pc_unchanged pc_unchanged pc_unchanged in
  change ← mlift (set_given_cap (str "NET_ADMIN") keep change);
  change ← mlift (set_given_cap (str "NET_RAW") keep change);
  need ← do_we_need_to_change_uid_or_gid;
  change ← (if (need : bool) then
      change ← mlift (set_given_cap (str "SETUID") keep change);
      change ← mlift (set_given_cap (str "SETGID") keep change);
      change ← mlift (set_given_cap (str "SETPCAP") keep change);
      mlift (set_given_cap (str "CHOWN") keep change)
    else mret change);
  security_apply_cap_change change.

Definition drop_privileges_after_tuntap : M S unit :=
  let change := set_all_others (statechange pc_unchanged pc_unchanged pc_unchanged) new_statechange_full in
  let remove := statechange pc_disable pc_disable pc_disable in
  change ← mlift (set_given_cap (str "NET_ADMIN") remove change);
  change ← mlift (set_given_cap (str "NET_RAW") remove change);
  security_apply_cap_change change.

Definition drop_privileges_before_mainloop : M S unit :=
  security_apply_cap_change (set_all_others (statechange pc_disable pc_disable pc_disable) new_statechange_full).

Definition verify_privileges_are_as_for_mainloop : M S unit :=
  caps ← secure_capng_have_capabilities CAPNG_SELECT_CAPS;
  massert (negb (CAPNG_NONE <? caps));;
  root ← do_we_need_to_change_uid_or_gid;
  massert (negb root).

(** The argument of [datastore::set_home]. *)
Definition drop_root (home_always_env : bool) : M S bytes :=
  home ← mcatch security_drop_root_from_sudo (fun e =>
    if bool_decide (e = ex_system_error) then mthrow e
    else if is_runtime_error e then mret []
    else mthrow e);
  mret (if home_always_env then [] else home).

(** What [g42-main.cpp] and [c_tunserver::run] do, in their order, up to the
    main loop; [m_option_insecure_cap] skips the last two drops. *)
Definition before_event_loop (m_option_insecure_cap : bool) : M S unit :=
  when (negb m_option_insecure_cap) drop_privileges_after_tuntap;;
  when (negb m_option_insecure_cap) drop_privileges_before_mainloop;;
  verify_privileges_are_as_for_mainloop.
End Privileges.
