(* ===== verification/CapsFacts.v ===== *)
(** * What applying a change of capabilities does

    Theorems about [Caps.v] and [Privileges.v], for any libcap-ng that keeps
    its documented behaviour ([CapNgLaws]). *)
From S2P Require Import Prelude Serialize Caps Privileges.

(** The four sets of capabilities, by the constant that names them. *)
Definition capng_of_area {S} `{!CapNg S} (a : cap_area_type) : Z :=
  match a with
  | area_eff => CAPNG_EFFECTIVE
  | area_permit => CAPNG_PERMITTED
  | area_inherit => CAPNG_INHERITABLE
  | area_bounding => CAPNG_BOUNDING_SET
  end.

Definition in_range {S} `{!CapNg S} (nr : Z) : Prop := 0 <= nr <= CAP_LAST_CAP.

(** Documented behaviour: the library remembers a state ([lib_has]) that is
    read from the process ([proc_has]), changed bit by bit, and applied.  Each
    call may fail.  The bounding set can be lowered, never raised: applying
    drops from it what the library does not remember. *)
Class CapNgLaws (S : Type) `{!CapNg S} `{!OsUser S} := {
  lib_has : S -> cap_area_type -> Z -> bool;
  proc_has : S -> cap_area_type -> Z -> bool;
  codes_differ : CAPNG_FAIL <> 0 /\ CAPNG_FAIL <> 1 /\ CAPNG_DROP <> CAPNG_ADD /\
    CAPNG_NONE < CAPNG_PARTIAL /\ CAPNG_NONE < CAPNG_FULL;
  last_cap_range : 0 <= CAP_LAST_CAP < 2 ^ 31;
  have_capability_law s a nr : in_range nr ->
    exists r, capng_have_capability (capng_of_area a) nr s = (Ret r, s) /\
      (r = CAPNG_FAIL \/ r = Z.b2z (lib_has s a nr));
  get_caps_law s : exists r s', capng_get_caps_process s = (Ret r, s') /\
    (forall a nr, proc_has s' a nr = proc_has s a nr) /\ getuid s' = getuid s /\ geteuid s' = geteuid s /\
    (r = 0 -> forall a nr, lib_has s' a nr = proc_has s a nr);
  update_law s act a nr : act = CAPNG_ADD \/ act = CAPNG_DROP -> in_range nr ->
    exists r s', capng_update act (capng_of_area a) nr s = (Ret r, s') /\
      (forall a' nr', proc_has s' a' nr' = proc_has s a' nr') /\ getuid s' = getuid s /\ geteuid s' = geteuid s /\
      (r = 0 -> forall a' nr', lib_has s' a' nr' =
        if bool_decide (a' = a) && bool_decide (nr' = nr) then bool_decide (act = CAPNG_ADD) else lib_has s a' nr');
  apply_law s : exists r s', capng_apply CAPNG_SELECT_BOTH s = (Ret r, s') /\
    getuid s' = getuid s /\ geteuid s' = geteuid s /\ (forall a nr, lib_has s' a nr = lib_has s a nr) /\
    (r = 0 -> forall a nr, in_range nr -> proc_has s' a nr =
      match a with area_bounding => lib_has s a nr && proc_has s a nr | _ => lib_has s a nr end);
  have_capabilities_law s : exists r, capng_have_capabilities CAPNG_SELECT_CAPS s = (Ret r, s) /\
    (r = CAPNG_NONE -> forall nr, in_range nr -> lib_has s area_eff nr = false)
}.

(** A bit of a state and of a change, by area. *)
Definition state_at (a : cap_area_type) (c : cap_state) : cap_perm :=
  match a with area_eff => s_eff c | area_permit => s_permit c | area_inherit => s_inherit c | area_bounding => s_bounding c end.
Definition change_at (a : cap_area_type) (c : cap_statechange) : cap_permchange :=
  match a with area_eff => c_eff c | area_permit => c_permit c | area_inherit => c_inherit c | area_bounding => c_bounding c end.
Definition bool_perm (b : bool) : cap_perm := if b then perm_yes else perm_no.
Definition apply_bool (c : cap_permchange) (b : bool) : bool :=
  match c with pc_enable => true | pc_disable => false | pc_unchanged => b end.

(** A bit of the process after a change: a process cannot give itself a bit of
    the bounding set. *)
Definition new_bit (a : cap_area_type) (c : cap_permchange) (b : bool) : bool :=
  match a, c with area_bounding, pc_enable => b | _, c => apply_bool c b end.

Lemma is_true_bool_perm b : is_true_perm (bool_perm b) = b.
Proof. by destruct b. Qed.

Section Facts.
Context {S : Type} `{!CapNg S} `{!OsUser S} `{!CapNgLaws S}.

(** [s'] differs from [s] only in what the library remembers. *)
Record same_process (s s' : S) : Prop := {
  sp_caps a nr : proc_has s' a nr = proc_has s a nr;
  sp_uid : getuid s' = getuid s;
  sp_euid : geteuid s' = geteuid s
}.

Lemma same_process_refl s : same_process s s.
Proof. by split. Qed.

Lemma same_process_trans s1 s2 s3 : same_process s1 s2 -> same_process s2 s3 -> same_process s1 s3.
Proof. intros [C1 U1 E1] [C2 U2 E2]. split; [intros a nr; by rewrite C2|congruence..]. Qed.

(** It returns, or throws the exception of this library. *)
Definition tame {A} (o : outcome A) : Prop :=
  match o with Ret _ => True | Throw e => e = ex_capmodpp_error | _ => False end.

(** A program that leaves the process alone on every outcome. *)
Definition quiet {A} (m : M S A) : Prop := forall s, same_process s (m s).2 /\ tame (m s).1.

Lemma quiet_bind {A B} (m : M S A) (f : A -> M S B) : quiet m -> (forall a, quiet (f a)) -> quiet (m ≫= f).
Proof.
  intros Hm Hf s. specialize (Hm s). unfold mbind, M_mbind. destruct (m s) as [[a|e| |] s1]; try done.
  cbn [snd] in Hm. split; [eapply same_process_trans; [apply Hm|apply Hf]|apply Hf].
Qed.

Lemma quiet_ret {A} (a : A) : quiet (mret a).
Proof. intros s. split; [apply same_process_refl|done]. Qed.

Lemma quiet_throw_if b : quiet (mthrow_if b ex_capmodpp_error).
Proof. intros s. split; [apply same_process_refl|by destruct b]. Qed.

Lemma quiet_have a nr : in_range nr -> quiet (secure_capng_have_capability (capng_of_area a) nr).
Proof.
  intros Hn. apply quiet_bind.
  - intros s. destruct (have_capability_law s a nr Hn) as (r & -> & _). split; [apply same_process_refl|done].
  - intros r. apply quiet_bind; [apply quiet_throw_if|intros _; apply quiet_ret].
Qed.

Lemma quiet_get_caps : quiet secure_capng_get_caps_process.
Proof.
  apply quiet_bind; [|intros r; apply quiet_throw_if].
  intros s. destruct (get_caps_law s) as (r & s' & -> & H1 & H2 & H3 & _). by repeat split.
Qed.

Lemma get_caps_ret s s' : secure_capng_get_caps_process s = (Ret tt, s') -> forall a nr, lib_has s' a nr = proc_has s a nr.
Proof.
  intros (r & s1 & E1 & E2)%M_bind_inv. destruct (get_caps_law s) as (r' & s1' & E & _ & _ & _ & Hl).
  rewrite E in E1. injection E1 as -> ->. unfold mthrow_if, othrow_if, mlift in E2.
  destruct (r =? 0) eqn:Er; cbn [negb] in E2; [|done]. zbool. injection E2 as ->. by apply Hl.
Qed.

(** ** Reading *)

Lemma have_ret a nr s r s' : in_range nr ->
  secure_capng_have_capability (capng_of_area a) nr s = (Ret r, s') -> s' = s /\ perm_of r = bool_perm (lib_has s a nr).
Proof.
  intros Hn (r1 & s1 & E1 & E2)%M_bind_inv. destruct (have_capability_law s a nr Hn) as (r' & E & Hr).
  rewrite E in E1. injection E1 as -> ->. apply M_bind_inv in E2 as ([] & s2 & E2 & E3).
  unfold mthrow_if, othrow_if, mlift in E2. destruct (r1 =? CAPNG_FAIL) eqn:Ef; cbn [orb] in E2; [done|].
  zbool. case_match; [done|]. injection E2 as <-. injection E3 as <- <-. split; [done|].
  destruct Hr as [Hr| ->]; [done|]. by destruct (lib_has _ a nr).
Qed.

(** The state of capability [nr] that the library remembers. *)
Definition lib_state (s : S) (nr : Z) : cap_state :=
  CapState (bool_perm (lib_has s area_eff nr)) (bool_perm (lib_has s area_permit nr))
    (bool_perm (lib_has s area_inherit nr)) (bool_perm (lib_has s area_bounding nr)).

Lemma read_cap_ret nr m s m' s' : in_range nr -> read_cap nr m s = (Ret m', s') ->
  s' = s /\ m' = map_emplace nr (lib_state s nr) m.
Proof.
  intros Hn. unfold read_cap.
  intros (r1 & s1 & E1 & E)%M_bind_inv. apply (have_ret area_eff) in E1 as [-> H1]; [|done].
  apply M_bind_inv in E as (r2 & s2 & E2 & E). apply (have_ret area_permit) in E2 as [-> H2]; [|done].
  apply M_bind_inv in E as (r3 & s3 & E3 & E). apply (have_ret area_inherit) in E3 as [-> H3]; [|done].
  apply M_bind_inv in E as (r4 & s4 & E4 & E). apply (have_ret area_bounding) in E4 as [-> H4]; [|done].
  injection E as <- <-. split; [done|]. unfold lib_state. by rewrite H1, H2, H3, H4.
Qed.

Lemma read_caps_ret nrs : forall m s m' s', Forall in_range nrs -> NoDup nrs -> (forall nr, nr ∈ nrs -> m !! nr = None) ->
  read_caps nrs m s = (Ret m', s') ->
  s' = s /\ forall nr, m' !! nr = if bool_decide (nr ∈ nrs) then Some (lib_state s nr) else m !! nr.
Proof.
  induction nrs as [|nr nrs IH]; intros m s m' s' Hr Hnd Hm E; cbn [read_caps] in E.
  - injection E as <- <-. split; [done|]. intros nr. by rewrite bool_decide_eq_false_2 by apply not_elem_of_nil.
  - apply Forall_cons in Hr as [Hn Hr]. apply NoDup_cons in Hnd as [Hnn Hnd].
    apply M_bind_inv in E as (m1 & s1 & E1 & E). apply read_cap_ret in E1 as [-> ->]; [|done].
    unfold map_emplace in E. rewrite Hm in E by by left. apply IH in E as [-> Hl]; [|done|done|].
    + split; [done|]. intros nr'. rewrite Hl. destruct (decide (nr' = nr)) as [->|Hne].
      * rewrite bool_decide_eq_false_2 by done. rewrite bool_decide_eq_true_2 by by left. by rewrite lookup_insert_eq.
      * rewrite lookup_insert_ne by done. rewrite (bool_decide_ext (nr' ∈ nr :: nrs) (nr' ∈ nrs)); [done|].
        rewrite elem_of_cons. tauto.
    + intros nr' Hin. rewrite lookup_insert_ne by (intros ->; done). apply Hm. by right.
Qed.

Lemma all_caps_spec nr : nr ∈ all_caps <-> in_range nr.
Proof.
  pose proof last_cap_range. unfold all_caps, in_range. rewrite list_elem_of_fmap. split.
  - intros (i & -> & Hi%elem_of_seq). lia.
  - intros Hn. exists (Z.to_nat nr). rewrite elem_of_seq. lia.
Qed.

Lemma all_caps_nodup : NoDup all_caps.
Proof. apply NoDup_fmap; [intros x y; lia|apply NoDup_seq]. Qed.

Lemma all_caps_range : Forall in_range all_caps.
Proof. apply Forall_forall. intros nr. by rewrite all_caps_spec. Qed.

Lemma read_process_ret s m s' : read_process_caps s = (Ret m, s') ->
  (forall a nr, lib_has s' a nr = proc_has s a nr) /\
  forall nr, m !! nr = if bool_decide (in_range nr) then Some (lib_state s' nr) else None.
Proof.
  intros ([] & s1 & E1 & E2)%M_bind_inv. pose proof (get_caps_ret _ _ E1) as Hl.
  apply read_caps_ret in E2 as [-> Hm]; [|apply all_caps_range|apply all_caps_nodup|done].
  split; [done|]. intros nr. rewrite Hm. rewrite (bool_decide_ext _ _ (all_caps_spec nr)). by case_bool_decide.
Qed.

Lemma quiet_read_process : quiet read_process_caps.
Proof.
  apply quiet_bind; [apply quiet_get_caps|intros _]. generalize (∅ : cap_state_map). pose proof all_caps_range as Hr.
  induction Hr as [|nr nrs Hn Hr IH]; intros m; [apply quiet_ret|]. apply quiet_bind; [|apply IH].
  apply quiet_bind; [by apply (quiet_have area_eff)|intros ?]. apply quiet_bind; [by apply (quiet_have area_permit)|intros ?].
  apply quiet_bind; [by apply (quiet_have area_inherit)|intros ?]. apply quiet_bind; [by apply (quiet_have area_bounding)|intros ?].
  apply quiet_ret.
Qed.

(** ** Changing *)

Lemma area_codes a : (capng_of_area a =? CAPNG_EFFECTIVE) || (capng_of_area a =? CAPNG_PERMITTED)
  || (capng_of_area a =? CAPNG_INHERITABLE) || (capng_of_area a =? CAPNG_BOUNDING_SET) = true.
Proof. destruct a; cbn; rewrite Z.eqb_refl, ?orb_true_r; done. Qed.

Lemma quiet_update act a nr : act = CAPNG_ADD \/ act = CAPNG_DROP -> in_range nr ->
  quiet (secure_capng_update act (capng_of_area a) nr).
Proof.
  intros Ha Hn. do 3 (apply quiet_bind; [apply quiet_throw_if|intros _]). apply quiet_bind; [|intros r; apply quiet_throw_if].
  intros s. destruct (update_law s act a nr Ha Hn) as (r & s' & -> & H1 & H2 & H3 & _). by repeat split.
Qed.

Lemma difference_action p : let act := if is_true_perm p then CAPNG_ADD else CAPNG_DROP in act = CAPNG_ADD \/ act = CAPNG_DROP.
Proof. destruct p; cbn; auto. Qed.

Lemma quiet_difference a nr p q : in_range nr -> quiet (update_difference (capng_of_area a) nr p q).
Proof.
  intros Hn. unfold update_difference. destruct (negb _); cbn [when]; [|apply quiet_ret].
  apply quiet_update; [apply difference_action|done].
Qed.

(** After the update the library remembers the new bit, if it did the old. *)
Lemma difference_ret a nr p q s s' : in_range nr -> update_difference (capng_of_area a) nr p q s = (Ret tt, s') ->
  bool_perm (lib_has s a nr) = p ->
  forall a' nr', lib_has s' a' nr' = if bool_decide (a' = a) && bool_decide (nr' = nr) then is_true_perm q else lib_has s a' nr'.
Proof.
  intros Hn E Hp. unfold update_difference in E. case_bool_decide as Hq; cbn [negb when] in E.
  - injection E as <-. intros a' nr'. case_bool_decide; [|done]. case_bool_decide; [|done]. subst. by rewrite is_true_bool_perm.
  - revert E. unfold secure_capng_update. set (act := if is_true_perm q then CAPNG_ADD else CAPNG_DROP). intros E.
    pose proof (difference_action q : act = _ \/ act = _) as Hact.
    apply M_bind_inv in E as ([] & s1 & E1 & E). apply M_bind_inv in E as ([] & s2 & E2 & E).
    apply M_bind_inv in E as ([] & s3 & E3 & E). apply M_bind_inv in E as (r & s4 & E4 & E).
    unfold mthrow_if, othrow_if, mlift in E1, E2, E3, E. repeat case_match; try done. simplify_eq. zbool. subst.
    match type of E4 with capng_update _ _ _ ?s0 = _ => destruct (update_law s0 act a nr Hact Hn) as (r' & s5 & E' & _ & _ & _ & Hl) end.
    rewrite E' in E4. injection E4 as -> ->. intros a' nr'. rewrite Hl by done.
    destruct (bool_decide (a' = a) && bool_decide (nr' = nr)); [|done].
    destruct codes_differ as (_ & _ & Hd & _). unfold act. destruct (is_true_perm q); [by apply bool_decide_eq_true_2|by apply bool_decide_eq_false_2].
Qed.

(** The library after one entry of the map. *)
Lemma item_ret old nr cap_old cap_new s s' : in_range nr -> old !! nr = Some cap_old ->
  apply_item old (nr, cap_new) s = (Ret tt, s') ->
  (forall a, bool_perm (lib_has s a nr) = state_at a cap_old) ->
  forall a' nr', lib_has s' a' nr' = if bool_decide (nr' = nr) then is_true_perm (state_at a' cap_new) else lib_has s a' nr'.
Proof.
  intros Hn Ho E Hold. unfold apply_item in E. rewrite Ho in E.
  apply M_bind_inv in E as ([] & s1 & E1 & E). apply M_bind_inv in E as ([] & s2 & E2 & E).
  apply M_bind_inv in E as ([] & s3 & E3 & E4).
  pose proof (difference_ret area_bounding nr _ _ _ _ Hn E1 (Hold area_bounding)) as L1.
  pose proof (difference_ret area_permit nr _ _ _ _ Hn E2 ltac:(rewrite L1; apply (Hold area_permit))) as L2.
  pose proof (difference_ret area_eff nr _ _ _ _ Hn E3 ltac:(rewrite L2, L1; apply (Hold area_eff))) as L3.
  pose proof (difference_ret area_inherit nr _ _ _ _ Hn E4 ltac:(rewrite L3, L2, L1; apply (Hold area_inherit))) as L4.
  intros a' nr'. rewrite L4, L3, L2, L1. by destruct (bool_decide (nr' = nr)), a'.
Qed.

Lemma quiet_item old item : in_range item.1 -> is_Some (old !! item.1) -> quiet (apply_item old item).
Proof.
  destruct item as [nr cap]. cbn [fst]. intros Hn [cap0 Hc]. unfold apply_item. rewrite Hc.
  apply quiet_bind; [by apply (quiet_difference area_bounding)|intros _]. apply quiet_bind; [by apply (quiet_difference area_permit)|intros _].
  apply quiet_bind; [by apply (quiet_difference area_eff)|intros _]. by apply (quiet_difference area_inherit).
Qed.

Lemma quiet_items old l : Forall (fun item => in_range item.1 /\ is_Some (old !! item.1)) l -> quiet (mfor l (apply_item old)).
Proof.
  induction 1 as [|item l [Hn Hs] _ IH]; [apply quiet_ret|]. apply quiet_bind; [by apply quiet_item|intros _; apply IH].
Qed.

(** The loop over the map: every entry ends up in the library. *)
Lemma items_ret old l : forall (s s' : S), Forall (fun item => in_range item.1) l -> NoDup l.*1 ->
  (forall nr : Z, nr ∈ l.*1 -> exists cap, old !! nr = Some cap /\ forall a, bool_perm (lib_has s a nr) = state_at a cap) ->
  mfor l (apply_item old) s = (Ret tt, s') ->
  (forall (nr : Z) cap, (nr, cap) ∈ l -> forall a, lib_has s' a nr = is_true_perm (state_at a cap)) /\
  (forall nr : Z, nr ∉ l.*1 -> forall a, lib_has s' a nr = lib_has s a nr).
Proof.
  induction l as [|[nr cap] l IH]; intros s s' Hr Hnd Hold E; cbn [mfor] in E.
  - injection E as <-. split; [by intros ?? ?%elem_of_nil|done].
  - apply Forall_cons in Hr as [Hn Hr]. cbn [fmap list_fmap fst] in Hnd, Hold. apply NoDup_cons in Hnd as [Hnn Hnd].
    apply M_bind_inv in E as ([] & s1 & E1 & E). destruct (Hold nr ltac:(by left)) as (c0 & Hc0 & Hl0).
    pose proof (item_ret old nr c0 cap s s1 Hn Hc0 E1 Hl0) as L1.
    destruct (IH s1 s' Hr Hnd) as [I1 I2]; [|done|].
    + intros nr' Hin. destruct (Hold nr' ltac:(by right)) as (c & Hc & Hl). exists c. split; [done|]. intros a.
      rewrite L1, bool_decide_eq_false_2 by (by intros ->). apply Hl.
    + split.
      * intros nr' cap' [Heq|Hin]%elem_of_cons a; [|by apply I1].
        injection Heq as -> ->. rewrite I2 by done. by rewrite L1, bool_decide_eq_true_2.
      * intros nr' Hni a. rewrite fmap_cons, not_elem_of_cons in Hni. cbn in Hni. destruct Hni as [Hne Hni].
        rewrite I2 by done. by rewrite L1, bool_decide_eq_false_2.
Qed.

Lemma state_changed_lookup f m nr : state_changed f m !! nr = apply_change (change_for f nr) <$> m !! nr.
Proof. unfold state_changed. rewrite map_lookup_imap. by destruct (m !! nr). Qed.

Lemma items_in {V} (m : gmap Z V) k v : (k, v) ∈ map_items Z.le m <-> m !! k = Some v.
Proof. unfold map_items. rewrite merge_sort_Permutation. apply elem_of_map_to_list. Qed.

Lemma items_keys {V} (m : gmap Z V) : NoDup (map_items Z.le m).*1.
Proof. unfold map_items. rewrite merge_sort_Permutation. apply NoDup_fst_map_to_list. Qed.

(** What the two maps of [security_apply_now] hold. *)
Lemma new_items s f old : (forall nr, old !! nr = if bool_decide (in_range nr) then Some (lib_state s nr) else None) ->
  (forall nr cap, (nr, cap) ∈ map_items Z.le (state_changed f old) <->
    in_range nr /\ cap = apply_change (change_for f nr) (lib_state s nr)).
Proof.
  intros Ho nr cap. rewrite items_in, state_changed_lookup, Ho. case_bool_decide as Hn; cbn; [|by split; [|intros [? _]]].
  split; [intros [= <-]; done|intros [_ ->]; done].
Qed.

Lemma changed_bit f s nr a :
  is_true_perm (state_at a (apply_change (change_for f nr) (lib_state s nr)))
  = apply_bool (change_at a (change_for f nr)) (lib_has s a nr).
Proof.
  unfold apply_change, lib_state. destruct a; cbn [state_at change_at s_eff s_permit s_inherit s_bounding];
    unfold apply_change_perm, apply_bool; case_match; try done; apply is_true_bool_perm.
Qed.

(** ** The whole change *)

Lemma select_both : (CAPNG_SELECT_BOTH =? CAPNG_SELECT_CAPS) || (CAPNG_SELECT_BOTH =? CAPNG_SELECT_BOUNDS)
  || (CAPNG_SELECT_BOTH =? CAPNG_SELECT_BOTH) = true.
Proof. by rewrite Z.eqb_refl, orb_true_r. Qed.

Lemma secure_apply_eval s : exists r s', capng_apply CAPNG_SELECT_BOTH s = (Ret r, s') /\
  secure_capng_apply CAPNG_SELECT_BOTH s = (if r =? 0 then Ret tt else Throw ex_capmodpp_error, s').
Proof.
  destruct (apply_law s) as (r & s' & E & _). exists r, s'. split; [done|].
  unfold secure_capng_apply, mbind, M_mbind, mthrow_if, othrow_if, mlift. rewrite select_both. cbn [negb].
  rewrite E. by destruct (r =? 0).
Qed.

Lemma apply_now_ret f s s' : security_apply_now f s = (Ret tt, s') ->
  getuid s' = getuid s /\ geteuid s' = geteuid s /\ (forall a nr, lib_has s' a nr = proc_has s' a nr \/ ~ in_range nr \/ a = area_bounding) /\
  forall a nr, in_range nr -> proc_has s' a nr = new_bit a (change_at a (change_for f nr)) (proc_has s a nr).
Proof.
  unfold security_apply_now. intros (old & s1 & E1 & E)%M_bind_inv.
  pose proof (quiet_read_process s) as [Q1 _]. rewrite E1 in Q1. cbn [snd] in Q1.
  apply read_process_ret in E1 as [L1 Hold].
  apply M_bind_inv in E as ([] & s2 & E2 & E). pose proof (quiet_get_caps s1) as [Q2 _]. rewrite E2 in Q2. cbn [snd] in Q2.
  pose proof (get_caps_ret _ _ E2) as L2. apply M_bind_inv in E as ([] & s3 & E3 & E4).
  pose proof (new_items s1 f old Hold) as Hit.
  assert (Forall (fun item => in_range item.1 /\ is_Some (old !! item.1)) (map_items Z.le (state_changed f old))) as Hr.
  { apply Forall_forall. intros [nr cap] [Hn _]%Hit. split; [done|]. cbn. rewrite Hold, bool_decide_eq_true_2 by done. by eexists. }
  pose proof (quiet_items old _ Hr s2) as [Q3 _]. rewrite E3 in Q3. cbn [snd] in Q3.
  destruct (items_ret old _ s2 s3 ltac:(eapply Forall_impl; [exact Hr|by intros ? [? _]]) (items_keys _)) with (2 := E3) as [I1 _].
  { intros nr ([nr' cap] & -> & [Hn _]%Hit)%list_elem_of_fmap. exists (lib_state s1 nr'). cbn. rewrite Hold, bool_decide_eq_true_2 by done.
    split; [done|]. intros a. rewrite L2, (sp_caps _ _ Q1), <- L1. by destruct a. }
  destruct (secure_apply_eval s3) as (r & s4 & Ea & E4'). rewrite E4' in E4. destruct (r =? 0) eqn:Er; [|done]. zbool. injection E4 as <-.
  destruct (apply_law s3) as (r' & s5 & Ea' & U1 & U2 & L4 & P). rewrite Ea in Ea'. injection Ea' as <- <-. specialize (P Er).
  pose proof (same_process_trans _ _ _ Q1 (same_process_trans _ _ _ Q2 Q3)) as [C U E].
  assert (forall a nr, in_range nr -> lib_has s3 a nr = apply_bool (change_at a (change_for f nr)) (proc_has s a nr)) as L3.
  { intros a nr Hn. rewrite (I1 nr _ ltac:(apply Hit; done)), changed_bit. by rewrite L1. }
  split_and!; [congruence|congruence| |].
  - intros a nr. destruct (decide (a = area_bounding)) as [->|Ha]; [by right; right|].
    destruct (decide (in_range nr)) as [Hn|Hn]; [left|by right; left]. rewrite L4, (P a nr Hn). by destruct a.
  - intros a nr Hn. rewrite (P a nr Hn), L3, C by done.
    destruct a; try done. unfold new_bit. by destruct (change_at _ _), (proc_has s area_bounding nr).
Qed.

(** When it does not return: nothing was changed, unless by the last call. *)
Lemma apply_now_fails f s o s' : security_apply_now f s = (o, s') -> o <> Ret tt ->
  o = Throw ex_capmodpp_error /\
  (same_process s s' \/ exists r s1, same_process s s1 /\ capng_apply CAPNG_SELECT_BOTH s1 = (Ret r, s') /\ r <> 0).
Proof.
  unfold security_apply_now, mbind at 1, M_mbind at 1. intros E Ho.
  pose proof (quiet_read_process s) as [Q1 T1]. destruct (read_process_caps s) as [[old|e| |] s1] eqn:E1; cbn [fst snd tame] in *; try done.
  2: { injection E as <- <-. subst e. by split; [|left]. }
  apply read_process_ret in E1 as [_ Hold]. pose proof (new_items s1 f old Hold) as Hit.
  pose proof (quiet_get_caps s1) as [Q2 T2]. unfold mbind at 1, M_mbind at 1 in E.
  destruct (secure_capng_get_caps_process s1) as [[[]|e| |] s2]; cbn [fst snd tame] in *; try done.
  2: { injection E as <- <-. subst e. split; [done|left]. by eapply same_process_trans. }
  unfold mbind at 1, M_mbind at 1 in E.
  assert (Forall (fun item => in_range item.1 /\ is_Some (old !! item.1)) (map_items Z.le (state_changed f old))) as Hr.
  { apply Forall_forall. intros [nr cap] [Hn _]%Hit. split; [done|]. cbn. rewrite Hold, bool_decide_eq_true_2 by done. by eexists. }
  pose proof (quiet_items old _ Hr s2) as [Q3 T3].
  pose proof (same_process_trans _ _ _ Q1 (same_process_trans _ _ _ Q2 Q3)) as Q.
  destruct (mfor _ (apply_item old) s2) as [[[]|e| |] s3]; cbn [fst snd tame] in *; try done.
  2: { injection E as <- <-. subst e. by split; [|left]. }
  destruct (secure_apply_eval s3) as (r & s4 & Ea & E4). rewrite E4 in E. injection E as <- <-.
  destruct (r =? 0) eqn:Er; [done|]. zbool. split; [done|right]. by exists r, s3.
Qed.
End Facts.

(** ** A small system *)

(** Four capabilities; sets as functions; every call succeeds; applying lowers
    the bounding set and copies the others. *)
Record toy_os := ToyOs { t_lib : cap_area_type -> Z -> bool; t_proc : cap_area_type -> Z -> bool; t_uid : Z }.

Definition area_of_code (z : Z) : cap_area_type :=
  if z =? 1 then area_eff else if z =? 2 then area_permit else if z =? 4 then area_inherit else area_bounding.

Definition toy_capng : CapNg toy_os := {|
  CAPNG_FAIL := -1; CAPNG_NONE := 0; CAPNG_PARTIAL := 1; CAPNG_FULL := 2; CAPNG_DROP := 0; CAPNG_ADD := 1;
  CAPNG_EFFECTIVE := 1; CAPNG_PERMITTED := 2; CAPNG_INHERITABLE := 4; CAPNG_BOUNDING_SET := 8;
  CAPNG_SELECT_CAPS := 16; CAPNG_SELECT_BOUNDS := 32; CAPNG_SELECT_BOTH := 48;
  CAP_LAST_CAP := 3;
  capng_have_capability := fun w nr s => (Ret (Z.b2z (t_lib s (area_of_code w) nr)), s);
  capng_have_capabilities := fun _ s =>
    (Ret (if existsb (t_lib s area_eff) [0; 1; 2; 3] then if forallb (t_lib s area_eff) [0; 1; 2; 3] then 2 else 1 else 0), s);
  capng_capability_to_name := fun nr => [str "NET_ADMIN"; str "NET_RAW"; str "CHOWN"; str "LAST"] !! Z.to_nat nr;
  capng_name_to_capability := fun n =>
    if bool_decide (n = str "NET_ADMIN") then 0 else if bool_decide (n = str "NET_RAW") then 1
    else if bool_decide (n = str "CHOWN") then 2 else if bool_decide (n = str "LAST") then 3 else -1;
  capng_get_caps_process := fun s => (Ret 0, ToyOs (t_proc s) (t_proc s) (t_uid s));
  capng_update := fun act w nr s => (Ret 0, ToyOs (fun a' nr' =>
    if bool_decide (a' = area_of_code w) && bool_decide (nr' = nr) then bool_decide (act = 1) else t_lib s a' nr') (t_proc s) (t_uid s));
  capng_apply := fun _ s => (Ret 0, ToyOs (t_lib s) (fun a nr =>
    match a with area_bounding => t_lib s a nr && t_proc s a nr | _ => t_lib s a nr end) (t_uid s))
|}.

Definition toy_user : OsUser toy_os := {|
  getuid := t_uid; geteuid := t_uid; getenv := fun _ _ => Some (str "joe");
  getpwnam := fun _ _ => Some (Passwd 1000 1000 (Some (str "/home/joe")));
  capng_change_id := fun u _ s => (Ret 0, ToyOs (t_lib s) (t_proc s) u)
|}.

#[local] Existing Instance toy_capng.
#[local] Existing Instance toy_user.

Definition toy_capng_laws : CapNgLaws toy_os.
Proof.
  refine {| lib_has := t_lib; proc_has := t_proc |}.
  - cbn. lia.
  - cbn. lia.
  - intros s a nr _. eexists. split; [reflexivity|]. right. by destruct a.
  - intros s. do 2 eexists. by split_and!.
  - intros s act a nr _ _. do 2 eexists. split_and!; try reflexivity. intros _ a' nr'. by destruct a.
  - intros s. do 2 eexists. split_and!; reflexivity || (intros _ a nr _; by destruct a).
  - intros s. eexists. split; [reflexivity|]. cbn. intros H nr Hn.
    destruct (t_lib s area_eff 0) eqn:E0, (t_lib s area_eff 1) eqn:E1, (t_lib s area_eff 2) eqn:E2, (t_lib s area_eff 3) eqn:E3;
      cbn in H; try discriminate H. unfold in_range in Hn. cbn in Hn.
    assert (nr = 0 \/ nr = 1 \/ nr = 2 \/ nr = 3) as [-> | [-> | [-> | ->]]] by lia; done.
Defined.

(** Everything on for a process of user [uid]. *)
Definition toy_full (uid : Z) : toy_os := ToyOs (fun _ _ => false) (fun _ _ => true) uid.

(** ** Properties *)

(** C31: [security_apply_now] does to the process what the change says: when it
    returns, every capability up to CAP_LAST_CAP has, in each of the four sets,
    the bit it had, changed by the entry given for it or else by [all_others],
    and the users are as before; but a change that enables a bit of the
    bounding set leaves that bit as it was, and the call returns all the same.
    Otherwise it threw capmodpp_error, and either the process is untouched or
    capng_apply itself reported a failure. *)
Theorem security_apply_now_exact {S} `{!CapNg S} `{!OsUser S} `{!CapNgLaws S} f (s s' : S) o :
  security_apply_now f s = (o, s') ->
  match o with
  | Ret _ => getuid s' = getuid s /\ geteuid s' = geteuid s /\
      forall a nr, in_range nr -> proc_has s' a nr = new_bit a (change_at a (change_for f nr)) (proc_has s a nr)
  | _ => o = Throw ex_capmodpp_error /\
      (same_process s s' \/ exists r s1, same_process s s1 /\ capng_apply CAPNG_SELECT_BOTH s1 = (Ret r, s') /\ r <> 0)
  end.
Proof.
  intros E. destruct o as [[]|e| |]; [|by apply (apply_now_fails f)..].
  destruct (apply_now_ret f s s' E) as (U & V & _ & P). by split_and!.
Qed.

Lemma security_apply_now_exact_witness :
  let f := StatechangeFull {[ 1 := statechange pc_disable pc_disable pc_unchanged ]} (statechange pc_unchanged pc_disable pc_disable) in
  t_proc (security_apply_now f (toy_full 5)).2 area_eff 1 = false /\ t_proc (security_apply_now f (toy_full 5)).2 area_eff 0 = true.
Proof.
  intros f.
  assert (security_apply_now f (toy_full 5) = (Ret tt, (security_apply_now f (toy_full 5)).2)) as E by (apply ret_pair; vm_compute; reflexivity).
  pose proof (@security_apply_now_exact toy_os toy_capng toy_user toy_capng_laws f _ _ _ E) as (_ & _ & H).
  split.
  - refine (H area_eff 1 _). split; vm_compute; discriminate.
  - refine (H area_eff 0 _). split; vm_compute; discriminate.
Defined.

(** The last capability is valid for the library and refused by name: the
    comparison with the last number is not strict. *)
Lemma last_capability_refused {S} `{!CapNg S} name : 0 <= CAP_LAST_CAP < 2 ^ 31 -> 0 < zlen (c_string name) <= 256 ->
  capng_name_to_capability (c_string name) = CAP_LAST_CAP ->
  secure_capng_name_to_capability (Some name) = Ret CAP_LAST_CAP /\ cap_name_to_nr name = Throw ex_runtime_error.
Proof.
  intros Hl Hn E.
  assert (secure_capng_name_to_capability (Some name) = Ret CAP_LAST_CAP) as Hs.
  { unfold secure_capng_name_to_capability, othrow_if, max_expected_cap_name_length, safe_less_eq_than, get_last_cap_nr. rewrite E.
    rewrite (proj2 (Z.leb_gt _ 0)), (proj2 (Z.ltb_ge 256 _)), (proj2 (Z.eqb_neq _ (-1))), (proj2 (Z.leb_le 0 _)), (proj2 (Z.ltb_ge _ 0)), wrap_small, Z.leb_refl by lia.
    done. }
  split; [done|]. unfold cap_name_to_nr. rewrite Hs. unfold get_last_cap_nr, othrow_if, mbind, outcome_mbind, outcome_bind. by rewrite Z.leb_refl.
Qed.
