(* ===== verification/PrivilegesFacts.v ===== *)
(** * The main loop runs without privileges

    Theorems about [Privileges.v]: what the steps before the main loop leave to
    the process. *)
From S2P Require Import Prelude Serialize Caps Privileges CapsFacts.

Section Facts.
Context {S : Type} `{!CapNg S} `{!OsUser S} `{!CapNgLaws S}.
Context (g_dbg_level : Z).

(** The sets but the bounding set are remembered as they are. *)
Definition synced (s : S) : Prop :=
  forall a nr, in_range nr -> a <> area_bounding -> lib_has s a nr = proc_has s a nr.

(** Printing what the process has: it reads the capabilities again. *)
Lemma info_ret v s s' : get_security_info v s = (Ret tt, s') -> same_process s s' /\ synced s'.
Proof.
  unfold get_security_info, mcatch, mbind at 1, M_mbind at 1. intros E.
  pose proof (quiet_read_process s) as [Q T]. destruct (read_process_caps s) as [[m|e| |] s1] eqn:E1; cbn [fst snd tame] in *; try done.
  - apply read_process_ret in E1 as [L _].
    assert (s' = s1) as ->.
    { unfold mbind at 1, M_mbind at 1, mlift at 1 in E. destruct (cap_state_map_print 0 m) as [t|e| |]; try done.
      - destruct v; cbn [when] in E; [|by injection E]. unfold mbind, M_mbind, mlift in E.
        destruct (cap_state_map_print 20 m) as [t2|e| |]; try done; [by injection E|]. destruct (is_runtime_error e); [by injection E|done].
      - destruct (is_runtime_error e); [by injection E|done]. }
    split; [done|]. intros a nr _ _. by rewrite L, (sp_caps _ _ Q).
  - subst e. done.
Qed.

Lemma note_ret m s s' : (forall s s', m s = (Ret tt, s') -> same_process s s' /\ synced s') ->
  note g_dbg_level m s = (Ret tt, s') -> same_process s s' /\ (synced s -> synced s').
Proof.
  intros Hm. unfold note. destruct (g_dbg_level <=? 50); cbn [when]; intros E; [destruct (Hm _ _ E); auto|].
  injection E as <-. split; [apply same_process_refl|done].
Qed.

(** The whole step: the process is changed as [f] says. *)
Lemma cap_change_ret f s s' : security_apply_cap_change g_dbg_level f s = (Ret tt, s') ->
  getuid s' = getuid s /\ geteuid s' = geteuid s /\ synced s' /\
  forall a nr, in_range nr -> (a = area_bounding -> change_at a (change_for f nr) <> pc_enable) ->
    proc_has s' a nr = apply_bool (change_at a (change_for f nr)) (proc_has s a nr).
Proof.
  intros ([] & s1 & E1 & E)%M_bind_inv. apply note_ret in E1 as [Q1 _]; [|apply info_ret].
  apply M_bind_inv in E as ([] & s2 & E2 & E).
  assert (s2 = s1) as ->.
  { unfold note, when in E2. destruct (g_dbg_level <=? 50); [|by injection E2]. unfold mbind, M_mbind, mlift in E2.
    destruct (statechange_full_print 20 f); try done. by injection E2. }
  apply M_bind_inv in E as ([] & s3 & E3 & E4). apply apply_now_ret in E3 as (U & V & L & P).
  apply note_ret in E4 as [Q4 Y4]; [|apply info_ret]. destruct Q1 as [C1 U1 V1], Q4 as [C4 U4 V4].
  split_and!; [congruence|congruence| |].
  - apply Y4. intros a nr Hn Ha. destruct (L a nr) as [?|[?|?]]; [done..|by destruct Ha].
  - intros a nr Hn Hb. rewrite C4, P by done. rewrite C1. destruct a; try done. specialize (Hb eq_refl). by destruct (change_at area_bounding _).
Qed.

(** A change that disables or keeps: nothing is gained. *)
Lemma cap_change_shrinks f s s' : (forall a nr, change_at a (change_for f nr) <> pc_enable) ->
  security_apply_cap_change g_dbg_level f s = (Ret tt, s') ->
  forall a nr, in_range nr -> proc_has s' a nr = true -> proc_has s a nr = true.
Proof.
  intros Hf E a nr Hn. apply cap_change_ret in E as (_ & _ & _ & P). rewrite P by auto.
  specialize (Hf a nr). by destruct (change_at a (change_for f nr)).
Qed.

Lemma need_ret s b s' : do_we_need_to_change_uid_or_gid s = (Ret b, s') ->
  s' = s /\ getuid s = geteuid s /\ (b = false -> getuid s <> 0).
Proof.
  unfold do_we_need_to_change_uid_or_gid, mbind, M_mbind, mget. destruct (getuid s =? geteuid s) eqn:E; cbn [negb]; [|done].
  zbool. destruct (geteuid s =? 0) eqn:E0; [by intros [= <- <-]|]. zbool. rewrite E in *.
  rewrite (proj2 (Z.eqb_neq _ _)) by done. intros [= <- <-]. done.
Qed.

(** ** Building changes *)

Lemma set_given_ret name c f f' : set_given_cap name c f = Ret f' ->
  exists nr, cap_name_to_nr name = Ret nr /\ all_others f' = all_others f /\
    given f' = map_emplace nr c (given f).
Proof.
  unfold set_given_cap, statechange_map_set, mbind, outcome_mbind. destruct (cap_name_to_nr name) as [nr|e| |]; try done.
  cbn. intros [= <-]. by exists nr.
Qed.

(** A change that does [c] to the capabilities with a name in [names], and
    [all_others] to the rest. *)
Definition changes_named (c : cap_statechange) (names : list bytes) (f : cap_statechange_full) : Prop :=
  forall nr, given f !! nr =
    if bool_decide (Exists (fun name => cap_name_to_nr name = Ret nr) names) then Some c else None.

Lemma changes_named_set c names f name f' : changes_named c names f -> set_given_cap name c f = Ret f' ->
  changes_named c (names ++ [name]) f' /\ all_others f' = all_others f.
Proof.
  intros Hf (nr & Hn & Ha & Hg)%set_given_ret. split; [|done]. intros nr'. rewrite Hg. unfold map_emplace.
  assert (Exists (fun n => cap_name_to_nr n = Ret nr') (names ++ [name]) <->
    Exists (fun n => cap_name_to_nr n = Ret nr') names \/ nr' = nr) as He.
  { rewrite Exists_app, Exists_cons, Exists_nil, Hn. split; [intros [?|[[= ->]|[]]]; auto|intros [?| ->]; auto]. }
  rewrite (bool_decide_ext _ _ He).
  assert (given f !! nr' = if bool_decide (Exists (fun n => cap_name_to_nr n = Ret nr') names) then Some c else None) as Hl by apply Hf.
  destruct (decide (nr' = nr)) as [->|Hne].
  - rewrite (bool_decide_eq_true_2 (_ \/ nr = nr)) by auto. destruct (given f !! nr) eqn:E; [|by rewrite lookup_insert_eq].
    rewrite E. by case_bool_decide.
  - rewrite (bool_decide_ext (_ \/ nr' = nr) (Exists (fun n => cap_name_to_nr n = Ret nr') names)) by tauto.
    rewrite <- Hl. destruct (given f !! nr); [done|by rewrite lookup_insert_ne].
Qed.

Lemma mlift_ret {St A} (o : outcome A) (s : St) a s' : mlift o s = (Ret a, s') -> o = Ret a /\ s' = s.
Proof. unfold mlift. by intros [= -> ->]. Qed.
End Facts.

(** The names the program keeps on startup. *)
Definition kept_names (root : bool) : list bytes :=
  [str "NET_ADMIN"; str "NET_RAW"] ++ (if root then [str "SETUID"; str "SETGID"; str "SETPCAP"; str "CHOWN"] else []).

Definition keep : cap_statechange := statechange pc_unchanged pc_unchanged pc_unchanged.
Definition remove : cap_statechange := statechange pc_disable pc_disable pc_disable.

Section Steps.
Context {S : Type} `{!CapNg S} `{!OsUser S} `{!CapNgLaws S}.
Context (g_dbg_level : Z).

Lemma startup_ret (s s' : S) : drop_privileges_on_startup g_dbg_level s = (Ret tt, s') ->
  exists f, changes_named keep (kept_names (geteuid s =? 0)) f /\ all_others f = remove /\
    security_apply_cap_change g_dbg_level f s = (Ret tt, s').
Proof.
  unfold drop_privileges_on_startup. intros (f1 & s1 & [E1 ->]%mlift_ret & E)%M_bind_inv.
  apply M_bind_inv in E as (f2 & s2 & [E2 ->]%mlift_ret & E). apply M_bind_inv in E as (need & s3 & E3 & E).
  apply M_bind_inv in E as (f & s4 & E4 & E).
  assert (need = (geteuid s =? 0) /\ s3 = s) as [-> ->].
  { pose proof (need_ret _ _ _ E3) as (-> & Hu & _). split; [|done]. revert E3.
    unfold do_we_need_to_change_uid_or_gid, mbind, M_mbind, mget. rewrite Hu, Z.eqb_refl. cbn [negb]. by destruct (geteuid s =? 0); intros [= <-]. }
  assert (changes_named keep [] (set_all_others remove new_statechange_full)) as H0.
  { intros nr. rewrite bool_decide_eq_false_2 by (by intros ?%Exists_nil). done. }
  destruct (changes_named_set _ _ _ _ _ H0 E1) as [H1 A1]. destruct (changes_named_set _ _ _ _ _ H1 E2) as [H2 A2].
  exists f. destruct (geteuid s =? 0).
  - apply M_bind_inv in E4 as (f3 & s5 & [E5 ->]%mlift_ret & E4). apply M_bind_inv in E4 as (f4 & s6 & [E6 ->]%mlift_ret & E4).
    apply M_bind_inv in E4 as (f5 & s7 & [E7 ->]%mlift_ret & [E8 ->]%mlift_ret).
    destruct (changes_named_set _ _ _ _ _ H2 E5) as [H3 A3]. destruct (changes_named_set _ _ _ _ _ H3 E6) as [H4 A4].
    destruct (changes_named_set _ _ _ _ _ H4 E7) as [H5 A5]. destruct (changes_named_set _ _ _ _ _ H5 E8) as [H6 A6].
    split_and!; [exact H6|rewrite A6, A5, A4, A3, A2, A1; done|done].
  - injection E4 as <- <-. split_and!; [exact H2|rewrite A2, A1; done|done].
Qed.

Lemma after_tuntap_ret (s s' : S) : drop_privileges_after_tuntap g_dbg_level s = (Ret tt, s') ->
  exists f, changes_named remove [str "NET_ADMIN"; str "NET_RAW"] f /\ all_others f = keep /\
    security_apply_cap_change g_dbg_level f s = (Ret tt, s').
Proof.
  unfold drop_privileges_after_tuntap. intros (f1 & s1 & [E1 ->]%mlift_ret & E)%M_bind_inv.
  apply M_bind_inv in E as (f2 & s2 & [E2 ->]%mlift_ret & E).
  assert (changes_named remove [] (set_all_others keep new_statechange_full)) as H0.
  { intros nr. rewrite bool_decide_eq_false_2 by (by intros ?%Exists_nil). done. }
  destruct (changes_named_set _ _ _ _ _ H0 E1) as [H1 A1]. destruct (changes_named_set _ _ _ _ _ H1 E2) as [H2 A2].
  exists f2. split_and!; [exact H2|rewrite A2, A1; done|done].
Qed.

Lemma change_named_for c names f nr : changes_named c names f ->
  change_for f nr = if bool_decide (Exists (fun name => cap_name_to_nr name = Ret nr) names) then c else all_others f.
Proof. intros Hf. unfold change_for. rewrite Hf. by case_bool_decide. Qed.

Lemma verify_ret (s s' : S) : verify_privileges_are_as_for_mainloop s = (Ret tt, s') ->
  s' = s /\ getuid s <> 0 /\ geteuid s <> 0 /\ forall nr, in_range nr -> lib_has s area_eff nr = false.
Proof.
  intros (r & s1 & E1 & E)%M_bind_inv. unfold secure_capng_have_capabilities in E1.
  apply M_bind_inv in E1 as ([] & s2 & [E2 ->]%mlift_ret & E1). apply M_bind_inv in E1 as (r' & s3 & E3 & E1).
  destruct (have_capabilities_law s) as (r2 & E3' & Hl). rewrite E3' in E3. injection E3 as -> <-.
  apply M_bind_inv in E1 as ([] & s4 & [E4 ->]%mlift_ret & E1). apply M_bind_inv in E1 as ([] & s5 & [E5 ->]%mlift_ret & E1).
  injection E1 as <- <-. apply M_bind_inv in E as ([] & s6 & [E6 ->]%mlift_ret & E). apply M_bind_inv in E as (root & s7 & E7 & [E8 ->]%mlift_ret).
  apply need_ret in E7 as (-> & Hu & Hz).
  assert (root = false) as ->.
  { unfold oassert in E8. by destruct root. }
  split_and!; [done|auto|rewrite <- Hu; auto|].
  apply Hl. destruct codes_differ as (_ & _ & _ & C1 & C2). unfold othrow_if, oassert in *.
  destruct (CAPNG_NONE <? r') eqn:Eg; [done|]. zbool. clear E3' E5.
  destruct ((r' =? CAPNG_NONE) || (r' =? CAPNG_PARTIAL) || (r' =? CAPNG_FULL)) eqn:Ev; [|by destruct (r' =? CAPNG_FAIL)].
  apply orb_true_iff in Ev as [[Ev|Ev]%orb_true_iff|Ev]; zbool; lia.
Qed.
End Steps.

(** ** Properties *)

Section Properties.
Context {S : Type} `{!CapNg S} `{!OsUser S} `{!CapNgLaws S}.
Context (g_dbg_level : Z).

(** What the process keeps when [drop_privileges_on_startup] returns: the
    effective, permitted and inheritable bits of NET_ADMIN and NET_RAW (and of
    the four capabilities that dropping root needs, when it runs as root) are
    as they were, those of every other capability are off, and the bounding
    set is as it was. *)
Lemma startup_keeps_only (s s' : S) :
  drop_privileges_on_startup g_dbg_level s = (Ret tt, s') ->
  forall a nr, in_range nr ->
    (a = area_bounding \/ Exists (fun name => cap_name_to_nr name = Ret nr) (kept_names (geteuid s =? 0)) ->
       proc_has s' a nr = proc_has s a nr) /\
    (a <> area_bounding -> ~ Exists (fun name => cap_name_to_nr name = Ret nr) (kept_names (geteuid s =? 0)) ->
       proc_has s' a nr = false).
Proof.
  intros (f & Hf & Ha & E)%startup_ret a nr Hn. apply cap_change_ret in E as (_ & _ & _ & P).
  rewrite P; [|done|]; rewrite (change_named_for _ _ _ _ Hf), Ha; [|by intros ->; case_bool_decide].
  split; [intros [-> | H]|intros Hb H].
  - by case_bool_decide.
  - rewrite bool_decide_eq_true_2 by done. by destruct a.
  - rewrite bool_decide_eq_false_2 by done. by destruct a.
Qed.

(** No step before the main loop gives the process a capability it did not
    have, in any of the four sets. *)
Lemma privileges_only_shrink (s s' : S) :
  drop_privileges_on_startup g_dbg_level s = (Ret tt, s') \/
  drop_privileges_after_tuntap g_dbg_level s = (Ret tt, s') \/
  drop_privileges_before_mainloop g_dbg_level s = (Ret tt, s') ->
  forall a nr, in_range nr -> proc_has s' a nr = true -> proc_has s a nr = true.
Proof.
  intros [(f & Hf & Ha & E)%startup_ret|[(f & Hf & Ha & E)%after_tuntap_ret|E]].
  - eapply (cap_change_shrinks g_dbg_level f); [|exact E]. intros a nr. rewrite (change_named_for _ _ _ _ Hf), Ha. by case_bool_decide; destruct a.
  - eapply (cap_change_shrinks g_dbg_level f); [|exact E]. intros a nr. rewrite (change_named_for _ _ _ _ Hf), Ha. by case_bool_decide; destruct a.
  - unfold drop_privileges_before_mainloop in E. eapply cap_change_shrinks; [|exact E]. intros a nr. by destruct a.
Qed.

(** C25: the main loop is entered without privileges: when the steps before it
    return, the process does not run as root, and, unless the option that
    skips dropping is set, it has no effective, permitted or inheritable
    capability at all; with that option it has no effective one the library
    knows of. *)
Theorem mainloop_unprivileged insecure (s s' : S) :
  before_event_loop g_dbg_level insecure s = (Ret tt, s') ->
  getuid s' <> 0 /\ geteuid s' <> 0 /\ (forall nr, in_range nr -> lib_has s' area_eff nr = false) /\
  (insecure = false -> forall a nr, in_range nr -> a <> area_bounding -> proc_has s' a nr = false).
Proof.
  intros ([] & s1 & E1 & E)%M_bind_inv. apply M_bind_inv in E as ([] & s2 & E2 & E3).
  apply verify_ret in E3 as (-> & U & V & L). split_and!; [done..|]. intros -> a nr Hn Ha. cbn [negb when] in E2.
  apply cap_change_ret in E2 as (_ & _ & _ & P). rewrite P by (done || by intros ->). by destruct a.
Qed.
End Properties.

(** ** On the small system *)

#[local] Existing Instance toy_capng.
#[local] Existing Instance toy_user.
#[local] Existing Instance toy_capng_laws.

Lemma mainloop_unprivileged_witness : t_proc (before_event_loop 50 false (toy_full 5)).2 area_permit 3 = false.
Proof.
  assert (before_event_loop 50 false (toy_full 5) = (Ret tt, (before_event_loop 50 false (toy_full 5)).2)) as E by (apply ret_pair; vm_compute; reflexivity).
  destruct (mainloop_unprivileged 50 false _ _ E) as (_ & _ & _ & H).
  apply (H eq_refl area_permit 3); [split; vm_compute; discriminate|discriminate].
Defined.
