(* ===== verification/SerializeFacts.v ===== *)
(** * trivialserialize: safety of the reader, round trips, termination

    Theorems about [Serialize.v]: [reads_safely] is the contract of every
    parser operation, [pushes]/[pops] the two halves of a round trip, and
    [SerializerOk] the law a type's [obj_serialize]/[obj_deserialize] owe to
    the container functions. *)
From S2P Require Import Prelude Serialize.

(** ** Safety of the reader *)

(** The cursor is inside the buffer: "must be in range begin..end". *)
Definition wf_parser (p : parser) : Prop := 0 <= m_data_now p <= m_data_end p.

(** From a good parser: no undefined operation, the buffer is not changed, the
    cursor moves forward and stays inside. *)
Definition reads_safely {A} (m : M parser A) : Prop := forall p, wf_parser p ->
  (m p).1 <> Undef /\ m_data (m p).2 = m_data p /\
  m_data_now p <= m_data_now (m p).2 <= m_data_end p.

(** A successful read consumes at least one octet. *)
Definition consumes {A} (m : M parser A) : Prop := forall p a,
  wf_parser p -> (m p).1 = Ret a -> m_data_now p < m_data_now (m p).2.

Lemma reads_safely_wf {A} (m : M parser A) p : reads_safely m -> wf_parser p -> wf_parser (m p).2.
Proof.
  intros Hm Hp. destruct (Hm p Hp) as (_ & Hd & Hn). unfold wf_parser, m_data_end in *.
  rewrite Hd. lia.
Qed.

Lemma reads_safely_ret {A} (a : A) : reads_safely (mret a).
Proof. intros p Hp. cbn. unfold wf_parser in Hp. repeat split; try discriminate; lia. Qed.

Lemma reads_safely_lift {A} (o : outcome A) : o <> Undef -> reads_safely (mlift o).
Proof. intros Ho p Hp. cbn. unfold wf_parser in Hp. repeat split; [done|lia..]. Qed.

Lemma reads_safely_get : reads_safely mget.
Proof. intros p Hp. cbn. unfold wf_parser in Hp. repeat split; [done|lia..]. Qed.

Lemma reads_safely_assert b : reads_safely (massert b).
Proof. apply reads_safely_lift. by destruct b. Qed.

Lemma reads_safely_throw_if b e : reads_safely (mthrow_if b e).
Proof. apply reads_safely_lift. by destruct b. Qed.

Lemma reads_safely_bind {A B} (m : M parser A) (f : A -> M parser B) :
  reads_safely m -> (forall a, reads_safely (f a)) -> reads_safely (m ≫= f).
Proof.
  intros Hm Hf p Hp. pose proof (reads_safely_wf m p Hm Hp) as Hw.
  destruct (Hm p Hp) as (Hu & Hd & Hn). unfold mbind, M_mbind.
  destruct (m p) as [[a|e| |] p1]; cbn in *; try done.
  destruct (Hf a p1 Hw) as (Hu2 & Hd2 & Hn2). unfold m_data_end in *. rewrite Hd in *.
  repeat split; [done|done|lia..].
Qed.

Lemma consumes_bind_l {A B} (m : M parser A) (f : A -> M parser B) :
  reads_safely m -> consumes m -> (forall a, reads_safely (f a)) -> consumes (m ≫= f).
Proof.
  intros Hs Hm Hf p b Hp. pose proof (reads_safely_wf m p Hs Hp) as Hw.
  specialize (Hm p). unfold mbind, M_mbind.
  destruct (m p) as [[a|e| |] p1]; cbn in *; try done. intros Hr.
  specialize (Hm a Hp eq_refl). destruct (Hf a p1 Hw) as (_ & _ & ?). lia.
Qed.

Create HintDb parser discriminated.
#[export] Hint Resolve reads_safely_ret reads_safely_get reads_safely_assert
  reads_safely_throw_if reads_safely_bind : parser.

Lemma pop_byte_u_eval d n :
  0 <= n <= zlen d ->
  pop_byte_u (Parser d n) =
    match d !! Z.to_nat n with
    | Some c => (Ret c, Parser d (n + 1))
    | None => (Throw ex_format_error_read, Parser d n)
    end.
Proof.
  intros Hn. unfold pop_byte_u, move_now. munfold. unfold m_data_end. simpl.
  destruct (d !! Z.to_nat n) as [c|] eqn:E.
  - apply lookup_lt_Some in E as Hl. unfold zlen in *.
    rewrite (proj2 (Z.ltb_lt n _)) by lia. rewrite (proj2 (Z.leb_le 1 _)) by lia.
    by rewrite (proj2 (Z.leb_le 0 _)) by lia.
  - apply lookup_ge_None in E. unfold zlen in *. by rewrite (proj2 (Z.ltb_ge n _)) by lia.
Qed.

Lemma pop_byte_u_safe : reads_safely pop_byte_u.
Proof.
  intros [d n] Hp. unfold wf_parser, m_data_end in *. cbn in Hp. rewrite pop_byte_u_eval by done.
  destruct (d !! Z.to_nat n) eqn:E; cbn; repeat split; try done; try lia.
  apply lookup_lt_Some in E. unfold zlen. lia.
Qed.

Lemma pop_byte_u_consumes : consumes pop_byte_u.
Proof.
  intros [d n] a Hp. unfold wf_parser, m_data_end in *. cbn in Hp. rewrite pop_byte_u_eval by done.
  destruct (d !! Z.to_nat n); cbn; [lia|done].
Qed.

Lemma pop_byte_s_eval p :
  pop_byte_s p = (fun r : outcome Byte.byte * parser =>
    (match r.1 with Ret c => Ret (signed_char c) | Throw e => Throw e | Abort_ => Abort_ | Undef => Undef end, r.2))
    (pop_byte_u p).
Proof.
  unfold pop_byte_s, pop_byte_u, move_now. munfold. cbn.
  do 3 (case_bool; try done); by destruct (m_data p !! _).
Qed.

Lemma pop_byte_s_safe : reads_safely pop_byte_s.
Proof.
  intros p Hp. destruct (pop_byte_u_safe p Hp) as (Hu & Hd & Hn). rewrite pop_byte_s_eval.
  destruct (pop_byte_u p) as [[c|e| |] p1]; cbn in *; repeat split; try done; lia.
Qed.

Lemma pop_byte_skip_eval c d n :
  0 <= n <= zlen d ->
  pop_byte_skip c (Parser d n) =
    match d !! Z.to_nat n with
    | Some b => if decide (b = c) then (Ret tt, Parser d (n + 1))
                else (Throw ex_format_error_read_delimiter, Parser d n)
    | None => (Throw ex_format_error_read, Parser d n)
    end.
Proof.
  intros Hn. unfold pop_byte_skip, mbind, M_mbind. rewrite pop_byte_u_eval by done.
  destruct (d !! Z.to_nat n) as [b|]; [|done]. destruct (decide (b = c)); [done|].
  cbn. by replace (n + 1 + -1) with n by lia.
Qed.

Lemma pop_byte_skip_safe c : reads_safely (pop_byte_skip c).
Proof.
  intros [d n] Hp. unfold wf_parser, m_data_end in *. cbn in Hp. rewrite pop_byte_skip_eval by done.
  destruct (d !! Z.to_nat n) eqn:E; [destruct decide|]; cbn; repeat split; try done; try lia.
  apply lookup_lt_Some in E. unfold zlen. lia.
Qed.

Lemma check_available_eval size d n :
  0 <= n <= zlen d ->
  check_available size (Parser d n) =
    if (n <? zlen d) && (size <=? zlen d - n) then (Ret tt, Parser d n)
    else (Throw ex_format_error_read, Parser d n).
Proof.
  intros Hn. unfold check_available. munfold. unfold m_data_end. cbn.
  destruct (n <? zlen d) eqn:E1; [|done]. cbn.
  destruct (size <=? zlen d - n) eqn:E2; [|done]. cbn. zbool.
  rewrite (proj2 (Z.leb_le 0 n)) by lia. cbn. by rewrite (proj2 (Z.leb_le (n + size) _)) by lia.
Qed.

(** [pop_bytes_n] on every input: the empty string, the next octets, or an
    exception that leaves the cursor where it was. *)
Lemma pop_bytes_n_eval size d n :
  0 <= size -> 0 <= n <= zlen d ->
  pop_bytes_n size (Parser d n) =
    if size <=? zlen d - n then (Ret (sub d n size), Parser d (n + size))
    else (Throw ex_format_error_read, Parser d n).
Proof.
  intros Hs Hn. unfold pop_bytes_n. destruct (size =? 0) eqn:E0; zbool.
  - subst size. rewrite (proj2 (Z.leb_le 0 _)) by lia. unfold sub. cbn.
    by rewrite take_0, Z.add_0_r.
  - unfold mbind, M_mbind. rewrite check_available_eval by done.
    destruct (size <=? zlen d - n) eqn:E1; zbool.
    + by rewrite (proj2 (Z.ltb_lt n _)) by lia.
    + by rewrite andb_false_r.
Qed.

Lemma skip_bytes_n_eval size d n :
  0 <= size -> 0 <= n <= zlen d ->
  skip_bytes_n size (Parser d n) =
    if size <=? zlen d - n then (Ret tt, Parser d (n + size))
    else (Throw ex_format_error_read, Parser d n).
Proof.
  intros Hs Hn. unfold skip_bytes_n. destruct (size =? 0) eqn:E0; zbool.
  - subst size. rewrite (proj2 (Z.leb_le 0 _)) by lia. by rewrite Z.add_0_r.
  - unfold mbind, M_mbind. rewrite check_available_eval by done.
    destruct (size <=? zlen d - n) eqn:E1; zbool.
    + by rewrite (proj2 (Z.ltb_lt n _)) by lia.
    + by rewrite andb_false_r.
Qed.

Lemma pop_bytes_n_safe size : 0 <= size -> reads_safely (pop_bytes_n size).
Proof.
  intros Hs [d n] Hp. unfold wf_parser, m_data_end in *. cbn in Hp. rewrite pop_bytes_n_eval by done.
  case_bool; cbn; zbool; repeat split; try done; lia.
Qed.

Lemma skip_bytes_n_safe size : 0 <= size -> reads_safely (skip_bytes_n size).
Proof.
  intros Hs [d n] Hp. unfold wf_parser, m_data_end in *. cbn in Hp. rewrite skip_bytes_n_eval by done.
  case_bool; cbn; zbool; repeat split; try done; lia.
Qed.

(** ** Fixed-width integers *)

(** Reference: the [n] low octets of [v], most significant first. *)
Fixpoint be_bytes (n : nat) (v : Z) : bytes :=
  match n with
  | O => []
  | S n' => byte_of_Z (v / 256 ^ Z.of_nat n') :: be_bytes n' v
  end.

Fixpoint be_value (acc : Z) (l : bytes) : Z :=
  match l with [] => acc | b :: l' => be_value (acc * 256 + byte_val b) l' end.

Lemma be_bytes_length n v : length (be_bytes n v) = n.
Proof. induction n; cbn; auto. Qed.

Lemma zlen_be_bytes n v : zlen (be_bytes n v) = Z.of_nat n.
Proof. unfold zlen. by rewrite be_bytes_length. Qed.

Lemma be_value_acc l : forall acc, be_value acc l = acc * 256 ^ zlen l + be_value 0 l.
Proof.
  induction l as [|b l IH]; intros acc; simpl.
  - unfold zlen. simpl. change (256 ^ Z.of_nat 0) with 1. lia.
  - rewrite IH, (IH (0 * 256 + _)). rewrite zlen_cons, Z.pow_add_r by (pose proof (zlen_nonneg l); lia). lia.
Qed.

Lemma be_value_range l : 0 <= be_value 0 l < 256 ^ zlen l.
Proof.
  induction l as [|b l IH]; simpl; [done|].
  rewrite be_value_acc, zlen_cons, Z.pow_add_r by (pose proof (zlen_nonneg l); lia).
  pose proof (byte_val_range b). nia.
Qed.

Lemma be_value_be_bytes n v : be_value 0 (be_bytes n v) = v mod 256 ^ Z.of_nat n.
Proof.
  induction n as [|n IH]; simpl.
  - change (256 ^ Z.of_nat 0) with 1. by rewrite Z.mod_1_r.
  - rewrite be_value_acc, IH, byte_val_of_Z. unfold zlen. rewrite be_bytes_length.
    rewrite Nat2Z.inj_succ, Z.pow_succ_r by lia.
    rewrite (Z.mul_comm 256), Z.rem_mul_r by (try apply Z.pow_nonzero; lia). lia.
Qed.

Lemma shiftr_256 n : Z.shiftr (256 ^ Z.of_nat (S n)) 8 = 256 ^ Z.of_nat n.
Proof.
  rewrite Z.shiftr_div_pow2 by lia. change (2 ^ 8) with 256.
  rewrite Nat2Z.inj_succ, Z.pow_succ_r by lia. rewrite Z.mul_comm. by apply Z.div_mul.
Qed.

Lemma divider_0 S : (1 <= S <= 8)%nat ->
  u64 (Z.shiftl 1 ((Z.of_nat S - 1) * 8)) = 256 ^ Z.of_nat (S - 1).
Proof.
  intros H. do 9 (destruct S as [|S]; [try lia; vm_compute; reflexivity|]). lia.
Qed.

Lemma push_octets_eval n v g :
  push_octets (S n) (256 ^ Z.of_nat n) v g = (Ret tt, g ++ be_bytes (S n) v).
Proof.
  revert g. induction n as [|n IH]; intros g.
  - simpl. munfold. pose proof (Z.mod_pos_bound (v / 256 ^ 0) 256 ltac:(lia)).
    change (256 ^ Z.of_nat 0) with (256 ^ 0).
    rewrite (proj2 (Z.leb_le 0 _)), (proj2 (Z.leb_le _ 255)) by lia. simpl.
    unfold byte_of_Z. by rewrite Z.mod_mod.
  - remember (S n) as m. simpl push_octets. munfold.
    pose proof (Z.mod_pos_bound (v / 256 ^ Z.of_nat m) 256 ltac:(lia)).
    rewrite (proj2 (Z.leb_le 0 _)), (proj2 (Z.leb_le _ 255)) by lia. simpl. subst m.
    rewrite shiftr_256. cbn [push_byte_u]. unfold push_byte_u, mmodify. rewrite IH.
    rewrite <- app_assoc. unfold byte_of_Z at 1. rewrite Z.mod_mod by lia. done.
Qed.

Lemma lookup_zlen_app (p : bytes) b r : (p ++ (b :: r)) !! Z.to_nat (zlen p) = Some b.
Proof. unfold zlen. rewrite Nat2Z.id, lookup_app_r, Nat.sub_diag by lia. done. Qed.

Lemma pop_octets_eval w n l : forall p r acc,
  length l = n -> (n <= 8)%nat -> 0 <= w <= 64 -> (n = 0%nat -> wrap w acc = acc) ->
  pop_octets w n (256 ^ Z.of_nat (n - 1)) acc (Parser (p ++ l ++ r) (zlen p)) =
    (Ret (wrap w (acc + be_value 0 l)), Parser (p ++ l ++ r) (zlen p + zlen l)).
Proof.
  revert n. induction l as [|b l IH]; intros n p r acc Hl Hn Hw Hacc; simpl in Hl; subst n.
  - simpl. unfold mret, M_mret. by rewrite Z.add_0_r, Z.add_0_r, Hacc.
  - simpl pop_octets. unfold mbind at 1, M_mbind at 1. rewrite pop_byte_u_eval.
    2:{ autorewrite with sizes. pose proof (zlen_nonneg p). pose proof (zlen_nonneg l).
        pose proof (zlen_nonneg r). lia. }
    rewrite (lookup_zlen_app p b (l ++ r)).
    rewrite !Nat.sub_0_r.
    specialize (IH (length l) (p ++ [b]) r (wrap w (acc + u64 (byte_val b * 256 ^ Z.of_nat (length l))))).
    rewrite <- app_assoc in IH. simpl in IH.
    replace (zlen (p ++ [b])) with (zlen p + 1) in IH by by rewrite zlen_app.
    assert (Hsh : pop_octets w (length l) (Z.shiftr (256 ^ Z.of_nat (length l)) 8) =
                  pop_octets w (length l) (256 ^ Z.of_nat (length l - 1))).
    { destruct l as [|b' l']; [done|]. simpl length. by rewrite shiftr_256, Nat.sub_succ, Nat.sub_0_r. }
    rewrite Hsh, IH by first [lia | intros _; apply wrap_wrap; lia].
    f_equal; [|f_equal; rewrite zlen_cons; lia]. f_equal. simpl.
    rewrite (be_value_acc l (_ + _)). unfold wrap. rewrite Zplus_mod_idemp_l.
    rewrite u64_small; [f_equal; unfold zlen; lia|].
    pose proof (byte_val_range b).
    assert (256 ^ Z.of_nat (length l) <= 256 ^ 7) by (apply Z.pow_le_mono_r; lia).
    assert (0 < 256 ^ Z.of_nat (length l)) by (apply Z.pow_pos_nonneg; lia). nia.
Qed.

Lemma get_max_value_eq S : (1 <= S <= 8)%nat ->
  get_max_value_of_S_octet_uint S = 256 ^ Z.of_nat S - 1.
Proof. intros H. do 9 (destruct S as [|S]; [try lia; vm_compute; reflexivity|]). lia. Qed.

(** [push_integer_u<S>] writes the [S] octets of a value below the greatest
    one and refuses the rest, the greatest representable value included. *)
Lemma push_integer_u_eval S v g : (1 <= S <= 8)%nat ->
  push_integer_u S v g =
    if 256 ^ Z.of_nat S - 1 <=? v then (Throw ex_format_error_write_value_too_big, g)
    else (Ret tt, g ++ be_bytes S v).
Proof.
  intros HS. unfold push_integer_u. rewrite divider_0 by done.
  assert ((if (S =? 8)%nat
           then mthrow_if (0xFFFFFFFFFFFFFFFF <=? v) ex_format_error_write_value_too_big
           else mthrow_if (get_max_value_of_S_octet_uint S <=? v) ex_format_error_write_value_too_big)
          = mthrow_if (256 ^ Z.of_nat S - 1 <=? v) ex_format_error_write_value_too_big (St:=bytes)) as ->.
  { destruct (S =? 8)%nat eqn:E; [apply Nat.eqb_eq in E as ->; done|]. by rewrite get_max_value_eq. }
  destruct S as [|S]; [lia|]. unfold mbind, M_mbind, mthrow_if, mlift, othrow_if.
  destruct (_ <=? v); [done|]. rewrite Nat.sub_succ, Nat.sub_0_r. apply push_octets_eval.
Qed.

(** ** The two halves of a round trip *)

(** [m] succeeds on every generator and appends [e]. *)
Definition pushes (m : M bytes unit) (e : bytes) : Prop := forall g, m g = (Ret tt, g ++ e).

(** Wherever [e] stands in the input, [d] reads [x] from it and stops after it. *)
Definition pops {A} (d : M parser A) (e : bytes) (x : A) : Prop := forall p r,
  d (Parser (p ++ e ++ r) (zlen p)) = (Ret x, Parser (p ++ e ++ r) (zlen p + zlen e)).

Lemma pushes_ret : pushes (mret tt) [].
Proof. intros g. by rewrite app_nil_r. Qed.

Lemma pushes_assert b : b = true -> pushes (massert b) [].
Proof. intros -> g. by rewrite app_nil_r. Qed.

Lemma pushes_bind m1 e1 m2 e2 : pushes m1 e1 -> pushes m2 e2 -> pushes (m1;; m2) (e1 ++ e2).
Proof. intros H1 H2 g. unfold mbind, M_mbind. by rewrite H1, H2, app_assoc. Qed.

Lemma pushes_append e : pushes (mmodify (fun s => s ++ e)) e.
Proof. done. Qed.

Lemma pops_ret {A} (x : A) : pops (mret x) [] x.
Proof. intros p r. unfold zlen at 3. by rewrite Z.add_0_r. Qed.

Lemma pops_assert b : b = true -> pops (massert b) [] tt.
Proof. intros -> p r. unfold zlen at 3. by rewrite Z.add_0_r. Qed.

Lemma pops_throw_if b e : b = false -> pops (mthrow_if b e) [] tt.
Proof. intros -> p r. unfold zlen at 3. by rewrite Z.add_0_r. Qed.

Lemma pops_bind {A B} (m : M parser A) (f : A -> M parser B) e1 e2 x y :
  pops m e1 x -> pops (f x) e2 y -> pops (m ≫= f) (e1 ++ e2) y.
Proof.
  intros H1 H2 p r. unfold mbind, M_mbind. rewrite <- app_assoc, (H1 p (e2 ++ r)).
  specialize (H2 (p ++ e1) r). rewrite <- !app_assoc, zlen_app in H2. rewrite H2.
  by rewrite zlen_app, Z.add_assoc.
Qed.

Lemma pops_bind_0 {A B} (m : M parser A) (f : A -> M parser B) e x y :
  pops m [] x -> pops (f x) e y -> pops (m ≫= f) e y.
Proof. apply (pops_bind m f [] e). Qed.

Lemma pops_byte c : pops pop_byte_u [c] c.
Proof.
  intros p r. change ([c] ++ r) with (c :: r). rewrite pop_byte_u_eval; [|autorewrite with sizes; pose proof (zlen_nonneg p);
    pose proof (zlen_nonneg r); lia]. by rewrite (lookup_zlen_app p c r).
Qed.

Lemma pops_bytes_n e : pops (pop_bytes_n (zlen e)) e e.
Proof.
  intros p r. rewrite pop_bytes_n_eval; [|apply zlen_nonneg|autorewrite with sizes;
    pose proof (zlen_nonneg p); pose proof (zlen_nonneg e); pose proof (zlen_nonneg r); lia].
  rewrite (proj2 (Z.leb_le _ _)); [|autorewrite with sizes; pose proof (zlen_nonneg r); lia].
  by rewrite sub_app_exact.
Qed.

Lemma pops_integer_u S w v : (1 <= S <= 8)%nat -> 0 <= w <= 64 ->
  0 <= v < 256 ^ Z.of_nat S -> v < 2 ^ w -> pops (pop_integer_u S w) (be_bytes S v) v.
Proof.
  intros HS Hw Hv Hvw p r. unfold pop_integer_u. rewrite divider_0 by done.
  rewrite pop_octets_eval by first [lia | apply be_bytes_length].
  rewrite be_value_be_bytes, Z.add_0_l, Z.mod_small, wrap_small by lia. done.
Qed.

Lemma pop_integer_u_safe S w : reads_safely (pop_integer_u S w).
Proof.
  unfold pop_integer_u. generalize (u64 (Z.shiftl 1 ((Z.of_nat S - 1) * 8))) 0.
  induction S as [|S IH]; intros m acc; simpl; auto using pop_byte_u_safe with parser.
Qed.

(** ** Variable-length integers *)

Definition uvarint_bytes (v : Z) : bytes :=
  if v <? 0xFD then be_bytes 1 v
  else if v <? 0xFFFF then byte_of_Z 0xFD :: be_bytes 2 v
  else if v <? 0xFFFFFFFF then byte_of_Z 0xFE :: be_bytes 4 v
  else byte_of_Z 0xFF :: be_bytes 8 v.

Lemma pushes_integer_u S v : (1 <= S <= 8)%nat -> v < 256 ^ Z.of_nat S - 1 ->
  pushes (push_integer_u S v) (be_bytes S v).
Proof. intros HS Hv g. rewrite push_integer_u_eval by done. by rewrite (proj2 (Z.leb_gt _ _)). Qed.

Lemma pushes_uvarint v : 0 <= v < 2 ^ 64 - 1 -> pushes (push_integer_uvarint v) (uvarint_bytes v).
Proof.
  intros Hv. unfold push_integer_uvarint, uvarint_bytes. repeat case_bool; zbool;
    first [apply (pushes_bind _ [_]); [apply pushes_append|]|idtac];
    apply pushes_integer_u; try lia; vm_compute (256 ^ _); lia.
Qed.

Lemma pops_uvarint v : 0 <= v < 2 ^ 64 - 1 -> pops pop_integer_uvarint (uvarint_bytes v) v.
Proof.
  intros Hv. unfold uvarint_bytes, pop_integer_uvarint. repeat case_bool; zbool.
  - cbn [be_bytes]. change (256 ^ Z.of_nat 0) with 1. rewrite Z.div_1_r.
    apply (pops_bind _ _ [_] [] _ _ (pops_byte _)). rewrite byte_val_of_Z, Z.mod_small by lia.
    rewrite (proj2 (Z.ltb_lt _ _)) by lia. apply pops_ret.
  - apply (pops_bind _ _ [_] _ _ _ (pops_byte _)). apply pops_integer_u; lia.
  - apply (pops_bind _ _ [_] _ _ _ (pops_byte _)). apply pops_integer_u; lia.
  - apply (pops_bind _ _ [_] _ _ _ (pops_byte _)).
    apply (pops_bind_0 _ _ _ tt); [by apply pops_assert|]. apply pops_integer_u; lia.
Qed.

Lemma pop_integer_uvarint_safe : reads_safely pop_integer_uvarint.
Proof.
  unfold pop_integer_uvarint. apply reads_safely_bind; [apply pop_byte_u_safe|]. intros b. cbv zeta.
  repeat case_bool; auto using pop_integer_u_safe with parser.
Qed.

Lemma pop_integer_uvarint_consumes : consumes pop_integer_uvarint.
Proof.
  apply consumes_bind_l; [apply pop_byte_u_safe|apply pop_byte_u_consumes|]. intros b. cbv zeta.
  repeat case_bool; auto using pop_integer_u_safe with parser.
Qed.

(** Binding after a read whose result satisfies [Q]. *)
Lemma reads_safely_bind_post {A B} (Q : A -> Prop) (m : M parser A) (f : A -> M parser B) :
  reads_safely m -> (forall p a, (m p).1 = Ret a -> Q a) -> (forall a, Q a -> reads_safely (f a)) ->
  reads_safely (m ≫= f).
Proof.
  intros Hm HQ Hf p Hp. pose proof (reads_safely_wf m p Hm Hp) as Hw.
  destruct (Hm p Hp) as (Hu & Hd & Hn). specialize (HQ p). unfold mbind, M_mbind.
  destruct (m p) as [[a|e| |] p1]; cbn in *; try done.
  destruct (Hf a (HQ a eq_refl) p1 Hw) as (Hu2 & Hd2 & Hn2). unfold m_data_end in *. rewrite Hd in *.
  repeat split; [done|done|lia..].
Qed.

Lemma pop_octets_nonneg S v : forall m acc p, 0 <= acc ->
  (pop_octets 64 S m acc p).1 = Ret v -> 0 <= v.
Proof.
  induction S as [|S IH]; intros m acc p Hacc; simpl; [by intros [= <-]|].
  unfold mbind, M_mbind. destruct (pop_byte_u p) as [[b|e| |] p1]; try done. apply IH.
  unfold wrap. apply Z.mod_pos_bound. done.
Qed.

Lemma pop_integer_u_nonneg S p v : (pop_integer_u S 64 p).1 = Ret v -> 0 <= v.
Proof. by apply pop_octets_nonneg. Qed.

Lemma pop_integer_uvarint_nonneg p v : (pop_integer_uvarint p).1 = Ret v -> 0 <= v.
Proof.
  unfold pop_integer_uvarint, mbind at 1, M_mbind at 1.
  destruct (pop_byte_u p) as [[b|e| |] p1]; try done. cbv zeta.
  pose proof (byte_val_range b). repeat case_bool; zbool.
  - intros [= <-]. lia.
  - apply pop_integer_u_nonneg.
  - apply pop_integer_u_nonneg.
  - unfold mbind, M_mbind, massert, mlift, oassert. case_bool; [|done]. apply pop_integer_u_nonneg.
Qed.

Lemma pop_varstring_safe : reads_safely pop_varstring.
Proof.
  apply (reads_safely_bind_post (fun v => 0 <= v));
    [apply pop_integer_uvarint_safe|apply pop_integer_uvarint_nonneg|].
  intros v Hv. apply reads_safely_bind; auto using pop_bytes_n_safe with parser.
Qed.

Lemma skip_varstring_safe : reads_safely skip_varstring.
Proof.
  apply (reads_safely_bind_post (fun v => 0 <= v));
    [apply pop_integer_uvarint_safe|apply pop_integer_uvarint_nonneg|].
  intros v Hv. apply reads_safely_bind; auto using skip_bytes_n_safe with parser.
Qed.

Lemma consumes_bind_post {A B} (Q : A -> Prop) (m : M parser A) (f : A -> M parser B) :
  reads_safely m -> consumes m -> (forall p a, (m p).1 = Ret a -> Q a) ->
  (forall a, Q a -> reads_safely (f a)) -> consumes (m ≫= f).
Proof.
  intros Hs Hm HQ Hf p b Hp. pose proof (reads_safely_wf m p Hs Hp) as Hw.
  specialize (Hm p). specialize (HQ p). unfold mbind, M_mbind.
  destruct (m p) as [[a|e| |] p1]; cbn in *; try done. intros Hr.
  specialize (Hm a Hp eq_refl). destruct (Hf a (HQ a eq_refl) p1 Hw) as (_ & _ & ?). lia.
Qed.

Lemma pop_varstring_consumes : consumes pop_varstring.
Proof.
  apply (consumes_bind_post (fun v => 0 <= v)); [apply pop_integer_uvarint_safe|
    apply pop_integer_uvarint_consumes|apply pop_integer_uvarint_nonneg|].
  intros v Hv. apply reads_safely_bind; auto using pop_bytes_n_safe with parser.
Qed.

Definition varstring_bytes (s : bytes) : bytes := uvarint_bytes (zlen s) ++ s.

Lemma pushes_varstring s : zlen s < 2 ^ 64 - 1 -> pushes (push_varstring s) (varstring_bytes s).
Proof.
  intros Hs. apply pushes_bind; [apply pushes_uvarint; pose proof (zlen_nonneg s); lia|].
  apply (pushes_bind _ []); [|apply pushes_append]. apply pushes_assert. apply Z.eqb_refl.
Qed.

Lemma pops_varstring s : zlen s <= SANE_MAX_SIZE_FOR_STRING -> pops pop_varstring (varstring_bytes s) s.
Proof.
  intros Hs. pose proof (zlen_nonneg s). unfold SANE_MAX_SIZE_FOR_STRING in Hs.
  apply (pops_bind _ _ _ _ (zlen s)); [apply pops_uvarint; lia|].
  apply (pops_bind_0 _ _ _ tt); [|apply pops_bytes_n]. apply pops_assert. by apply Z.leb_le.
Qed.

Lemma uvarint_bytes_nonempty v : uvarint_bytes v <> [].
Proof. unfold uvarint_bytes. by repeat case_bool. Qed.

(** ** The law of a serializable type *)

Class SerializerOk (T : Type) `{ObjSerialize T} := {
  ser_valid : T -> Prop;
  ser_bytes : T -> bytes;
  ser_pushes x : ser_valid x -> pushes (obj_serialize x) (ser_bytes x);
  ser_pops x : ser_valid x -> pops obj_deserialize (ser_bytes x) x;
  ser_nonempty x : ser_bytes x <> [];
  ser_safe : reads_safely obj_deserialize;
  ser_consumes : consumes obj_deserialize
}.

Lemma varstring_nonempty s : varstring_bytes s <> [].
Proof. intros H%app_eq_nil. by destruct H as [H%uvarint_bytes_nonempty _]. Qed.

Lemma pops_eta {A} (d : M parser A) e x : pops d e x -> pops (r ← d; mret r) e x.
Proof. intros H p r. unfold mbind, M_mbind. by rewrite H. Qed.

#[export, refine] Instance string_ok : SerializerOk bytes := {|
  ser_valid := fun s => zlen s <= SANE_MAX_SIZE_FOR_STRING;
  ser_bytes := varstring_bytes
|}.
Proof.
  - intros s Hs. apply pushes_varstring. unfold SANE_MAX_SIZE_FOR_STRING in Hs. lia.
  - intros s Hs. by apply pops_eta, pops_varstring.
  - apply varstring_nonempty.
  - apply reads_safely_bind; auto using pop_varstring_safe with parser.
  - apply consumes_bind_l; auto using pop_varstring_safe, pop_varstring_consumes with parser.
Defined.

#[export, refine] Instance char_ok : SerializerOk Byte.byte := {|
  ser_valid := fun _ => True; ser_bytes := fun c => [c] |}.
Proof.
  - intros c _. apply pushes_append.
  - intros c _. apply pops_byte.
  - done.
  - apply pop_byte_u_safe.
  - apply pop_byte_u_consumes.
Defined.

(** ** Counting loops *)

Lemma pushes_mfor {A} (f : A -> M bytes unit) (enc : A -> bytes) l :
  Forall (fun x => pushes (f x) (enc x)) l -> pushes (mfor l f) (concat (map enc l)).
Proof. induction 1; [apply pushes_ret|]. by apply pushes_bind. Qed.

Lemma pops_loop {A} (elem : M parser A) (enc : A -> bytes) l : forall fuel acc,
  Forall (fun x => pops elem (enc x) x) l -> (length l <= fuel)%nat ->
  pops (pop_loop fuel (zlen l) elem acc) (concat (map enc l)) (acc ++ l).
Proof.
  induction l as [|x l IH]; intros fuel acc Hl Hf.
  - destruct fuel; simpl; rewrite app_nil_r; apply pops_ret.
  - apply Forall_cons in Hl as [Hx Hl]. destruct fuel as [|fuel]; simpl in Hf; [lia|].
    cbn [pop_loop]. rewrite zlen_cons. rewrite (proj2 (Z.leb_gt _ 0)) by (pose proof (zlen_nonneg l); lia).
    apply (pops_bind _ _ _ _ x); [done|]. replace (1 + zlen l - 1) with (zlen l) by lia.
    replace (acc ++ x :: l) with ((acc ++ [x]) ++ l) by (by rewrite <- app_assoc).
    apply IH; [done|lia].
Qed.

Lemma mjoin_nonempty_length {A} (enc : A -> bytes) (l : list A) :
  (forall x, enc x <> []) -> (length l <= length (concat (map enc l)))%nat.
Proof.
  intros He. induction l as [|x l IH]; [done|]. simpl. rewrite length_app.
  specialize (He x). assert (1 <= length (enc x))%nat by (destruct (enc x); [done|cbn; lia]). lia.
Qed.

(** A fuelled reader inside [p ← mget; f (loop_fuel p)]. *)
Lemma pops_with_fuel {A} (f : nat -> M parser A) e x :
  (forall fuel, (length e < fuel)%nat -> pops (f fuel) e x) -> pops (p ← mget; f (loop_fuel p)) e x.
Proof.
  intros Hf p r. unfold mbind, M_mbind, mget. apply Hf. unfold loop_fuel, m_data_end. cbn [m_data m_data_now].
  rewrite !zlen_app. unfold zlen. lia.
Qed.

(** The contract of [reads_safely] at one parser state. *)
Definition safe_at {A} (m : M parser A) (p : parser) : Prop :=
  (m p).1 <> Undef /\ m_data (m p).2 = m_data p /\
  m_data_now p <= m_data_now (m p).2 <= m_data_end p.

Definition octets_left (p : parser) : nat := Z.to_nat (m_data_end p - m_data_now p).

(** One turn of a reading loop: a consuming step, then the loop with one unit
    of fuel less. *)
Lemma safe_at_step {A B} (m : M parser A) (f : A -> M parser B) fuel p :
  reads_safely m -> consumes m -> wf_parser p -> (octets_left p < S fuel)%nat ->
  (forall a p1, wf_parser p1 -> (octets_left p1 < fuel)%nat -> safe_at (f a) p1) ->
  safe_at (m ≫= f) p.
Proof.
  intros Hs Hc Hp Hf Hrest. pose proof (reads_safely_wf m p Hs Hp) as Hw.
  destruct (Hs p Hp) as (Hu & Hd & Hn). specialize (Hc p). unfold safe_at, octets_left in *.
  unfold mbind, M_mbind. destruct (m p) as [[a|e| |] p1]; cbn in *; try done.
  specialize (Hc a Hp eq_refl). unfold wf_parser, m_data_end in *.
  destruct (Hrest a p1) as (? & Hd2 & ?); rewrite ?Hd in *; [lia..|].
  repeat split; [done|congruence|lia..].
Qed.

Lemma pop_loop_safe {A} (elem : M parser A) : reads_safely elem -> consumes elem ->
  forall fuel size acc p, wf_parser p -> (octets_left p < fuel)%nat ->
  safe_at (pop_loop fuel size elem acc) p.
Proof.
  intros Hs Hc. induction fuel as [|fuel IH]; intros size acc p Hp Hf; [lia|].
  cbn [pop_loop]. case_bool; [by apply reads_safely_ret|]. by apply (safe_at_step _ _ fuel); auto.
Qed.

Lemma reads_safely_with_fuel {A} (f : nat -> M parser A) :
  (forall fuel p, wf_parser p -> (octets_left p < fuel)%nat -> safe_at (f fuel) p) ->
  reads_safely (p ← mget; f (loop_fuel p)).
Proof. intros Hf p Hp. unfold mbind, M_mbind, mget. apply Hf; [done|]. unfold loop_fuel, octets_left. lia. Qed.

(** ** Vectors *)

Definition counted_bytes {A} (enc : A -> bytes) (l : list A) : bytes :=
  uvarint_bytes (zlen l) ++ concat (map enc l).

Lemma pushes_counted {A} (f : A -> M bytes unit) enc l :
  zlen l < 2 ^ 64 - 1 -> Forall (fun x => pushes (f x) (enc x)) l ->
  pushes (massert (zlen l <=? 2 ^ 64 - 1);; push_integer_uvarint (zlen l);; mfor l f)
         (counted_bytes enc l).
Proof.
  intros Hl Hf. apply (pushes_bind _ []); [apply pushes_assert, Z.leb_le; lia|].
  apply pushes_bind; [apply pushes_uvarint; pose proof (zlen_nonneg l); lia|by apply pushes_mfor].
Qed.

Definition read_counted {A} (elem : M parser A) : M parser (list A) :=
  size ← pop_integer_uvarint;
  massert (size <=? 2 ^ 64 - 1);;
  p ← mget;
  pop_loop (loop_fuel p) size elem [].

Lemma pops_counted {A} (elem : M parser A) enc l :
  (forall x, enc x <> []) -> zlen l < 2 ^ 64 - 1 -> Forall (fun x => pops elem (enc x) x) l ->
  pops (read_counted elem) (counted_bytes enc l) l.
Proof.
  intros He Hl Hf. pose proof (zlen_nonneg l).
  apply (pops_bind _ _ _ _ (zlen l)); [apply pops_uvarint; lia|].
  apply (pops_bind_0 _ _ _ tt); [apply pops_assert, Z.leb_le; lia|].
  apply (pops_with_fuel (fun fuel => pop_loop fuel (zlen l) elem [])). intros fuel Hfuel.
  apply (pops_loop elem enc l fuel []); [done|].
  pose proof (mjoin_nonempty_length enc l He). lia.
Qed.

Lemma read_counted_safe {A} (elem : M parser A) :
  reads_safely elem -> consumes elem -> reads_safely (read_counted elem).
Proof.
  intros Hs Hc. apply reads_safely_bind; [apply pop_integer_uvarint_safe|]. intros size.
  apply reads_safely_bind; [apply reads_safely_assert|]. intros _.
  apply (reads_safely_with_fuel (fun fuel => pop_loop fuel size elem [])).
  intros fuel p. by apply pop_loop_safe.
Qed.

Lemma read_counted_consumes {A} (elem : M parser A) :
  reads_safely elem -> consumes elem -> consumes (read_counted elem).
Proof.
  intros Hs Hc. apply consumes_bind_l; [apply pop_integer_uvarint_safe|
    apply pop_integer_uvarint_consumes|]. intros size.
  apply reads_safely_bind; [apply reads_safely_assert|]. intros _.
  apply (reads_safely_with_fuel (fun fuel => pop_loop fuel size elem [])).
  intros fuel p. by apply pop_loop_safe.
Qed.

Lemma counted_bytes_nonempty {A} (enc : A -> bytes) l : counted_bytes enc l <> [].
Proof. intros [H%uvarint_bytes_nonempty _]%app_eq_nil. done. Qed.

Lemma Forall_pushes {T} `{SerializerOk T} (l : list T) :
  Forall ser_valid l -> Forall (fun x => pushes (push_object x) (ser_bytes x)) l.
Proof. intros Hl. eapply Forall_impl; [done|]. intros x. apply ser_pushes. Qed.

Lemma Forall_pops {T} `{SerializerOk T} (l : list T) :
  Forall ser_valid l -> Forall (fun x => pops pop_object (ser_bytes x) x) l.
Proof. intros Hl. eapply Forall_impl; [done|]. intros x. apply ser_pops. Qed.

#[export, refine] Instance vector_string_ok : SerializerOk (list bytes) := {|
  ser_valid := fun l => zlen l < 2 ^ 64 - 1 /\ Forall ser_valid l;
  ser_bytes := counted_bytes ser_bytes |}.
Proof.
  - intros l [Hl Hf]. by apply pushes_counted, Forall_pushes.
  - intros l [Hl Hf]. apply pops_counted; [apply ser_nonempty|done|by apply Forall_pops].
  - apply counted_bytes_nonempty.
  - apply read_counted_safe; apply ser_safe || apply ser_consumes.
  - apply read_counted_consumes; apply ser_safe || apply ser_consumes.
Defined.

(** ** Maps *)
Section MapFacts.
Context {K V : Type} `{Countable K} `{SerializerOk K} `{SerializerOk V}.
Context (key_le : K -> K -> Prop) `{!RelDecision key_le}.

Definition pair_bytes (kv : K * V) : bytes := ser_bytes kv.1 ++ ser_bytes kv.2.

Lemma pair_bytes_nonempty kv : pair_bytes kv <> [].
Proof. intros [Hk _]%app_eq_nil. by apply ser_nonempty in Hk. Qed.

Lemma map_items_Permutation (m : gmap K V) : map_items key_le m ≡ₚ map_to_list m.
Proof. apply merge_sort_Permutation. Qed.

Lemma zlen_map_insert (m : gmap K V) k v : m !! k = None ->
  zlen (map_to_list (<[k := v]> m)) = zlen (map_to_list m) + 1.
Proof. intros Hk. unfold zlen. rewrite map_to_list_insert by done. simpl. lia. Qed.

Lemma pops_map_loop l : forall fuel acc,
  NoDup l.*1 -> Forall (fun kv : K * V => acc !! kv.1 = None) l ->
  Forall (fun kv => ser_valid kv.1 /\ ser_valid kv.2) l -> (length l <= fuel)%nat ->
  pops (pop_map_loop fuel (zlen l) acc) (concat (map pair_bytes l)) (list_to_map l ∪ acc).
Proof.
  induction l as [|[k v] l IH]; intros fuel acc Hnd Hacc Hv Hf.
  - assert (pop_map_loop fuel (zlen []) acc = mret acc) as -> by by destruct fuel.
    rewrite list_to_map_nil, (left_id_L ∅ (∪)). apply pops_ret.
  - destruct fuel as [|fuel]; [simpl in Hf; lia|]. simpl in Hf.
    rewrite fmap_cons, NoDup_cons in Hnd. destruct Hnd as [Hk Hnd]. apply Forall_cons in Hacc as [Hak Hacc].
    apply Forall_cons in Hv as [[Hvk Hvv] Hv]. cbn [pop_map_loop]. rewrite zlen_cons.
    rewrite (proj2 (Z.leb_gt _ 0)) by (pose proof (zlen_nonneg l); lia). cbn [map concat].
    unfold pair_bytes at 1. rewrite <- app_assoc.
    apply (pops_bind _ _ _ _ k); [by apply ser_pops|].
    apply (pops_bind _ _ _ _ v); [by apply ser_pops|]. simpl in Hak.
    apply (pops_bind_0 _ _ _ tt); [apply pops_throw_if; by rewrite Hak|].
    apply (pops_bind_0 _ _ _ tt); [apply pops_throw_if; by rewrite zlen_map_insert, Z.eqb_refl|].
    replace (1 + zlen l - 1) with (zlen l) by lia.
    rewrite list_to_map_cons, <- insert_union_l, insert_union_r by by apply not_elem_of_list_to_map.
    apply IH; [done| |done|lia].
    apply Forall_forall. intros kv Hkv. rewrite Forall_forall in Hacc.
    rewrite lookup_insert_ne; [by apply Hacc|]. intros Heq. apply Hk. rewrite Heq. apply list_elem_of_fmap. by exists kv.
Qed.

(** One turn of [pop_map_object]. *)
Definition read_entry (acc : gmap K V) : M parser (gmap K V) :=
  key ← pop_object;
  value ← pop_object;
  mthrow_if (bool_decide (is_Some (acc !! key))) ex_format_error_read_badformat;;
  let ret' := <[key := value]> acc in
  mthrow_if (negb (zlen (map_to_list ret') =? zlen (map_to_list acc) + 1))
    ex_format_error_read_badformat;;
  mret ret'.

Lemma pop_map_loop_step fuel count acc p : (count <=? 0) = false ->
  pop_map_loop (S fuel) count acc p = (read_entry acc ≫= pop_map_loop fuel (count - 1)) p.
Proof.
  intros Hc. cbn [pop_map_loop]. rewrite Hc. unfold read_entry. munfold.
  destruct (pop_object p) as [[k|e| |] p1]; try done.
  destruct (pop_object p1) as [[v|e| |] p2]; try done.
  destruct (bool_decide _); [done|]. by destruct (negb _).
Qed.

Lemma read_entry_safe acc : reads_safely (read_entry acc).
Proof. unfold read_entry, pop_object. auto 10 using ser_safe with parser. Qed.

Lemma read_entry_consumes acc : consumes (read_entry acc).
Proof.
  unfold read_entry, pop_object. apply consumes_bind_l; [apply ser_safe|apply ser_consumes|].
  auto 10 using ser_safe with parser.
Qed.

Lemma pop_map_loop_safe : forall fuel count (acc : gmap K V) p, wf_parser p ->
  (octets_left p < fuel)%nat -> safe_at (pop_map_loop fuel count acc) p.
Proof.
  induction fuel as [|fuel IH]; intros count acc p Hp Hf; [lia|].
  destruct (count <=? 0) eqn:E; [cbn [pop_map_loop]; rewrite E; by apply reads_safely_ret|].
  unfold safe_at. rewrite pop_map_loop_step by done.
  apply (safe_at_step _ _ fuel); auto using read_entry_safe, read_entry_consumes.
Qed.

Lemma pop_map_object_safe : reads_safely (pop_map_object (K:=K) (V:=V)).
Proof.
  apply reads_safely_bind; [apply pop_integer_uvarint_safe|]. intros size.
  apply reads_safely_bind; [apply reads_safely_assert|]. intros _.
  assert (reads_safely (p ← mget; pop_map_loop (K:=K) (V:=V) (loop_fuel p) size ∅)) as Hl.
  { apply (reads_safely_with_fuel (fun fuel => pop_map_loop fuel size ∅)). intros fuel p.
    apply pop_map_loop_safe. }
  assert (forall (m : gmap K V), reads_safely (mthrow_if (negb (zlen (map_to_list m) =? size))
    ex_format_error_read_badformat;; mret m)) as Hf by auto with parser.
  intros p Hp. pose proof (reads_safely_bind _ _ Hl Hf p Hp) as Hr. revert Hr.
  unfold mbind, M_mbind, mget. by destruct (pop_map_loop (loop_fuel p) size ∅ p) as [[?|?| |] ?].
Qed.
(** What [push_map_object] writes. *)
Definition map_bytes (m : gmap K V) : bytes :=
  uvarint_bytes (zlen (map_items key_le m)) ++ concat (map pair_bytes (map_items key_le m)).

Lemma map_items_valid (m : gmap K V) : map_Forall (fun k v => ser_valid k /\ ser_valid v) m ->
  Forall (fun kv => ser_valid kv.1 /\ ser_valid kv.2) (map_items key_le m).
Proof.
  intros Hm. rewrite map_items_Permutation. apply Forall_forall. intros [k v] Hkv%elem_of_map_to_list. by apply (Hm k v).
Qed.

Lemma zlen_map_items (m : gmap K V) : zlen (map_items key_le m) = zlen (map_to_list m).
Proof. unfold zlen. by rewrite map_items_Permutation. Qed.

Lemma pushes_map (m : gmap K V) : zlen (map_to_list m) < 2 ^ 64 - 1 ->
  map_Forall (fun k v => ser_valid k /\ ser_valid v) m -> pushes (push_map_object key_le m) (map_bytes m).
Proof.
  intros Hl Hm. pose proof (zlen_nonneg (map_to_list m)). unfold push_map_object, map_bytes. rewrite zlen_map_items.
  apply pushes_bind; [apply pushes_uvarint; lia|]. apply pushes_mfor.
  eapply Forall_impl; [by apply map_items_valid|]. intros kv [Hk Hx]. apply pushes_bind; by apply ser_pushes.
Qed.

Lemma pops_map (m : gmap K V) : zlen (map_to_list m) < 2 ^ 64 - 1 ->
  map_Forall (fun k v => ser_valid k /\ ser_valid v) m -> pops pop_map_object (map_bytes m) m.
Proof.
  intros Hl Hm. pose proof (map_items_Permutation m) as Hp. pose proof (zlen_map_items m) as Hz.
  pose proof (map_items_valid m Hm) as Hv. unfold map_bytes. set (l := map_items key_le m) in *.
  pose proof (zlen_nonneg l).
  apply (pops_bind _ _ _ _ (zlen l)); [apply pops_uvarint; lia|].
  apply (pops_bind_0 _ _ _ tt); [apply pops_assert, Z.leb_le; lia|].
  rewrite <- (app_nil_r (concat _)).
  assert (pops (p ← mget; pop_map_loop (loop_fuel p) (zlen l) ∅) (concat (map pair_bytes l)) m) as Hloop.
  { apply (pops_with_fuel (fun fuel => pop_map_loop fuel (zlen l) ∅)). intros fuel Hfuel.
    replace m with (list_to_map l ∪ ∅ : gmap K V).
    2:{ rewrite (right_id_L ∅ (∪)). rewrite <- (list_to_map_to_list m). apply list_to_map_proper; [|done].
        rewrite Hp. apply NoDup_fst_map_to_list. }
    apply pops_map_loop; [rewrite Hp; apply NoDup_fst_map_to_list| |done|].
    - apply Forall_forall. intros kv _. apply lookup_empty.
    - pose proof (mjoin_nonempty_length pair_bytes l pair_bytes_nonempty). lia. }
  pose proof (pops_bind _ (fun ret => mthrow_if (negb (zlen (map_to_list ret) =? zlen l)) ex_format_error_read_badformat;; mret ret)
    _ [] m m Hloop) as Hfin.
  intros p0 r0. rewrite <- Hfin.
  - unfold mbind, M_mbind, mget. by destruct (pop_map_loop _ _ ∅ _) as [[?|?| |] ?].
  - apply (pops_bind_0 _ _ _ tt); [apply pops_throw_if; by rewrite Hz, Z.eqb_refl|apply pops_ret].
Qed.
End MapFacts.

(** The copy of [pop_bytes_n_into_buff] takes one octet too many. *)
Lemma pop_bytes_n_into_buff_eval d n size b :
  0 < size -> 0 <= n -> n + size <= zlen d ->
  (pop_bytes_n_into_buff size (Some b) (Parser d n)).1 =
    if size + 1 <=? zlen b then Ret (sub (d ++ [Byte.x00]) n (size + 1) ++ drop (Z.to_nat (size + 1)) b) else Undef.
Proof.
  intros Hs Hn Hsz. unfold pop_bytes_n_into_buff, copy_iter_and_check_no_overlap_blocks, move_now.
  munfold. unfold m_data_end. cbn [m_data m_data_now].
  rewrite (proj2 (Z.ltb_lt n _)), (proj2 (Z.leb_le size _)) by lia.
  rewrite (proj2 (Z.leb_le 0 n)), (proj2 (Z.leb_le (n + size) (zlen d))) by lia. cbn [negb andb fst].
  rewrite (proj2 (Z.leb_le n (n + size))), (proj2 (Z.ltb_lt 0 size)) by lia.
  rewrite zlen_app. rewrite (proj2 (Z.leb_le (n + size + 1) _)) by (unfold zlen at 2; simpl; lia).
  replace (n + size + 1 - n) with (size + 1) by lia. cbn [andb]. by destruct (size + 1 <=? zlen b).
Qed.

Lemma pop_bytes_n_into_buff_zero d n b :
  0 <= n < zlen d -> (pop_bytes_n_into_buff 0 (Some b) (Parser d n)).1 = Abort_.
Proof.
  intros Hn. unfold pop_bytes_n_into_buff, copy_iter_and_check_no_overlap_blocks, move_now.
  munfold. unfold m_data_end. cbn [m_data m_data_now].
  rewrite (proj2 (Z.ltb_lt n _)), (proj2 (Z.leb_le 0 _)) by lia. cbn [negb].
  rewrite (proj2 (Z.leb_le 0 n)), (proj2 (Z.leb_le (n + 0) (zlen d))) by lia. cbn [negb andb fst].
  by rewrite (proj2 (Z.leb_le n (n + 0))) by lia.
Qed.

Lemma pop_bytes_n_into_buff_overruns_at d n size b :
  0 < size -> 0 <= n -> n + size <= zlen d -> zlen b = size ->
  (pop_bytes_n_into_buff size (Some b) (Parser d n)).1 = Undef.
Proof. intros Hs Hn Hd Hb. rewrite pop_bytes_n_into_buff_eval by done. by rewrite (proj2 (Z.leb_gt _ _)) by lia. Qed.

(** Into a block longer than asked for, it reads safely. *)
Lemma pop_bytes_n_into_buff_safe size b : 0 <= size < zlen b -> reads_safely (pop_bytes_n_into_buff size (Some b)).
Proof.
  intros Hs [d n] [Hn Hd]. cbn in Hn, Hd. unfold pop_bytes_n_into_buff, copy_iter_and_check_no_overlap_blocks, move_now. munfold. unfold m_data_end in *. cbn in *.
  destruct (Z.ltb_spec n (zlen d)); cbn; [|done]. destruct (Z.leb_spec size (zlen d - n)); cbn; [|done].
  rewrite (proj2 (Z.leb_le 0 n)), (proj2 (Z.leb_le (n + size) (zlen d))) by lia. cbn.
  rewrite (proj2 (Z.leb_le n (n + size))) by lia. cbn. split; [|split; [done|lia]].
  destruct (Z.ltb_spec 0 size); [|done]. cbn. rewrite zlen_app. rewrite (proj2 (Z.leb_le (n + size + 1) _)) by (unfold zlen at 2; simpl; lia).
  cbn. by rewrite (proj2 (Z.leb_le (n + size + 1 - n) (zlen b))) by lia.
Qed.

(** ** Properties *)

(** C30: whatever the input, the readers of the wire format listed here
    (octets, blocks, integers, varints, strings, vectors and maps) perform no
    undefined operation: no octet outside the buffer is read and no counting
    loop runs out of its fuel; the buffer is unchanged, and the cursor only
    moves forward and never past the end.  The one reader that fills a block of
    the caller, [pop_bytes_n_into_buff], does so only when the block is longer
    than the number of octets asked for; into a block of exactly that size,
    what its comment asks for, it writes one octet too many
    ([pop_bytes_n_into_buff_overruns]). *)
Theorem parser_never_leaves_buffer :
  reads_safely pop_byte_u /\ reads_safely pop_byte_s /\
  (forall c, reads_safely (pop_byte_skip c)) /\
  (forall n, 0 <= n -> reads_safely (pop_bytes_n n) /\ reads_safely (skip_bytes_n n)) /\
  (forall S w, reads_safely (pop_integer_u S w)) /\
  (forall S, reads_safely (pop_bytes_sizeoctets S)) /\
  reads_safely pop_integer_uvarint /\ reads_safely pop_varstring /\ reads_safely skip_varstring /\
  reads_safely pop_vector_string /\
  (forall T `{SerializerOk T}, reads_safely (pop_vector_object (T:=T))) /\
  (forall K V `{Countable K} `{SerializerOk K} `{SerializerOk V}, reads_safely (pop_map_object (K:=K) (V:=V))) /\
  (forall size b, 0 <= size < zlen b -> reads_safely (pop_bytes_n_into_buff size (Some b))).
Proof.
  repeat split_and!; intros; auto using pop_byte_u_safe, pop_byte_s_safe, pop_byte_skip_safe, pop_bytes_n_safe,
    skip_bytes_n_safe, pop_integer_u_safe, pop_integer_uvarint_safe, pop_varstring_safe,
    skip_varstring_safe, read_counted_safe, pop_varstring_consumes, ser_safe, ser_consumes, pop_map_object_safe, pop_bytes_n_into_buff_safe.
  - apply (reads_safely_bind_post (fun v => 0 <= v));
      [apply pop_integer_u_safe|apply pop_integer_u_nonneg|apply pop_bytes_n_safe].
  - by apply read_counted_safe; [apply pop_varstring_safe|apply pop_varstring_consumes].
  - by apply read_counted_safe; [apply ser_safe|apply ser_consumes].
Qed.

(** The "strong exception guarantee" of the octet readers: when one of them
    does not return, the parser is exactly as before the call, and they throw
    only at the end of the buffer or, for [pop_byte_skip], on another octet. *)
Lemma pop_byte_strong_guarantee p c :
  wf_parser p ->
  (match pop_byte_u p with
   | (Ret b, p') => m_data p !! Z.to_nat (m_data_now p) = Some b /\ p' = Parser (m_data p) (m_data_now p + 1)
   | (o, p') => o = Throw ex_format_error_read /\ p' = p /\ is_end p = true
   end) /\
  (match pop_byte_skip c p with
   | (Ret _, p') => m_data p !! Z.to_nat (m_data_now p) = Some c /\ p' = Parser (m_data p) (m_data_now p + 1)
   | (Throw e, p') => p' = p /\
       (e = ex_format_error_read /\ is_end p = true \/
        e = ex_format_error_read_delimiter /\ m_data p !! Z.to_nat (m_data_now p) <> Some c)
   | _ => False
   end).
Proof.
  destruct p as [d n]. intros Hp. unfold wf_parser, m_data_end in Hp. cbn [m_data m_data_now] in *.
  rewrite pop_byte_u_eval, pop_byte_skip_eval by done.
  assert (d !! Z.to_nat n = None -> is_end (Parser d n) = true) as He.
  { intros H%lookup_ge_None. unfold is_end, m_data_end, zlen. cbn [m_data m_data_now]. apply Z.leb_le. lia. }
  destruct (d !! Z.to_nat n) as [b|]; [destruct (decide (b = c)) as [->|Hne]|]; repeat split; eauto.
  right. split; [done|]. congruence.
Qed.

(** [push_integer_u<S>] and [pop_integer_u<S,T>] for every width S and
    every target type T of w bits that holds the value: the generator either
    refuses the value and is left unchanged -- exactly when the value is the
    greatest of S octets or more -- or appends S octets from which the parser,
    wherever they stand in its input, reads the value back. *)
Lemma integer_u_roundtrip S w v g r :
  (1 <= S <= 8)%nat -> 0 <= w <= 64 -> 0 <= v < 2 ^ w ->
  (256 ^ Z.of_nat S - 1 <= v /\
   push_integer_u S v g = (Throw ex_format_error_write_value_too_big, g)) \/
  (v < 256 ^ Z.of_nat S - 1 /\ exists e, length e = S /\
   push_integer_u S v g = (Ret tt, g ++ e) /\
   pop_integer_u S w (Parser (g ++ e ++ r) (zlen g)) =
     (Ret v, Parser (g ++ e ++ r) (zlen g + Z.of_nat S))).
Proof.
  intros HS Hw Hv. rewrite push_integer_u_eval by done. destruct (_ <=? v) eqn:E; zbool; [by left|].
  right. split; [done|]. exists (be_bytes S v). split; [apply be_bytes_length|]. split; [done|].
  pose proof (pops_integer_u S w v HS Hw ltac:(lia) ltac:(lia) g r) as ->.
  by rewrite zlen_be_bytes.
Qed.

(** The variable-length integer: every value below 2^64-1 is written on
    1, 3, 5 or 9 octets and read back; 2^64-1 is refused, after the prefix
    octet has been written. *)
Lemma uvarint_roundtrip v g r :
  0 <= v < 2 ^ 64 ->
  (v = 2 ^ 64 - 1 /\
   push_integer_uvarint v g = (Throw ex_format_error_write_value_too_big, g ++ [byte_of_Z 0xFF])) \/
  (exists e, push_integer_uvarint v g = (Ret tt, g ++ e) /\
     zlen e = (if v <? 0xFD then 1 else if v <? 0xFFFF then 3 else if v <? 0xFFFFFFFF then 5 else 9) /\
     pop_integer_uvarint (Parser (g ++ e ++ r) (zlen g)) = (Ret v, Parser (g ++ e ++ r) (zlen g + zlen e))).
Proof.
  intros Hv. destruct (decide (v = 2 ^ 64 - 1)) as [->|Hne]; [by left|]. right.
  exists (uvarint_bytes v). split_and!.
  - apply pushes_uvarint. lia.
  - unfold uvarint_bytes. by repeat case_bool.
  - apply pops_uvarint. lia.
Qed.

(** Containers of any serializable type: a vector is written by
    [push_vector_object] and read back by [pop_vector_object], element by
    element, from any position of any input. *)
Lemma vector_object_roundtrip T `{SerializerOk T} (l : list T) g r :
  zlen l < 2 ^ 64 - 1 -> Forall ser_valid l ->
  exists e, push_vector_object l g = (Ret tt, g ++ e) /\
    pop_vector_object (Parser (g ++ e ++ r) (zlen g)) = (Ret l, Parser (g ++ e ++ r) (zlen g + zlen e)).
Proof.
  intros Hl Hf. exists (counted_bytes ser_bytes l). split.
  - by apply pushes_counted, Forall_pushes.
  - apply pops_counted; [apply ser_nonempty|done|by apply Forall_pops].
Qed.

(** C32: a std::map with fewer than 2^64-1 entries is written in the order of
    its keys and read back as the same map; the duplicate-key and size checks
    of the reader never fire on the generator's output. *)
Theorem map_object_roundtrip K V `{Countable K} `{SerializerOk K} `{SerializerOk V}
    (key_le : K -> K -> Prop) `{!RelDecision key_le} (m : gmap K V) g r :
  zlen (map_to_list m) < 2 ^ 64 - 1 -> map_Forall (fun k v => ser_valid k /\ ser_valid v) m ->
  exists e, push_map_object key_le m g = (Ret tt, g ++ e) /\
    pop_map_object (Parser (g ++ e ++ r) (zlen g)) = (Ret m, Parser (g ++ e ++ r) (zlen g + zlen e)).
Proof.
  intros Hl Hm. exists (map_bytes key_le m). split; [by apply pushes_map|by apply pops_map].
Qed.

Lemma map_object_roundtrip_witness : exists e,
  push_map_object string_le ({[ str "b" := str "2"; str "a" := str "1" ]} : gmap bytes bytes) [] = (Ret tt, e) /\
  e = be_bytes 1 2 ++ varstring_bytes (str "a") ++ varstring_bytes (str "1") ++
      varstring_bytes (str "b") ++ varstring_bytes (str "2").
Proof.
  destruct (map_object_roundtrip bytes bytes string_le {[ str "b" := str "2"; str "a" := str "1" ]} [] []) as (e & H1 & _).
  - vm_compute. reflexivity.
  - apply map_Forall_insert_2; [|apply map_Forall_singleton]; split; vm_compute; discriminate.
  - exists e. split; [exact H1|]. vm_compute in H1. injection H1 as <-. vm_compute. reflexivity.
Defined.

(** A length prefix above SANE_MAX_SIZE_FOR_STRING aborts the process
    instead of throwing: five octets from the network suffice. *)
Lemma pop_varstring_oversized_aborts v g r :
  SANE_MAX_SIZE_FOR_STRING < v < 2 ^ 64 - 1 ->
  exists e, push_integer_uvarint v g = (Ret tt, g ++ e) /\
    (pop_varstring (Parser (g ++ e ++ r) (zlen g))).1 = Abort_ /\
    (skip_varstring (Parser (g ++ e ++ r) (zlen g))).1 = Abort_.
Proof.
  intros Hv. unfold SANE_MAX_SIZE_FOR_STRING in Hv. exists (uvarint_bytes v).
  split; [apply pushes_uvarint; lia|].
  unfold pop_varstring, skip_varstring, mbind, M_mbind. rewrite (pops_uvarint v) by lia.
  unfold massert, mlift, oassert, SANE_MAX_SIZE_FOR_STRING.
  by rewrite (proj2 (Z.leb_gt _ _)) by lia.
Qed.

(** [pop_bytes_n_into_buff] hands an end position to a copy that takes
    the last one: with a block of exactly [size] octets, the contract stated
    in its comment, every call that passes the checks writes past the block;
    with a longer block the octet after the result is overwritten. *)
Lemma pop_bytes_n_into_buff_overruns d n size b :
  0 < size -> 0 <= n -> n + size <= zlen d ->
  (zlen b = size -> (pop_bytes_n_into_buff size (Some b) (Parser d n)).1 = Undef) /\
  (size < zlen b ->
   (pop_bytes_n_into_buff size (Some b) (Parser d n)).1 =
     Ret (sub (d ++ [Byte.x00]) n (size + 1) ++ drop (Z.to_nat (size + 1)) b)).
Proof.
  intros Hs Hn Hsz. rewrite pop_bytes_n_into_buff_eval by done.
  split; intros Hb; [by rewrite (proj2 (Z.leb_gt _ _)) by lia|by rewrite (proj2 (Z.leb_le _ _)) by lia].
Qed.

