(* ===== verification/Hexstr.v ===== *)
(** * Hexadecimal strings (strings_utils)

    Models [strings_utils.cpp]: the conversions between [string_as_bin] and
    [string_as_hex], used to print addresses and to parse the address prefix.
    Both classes are their one string member. *)
From S2P Require Import Prelude.

(** [char] is signed on the target: comparisons of [char] see this value. *)
Definition char_val (c : Byte.byte) : Z :=
  let v := byte_val c in if v <? 128 then v else v - 256.

Definition int2hexchar (i : Z) : outcome Byte.byte :=
  if i <=? 9 then Ret (byte_of_Z (48 + i))
  else if i <=? 15 then Ret (byte_of_Z (97 + (i - 10)))
  else Throw ex_invalid_argument.

Definition hexchar2int (c : Byte.byte) : outcome Z :=
  let v := char_val c in
  if (48 <=? v) && (v <=? 57) then Ret ((v - 48) mod 256)
  else if (97 <=? v) && (v <=? 102) then Ret ((v - 97 + 10) mod 256)
  else Throw ex_invalid_argument.

Definition doublehexchar2int (s : bytes) : outcome Z :=
  match s with
  | [h; l] => a ← hexchar2int h; b ← hexchar2int l; Ret ((a * 16 + b) mod 256)
  | _ => Throw ex_invalid_argument
  end.

(** The two digits of one octet. *)
Definition hex_of_octet (b : Byte.byte) : outcome (list Byte.byte) :=
  let v := byte_val b in
  h ← int2hexchar (v / 16); l ← int2hexchar (v mod 16); Ret [h; l].

(** [string_as_hex::string_as_hex(const string_as_bin &)] *)
Definition hex_of_bin (inp : bytes) : outcome bytes :=
  let in_size := zlen inp in
  let in_size_max1 := (2 ^ 64 - 1) / 2 in
  oassert (in_size <? in_size_max1);;
  oassert (in_size <? in_size_max1 - 1);;
  ds ← omap_list hex_of_octet inp;
  Ret (concat ds).

(** The loop of [string_as_bin::string_as_bin(const string_as_hex &)]: two
    digits at a time, a digit left over is the low half of an octet. *)
Fixpoint bin_loop (es : bytes) : outcome bytes :=
  match es with
  | [] => Ret []
  | [l] =>
      a ← hexchar2int (byte_of_Z 48); b ← hexchar2int l;
      Ret [byte_of_Z (a * 16 + b)]
  | h :: l :: rest =>
      a ← hexchar2int h; b ← hexchar2int l; tail ← bin_loop rest;
      Ret (byte_of_Z (a * 16 + b) :: tail)
  end.

Definition bin_of_hex (encoded : bytes) : outcome bytes :=
  let es := zlen encoded in
  if es =? 0 then Ret []
  else
    let retsize := if negb (0 =? es mod 2) then es / 2 + 1 else es / 2 in
    oassert (0 <? retsize);;
    oassert ((retsize <? es) || ((retsize =? 1) && (es =? 1)));;
    b ← bin_loop encoded;
    oassert (zlen b =? retsize);;
    Ret b.

Section AsciiNormal.
Context (isprint : Z -> bool).
(** [is_ascii_normal]: its range test joins the two bounds with [||]. *)
Definition is_ascii_normal (s : bytes) : bool :=
  forallb (fun c =>
    let x := char_val c in
    let in_range := (0 <=? x) || (x <=? 255) in
    if negb in_range then false else isprint x) s.
End AsciiNormal.

(** ** Facts *)

Definition is_hex_digit (c : Byte.byte) : bool :=
  match hexchar2int c with Ret _ => true | _ => false end.

Lemma all_bytes (P : Byte.byte -> bool) :
  forallb (fun n => P (byte_of_Z (Z.of_nat n))) (seq 0 256) = true -> forall b, P b = true.
Proof.
  intros H b. rewrite forallb_forall in H. rewrite <- (byte_of_Z_val b).
  pose proof (byte_val_range b). specialize (H (Z.to_nat (byte_val b))).
  rewrite Z2Nat.id in H by lia. apply H, in_seq. lia.
Qed.

Definition outcome_eqb {A} `{EqDecision A} (x y : outcome A) : bool :=
  match x, y with
  | Ret a, Ret b => bool_decide (a = b)
  | Throw e, Throw f => bool_decide (e = f)
  | Abort_, Abort_ => true
  | Undef, Undef => true
  | _, _ => false
  end.

Lemma outcome_eqb_eq {A} `{EqDecision A} (x y : outcome A) : outcome_eqb x y = true -> x = y.
Proof. destruct x, y; simpl; try done; by intros ->%bool_decide_eq_true. Qed.

(** An octet is printed as two digits that parse back to it. *)
Lemma hex_of_octet_parse b : exists h l, hex_of_octet b = Ret [h; l] /\
  is_hex_digit h = true /\ is_hex_digit l = true /\ bin_loop [h; l] = Ret [b].
Proof.
  assert ((match hex_of_octet b with
           | Ret [h; l] => is_hex_digit h && is_hex_digit l && outcome_eqb (bin_loop [h; l]) (Ret [b])
           | _ => false end) = true) as H.
  { revert b. apply all_bytes. vm_compute. reflexivity. }
  destruct (hex_of_octet b) as [[|h [|l [|? ?]]]|e| |]; try discriminate.
  apply andb_prop in H as [H H3%outcome_eqb_eq]. apply andb_prop in H as [H1 H2]. eauto 10.
Qed.

Lemma bin_loop_app2 h l b rest : bin_loop [h; l] = Ret [b] ->
  bin_loop (h :: l :: rest) = (t ← bin_loop rest; Ret (b :: t)).
Proof.
  simpl. unfold mbind, outcome_mbind. destruct (hexchar2int h); simpl; try done.
  destruct (hexchar2int l); simpl; try done. intros [= <-]. done.
Qed.

Lemma hex_digits_of_bin inp : exists ds, omap_list hex_of_octet inp = Ret ds /\
  length (concat ds) = (2 * length inp)%nat /\ forallb is_hex_digit (concat ds) = true /\
  bin_loop (concat ds) = Ret inp.
Proof.
  induction inp as [|b inp (ds & H1 & H2 & H3 & H4)]; [by exists []|].
  destruct (hex_of_octet_parse b) as (h & l & Hb & Hh & Hl & Hp).
  exists ([h; l] :: ds). simpl. rewrite Hb, H1. simpl. split_and!; [done|lia|by rewrite Hh, Hl, H3|].
  change (bin_loop (h :: l :: concat ds) = Ret (b :: inp)). by rewrite (bin_loop_app2 _ _ b), H4.
Qed.

Lemma bin_loop_length es : forall b, bin_loop es = Ret b -> length b = ((length es + 1) / 2)%nat.
Proof.
  induction es as [es IH] using (induction_ltof1 _ (@length Byte.byte)). unfold ltof in IH. intros b.
  destruct es as [|h [|l rest]]; simpl; [by intros [= <-]| |].
  - unfold mbind, outcome_mbind, outcome_bind. repeat case_match; try done. by intros [= <-].
  - intros (x & _ & (y & _ & (t & Ht & [= <-])%outcome_bind_inv)%outcome_bind_inv)%outcome_bind_inv.
    specialize (IH rest ltac:(simpl; lia) t Ht). simpl. rewrite IH.
    change (S ((length rest + 1) / 2) = (S (S (length rest + 1)) / 2))%nat.
    replace (S (S (length rest + 1)))%nat with (length rest + 1 + 1 * 2)%nat by lia.
    rewrite Nat.div_add by lia. lia.
Qed.

Lemma bin_of_hex_eval es : bin_of_hex es = bin_loop es.
Proof.
  unfold bin_of_hex. destruct (zlen es =? 0) eqn:E; zbool.
  { unfold zlen in E. by destruct es. }
  pose proof (zlen_nonneg es).
  assert (Hr : (if negb (0 =? zlen es mod 2) then zlen es / 2 + 1 else zlen es / 2) = (zlen es + 1) / 2).
  { destruct (negb _) eqn:E2; zbool; Z.div_mod_to_equations; lia. }
  rewrite Hr. unfold oassert. rewrite (proj2 (Z.ltb_lt 0 _)) by (Z.div_mod_to_equations; lia).
  destruct (_ || _) eqn:E3.
  2:{ exfalso. zbool. destruct ((zlen es + 1) / 2 =? 1) eqn:?, (zlen es =? 1) eqn:?; zbool; try done;
      Z.div_mod_to_equations; lia. }
  unfold mbind, outcome_mbind. simpl. destruct (bin_loop es) as [b|e| |] eqn:Eb; simpl; try done.
  rewrite (proj2 (Z.eqb_eq _ _)); [done|]. apply bin_loop_length in Eb. unfold zlen. rewrite Eb.
  rewrite Nat2Z.inj_div. f_equal; lia.
Qed.

Lemma hex_of_bin_eval inp : zlen inp < 2 ^ 62 -> exists ds, hex_of_bin inp = Ret ds /\
  length ds = (2 * length inp)%nat /\ forallb is_hex_digit ds = true /\ bin_loop ds = Ret inp.
Proof.
  intros Hi. destruct (hex_digits_of_bin inp) as (ds & H1 & H2 & H3 & H4).
  exists (concat ds). split_and!; try done. unfold hex_of_bin, oassert.
  assert ((2 ^ 64 - 1) / 2 = 9223372036854775807) as -> by done.
  rewrite !(proj2 (Z.ltb_lt _ _)) by lia. unfold mbind, outcome_mbind. simpl. by rewrite H1.
Qed.

(** ** Properties *)

(** Every binary string prints to twice as many lower-case hexadecimal
    digits, and parsing them gives the string back; an odd digit count makes
    the last digit an octet of its own. *)
Lemma hex_roundtrip inp d :
  zlen inp < 2 ^ 62 ->
  exists s, hex_of_bin inp = Ret s /\ length s = (2 * length inp)%nat /\
    forallb is_hex_digit s = true /\ bin_of_hex s = Ret inp /\
    (forall v, hexchar2int d = Ret v -> bin_of_hex (s ++ [d]) = Ret (inp ++ [byte_of_Z v])).
Proof.
  intros Hi. destruct (hex_of_bin_eval inp Hi) as (s & H1 & H2 & H3 & H4).
  exists s. split_and!; try done; [by rewrite bin_of_hex_eval|]. intros v Hv. rewrite bin_of_hex_eval.
  assert (forall t u, (exists k, length t = (2 * k)%nat) -> bin_loop t = Ret u ->
    bin_loop (t ++ [d]) = Ret (u ++ [byte_of_Z v])) as Hodd.
  { clear -Hv. intros t. induction t as [t IH] using (induction_ltof1 _ (@length Byte.byte)).
    unfold ltof in IH. intros u [k Hk]. destruct t as [|a [|b t]]; simpl.
    - intros [= <-]. change (hexchar2int (byte_of_Z 48)) with (@Ret Z 0). unfold mbind, outcome_mbind; simpl.
      by rewrite Hv.
    - simpl in Hk. lia.
    - simpl in Hk. unfold mbind, outcome_mbind. destruct (hexchar2int a); simpl; try done.
      destruct (hexchar2int b); simpl; try done. destruct (bin_loop t) as [t'|e| |] eqn:Et; simpl; try done.
      intros [= <-]. rewrite (IH t ltac:(simpl; lia) t'); [done|exists (k - 1)%nat; lia|done]. }
  apply Hodd; [by exists (length inp)|done].
Qed.

(** Parsing succeeds exactly on strings of digits 0-9 a-f, and throws
    std::invalid_argument on any other: no assert fires and no position
    outside the strings is used. *)
Lemma bin_of_hex_total es :
  if forallb is_hex_digit es then exists b, bin_of_hex es = Ret b /\ length b = ((length es + 1) / 2)%nat
  else bin_of_hex es = Throw ex_invalid_argument.
Proof.
  rewrite bin_of_hex_eval.
  assert (forall c, (exists v, hexchar2int c = Ret v /\ is_hex_digit c = true) \/
            (hexchar2int c = Throw ex_invalid_argument /\ is_hex_digit c = false)) as Hd.
  { intros c. unfold is_hex_digit, hexchar2int. repeat case_bool; eauto. }
  assert (if forallb is_hex_digit es then exists b, bin_loop es = Ret b
          else bin_loop es = Throw ex_invalid_argument) as H.
  { induction es as [es IH] using (induction_ltof1 _ (@length Byte.byte)). unfold ltof in IH.
    destruct es as [|a [|b t]]; simpl; [by eexists| |].
    - change (hexchar2int (byte_of_Z 48)) with (@Ret Z 0). unfold mbind, outcome_mbind.
      destruct (Hd a) as [(v & -> & ->)|[-> ->]]; simpl; eauto.
    - unfold mbind, outcome_mbind. destruct (Hd a) as [(v & -> & ->)|[-> ->]]; simpl; [|done].
      destruct (Hd b) as [(w & -> & ->)|[-> ->]]; simpl; [|done].
      specialize (IH t ltac:(simpl; lia)). destruct (forallb is_hex_digit t).
      + destruct IH as [t' ->]. simpl. eauto.
      + by rewrite IH. }
  destruct (forallb is_hex_digit es); [|done]. destruct H as [b Hb]. exists b.
  split; [done|]. by apply bin_loop_length.
Qed.
