(* ===== verification/Cryptobasic.v ===== *)
(** * Crypto systems, hashes and binary strings (crypto_basic)

    Models [crypto/crypto_basic.hpp], [crypto/crypto_basic.cpp] and the enum
    conversions of [stdplus/misc.hpp].  The hash itself
    ([crypto_generichash], libsodium) is the parameter [Hash1] of the
    sections; the code relies on its output being 64 octets. *)
From S2P Require Import Prelude.

(** ** Enums and integers *)

(** [stdplus::int_to_enum<TE>]: [umax] is the greatest value of the underlying
    (unsigned) type, [of_int] the enumerator of a value, if there is one. *)
Definition int_to_enum {TE} (umax : Z) (of_int : Z -> option TE) (val_int : Z) (expected_bad : bool) : outcome TE :=
  let handle_error (ex : exn) : outcome TE :=
    if expected_bad then Throw ex_expected_not_found else Throw ex in
  if (0 <=? val_int) && (val_int <=? umax) then
    match of_int val_int with
    | Some e => Ret e
    | None => handle_error ex_invalid_argument
    end
  else handle_error ex_overflow_error.

(** ** Crypto systems *)

Inductive t_crypto_system_type :=
  | e_crypto_system_type_invalid
  | e_crypto_system_type_X25519
  | e_crypto_system_type_Ed25519
  | e_crypto_system_type_NTRU_EES439EP1
  | e_crypto_system_type_SIDH
  | e_crypto_system_type_geport_todo
  | e_crypto_system_type_symhash_todo
  | e_crypto_system_type_NTRU_sign
  | e_crypto_system_type_END_normal
  | e_crypto_system_type_multikey_pub
  | e_crypto_system_type_multikey_private
  | e_crypto_system_type_multisign
  | e_crypto_system_type_END.

#[export] Instance t_crypto_system_type_eq_dec : EqDecision t_crypto_system_type.
Proof. solve_decision. Defined.

Definition enum_to_int (e : t_crypto_system_type) : Z :=
  match e with
  | e_crypto_system_type_invalid => 0
  | e_crypto_system_type_X25519 => 5
  | e_crypto_system_type_Ed25519 => 6
  | e_crypto_system_type_NTRU_EES439EP1 => 7
  | e_crypto_system_type_SIDH => 8
  | e_crypto_system_type_geport_todo => 9
  | e_crypto_system_type_symhash_todo => 10
  | e_crypto_system_type_NTRU_sign => 11
  | e_crypto_system_type_END_normal => 12
  | e_crypto_system_type_multikey_pub => 29
  | e_crypto_system_type_multikey_private => 30
  | e_crypto_system_type_multisign => 31
  | e_crypto_system_type_END => 32
  end.

(** All enumerators, in the order of their values. *)
Definition all_crypto_systems : list t_crypto_system_type :=
  [ e_crypto_system_type_invalid; e_crypto_system_type_X25519; e_crypto_system_type_Ed25519;
    e_crypto_system_type_NTRU_EES439EP1; e_crypto_system_type_SIDH; e_crypto_system_type_geport_todo;
    e_crypto_system_type_symhash_todo; e_crypto_system_type_NTRU_sign; e_crypto_system_type_END_normal;
    e_crypto_system_type_multikey_pub; e_crypto_system_type_multikey_private;
    e_crypto_system_type_multisign; e_crypto_system_type_END ].

(** The cases of [enum_is_valid_value], as the partial inverse of the values. *)
Definition crypto_system_of_int (v : Z) : option t_crypto_system_type :=
  List.find (fun e => enum_to_int e =? v) all_crypto_systems.

Definition int_to_crypto_system (v : Z) (expected_bad : bool) : outcome t_crypto_system_type :=
  int_to_enum 255 crypto_system_of_int v expected_bad.

Definition t_crypto_system_type_to_ID (val : Z) : outcome Byte.byte :=
  match crypto_system_of_int val with
  | Some e_crypto_system_type_X25519 => Ret Byte.x78
  | Some e_crypto_system_type_Ed25519 => Ret Byte.x65
  | Some e_crypto_system_type_NTRU_EES439EP1 => Ret Byte.x74
  | Some e_crypto_system_type_NTRU_sign => Ret Byte.x72
  | Some e_crypto_system_type_SIDH => Ret Byte.x73
  | Some e_crypto_system_type_geport_todo => Ret Byte.x67
  | _ => Throw ex_invalid_argument
  end.

Definition t_crypto_system_type_from_ID (name : Byte.byte) : outcome t_crypto_system_type :=
  match name with
  | Byte.x78 => Ret e_crypto_system_type_X25519
  | Byte.x65 => Ret e_crypto_system_type_Ed25519
  | Byte.x74 => Ret e_crypto_system_type_NTRU_EES439EP1
  | Byte.x72 => Ret e_crypto_system_type_NTRU_sign
  | Byte.x73 => Ret e_crypto_system_type_SIDH
  | Byte.x67 => Ret e_crypto_system_type_geport_todo
  | _ => Throw ex_invalid_argument
  end.

(** [::tolower] in the C locale. *)
Definition tolower (c : Byte.byte) : Byte.byte :=
  let v := byte_val c in if (65 <=? v) && (v <=? 90) then byte_of_Z (v + 32) else c.

Definition t_crypto_system_type_from_string (str_name : bytes) : outcome t_crypto_system_type :=
  let s := map tolower str_name in
  let ID :=
    if bool_decide (s = str "x25519") then Byte.x78
    else if bool_decide (s = str "ed25519") then Byte.x65
    else if bool_decide (s = str "ntru_ees439ep1") then Byte.x74
    else if bool_decide (s = str "ntru_sign") then Byte.x72
    else if bool_decide (s = str "sidh") then Byte.x73
    else Byte.x00 in
  if bool_decide (ID = Byte.x00) then Throw ex_invalid_argument
  else t_crypto_system_type_from_ID ID.

Definition t_crypto_system_type_is_asymkex (sys : t_crypto_system_type) : outcome bool :=
  match sys with
  | e_crypto_system_type_X25519 => Ret false
  | e_crypto_system_type_SIDH => Ret false
  | e_crypto_system_type_NTRU_EES439EP1 => Ret true
  | _ => Throw ex_invalid_argument
  end.

Definition t_crypto_system_type_to_name (val : Z) : bytes :=
  match crypto_system_of_int val with
  | Some e_crypto_system_type_X25519 => str "X25519"
  | Some e_crypto_system_type_Ed25519 => str "Ed25519"
  | Some e_crypto_system_type_NTRU_EES439EP1 => str "NTRU-EES439EP1"
  | Some e_crypto_system_type_NTRU_sign => str "NTRU-sign"
  | Some e_crypto_system_type_SIDH => str "SIDH-p751"
  | Some e_crypto_system_type_geport_todo => str "geport_todo"
  | Some e_crypto_system_type_symhash_todo => str "symhash_todo"
  | Some e_crypto_system_type_multikey_pub => str "multikey-pub"
  | Some e_crypto_system_type_multikey_private => str "multikey-PRIVATE"
  | _ => str "(Invalid enum type=" ++ str (pretty.pretty val) ++ str ")"
  end.

(** What a key is for; the enumerators are characters. *)
Inductive t_crypto_use :=
  | e_crypto_use_secret | e_crypto_use_open | e_crypto_use_signature | e_crypto_use_fingerprint.

#[export] Instance t_crypto_use_eq_dec : EqDecision t_crypto_use.
Proof. solve_decision. Defined.

Definition crypto_use_byte (u : t_crypto_use) : Byte.byte :=
  match u with
  | e_crypto_use_secret => Byte.x53
  | e_crypto_use_open => Byte.x6f
  | e_crypto_use_signature => Byte.x6e
  | e_crypto_use_fingerprint => Byte.x66
  end.

(** ** Binary strings *)

Definition byte_xor (a b : Byte.byte) : Byte.byte := byte_of_Z (Z.lxor (byte_val a) (byte_val b)).
Definition byte_not (a : Byte.byte) : Byte.byte := byte_of_Z (Z.lnot (byte_val a)).

Definition binary_string_xor (str1 str2 : bytes) : outcome bytes :=
  if negb (zlen str1 =? zlen str2) then Throw ex_runtime_error
  else
    let ret := zip_with byte_xor str1 str2 in
    oassert (zlen ret =? zlen str1);;
    oassert (zlen str1 =? zlen str2);;
    Ret ret.

(** [sodium_memcmp] returns 0 exactly on equal blocks. *)
Definition safe_string_cmp (a b : bytes) : bool :=
  if negb (zlen a =? zlen b) then false else bool_decide (a = b).

(** [substr] of a locked string: the assert asks for a strict prefix. *)
Definition substr (s : bytes) (len : Z) : outcome bytes :=
  if len <? 1 then Throw ex_runtime_error
  else oassert (len <? zlen s);; Ret (take (Z.to_nat len) s).

(** ** Hashes *)
Definition Hash1_size : Z := 64.
Definition Hash2_size : Z := 64.

Section Hashes.
Context (Hash1 : bytes -> bytes).

Definition Hash2 (hash : bytes) : outcome bytes :=
  let hash_from_hash := map byte_not (Hash1 hash) in
  let ret := Hash1 hash_from_hash in
  oassert (zlen ret =? Hash2_size);;
  Ret ret.

(** The loop of [Hash2_PRV] negates [at(0)] once per octet. *)
Fixpoint negate_at_0 (n : nat) (s : bytes) : outcome bytes :=
  match n with
  | O => Ret s
  | S n' => match s with
            | [] => Throw ex_out_of_range
            | ch :: rest => negate_at_0 n' (byte_not ch :: rest)
            end
  end.

Definition Hash2_PRV (hash : bytes) : outcome bytes :=
  let hash_from_hash := Hash1 hash in
  h ← negate_at_0 (length hash_from_hash) hash_from_hash;
  let ret := Hash1 h in
  oassert (zlen ret =? Hash2_size);;
  Ret ret.
End Hashes.

(** ** Facts *)

Lemma crypto_system_of_to_int e : crypto_system_of_int (enum_to_int e) = Some e.
Proof. by destruct e. Qed.

Lemma crypto_system_of_int_Some v e : crypto_system_of_int v = Some e -> enum_to_int e = v.
Proof. intros [_ H]%List.find_some. by apply Z.eqb_eq. Qed.

Lemma from_ID_inv c e : t_crypto_system_type_from_ID c = Ret e ->
  t_crypto_system_type_to_ID (enum_to_int e) = Ret c.
Proof. destruct c; simpl; intros H; try discriminate; injection H as <-; reflexivity. Qed.

Lemma to_ID_inv v c : t_crypto_system_type_to_ID v = Ret c ->
  exists e, t_crypto_system_type_from_ID c = Ret e /\ enum_to_int e = v.
Proof.
  unfold t_crypto_system_type_to_ID. destruct (crypto_system_of_int v) as [e|] eqn:E; [|done].
  apply crypto_system_of_int_Some in E. intros H. exists e. split; [|done].
  by destruct e; try discriminate H; injection H as <-.
Qed.

Lemma byte_val_lxor a b : byte_val (byte_xor a b) = Z.lxor (byte_val a) (byte_val b).
Proof.
  unfold byte_xor. rewrite byte_val_of_Z. pose proof (byte_val_range a). pose proof (byte_val_range b).
  assert (0 <= Z.lxor (byte_val a) (byte_val b)) by (apply Z.lxor_nonneg; lia).
  apply Z.mod_small. split; [done|].
  destruct (decide (Z.lxor (byte_val a) (byte_val b) = 0)) as [->|Hn]; [done|].
  change 256 with (2 ^ 8). apply Z.log2_lt_pow2; [lia|].
  pose proof (Z.log2_lxor (byte_val a) (byte_val b) ltac:(lia) ltac:(lia)).
  assert (Z.log2 (byte_val a) < 8 /\ Z.log2 (byte_val b) < 8) as [? ?]; [|lia].
  split; destruct (decide (byte_val a <= 0)), (decide (byte_val b <= 0));
    try (rewrite Z.log2_nonpos by lia; lia); apply Z.log2_lt_pow2; lia.
Qed.

#[export] Instance byte_xor_comm : Comm (=) byte_xor.
Proof. intros a b. unfold byte_xor. by rewrite Z.lxor_comm. Qed.
#[export] Instance byte_xor_assoc : Assoc (=) byte_xor.
Proof. intros a b c. apply byte_val_inj. by rewrite !byte_val_lxor, Z.lxor_assoc. Qed.
Lemma byte_xor_nilpotent a : byte_xor a a = Byte.x00.
Proof. unfold byte_xor. by rewrite Z.lxor_nilpotent. Qed.
Lemma byte_xor_0_r a : byte_xor a Byte.x00 = a.
Proof. apply byte_val_inj. rewrite byte_val_lxor. apply Z.lxor_0_r. Qed.

Lemma byte_not_involutive a : byte_not (byte_not a) = a.
Proof. by destruct a. Qed.

Definition xor_str (a b : bytes) : bytes := zip_with byte_xor a b.

Lemma binary_string_xor_eval a b : length a = length b -> binary_string_xor a b = Ret (xor_str a b).
Proof.
  intros H. unfold binary_string_xor, zlen. rewrite H, Z.eqb_refl. simpl.
  rewrite length_zip_with, H, Nat.min_id, Z.eqb_refl. done.
Qed.

Lemma xor_str_length a b : length a = length b -> length (xor_str a b) = length a.
Proof. intros H. unfold xor_str. rewrite length_zip_with. lia. Qed.

Lemma xor_str_swap a b c : xor_str (xor_str a b) c = xor_str (xor_str a c) b.
Proof.
  revert b c. induction a as [|x a IH]; intros [|y b] [|z c]; simpl; try done.
  f_equal; [|apply IH]. by rewrite <- !(assoc_L byte_xor), (comm_L byte_xor y z).
Qed.

Lemma xor_str_cancel a b : length a = length b -> xor_str (xor_str a b) b = a.
Proof.
  revert b. induction a as [|x a IH]; intros [|y b]; simpl; intros H; try done.
  rewrite IH by lia. f_equal. by rewrite <- (assoc_L byte_xor), byte_xor_nilpotent, byte_xor_0_r.
Qed.

Lemma negate_at_0_even n c s : negate_at_0 (2 * n) (c :: s) = Ret (c :: s).
Proof.
  revert c. induction n as [|n IH]; intros c; [done|].
  replace (2 * S n)%nat with (S (S (2 * n))) by lia. simpl negate_at_0.
  rewrite byte_not_involutive. apply IH.
Qed.

(** ** Properties *)

(** The two ID tables are inverse bijections between six characters and
    six crypto systems, every other character or number is refused with
    std::invalid_argument, and the name tables lead to the same systems. *)
Lemma crypto_system_ID_bijection :
  (forall v c, t_crypto_system_type_to_ID v = Ret c <->
     exists e, t_crypto_system_type_from_ID c = Ret e /\ enum_to_int e = v) /\
  (forall v, t_crypto_system_type_to_ID v = Throw ex_invalid_argument \/
     exists c, t_crypto_system_type_to_ID v = Ret c) /\
  (forall s e, t_crypto_system_type_from_string s = Ret e ->
     exists c, t_crypto_system_type_to_ID (enum_to_int e) = Ret c) /\
  (forall v e, int_to_crypto_system v true = Ret e <-> v = enum_to_int e).
Proof.
  split_and!.
  - intros v c. split; [apply to_ID_inv|]. intros (e & He & <-). by apply from_ID_inv.
  - intros v. unfold t_crypto_system_type_to_ID. destruct (crypto_system_of_int v) as [[]|]; eauto.
  - intros s e. unfold t_crypto_system_type_from_string.
    intros H. repeat case_bool; try discriminate H; exists (match t_crypto_system_type_to_ID (enum_to_int e) with Ret c => c | _ => Byte.x00 end);
      vm_compute in H; try discriminate H; injection H as <-; reflexivity.
  - intros v e. unfold int_to_crypto_system, int_to_enum. split.
    + case_bool; [|done]. destruct (crypto_system_of_int v) eqn:E; [|done]. intros [= <-].
      symmetry. by apply crypto_system_of_int_Some.
    + intros ->. by destruct e.
Qed.

(** [Hash2_PRV] is meant to be [Hash2] of a secret, but its loop negates
    the first octet 64 times: it is [Hash1] applied twice. *)
Lemma Hash2_PRV_is_double_Hash1 (Hash1 : bytes -> bytes) s :
  (forall x, zlen (Hash1 x) = 64) ->
  Hash2_PRV Hash1 s = Ret (Hash1 (Hash1 s)) /\
  Hash2 Hash1 s = Ret (Hash1 (map byte_not (Hash1 s))).
Proof.
  intros H64. unfold Hash2_PRV, Hash2.
  assert (length (Hash1 s) = 2 * 32)%nat as Hl by (specialize (H64 s); unfold zlen in H64; lia).
  rewrite Hl. destruct (Hash1 s) as [|c h] eqn:E; [simpl in Hl; lia|].
  rewrite negate_at_0_even. unfold mbind, outcome_mbind, Hash2_size. cbn [outcome_bind].
  by rewrite !H64.
Qed.

