(* ===== verification/Multikeys.v ===== *)
(** * Multi-crypto key collections (c_multicryptostrings and its classes)

    Models [crypto/multikeys.tpl.hpp], [multikeys.hpp] and [multikeys.cpp]:
    key lists per crypto system, their serialization, the cached fingerprint
    hash and the IPv6 address derived from it, signing and verifying with all
    keys, and key generation.

    Keys are octet strings ([std::string] or [locked_string]).  libsodium,
    ntrupp and sidhpp are parameters: the hash, the detached signatures, and
    the key generators with their entropy as a state.  The two compile-time
    switches ENABLE_CRYPTO_NTRU and ENABLE_CRYPTO_SIDH are parameters too. *)
From S2P Require Import Prelude Serialize Hexstr Cryptobasic.

(** [e_crypto_system_type_END] lists: [m_cryptolists_general]. *)
Record c_multicryptostrings := Multicryptostrings {
  m_cryptolists_general : list (list bytes);
  m_hash_cached : bytes;
  m_crypto_use : t_crypto_use
}.

Definition set_lists (l : list (list bytes)) (k : c_multicryptostrings) : c_multicryptostrings :=
  Multicryptostrings l (m_hash_cached k) (m_crypto_use k).
Definition set_hash (h : bytes) (k : c_multicryptostrings) : c_multicryptostrings :=
  Multicryptostrings (m_cryptolists_general k) h (m_crypto_use k).

Definition new_multicryptostrings (crypto_use : t_crypto_use) : c_multicryptostrings :=
  Multicryptostrings (replicate 32 []) [] crypto_use.

Definition get_count_keys_in_system (k : c_multicryptostrings) (crypto_type : t_crypto_system_type) : outcome Z :=
  l ← at_ (m_cryptolists_general k) (enum_to_int crypto_type); Ret (zlen l).

Definition get_count_of_systems (k : c_multicryptostrings) : Z := zlen (m_cryptolists_general k).

Definition add_key (type : t_crypto_system_type) (pubkey : bytes) : M c_multicryptostrings unit :=
  k ← mget;
  sys_vector ← mlift (at_ (m_cryptolists_general k) (enum_to_int type));
  mmodify (set_lists (<[Z.to_nat (enum_to_int type) := sys_vector ++ [pubkey]]> (m_cryptolists_general k))).

Definition get_key (k : c_multicryptostrings) (crypto_type : t_crypto_system_type) (number_of_key : Z) : outcome bytes :=
  l ← at_ (m_cryptolists_general k) (enum_to_int crypto_type);
  at_ l number_of_key.

Definition set_hash_dirty : M c_multicryptostrings unit := mmodify (set_hash []).

Definition clear : M c_multicryptostrings unit :=
  mmodify (fun k => set_lists (map (fun _ => []) (m_cryptolists_general k)) k).

(** The string a generator program builds, started empty. *)
Definition gen_str (m : M bytes unit) : outcome bytes :=
  match m [] with
  | (Ret _, s) => Ret s
  | (Throw e, _) => Throw e
  | (Abort_, _) => Abort_
  | (Undef, _) => Undef
  end.

(** The systems that have keys, with their numbers, in array order. *)
Definition used_systems (lists : list (list bytes)) : list (Z * list bytes) :=
  List.filter (fun x => negb (bool_decide (x.2 = []))) (imap (fun i l => (Z.of_nat i, l)) lists).

Definition push_system (x : Z * list bytes) : M bytes unit :=
  id ← mlift (t_crypto_system_type_to_ID x.1);
  push_integer_uvarint (byte_val id);;
  push_vector_object x.2.

Definition serialize_bin (k : c_multicryptostrings) : outcome bytes :=
  gen_str (
    push_bytes_n 3 (str "GMK");;
    push_byte_u Byte.x61;;
    push_byte_u (crypto_use_byte (m_crypto_use k));;
    push_integer_uvarint (zlen (used_systems (m_cryptolists_general k)));;
    mfor (used_systems (m_cryptolists_general k)) push_system).

(** [obj_deserialize<locked_string>]: the octets are read into the buffer of
    a locked string made with the size just read. *)
Definition pop_locked_string : M parser bytes :=
  size ← pop_integer_uvarint;
  pop_bytes_n_into_buff size (Some (replicate (Z.to_nat size) Byte.x00)).

(** [pop_vector_object<TKey>] for the two key types. *)
Definition pop_public_keys : M parser (list bytes) := pop_vector_object (T:=bytes).
Definition pop_private_keys : M parser (list bytes) :=
  size ← pop_integer_uvarint;
  massert (size <=? 2 ^ 64 - 1);;
  p ← mget;
  pop_loop (loop_fuel p) size pop_locked_string [].

Section Load.
Context (pop_keys : M parser (list bytes)).

(** The loop of [load_from_bin], on the object and its parser. *)
Fixpoint load_systems (n : nat) : M (c_multicryptostrings * parser) unit :=
  match n with
  | O => mret tt
  | S n' =>
      id ← on_snd pop_integer_uvarint;
      sys_id ← mlift (t_crypto_system_type_from_ID (byte_of_Z id));
      sys_keys ← on_snd pop_keys;
      k ← on_fst mget;
      _ ← mlift (at_ (m_cryptolists_general k) (enum_to_int sys_id));
      on_fst (mmodify (set_lists (<[Z.to_nat (enum_to_int sys_id) := sys_keys]> (m_cryptolists_general k))));;
      load_systems n'
  end.

Definition load_body : M (c_multicryptostrings * parser) unit :=
  magic_marker ← on_snd (pop_bytes_n 3);
  mthrow_if (negb (bool_decide (magic_marker = str "GMK"))) ex_runtime_error;;
  magic_version ← on_snd pop_byte_u;
  magic_crypto_use ← on_snd pop_byte_u;
  k ← on_fst mget;
  mthrow_if (negb (bool_decide (magic_crypto_use = crypto_use_byte (m_crypto_use k)))) ex_runtime_error;;
  (if bool_decide (magic_version = Byte.x61) then
     map_size ← on_snd pop_integer_uvarint;
     massert (map_size <=? 100);;
     load_systems (Z.to_nat map_size);;
     p ← on_snd mget;
     mthrow_if (negb (is_end p)) ex_runtime_error
   else mthrow ex_format_error_read_invalid_version);;
  on_fst set_hash_dirty.

Definition load_from_bin_with (data : bytes) : M c_multicryptostrings unit := fun k =>
  match parser_of_string data with
  | Ret p => let '(o, (k', _)) := load_body (k, p) in (o, k')
  | Throw e => (Throw e, k)
  | Abort_ => (Abort_, k)
  | Undef => (Undef, k)
  end.
End Load.

Definition load_from_bin : bytes -> M c_multicryptostrings unit := load_from_bin_with pop_public_keys.
Definition load_from_bin_PRV : bytes -> M c_multicryptostrings unit := load_from_bin_with pop_private_keys.

Section Fingerprint.
Context (Hash1 : bytes -> bytes).

Definition fpr_accum (keys : list bytes) : outcome bytes :=
  ofold (fun acc pk => binary_string_xor acc (Hash1 pk)) (replicate (Z.to_nat Hash1_size) Byte.x00) keys.

Definition push_fingerprint (x : Z * list bytes) : M bytes unit :=
  id ← mlift (t_crypto_system_type_to_ID x.1);
  push_byte_u id;;
  acc ← mlift (fpr_accum x.2);
  push_varstring acc.

(** The string hashed by [update_hash]. *)
Definition fingerprint_serial (lists : list (list bytes)) : outcome bytes :=
  gen_str (
    push_bytes_n 3 (str "GMK");;
    push_byte_u Byte.x61;;
    push_byte_u (crypto_use_byte e_crypto_use_fingerprint);;
    push_byte_u Byte.x01;;
    push_integer_uvarint (zlen (used_systems lists));;
    mfor (used_systems lists) push_fingerprint).

Definition update_hash : M c_multicryptostrings unit :=
  k ← mget;
  s ← mlift (fingerprint_serial (m_cryptolists_general k));
  mmodify (set_hash (Hash1 s)).

Definition get_hash : M c_multicryptostrings bytes :=
  k ← mget;
  when (bool_decide (m_hash_cached k = [])) update_hash;;
  k' ← mget;
  massert (negb (bool_decide (m_hash_cached k' = [])));;
  mret (m_hash_cached k').

(** [operator>] of two collections: their hashes, as strings. *)
Definition hash_greater (a b : c_multicryptostrings) : outcome bool :=
  ha ← (get_hash a).1;
  hb ← (get_hash b).1;
  Ret (negb (string_leb ha hb)).
End Fingerprint.

(** ** Public keys and their address *)

Record c_multikeys_pub := MultikeysPub { pub_keys : c_multicryptostrings; m_ipv6_prefix : bytes }.

Definition new_multikeys_pub : c_multikeys_pub :=
  MultikeysPub (new_multicryptostrings e_crypto_use_open) (str "fd42").

Definition on_pub_keys {A} (m : M c_multicryptostrings A) : M c_multikeys_pub A := fun p =>
  let '(o, k) := m (pub_keys p) in (o, MultikeysPub k (m_ipv6_prefix p)).

Definition add_public (crypto_type : t_crypto_system_type) (key : bytes) : M c_multikeys_pub unit :=
  on_pub_keys (add_key crypto_type key).

Definition get_public (p : c_multikeys_pub) (crypto_type : t_crypto_system_type) (number_of_key : Z) : outcome bytes :=
  get_key (pub_keys p) crypto_type number_of_key.

Definition set_ipv6_prefix (prefix : bytes) : M c_multikeys_pub unit :=
  mmodify (fun p => MultikeysPub (pub_keys p) prefix).

(** [s.substr(0, count)], the count converted to size_t. *)
Definition substr0 (s : bytes) (count : Z) : bytes := take (Z.to_nat (u64 count)) s.

Section Address.
Context (Hash1 : bytes -> bytes).

Definition get_ipv6_string_bin : M c_multikeys_pub bytes :=
  hash ← on_pub_keys (get_hash Hash1);
  p ← mget;
  prefix_bin ← mlift (bin_of_hex (m_ipv6_prefix p));
  let len_ip := 128 / 8 in
  let len_pre := zlen prefix_bin in
  mret (prefix_bin ++ substr0 hash (len_ip - len_pre)).

Definition get_ipv6_string_hex : M c_multikeys_pub bytes :=
  as_bin ← get_ipv6_string_bin;
  mlift (hex_of_bin as_bin).

(** The loop of [get_ipv6_string_hexdot], from position [i] of [n]. *)
Fixpoint hexdot_loop (i n : Z) (s : bytes) : bytes :=
  match s with
  | [] => []
  | c :: s' =>
      c :: (if negb (i =? 0) && negb (i + 1 =? n) && ((i + 1) mod 4 =? 0) then [Byte.x3a] else [])
        ++ hexdot_loop (i + 1) n s'
  end.

Definition get_ipv6_string_hexdot : M c_multikeys_pub bytes :=
  hex_str ← get_ipv6_string_hex;
  mret (hexdot_loop 0 (zlen hex_str) hex_str).
End Address.

(** ** Signatures *)

(** A [c_multisign] is the same collection with use [signature]. *)
Definition new_multisign : c_multicryptostrings := new_multicryptostrings e_crypto_use_signature.

Definition add_signature (crypto_type : t_crypto_system_type) (signature : bytes) : M c_multicryptostrings unit :=
  add_key crypto_type signature.

Definition add_signature_vec (signatures_vec : list bytes) (crypto_type : t_crypto_system_type) : M c_multicryptostrings unit :=
  mfor signatures_vec (fun s => add_signature crypto_type s).

Definition get_signature (k : c_multicryptostrings) (crypto_type : t_crypto_system_type) (number_of_key : Z) : outcome bytes :=
  get_key k crypto_type number_of_key.

(** [for (size_t i=0; i<n; ++i)] *)
Definition indices (n : Z) : list Z := map Z.of_nat (seq 0 (Z.to_nat n)).

Definition get_signature_vec (k : c_multicryptostrings) (crypto_type : t_crypto_system_type) : outcome (list bytes) :=
  n ← get_count_keys_in_system k crypto_type;
  omap_list (get_signature k crypto_type) (indices n).

Definition cryptosystem_sign_allowed (crypto_system : t_crypto_system_type) : bool :=
  bool_decide (crypto_system = e_crypto_system_type_Ed25519) ||
  bool_decide (crypto_system = e_crypto_system_type_NTRU_sign).

Definition multisign_serialize_bin (k : c_multicryptostrings) : outcome bytes :=
  gen_str (
    push_byte_u (byte_of_Z (enum_to_int e_crypto_system_type_Ed25519));;
    ed ← mlift (get_signature_vec k e_crypto_system_type_Ed25519);
    push_vector_string ed;;
    push_byte_u (byte_of_Z (enum_to_int e_crypto_system_type_NTRU_sign));;
    ntru ← mlift (get_signature_vec k e_crypto_system_type_NTRU_sign);
    push_vector_string ntru).

Definition multisign_load_body : M (c_multicryptostrings * parser) unit :=
  ed_type ← on_snd pop_byte_u;
  massert (byte_val ed_type =? enum_to_int e_crypto_system_type_Ed25519);;
  ed_keys ← on_snd pop_vector_string;
  on_fst (add_signature_vec ed_keys e_crypto_system_type_Ed25519);;
  ntru_type ← on_snd pop_byte_u;
  massert (byte_val ntru_type =? enum_to_int e_crypto_system_type_NTRU_sign);;
  ntru_keys ← on_snd pop_vector_string;
  on_fst (add_signature_vec ntru_keys e_crypto_system_type_NTRU_sign).

Definition multisign_load_from_bin (data : bytes) : M c_multicryptostrings unit := fun k =>
  match parser_of_string data with
  | Ret p => let '(o, (k', _)) := multisign_load_body (k, p) in (o, k')
  | Throw e => (Throw e, k)
  | Abort_ => (Abort_, k)
  | Undef => (Undef, k)
  end.

Section Sign.
(** libsodium and ntrupp; [sign] and [verify] throw their own exceptions. *)
Context (ENABLE_CRYPTO_NTRU : bool).
Context (crypto_sign_detached : bytes -> bytes -> outcome bytes).
Context (crypto_sign_verify_detached : bytes -> bytes -> bytes -> bool).
Context (ntru_sign : bytes -> bytes -> outcome bytes).
Context (ntru_verify : bytes -> bytes -> bytes -> bool).

(** [c_multikeys_PRV::multi_sign(msg, sign_type)] *)
Definition multi_sign_type (k : c_multicryptostrings) (msg : bytes) (sign_type : t_crypto_system_type) : outcome (list bytes) :=
  keys_count ← get_count_keys_in_system k sign_type;
  oassert (0 <? keys_count);;
  match sign_type with
  | e_crypto_system_type_Ed25519 =>
      omap_list (fun i => key ← get_key k sign_type i; crypto_sign_detached msg key) (indices keys_count)
  | e_crypto_system_type_NTRU_sign =>
      if ENABLE_CRYPTO_NTRU then
        omap_list (fun i => key ← get_key k sign_type i; ntru_sign msg key) (indices keys_count)
      else Throw ex_invalid_argument
  | _ => Throw ex_runtime_error
  end.

(** The enumerators met by [for (sys=0; sys<count; ++sys) int_to_enum(sys,true)]. *)
Definition systems_below (count : Z) : list t_crypto_system_type :=
  omap (fun sys => match int_to_crypto_system sys true with Ret e => Some e | _ => None end) (indices count).

(** [c_multikeys_PRV::multi_sign(msg)] *)
Definition multi_sign (k : c_multicryptostrings) (msg : bytes) : outcome c_multicryptostrings :=
  ofold (fun acc sys_enum =>
    n ← get_count_keys_in_system k sys_enum;
    if negb (cryptosystem_sign_allowed sys_enum) || (n =? 0) then Ret acc
    else
      signatures ← multi_sign_type k msg sys_enum;
      match add_signature_vec signatures sys_enum acc with
      | (Ret _, acc') => Ret acc'
      | (Throw e, _) => Throw e
      | (Abort_, _) => Abort_
      | (Undef, _) => Undef
      end) new_multisign (systems_below (get_count_of_systems k)).

(** [c_multikeys_pub::multi_sign_verify(signs, msg, pubkeys, sign_type)] *)
Definition multi_sign_verify_type (signs : list bytes) (msg : bytes) (pubkeys : c_multicryptostrings)
    (sign_type : t_crypto_system_type) : outcome unit :=
  amount_of_pubkeys ← get_count_keys_in_system pubkeys sign_type;
  oassert (amount_of_pubkeys =? zlen signs);;
  if amount_of_pubkeys =? 0 then Ret tt
  else match sign_type with
  | e_crypto_system_type_Ed25519 =>
      ofold (fun _ i =>
        pubkey ← get_key pubkeys sign_type i;
        s ← at_ signs i;
        if crypto_sign_verify_detached s msg pubkey then Ret tt else Throw ex_invalid_argument)
        tt (indices amount_of_pubkeys)
  | e_crypto_system_type_NTRU_sign =>
      if ENABLE_CRYPTO_NTRU then
        ofold (fun _ i =>
          pubkey ← get_key pubkeys sign_type i;
          s ← at_ signs i;
          if negb (ntru_verify s msg pubkey) then Throw ex_invalid_argument else Ret tt)
          tt (indices amount_of_pubkeys)
      else Throw ex_invalid_argument
  | _ => Throw ex_invalid_argument
  end.

(** [c_multikeys_pub::multi_sign_verify(all_signatures, msg, pubkeys)] *)
Definition multi_sign_verify (all_signatures : c_multicryptostrings) (msg : bytes) (pubkeys : c_multicryptostrings) : outcome unit :=
  othrow_if (negb (get_count_of_systems all_signatures =? get_count_of_systems pubkeys)) ex_invalid_argument;;
  ofold (fun _ sys_enum =>
    ns ← get_count_keys_in_system all_signatures sys_enum;
    np ← get_count_keys_in_system pubkeys sys_enum;
    othrow_if (negb (ns =? np)) ex_invalid_argument;;
    if negb (cryptosystem_sign_allowed sys_enum) then Ret tt
    else
      signs ← get_signature_vec all_signatures sys_enum;
      multi_sign_verify_type signs msg pubkeys sys_enum)
    tt (systems_below (get_count_of_systems all_signatures)).
End Sign.

(** ** Key pairs *)

Record c_multikeys_PAIR := MultikeysPAIR { m_pub : c_multikeys_pub; m_PRV : c_multicryptostrings }.

Definition new_multikeys_PAIR : c_multikeys_PAIR :=
  MultikeysPAIR new_multikeys_pub (new_multicryptostrings e_crypto_use_secret).

Definition get_serialize_bin_pubkey (p : c_multikeys_PAIR) : outcome bytes := serialize_bin (pub_keys (m_pub p)).

Definition on_m_pub {A} (m : M c_multikeys_pub A) : M c_multikeys_PAIR A := fun p =>
  let '(o, k) := m (m_pub p) in (o, MultikeysPAIR k (m_PRV p)).
Definition on_m_PRV {A} (m : M c_multicryptostrings A) : M c_multikeys_PAIR A := fun p =>
  let '(o, k) := m (m_PRV p) in (o, MultikeysPAIR (m_pub p) k).

Definition add_public_and_PRIVATE (crypto_type : t_crypto_system_type) (pubkey PRVkey : bytes) : M c_multikeys_PAIR unit :=
  on_m_pub (add_public crypto_type pubkey);;
  on_m_PRV (add_key crypto_type PRVkey).

Section Generate.
Context (ENABLE_CRYPTO_NTRU ENABLE_CRYPTO_SIDH : bool).
(** The generators, (PRV, pub), over a source of entropy. *)
Context {Rng : Type}.
Context (generate_x25519_key_pair generate_ed25519_key_pair ntru_generate_encrypt_keypair
         ntru_generate_sign_keypair sidh_generate_keypair : M Rng (bytes * bytes)).

Definition generate_nrtu_encrypt_key_pair : M Rng (bytes * bytes) :=
  if ENABLE_CRYPTO_NTRU then
    keypair ← ntru_generate_encrypt_keypair;
    massert (zlen keypair.1 =? 659);;
    massert (zlen keypair.2 =? 609);;
    mret keypair
  else mthrow ex_invalid_argument.

Definition generate_nrtu_sign_key_pair : M Rng (bytes * bytes) :=
  if ENABLE_CRYPTO_NTRU then
    keypair ← ntru_generate_sign_keypair;
    massert (zlen keypair.1 =? 6152);;
    massert (zlen keypair.2 =? 6158);;
    mret keypair
  else mthrow ex_invalid_argument.

(** [for (int i=0; i<count; ++i) { keypair = gen(); add_public_and_PRIVATE(...); }] *)
Fixpoint generate_loop (gen : M Rng (bytes * bytes)) (type : t_crypto_system_type) (count : nat) : M (Rng * c_multikeys_PAIR) unit :=
  match count with
  | O => mret tt
  | S n =>
      keypair ← on_fst gen;
      on_snd (add_public_and_PRIVATE type keypair.2 keypair.1);;
      generate_loop gen type n
  end.

(** [generate(crypto_system_type, count)]; the serialization made for a log
    line at the end can throw. *)
Definition generate_type (type : t_crypto_system_type) (count : Z) : M (Rng * c_multikeys_PAIR) unit :=
  if count =? 0 then mret tt
  else
    let n := Z.to_nat count in
    (match type with
     | e_crypto_system_type_X25519 => generate_loop generate_x25519_key_pair type n
     | e_crypto_system_type_Ed25519 => generate_loop generate_ed25519_key_pair type n
     | e_crypto_system_type_NTRU_EES439EP1 => generate_loop generate_nrtu_encrypt_key_pair type n
     | e_crypto_system_type_NTRU_sign =>
         if ENABLE_CRYPTO_NTRU then generate_loop generate_nrtu_sign_key_pair type n else mthrow ex_invalid_argument
     | e_crypto_system_type_SIDH =>
         if ENABLE_CRYPTO_SIDH then generate_loop sidh_generate_keypair type n else mthrow ex_invalid_argument
     | _ => mthrow ex_runtime_error
     end);;
    on_snd (on_m_pub (on_pub_keys set_hash_dirty));;
    s ← mget;
    _ ← mlift (serialize_bin (pub_keys (m_pub s.2)));
    mret tt.

(** [generate(cryptolists_count, will_asymkex)] *)
Definition generate_list (cryptolists_count : list Z) (will_asymkex : bool) : M (Rng * c_multikeys_PAIR) unit :=
  mfor (systems_below (zlen cryptolists_count)) (fun sys_enum =>
    how_many ← mlift (at_ cryptolists_count (enum_to_int sys_enum));
    if 0 <? how_many then
      (if will_asymkex then generate_type sys_enum how_many
       else
         asym ← mlift (t_crypto_system_type_is_asymkex sys_enum);
         if negb asym then generate_type sys_enum how_many else mret tt)
    else mret tt).

(** [generate()] *)
Definition generate_default : M (Rng * c_multikeys_PAIR) unit :=
  generate_type e_crypto_system_type_X25519 1;;
  generate_type e_crypto_system_type_NTRU_EES439EP1 1;;
  generate_type e_crypto_system_type_SIDH 1;;
  on_snd (on_m_pub (on_pub_keys set_hash_dirty)).
End Generate.
