(* ===== verification/MultikeysFacts.v ===== *)
(** * Key collections: serialization, fingerprints, signatures, generation

    Theorems about [Multikeys.v].  [override] is what loading does to the key
    lists; [same_fingerprint] is the relation between key lists that the
    fingerprint cannot tell apart. *)
From S2P Require Import Prelude Serialize SerializeFacts Hexstr Cryptobasic Multikeys.

(** ** Generator programs that lift a computed value *)

Lemma pushes_lift {A} (o : outcome A) (f : A -> M bytes unit) a e :
  o = Ret a -> pushes (f a) e -> pushes (x ← mlift o; f x) e.
Proof. intros -> H g. unfold mbind, M_mbind, mlift. apply H. Qed.

Lemma gen_str_pushes m e : pushes m e -> gen_str m = Ret e.
Proof. intros H. unfold gen_str. by rewrite H. Qed.

Lemma pushes_bytes_n s : pushes (push_bytes_n (zlen s) s) s.
Proof.
  unfold push_bytes_n. apply (pushes_bind _ []); [apply pushes_assert, Z.eqb_refl|apply pushes_append].
Qed.

(** ** Programs on an object and its parser *)

Definition loads {K A} (m : M (K * parser) A) (e : bytes) (k k' : K) (a : A) : Prop := forall p r,
  m (k, Parser (p ++ e ++ r) (zlen p)) = (Ret a, (k', Parser (p ++ e ++ r) (zlen p + zlen e))).

Lemma loads_bind {K A B} (m : M (K * parser) A) (f : A -> M (K * parser) B) e1 e2 k1 k2 k3 a b :
  loads m e1 k1 k2 a -> loads (f a) e2 k2 k3 b -> loads (m ≫= f) (e1 ++ e2) k1 k3 b.
Proof.
  intros H1 H2 p r. unfold mbind, M_mbind. rewrite <- app_assoc, (H1 p (e2 ++ r)).
  specialize (H2 (p ++ e1) r). rewrite <- !app_assoc, zlen_app in H2. rewrite H2.
  by rewrite zlen_app, Z.add_assoc.
Qed.

Lemma loads_bind_0 {K A B} (m : M (K * parser) A) (f : A -> M (K * parser) B) e k1 k2 k3 a b :
  loads m [] k1 k2 a -> loads (f a) e k2 k3 b -> loads (m ≫= f) e k1 k3 b.
Proof. apply (loads_bind m f [] e). Qed.

Lemma loads_snd {K A} (d : M parser A) e (k : K) a : pops d e a -> loads (on_snd d) e k k a.
Proof. intros H p r. unfold on_snd. cbn [snd fst]. by rewrite H. Qed.

Lemma loads_fst {K A} (m : M K A) (k k' : K) a : m k = (Ret a, k') -> loads (on_fst m) [] k k' a.
Proof. intros H p r. unfold on_fst. cbn [snd fst]. rewrite H. by rewrite zlen_nil, Z.add_0_r. Qed.

Lemma loads_lift {K A} (o : outcome A) (k : K) a : o = Ret a -> loads (mlift o) [] k k a.
Proof. intros -> p r. unfold mlift. by rewrite zlen_nil, Z.add_0_r. Qed.

Lemma loads_ret {K A} (k : K) (a : A) : loads (mret a) [] k k a.
Proof. intros p r. unfold mret, M_mret. by rewrite zlen_nil, Z.add_0_r. Qed.

(** [loads] when [e] is the rest of the input. *)
Definition finishes {K A} (m : M (K * parser) A) (e : bytes) (k k' : K) (a : A) : Prop := forall p,
  m (k, Parser (p ++ e) (zlen p)) = (Ret a, (k', Parser (p ++ e) (zlen p + zlen e))).

Lemma loads_finishes {K A} (m : M (K * parser) A) e k k' a : loads m e k k' a -> finishes m e k k' a.
Proof. intros H p. specialize (H p []). by rewrite app_nil_r in H. Qed.

Lemma finishes_bind {K A B} (m : M (K * parser) A) (f : A -> M (K * parser) B) e1 e2 k1 k2 k3 a b :
  loads m e1 k1 k2 a -> finishes (f a) e2 k2 k3 b -> finishes (m ≫= f) (e1 ++ e2) k1 k3 b.
Proof.
  intros H1 H2 p. unfold mbind, M_mbind. rewrite (H1 p e2).
  specialize (H2 (p ++ e1)). rewrite <- !app_assoc, zlen_app in H2. rewrite H2.
  by rewrite zlen_app, Z.add_assoc.
Qed.

Lemma finishes_bind_0 {K A B} (m : M (K * parser) A) (f : A -> M (K * parser) B) e k1 k2 k3 a b :
  loads m [] k1 k2 a -> finishes (f a) e k2 k3 b -> finishes (m ≫= f) e k1 k3 b.
Proof. apply (finishes_bind m f [] e). Qed.

Lemma finishes_last {K A B} (m : M (K * parser) A) (f : A -> M (K * parser) B) e k1 k2 k3 a b :
  finishes m e k1 k2 a -> finishes (f a) [] k2 k3 b -> finishes (m ≫= f) e k1 k3 b.
Proof.
  intros H1 H2 p. unfold mbind, M_mbind. rewrite (H1 p).
  specialize (H2 (p ++ e)). by rewrite app_nil_r, zlen_app, zlen_nil, Z.add_0_r in H2.
Qed.

Lemma finishes_at_end {K} (k : K) ex :
  finishes (p ← on_snd mget; mthrow_if (negb (is_end p)) ex) [] k k tt.
Proof.
  intros p. munfold. unfold on_snd. cbn [fst snd]. unfold is_end, m_data_end. cbn [m_data m_data_now].
  rewrite app_nil_r, zlen_nil, Z.add_0_r, (proj2 (Z.leb_le _ _)) by lia. done.
Qed.

(** ** Key lists *)

(** A list the generator can write: its number has an ID, sizes are sane. *)
Definition writable (i : Z) (keys : list bytes) : Prop :=
  keys <> [] ->
  (exists c, t_crypto_system_type_to_ID i = Ret c) /\ zlen keys < 2 ^ 64 - 1 /\
  Forall (fun k => zlen k <= SANE_MAX_SIZE_FOR_STRING) keys.

Definition wf_keys (k : c_multicryptostrings) : Prop :=
  length (m_cryptolists_general k) = 32%nat /\
  forall i keys, m_cryptolists_general k !! i = Some keys -> writable (Z.of_nat i) keys.

(** [wf_keys] as a test. *)
Definition writableb (i : Z) (keys : list bytes) : bool :=
  bool_decide (keys = []) ||
  (match t_crypto_system_type_to_ID i with Ret _ => true | _ => false end) &&
  (zlen keys <? 2 ^ 64 - 1) && forallb (fun k => zlen k <=? SANE_MAX_SIZE_FOR_STRING) keys.

Definition wf_keysb (k : c_multicryptostrings) : bool :=
  (length (m_cryptolists_general k) =? 32)%nat &&
  forallb (fun x => writableb x.1 x.2) (imap (fun i l => (Z.of_nat i, l)) (m_cryptolists_general k)).

Lemma wf_keysb_ok k : wf_keysb k = true -> wf_keys k.
Proof.
  intros [Hl%Nat.eqb_eq Hf]%andb_true_iff. split; [done|]. intros i keys Hi Hne.
  rewrite forallb_forall in Hf. specialize (Hf (Z.of_nat i, keys)). simpl in Hf.
  assert (writableb (Z.of_nat i) keys = true) as H.
  { apply Hf, list_elem_of_In, elem_of_lookup_imap. by exists i, keys. }
  unfold writableb in H. rewrite bool_decide_eq_false_2 in H by done. simpl in H.
  destruct (t_crypto_system_type_to_ID _) as [c|?| |]; try discriminate H. zbool. split_and!; [by eexists|done|].
  rewrite forallb_forall in H0. apply Forall_forall. intros x Hx%list_elem_of_In. apply Z.leb_le. auto.
Qed.

Definition used_from (n : nat) (lists : list (list bytes)) : list (Z * list bytes) :=
  List.filter (fun x => negb (bool_decide (x.2 = []))) (imap (fun i l => (Z.of_nat (n + i), l)) lists).

Lemma used_systems_from lists : used_systems lists = used_from 0 lists.
Proof. done. Qed.

Lemma used_from_cons n l lists :
  used_from n (l :: lists) =
    (if bool_decide (l = []) then [] else [(Z.of_nat n, l)]) ++ used_from (S n) lists.
Proof.
  unfold used_from. rewrite imap_cons. simpl. rewrite Nat.add_0_r.
  assert (imap ((fun i l0 => (Z.of_nat (n + i), l0)) ∘ S) lists = imap (fun i l0 => (Z.of_nat (S n + i), l0)) lists) as ->.
  { apply imap_ext. intros i x _. simpl. do 2 f_equal. lia. }
  by case_bool_decide.
Qed.

Lemma used_from_elem n lists i l : (i, l) ∈ used_from n lists ->
  exists j, lists !! j = Some l /\ i = Z.of_nat (n + j) /\ l <> [].
Proof.
  revert n. induction lists as [|x lists IH]; intros n; [by intros ?%elem_of_nil|].
  rewrite used_from_cons. intros [H|H]%elem_of_app.
  - case_bool_decide; [by apply elem_of_nil in H|]. apply list_elem_of_singleton in H as [= -> ->].
    exists 0%nat. split_and!; [done|lia|done].
  - apply IH in H as (j & ? & -> & ?). exists (S j). split_and!; [done|lia|done].
Qed.

Lemma used_from_length n lists : (length (used_from n lists) <= length lists)%nat.
Proof.
  revert n. induction lists as [|x lists IH]; intros n; [done|]. rewrite used_from_cons.
  specialize (IH (S n)). case_bool_decide; simpl; lia.
Qed.

(** What [load_from_bin] leaves: a system of the message replaces the old
    one, a system absent from it keeps the keys it had. *)
Definition override (new old : list (list bytes)) : list (list bytes) :=
  zip_with (fun n o => if bool_decide (n = []) then o else n) new old.

Definition store_system (lists : list (list bytes)) (x : Z * list bytes) : list (list bytes) :=
  <[Z.to_nat x.1 := x.2]> lists.

Lemma store_used pre : forall lists old, length lists = length old ->
  foldl store_system (pre ++ old) (used_from (length pre) lists) = pre ++ override lists old.
Proof.
  intros lists. revert pre. induction lists as [|l lists IH]; intros pre [|o old] Hl; simplify_eq/=; try done.
  rewrite used_from_cons. case_bool_decide; simpl.
  - specialize (IH (pre ++ [o]) old Hl). rewrite length_app, <- !app_assoc in IH. simpl in IH.
    by rewrite Nat.add_1_r in IH.
  - unfold store_system at 2. cbn [fst snd]. rewrite Nat2Z.id, insert_app_r_alt, Nat.sub_diag by lia. simpl.
    specialize (IH (pre ++ [l]) old Hl). rewrite length_app, <- !app_assoc in IH. simpl in IH.
    by rewrite Nat.add_1_r in IH.
Qed.

(** ** Serialization *)

Definition system_bytes (x : Z * list bytes) : bytes :=
  match t_crypto_system_type_to_ID x.1 with
  | Ret id => uvarint_bytes (byte_val id) ++ counted_bytes varstring_bytes x.2
  | _ => []
  end.

Definition keys_bytes (k : c_multicryptostrings) : bytes :=
  str "GMK" ++ [Byte.x61] ++ [crypto_use_byte (m_crypto_use k)] ++
  uvarint_bytes (zlen (used_systems (m_cryptolists_general k))) ++
  concat (map system_bytes (used_systems (m_cryptolists_general k))).

Lemma pushes_system x : x.2 <> [] -> writable x.1 x.2 -> pushes (push_system x) (system_bytes x).
Proof.
  intros Hne Hw. destruct (Hw Hne) as ((c & Hc) & Hl & Hk). unfold push_system, system_bytes. rewrite Hc.
  apply (pushes_lift _ _ c); [done|]. apply pushes_bind.
  - apply pushes_uvarint. pose proof (byte_val_range c). lia.
  - apply pushes_counted; [done|]. exact (Forall_pushes x.2 Hk).
Qed.

Lemma used_writable k : wf_keys k -> Forall (fun x => x.2 <> [] /\ writable x.1 x.2) (used_systems (m_cryptolists_general k)).
Proof.
  intros [_ Hw]. apply Forall_forall. intros [i l] H. rewrite used_systems_from in H.
  apply used_from_elem in H as (j & Hj & -> & Hne). simpl. auto.
Qed.

Lemma used_count_bound k : wf_keys k -> 0 <= zlen (used_systems (m_cryptolists_general k)) <= 32.
Proof.
  intros [Hl _]. pose proof (used_from_length 0 (m_cryptolists_general k)). rewrite used_systems_from.
  unfold zlen. lia.
Qed.

Lemma serialize_bin_eval k : wf_keys k -> serialize_bin k = Ret (keys_bytes k).
Proof.
  intros Hw. apply gen_str_pushes. pose proof (used_count_bound k Hw).
  apply (pushes_bind (push_bytes_n 3 (str "GMK"))); [apply (pushes_bytes_n (str "GMK"))|].
  apply (pushes_bind (push_byte_u _)); [apply pushes_append|].
  apply (pushes_bind (push_byte_u _)); [apply pushes_append|].
  apply pushes_bind; [apply pushes_uvarint; lia|]. apply pushes_mfor.
  eapply Forall_impl; [by apply used_writable|]. intros x [Hne Hx]. by apply pushes_system.
Qed.

Lemma loads_systems l : forall k,
  length (m_cryptolists_general k) = 32%nat -> Forall (fun x => x.2 <> [] /\ writable x.1 x.2) l ->
  loads (load_systems pop_public_keys (length l)) (concat (map system_bytes l)) k
        (set_lists (foldl store_system (m_cryptolists_general k) l) k) tt.
Proof.
  induction l as [|[i keys] l IH]; intros k Hlen Hl.
  - destruct k. apply loads_ret.
  - apply Forall_cons in Hl as [[Hne Hw] Hl]. destruct (Hw Hne) as ((c & Hc) & Hkl & Hk).
    destruct (to_ID_inv _ _ Hc) as (e & He & Hei). simpl in *. unfold system_bytes at 1. simpl. rewrite Hc, <- !app_assoc.
    apply (loads_bind _ _ _ _ _ k _ (byte_val c)).
    { apply loads_snd, pops_uvarint. pose proof (byte_val_range c). lia. }
    apply (loads_bind_0 _ _ _ _ k _ e); [apply loads_lift; by rewrite byte_of_Z_val|].
    apply (loads_bind _ _ _ _ _ k _ keys).
    { apply loads_snd, pops_counted; [apply varstring_nonempty|done|]. exact (Forall_pops keys Hk). }
    apply (loads_bind_0 _ _ _ _ k _ k); [by apply loads_fst|].
    assert (0 <= i < 32) as Hi by (subst i; destruct e; try discriminate Hc; simpl; lia).
    destruct (lookup_lt_is_Some_2 (m_cryptolists_general k) (Z.to_nat i)) as [old Hold]; [lia|].
    apply (loads_bind_0 _ _ _ _ k _ old).
    { apply loads_lift. unfold at_. rewrite Hei, (proj2 (Z.leb_le 0 i)) by lia. by rewrite Hold. }
    rewrite Hei. eapply (loads_bind_0 _ _ _ _ _ _ tt); [by apply loads_fst|]. simpl.
    specialize (IH (set_lists (<[Z.to_nat i := keys]> (m_cryptolists_general k)) k)). simpl in IH.
    rewrite length_insert in IH. by apply IH.
Qed.

Lemma loads_guard {K} b ex (k : K) : b = false -> loads (mthrow_if b ex) [] k k tt.
Proof. intros ->. by apply loads_lift. Qed.

Lemma finishes_load_body k b : wf_keys k -> length (m_cryptolists_general b) = 32%nat ->
  m_crypto_use b = m_crypto_use k ->
  finishes (load_body pop_public_keys) (keys_bytes k) b
    (Multicryptostrings (override (m_cryptolists_general k) (m_cryptolists_general b)) [] (m_crypto_use b)) tt.
Proof.
  intros Hw Hb Hu. pose proof (used_count_bound k Hw) as Hn. unfold load_body, keys_bytes.
  apply (finishes_bind _ _ _ _ _ b _ (str "GMK")); [apply loads_snd, (pops_bytes_n (str "GMK"))|].
  apply (finishes_bind_0 _ _ _ _ b _ tt); [by apply loads_guard|].
  apply (finishes_bind _ _ _ _ _ b _ Byte.x61); [apply loads_snd, pops_byte|].
  apply (finishes_bind _ _ _ _ _ b _ (crypto_use_byte (m_crypto_use k))); [apply loads_snd, pops_byte|].
  apply (finishes_bind_0 _ _ _ _ b _ b); [by apply loads_fst|].
  apply (finishes_bind_0 _ _ _ _ b _ tt).
  { apply loads_guard. by rewrite Hu, bool_decide_eq_true_2. }
  set (k1 := set_lists (foldl store_system (m_cryptolists_general b) (used_systems (m_cryptolists_general k))) b).
  assert (k1 = set_lists (override (m_cryptolists_general k) (m_cryptolists_general b)) b) as Hk1.
  { unfold k1. f_equal. apply (store_used []). destruct Hw as [-> _]. done. }
  apply (finishes_last _ _ _ _ k1 _ tt).
  - simpl. apply (finishes_bind _ _ _ _ _ b _ (zlen (used_systems (m_cryptolists_general k)))).
    { apply loads_snd, pops_uvarint. lia. }
    apply (finishes_bind_0 _ _ _ _ b _ tt); [apply loads_lift; unfold oassert; by rewrite (proj2 (Z.leb_le _ _)) by lia|].
    eapply (finishes_last _ _ _ _ k1 _ tt); [|apply finishes_at_end]. apply loads_finishes.
    unfold zlen. rewrite Nat2Z.id. apply loads_systems; [done|by apply used_writable].
  - apply loads_finishes. rewrite Hk1. by apply loads_fst.
Qed.

Lemma load_keys_bytes k b : wf_keys k -> length (m_cryptolists_general b) = 32%nat ->
  m_crypto_use b = m_crypto_use k ->
  load_from_bin (keys_bytes k) b =
    (Ret tt, Multicryptostrings (override (m_cryptolists_general k) (m_cryptolists_general b)) [] (m_crypto_use b)).
Proof.
  intros Hw Hb Hu. pose proof (finishes_load_body k b Hw Hb Hu []) as H. simpl app in H.
  unfold load_from_bin, load_from_bin_with. change (parser_of_string (keys_bytes k)) with (Ret (Parser (keys_bytes k) 0)).
  change (zlen (@nil Byte.byte)) with 0 in H. cbv beta iota. by rewrite H.
Qed.

(** A private key list never loads: the first key read is written past its
    buffer, or aborts when it is empty. *)
Definition crashes {A} (o : outcome A) : Prop := o = Undef \/ o = Abort_.

Lemma crashes_bind {St A B} (m : M St A) (f : A -> M St B) s : crashes (m s).1 -> crashes ((m ≫= f) s).1.
Proof. unfold crashes, mbind, M_mbind. destruct (m s) as [[a|e| |] s']; simpl; intros []; auto; discriminate. Qed.

Lemma crashes_after {St A B} (m : M St A) (f : A -> M St B) s a s' :
  m s = (Ret a, s') -> crashes (f a s').1 -> crashes ((m ≫= f) s).1.
Proof. unfold mbind, M_mbind. by intros ->. Qed.

Lemma pop_locked_string_crashes x p r : zlen x <= SANE_MAX_SIZE_FOR_STRING -> (x ++ r) <> [] ->
  crashes (pop_locked_string (Parser (p ++ varstring_bytes x ++ r) (zlen p))).1.
Proof.
  intros Hx Hr. pose proof (zlen_nonneg x). pose proof (zlen_nonneg p). unfold SANE_MAX_SIZE_FOR_STRING in Hx.
  unfold varstring_bytes. rewrite <- app_assoc.
  eapply crashes_after; [apply pops_uvarint; lia|].
  set (u := uvarint_bytes (zlen x)). pose proof (zlen_nonneg u). pose proof (zlen_pos _ Hr). pose proof (zlen_nonneg r).
  assert (zlen (p ++ u ++ x ++ r) = zlen p + zlen u + (zlen x + zlen r)) as Hz by (rewrite !zlen_app; lia).
  assert (0 < zlen x + zlen r) by (by rewrite <- zlen_app).
  destruct (decide (zlen x = 0)) as [Hz0|Hne].
  - right. rewrite Hz0. apply pop_bytes_n_into_buff_zero. lia.
  - left. apply (pop_bytes_n_into_buff_overruns_at (p ++ u ++ x ++ r)); [lia..|].
    unfold zlen. by rewrite length_replicate, Nat2Z.id.
Qed.

Lemma pop_private_keys_crashes x l p r : zlen (x :: l) < 2 ^ 64 - 1 ->
  zlen x <= SANE_MAX_SIZE_FOR_STRING -> x <> [] ->
  crashes (pop_private_keys (Parser (p ++ counted_bytes varstring_bytes (x :: l) ++ r) (zlen p))).1.
Proof.
  intros Hl Hx Hne. pose proof (zlen_pos (x :: l) ltac:(done)). unfold counted_bytes. rewrite <- app_assoc.
  eapply crashes_after; [apply pops_uvarint; lia|].
  eapply crashes_after; [unfold massert, mlift, oassert; by rewrite (proj2 (Z.leb_le _ _)) by lia|].
  eapply crashes_after; [done|]. unfold loop_fuel. cbn [pop_loop].
  rewrite (proj2 (Z.leb_gt _ 0)) by lia. apply crashes_bind.
  simpl concat. rewrite <- app_assoc, <- zlen_app, app_assoc. apply pop_locked_string_crashes; [done|by destruct x].
Qed.

(** [m] crashes wherever [e] is the next input. *)
Definition dies {K A} (m : M (K * parser) A) (e : bytes) (k : K) : Prop := forall p r,
  crashes (m (k, Parser (p ++ e ++ r) (zlen p))).1.

Lemma dies_bind {K A B} (m : M (K * parser) A) (f : A -> M (K * parser) B) e k : dies m e k -> dies (m ≫= f) e k.
Proof. intros H p r. apply crashes_bind, H. Qed.

Lemma dies_after {K A B} (m : M (K * parser) A) (f : A -> M (K * parser) B) e1 e2 k k1 a :
  loads m e1 k k1 a -> dies (f a) e2 k1 -> dies (m ≫= f) (e1 ++ e2) k.
Proof.
  intros H1 H2 p r. rewrite <- app_assoc. eapply crashes_after; [apply (H1 p (e2 ++ r))|].
  specialize (H2 (p ++ e1) r). by rewrite <- !app_assoc, zlen_app in H2.
Qed.

Lemma dies_after_0 {K A B} (m : M (K * parser) A) (f : A -> M (K * parser) B) e k k1 a :
  loads m [] k k1 a -> dies (f a) e k1 -> dies (m ≫= f) e k.
Proof. apply (dies_after m f [] e). Qed.

Lemma dies_prefix {K A} (m : M (K * parser) A) e e' k : dies m e k -> dies m (e ++ e') k.
Proof. intros H p r. rewrite <- app_assoc. apply H. Qed.

Lemma dies_snd {K A} (d : M parser A) e (k : K) :
  (forall p r, crashes (d (Parser (p ++ e ++ r) (zlen p))).1) -> dies (on_snd d) e k.
Proof. intros H p r. unfold on_snd. specialize (H p r). cbn [fst snd]. by destruct (d _). Qed.

Lemma load_systems_PRV_dies i keys l k n : writable i keys -> keys <> [] -> Forall (fun x => x <> []) keys ->
  dies (load_systems pop_private_keys (S n)) (concat (map system_bytes ((i, keys) :: l))) k.
Proof.
  intros Hw Hne Hk. destruct (Hw Hne) as ((c & Hc) & Hkl & Hks). destruct (to_ID_inv _ _ Hc) as (e & He & Hei).
  simpl. unfold system_bytes at 1. simpl. rewrite Hc, <- !app_assoc.
  apply (dies_after _ _ _ _ _ k (byte_val c)).
  { apply loads_snd, pops_uvarint. pose proof (byte_val_range c). lia. }
  apply (dies_after_0 _ _ _ _ k e); [apply loads_lift; by rewrite byte_of_Z_val|].
  apply dies_bind, dies_prefix, dies_snd. intros p r. destruct keys as [|x keys]; [done|].
  apply Forall_cons in Hk as [Hx _]. apply Forall_cons in Hks as [Hxs _]. by apply pop_private_keys_crashes.
Qed.

Lemma load_PRV_dies k b : wf_keys k -> m_crypto_use b = m_crypto_use k ->
  used_systems (m_cryptolists_general k) <> [] -> Forall (Forall (fun x => x <> [])) (m_cryptolists_general k) ->
  dies (load_body pop_private_keys) (keys_bytes k) b.
Proof.
  intros Hw Hu Hne Hk. pose proof (used_count_bound k Hw) as Hn. pose proof (used_writable k Hw) as Hwr.
  unfold load_body, keys_bytes.
  apply (dies_after _ _ _ _ _ b (str "GMK")); [apply loads_snd, (pops_bytes_n (str "GMK"))|].
  apply (dies_after_0 _ _ _ _ b tt); [by apply loads_guard|].
  apply (dies_after _ _ _ _ _ b Byte.x61); [apply loads_snd, pops_byte|].
  apply (dies_after _ _ _ _ _ b (crypto_use_byte (m_crypto_use k))); [apply loads_snd, pops_byte|].
  apply (dies_after_0 _ _ _ _ b b); [by apply loads_fst|].
  apply (dies_after_0 _ _ _ _ b tt); [apply loads_guard; by rewrite Hu, bool_decide_eq_true_2|].
  apply dies_bind. simpl.
  apply (dies_after _ _ _ _ _ b (zlen (used_systems (m_cryptolists_general k)))); [apply loads_snd, pops_uvarint; lia|].
  apply (dies_after_0 _ _ _ _ b tt); [apply loads_lift; unfold oassert; by rewrite (proj2 (Z.leb_le _ _)) by lia|].
  apply dies_bind. destruct (used_systems (m_cryptolists_general k)) as [|[i keys] l] eqn:E; [done|].
  unfold zlen. rewrite Nat2Z.id. cbn [length]. apply Forall_cons in Hwr as [[Hne' Hw'] _].
  apply load_systems_PRV_dies; try done.
  rewrite used_systems_from in E. assert ((i, keys) ∈ used_from 0 (m_cryptolists_general k)) as Hin by (rewrite E; left).
  apply used_from_elem in Hin as (j & Hj & _). rewrite Forall_lookup in Hk. by apply (Hk j).
Qed.

Lemma override_empty lists : override lists (replicate (length lists) []) = lists.
Proof. induction lists as [|l lists IH]; simpl; [done|]. f_equal; [by case_bool_decide|apply IH]. Qed.

(** ** Fingerprints *)
Section FingerprintFacts.
Context (Hash1 : bytes -> bytes).
Context (Hash1_64 : forall x, zlen (Hash1 x) = 64).

Definition zeros64 : bytes := replicate 64 Byte.x00.

Lemma Hash1_length x : length (Hash1 x) = 64%nat.
Proof. specialize (Hash1_64 x). unfold zlen in Hash1_64. lia. Qed.

Lemma fpr_fold keys acc : length acc = 64%nat ->
  ofold (fun acc pk => binary_string_xor acc (Hash1 pk)) acc keys =
    Ret (foldl (fun acc pk => xor_str acc (Hash1 pk)) acc keys) /\
  length (foldl (fun acc pk => xor_str acc (Hash1 pk)) acc keys) = 64%nat.
Proof.
  revert acc. induction keys as [|pk keys IH]; intros acc Ha; [done|]. simpl.
  rewrite binary_string_xor_eval by (by rewrite Hash1_length). simpl. apply IH.
  rewrite xor_str_length; [done|by rewrite Hash1_length].
Qed.

Lemma fpr_accum_eval keys : fpr_accum Hash1 keys = Ret (foldl (fun acc pk => xor_str acc (Hash1 pk)) zeros64 keys).
Proof. by apply (fpr_fold keys zeros64). Qed.

Lemma fpr_foldl_swap keys acc pk :
  foldl (fun acc pk => xor_str acc (Hash1 pk)) (xor_str acc (Hash1 pk)) keys =
  xor_str (foldl (fun acc pk => xor_str acc (Hash1 pk)) acc keys) (Hash1 pk).
Proof.
  revert acc. induction keys as [|k keys IH]; intros acc; simpl; [done|]. by rewrite xor_str_swap, IH.
Qed.

Lemma fpr_accum_perm keys keys' : keys ≡ₚ keys' -> fpr_accum Hash1 keys = fpr_accum Hash1 keys'.
Proof.
  intros Hp. rewrite !fpr_accum_eval. f_equal. generalize zeros64.
  induction Hp as [|k l l' _ IH|a b l|l l' l'' _ IH1 _ IH2]; intros acc; simpl; auto.
  - by rewrite xor_str_swap.
  - by rewrite IH1.
Qed.

Lemma fpr_accum_pair keys k : fpr_accum Hash1 (k :: k :: keys) = fpr_accum Hash1 keys.
Proof.
  rewrite !fpr_accum_eval. cbn [foldl]. rewrite !fpr_foldl_swap. f_equal. apply xor_str_cancel.
  destruct (fpr_fold keys zeros64 eq_refl) as [_ ->]. by rewrite Hash1_length.
Qed.

(** Key lists that [update_hash] cannot tell apart. *)
Definition same_fingerprint (a b : list bytes) : Prop :=
  (a = [] <-> b = []) /\ fpr_accum Hash1 a = fpr_accum Hash1 b.

Lemma mfor_used_same n L L' : Forall2 same_fingerprint L L' ->
  (forall g, mfor (used_from n L) (push_fingerprint Hash1) g = mfor (used_from n L') (push_fingerprint Hash1) g) /\
  length (used_from n L) = length (used_from n L').
Proof.
  intros H. revert n. induction H as [|a b L L' [Hne Hf] _ IH]; intros n; [done|].
  rewrite !used_from_cons. destruct (IH (S n)) as [IHg IHl].
  rewrite (bool_decide_ext _ _ Hne). case_bool_decide as Hb; simpl; [done|]. split; [|by rewrite IHl].
  intros g. unfold mbind, M_mbind. assert (push_fingerprint Hash1 (Z.of_nat n, a) g = push_fingerprint Hash1 (Z.of_nat n, b) g) as ->.
  { unfold push_fingerprint. cbn [fst snd]. by rewrite Hf. }
  destruct (push_fingerprint _ _ _) as [[?|?| |] g']; auto.
Qed.

Lemma fingerprint_serial_same L L' : Forall2 same_fingerprint L L' ->
  fingerprint_serial Hash1 L = fingerprint_serial Hash1 L'.
Proof.
  intros H. destruct (mfor_used_same 0 L L' H) as [Hg Hl]. unfold fingerprint_serial, gen_str.
  rewrite !used_systems_from. assert (zlen (used_from 0 L) = zlen (used_from 0 L')) as -> by (unfold zlen; by rewrite Hl).
  match goal with |- match ?x with _ => _ end = match ?y with _ => _ end => assert (x = y) as ->; [|done] end.
  do 5 (apply M_bind_ext; intros _ ?). apply Hg.
Qed.

Lemma same_fingerprint_refl keys : same_fingerprint keys keys.
Proof. done. Qed.

Lemma Forall2_replace i keys keys' L : L !! i = Some keys -> same_fingerprint keys keys' ->
  Forall2 same_fingerprint L (<[i := keys']> L).
Proof.
  intros Hi Hs. apply Forall2_same_length_lookup. split; [by rewrite length_insert|].
  intros j x y Hx Hy. destruct (decide (i = j)) as [<-|Hne].
  - rewrite list_lookup_insert_eq in Hy by (by eapply lookup_lt_Some). by simplify_eq.
  - rewrite list_lookup_insert_ne in Hy by done. by simplify_eq.
Qed.

(** [get_hash] of a collection with an empty cache. *)
Lemma get_hash_eval k : m_hash_cached k = [] ->
  get_hash Hash1 k =
    match fingerprint_serial Hash1 (m_cryptolists_general k) with
    | Ret s => (Ret (Hash1 s), set_hash (Hash1 s) k)
    | Throw e => (Throw e, k)
    | Abort_ => (Abort_, k)
    | Undef => (Undef, k)
    end.
Proof.
  intros Hc. unfold get_hash, update_hash. munfold. rewrite Hc, bool_decide_eq_true_2 by done.
  destruct (fingerprint_serial Hash1 _) as [s|e| |]; simpl; try done.
  rewrite bool_decide_eq_false_2; [done|]. intros H. pose proof (Hash1_length s) as Hl. by rewrite H in Hl.
Qed.

Lemma get_hash_cached k : m_hash_cached k <> [] -> get_hash Hash1 k = (Ret (m_hash_cached k), k).
Proof. intros Hc. unfold get_hash. munfold. by rewrite !bool_decide_eq_false_2 by done. Qed.

Lemma address_same p p' :
  m_hash_cached (pub_keys p) = [] -> m_hash_cached (pub_keys p') = [] -> m_ipv6_prefix p = m_ipv6_prefix p' ->
  Forall2 same_fingerprint (m_cryptolists_general (pub_keys p)) (m_cryptolists_general (pub_keys p')) ->
  (get_hash Hash1 (pub_keys p)).1 = (get_hash Hash1 (pub_keys p')).1 /\
  (get_ipv6_string_bin Hash1 p).1 = (get_ipv6_string_bin Hash1 p').1.
Proof.
  intros Hc Hc' Hpre Hs%fingerprint_serial_same.
  unfold get_ipv6_string_bin, on_pub_keys, mbind, M_mbind, mget, mlift.
  rewrite !get_hash_eval, Hs by done.
  clear Hs. generalize (fingerprint_serial Hash1 (m_cryptolists_general (pub_keys p'))). intros [s|e| |]; try by split.
  split; [done|]. simpl. rewrite Hpre.
  by destruct (bin_of_hex _).
Qed.
End FingerprintFacts.

(** ** Signatures *)

Section SignFacts.
Context (ENABLE_CRYPTO_NTRU : bool).
Context (ed_verify ntru_verify : bytes -> bytes -> bytes -> bool).

Notation verify_type := (multi_sign_verify_type ENABLE_CRYPTO_NTRU ed_verify ntru_verify).
Notation verify_all := (multi_sign_verify ENABLE_CRYPTO_NTRU ed_verify ntru_verify).

Definition keys_of (k : c_multicryptostrings) (e : t_crypto_system_type) : list bytes :=
  default [] (m_cryptolists_general k !! Z.to_nat (enum_to_int e)).

Lemma at_some {A} (l : list A) i x : l !! i = Some x -> at_ l (Z.of_nat i) = Ret x.
Proof. intros H. unfold at_. rewrite (proj2 (Z.leb_le 0 _)) by lia. by rewrite Nat2Z.id, H. Qed.

Lemma at_keys_of k e : length (m_cryptolists_general k) = 32%nat -> enum_to_int e < 32 ->
  at_ (m_cryptolists_general k) (enum_to_int e) = Ret (keys_of k e).
Proof.
  intros Hl He. unfold keys_of. assert (0 <= enum_to_int e) by (destruct e; simpl; lia).
  destruct (lookup_lt_is_Some_2 (m_cryptolists_general k) (Z.to_nat (enum_to_int e))) as [l Hk]; [lia|].
  rewrite Hk. apply at_some in Hk. by rewrite Z2Nat.id in Hk by lia.
Qed.

Lemma count_eval k e : length (m_cryptolists_general k) = 32%nat -> enum_to_int e < 32 ->
  get_count_keys_in_system k e = Ret (zlen (keys_of k e)).
Proof. intros Hl He. unfold get_count_keys_in_system. by rewrite at_keys_of. Qed.

Lemma omap_list_at (f : bytes -> outcome bytes) l pre :
  omap_list (fun i => x ← at_ (pre ++ l) i; f x) (map Z.of_nat (seq (length pre) (length l))) = omap_list f l.
Proof.
  revert pre. induction l as [|x l IH]; intros pre; [done|]. cbn [length seq map omap_list].
  rewrite (at_some _ _ x) by (by apply list_lookup_middle). simpl.
  specialize (IH (pre ++ [x])). rewrite length_app, <- app_assoc in IH. simpl in IH.
  rewrite Nat.add_1_r in IH. by rewrite IH.
Qed.

Lemma omap_list_ret {A} (l : list A) : omap_list Ret l = Ret l.
Proof. induction l as [|x l IH]; simpl; [done|]. by rewrite IH. Qed.

Lemma omap_list_ext {A B} (f g : A -> outcome B) l : (forall x, f x = g x) -> omap_list f l = omap_list g l.
Proof. intros H. induction l as [|x l IH]; simpl; [done|]. by rewrite H, IH. Qed.

Lemma get_signature_vec_eval k e : length (m_cryptolists_general k) = 32%nat -> enum_to_int e < 32 ->
  get_signature_vec k e = Ret (keys_of k e).
Proof.
  intros Hl He. unfold get_signature_vec, get_count_keys_in_system. rewrite at_keys_of by done. simpl.
  unfold indices, zlen. rewrite Nat2Z.id. etransitivity; [|apply omap_list_ret].
  rewrite <- (omap_list_at Ret (keys_of k e) []). apply omap_list_ext. intros i.
  unfold get_signature, get_key. rewrite at_keys_of by done. simpl. by destruct (at_ _ i).
Qed.

(** The verification loop over positions, as a test of the two lists. *)
Lemma verify_loop (v : bytes -> bytes -> bool) sigs pks spre ppre :
  length sigs = length pks -> length spre = length ppre ->
  ofold (fun _ i =>
      pubkey ← at_ (ppre ++ pks) i;
      s ← at_ (spre ++ sigs) i;
      if v s pubkey then Ret tt else Throw ex_invalid_argument)
    tt (map Z.of_nat (seq (length ppre) (length pks))) =
  if forallb (fun sp => v sp.1 sp.2) (zip sigs pks) then Ret tt else Throw ex_invalid_argument.
Proof.
  revert sigs spre ppre. induction pks as [|pk pks IH]; intros [|s sigs] spre ppre Hl Hp; simplify_eq/=; [done|].
  rewrite (at_some (ppre ++ pk :: pks) (length ppre) pk) by (by apply list_lookup_middle). simpl.
  rewrite (at_some (spre ++ s :: sigs) (length ppre) s) by (by apply list_lookup_middle). simpl.
  destruct (v s pk); simpl; [|done].
  specialize (IH sigs (spre ++ [s]) (ppre ++ [pk])). rewrite !length_app, <- !app_assoc in IH. simpl in IH.
  replace (length ppre + 1)%nat with (S (length ppre)) in IH by lia. apply IH; lia.
Qed.

Definition all_verified (sigs : list bytes) (msg : bytes) (e : t_crypto_system_type) (pks : list bytes) : bool :=
  match e with
  | e_crypto_system_type_Ed25519 => forallb (fun sp => ed_verify sp.1 msg sp.2) (zip sigs pks)
  | e_crypto_system_type_NTRU_sign =>
      bool_decide (pks = []) || ENABLE_CRYPTO_NTRU && forallb (fun sp => ntru_verify sp.1 msg sp.2) (zip sigs pks)
  | _ => true
  end.

Lemma ofold_ext {A B} (f g : A -> B -> outcome A) acc l : (forall a x, f a x = g a x) -> ofold f acc l = ofold g acc l.
Proof.
  intros H. revert acc. induction l as [|x l IH]; intros acc; simpl; [done|]. rewrite H.
  destruct (g acc x); simpl; auto.
Qed.

Lemma get_key_eval k e i : length (m_cryptolists_general k) = 32%nat -> enum_to_int e < 32 ->
  get_key k e i = at_ (keys_of k e) i.
Proof. intros Hl He. unfold get_key. by rewrite at_keys_of by done. Qed.

Lemma verify_type_eval sigs msg k e : length (m_cryptolists_general k) = 32%nat ->
  cryptosystem_sign_allowed e = true -> length sigs = length (keys_of k e) ->
  verify_type sigs msg k e =
    if all_verified sigs msg e (keys_of k e) then Ret tt else Throw ex_invalid_argument.
Proof.
  intros Hl He Hs. unfold multi_sign_verify_type, get_count_keys_in_system.
  assert (enum_to_int e < 32) as He32 by (destruct e; try discriminate He; simpl; lia).
  rewrite at_keys_of by done. simpl. assert (zlen sigs = zlen (keys_of k e)) as Hz by (unfold zlen; by rewrite Hs).
  rewrite Hz, Z.eqb_refl. simpl. destruct (zlen (keys_of k e) =? 0) eqn:E0; zbool.
  - unfold zlen in E0. assert (keys_of k e = []) as Hk by (by apply zlen_0_nil).
    destruct sigs; [|rewrite Hk in Hs; discriminate]. rewrite Hk. by destruct e.
  - assert (bool_decide (keys_of k e = []) = false) as Hne by (apply bool_decide_eq_false; intros H; by rewrite H in E0).
    destruct e; try discriminate He; unfold all_verified.
    + rewrite <- (verify_loop (fun s p => ed_verify s msg p) sigs (keys_of k _) [] []) by done.
      unfold indices, zlen. rewrite Nat2Z.id. apply ofold_ext. intros _ i. by rewrite get_key_eval by done.
    + rewrite Hne. destruct ENABLE_CRYPTO_NTRU; simpl; [|done].
      rewrite <- (verify_loop (fun s p => ntru_verify s msg p) sigs (keys_of k _) [] []) by done.
      unfold indices, zlen. rewrite Nat2Z.id. apply ofold_ext. intros _ i. rewrite get_key_eval by done. simpl app.
      destruct (at_ (keys_of k _) i) as [pk|?| |]; simpl; try done. destruct (at_ sigs i) as [s|?| |]; simpl; try done.
      by destruct (ntru_verify s msg pk).
Qed.

(** One turn of the loop over the systems. *)
Definition system_ok (sigs : c_multicryptostrings) (msg : bytes) (pks : c_multicryptostrings) (e : t_crypto_system_type) : bool :=
  (zlen (keys_of sigs e) =? zlen (keys_of pks e)) && all_verified (keys_of sigs e) msg e (keys_of pks e).

Lemma verify_systems sigs msg pks l :
  length (m_cryptolists_general sigs) = 32%nat -> length (m_cryptolists_general pks) = 32%nat ->
  Forall (fun e => enum_to_int e < 32) l ->
  ofold (fun _ sys_enum =>
    ns ← get_count_keys_in_system sigs sys_enum;
    np ← get_count_keys_in_system pks sys_enum;
    othrow_if (negb (ns =? np)) ex_invalid_argument;;
    if negb (cryptosystem_sign_allowed sys_enum) then Ret tt
    else signs ← get_signature_vec sigs sys_enum; verify_type signs msg pks sys_enum) tt l =
  if forallb (system_ok sigs msg pks) l then Ret tt else Throw ex_invalid_argument.
Proof.
  intros Hs Hp Hl. induction Hl as [|e l He _ IH]; [done|]. simpl ofold. simpl forallb.
  rewrite !count_eval by done. simpl. unfold system_ok at 1.
  destruct (zlen (keys_of sigs e) =? zlen (keys_of pks e)) eqn:Ez; simpl; [|done]. zbool.
  destruct (cryptosystem_sign_allowed e) eqn:Ea; simpl.
  - rewrite get_signature_vec_eval by done. simpl.
    rewrite verify_type_eval by first [done | unfold zlen in Ez; lia].
    destruct (all_verified _ _ _ _); simpl; [apply IH|done].
  - assert (all_verified (keys_of sigs e) msg e (keys_of pks e) = true) as -> by (by destruct e). apply IH.
Qed.

Lemma verify_all_eval sigs msg pks :
  length (m_cryptolists_general sigs) = 32%nat -> length (m_cryptolists_general pks) = 32%nat ->
  verify_all sigs msg pks =
    if forallb (system_ok sigs msg pks) (systems_below 32) then Ret tt else Throw ex_invalid_argument.
Proof.
  intros Hs Hp. rewrite <- (verify_systems sigs msg pks (systems_below 32)); [|done..|].
  - unfold multi_sign_verify, get_count_of_systems, zlen. by rewrite Hs, Hp, Z.eqb_refl.
  - vm_compute. repeat constructor.
Qed.
End SignFacts.

(** ** Signing *)
Section SigningFacts.
Context (ENABLE_CRYPTO_NTRU : bool).
Context (ed_sign ntru_sign : bytes -> bytes -> bytes).

Notation sign_type := (multi_sign_type ENABLE_CRYPTO_NTRU (fun m k => Ret (ed_sign m k)) (fun m k => Ret (ntru_sign m k))).
Notation sign_all := (multi_sign ENABLE_CRYPTO_NTRU (fun m k => Ret (ed_sign m k)) (fun m k => Ret (ntru_sign m k))).

Definition signatures_of (k : c_multicryptostrings) (msg : bytes) (e : t_crypto_system_type) : list bytes :=
  match e with
  | e_crypto_system_type_Ed25519 => map (ed_sign msg) (keys_of k e)
  | e_crypto_system_type_NTRU_sign => map (ntru_sign msg) (keys_of k e)
  | _ => []
  end.

Lemma sign_loop (f : bytes -> bytes) k e : length (m_cryptolists_general k) = 32%nat -> enum_to_int e < 32 ->
  omap_list (fun i => key ← get_key k e i; Ret (f key)) (indices (zlen (keys_of k e))) = Ret (map f (keys_of k e)).
Proof.
  intros Hl He. unfold indices, zlen. rewrite Nat2Z.id.
  transitivity (omap_list (fun x => Ret (f x)) (keys_of k e)).
  - rewrite <- (omap_list_at (fun x => Ret (f x)) (keys_of k e) []). apply omap_list_ext. intros i.
    by rewrite get_key_eval.
  - induction (keys_of k e) as [|x l IH]; simpl; [done|]. by rewrite IH.
Qed.

Lemma sign_type_eval k msg e : length (m_cryptolists_general k) = 32%nat ->
  cryptosystem_sign_allowed e = true -> keys_of k e <> [] ->
  (e = e_crypto_system_type_NTRU_sign -> ENABLE_CRYPTO_NTRU = true) ->
  sign_type k msg e = Ret (signatures_of k msg e).
Proof.
  intros Hl He Hne Hn. assert (enum_to_int e < 32) as He32 by (destruct e; try discriminate He; simpl; lia).
  unfold multi_sign_type. rewrite count_eval by done. simpl.
  assert (0 < zlen (keys_of k e)) by by apply zlen_pos.
  rewrite (proj2 (Z.ltb_lt 0 _)) by done. simpl. destruct e; try discriminate He; simpl.
  - by apply sign_loop.
  - rewrite Hn by done. by apply sign_loop.
Qed.

Lemma add_key_eval e x k : length (m_cryptolists_general k) = 32%nat -> enum_to_int e < 32 ->
  add_key e x k = (Ret tt, set_lists (<[Z.to_nat (enum_to_int e) := keys_of k e ++ [x]]> (m_cryptolists_general k)) k).
Proof. intros Hl He. unfold add_key. munfold. by rewrite at_keys_of. Qed.

Lemma keys_of_insert k e e' l : length (m_cryptolists_general k) = 32%nat -> enum_to_int e < 32 ->
  keys_of (set_lists (<[Z.to_nat (enum_to_int e) := l]> (m_cryptolists_general k)) k) e' =
    if bool_decide (e = e') then l else keys_of k e'.
Proof.
  intros Hl He. unfold keys_of. simpl. assert (0 <= enum_to_int e) by (destruct e; simpl; lia).
  case_bool_decide as Heq.
  - subst. by rewrite list_lookup_insert_eq by lia.
  - rewrite list_lookup_insert_ne; [done|]. intros Hn. apply Heq.
    destruct e, e'; try done; exfalso; vm_compute in Hn; discriminate.
Qed.

Lemma add_signature_vec_eval e sigs : enum_to_int e < 32 -> forall k, length (m_cryptolists_general k) = 32%nat ->
  exists k', add_signature_vec sigs e k = (Ret tt, k') /\ length (m_cryptolists_general k') = 32%nat /\
    forall e', keys_of k' e' = if bool_decide (e = e') then keys_of k e ++ sigs else keys_of k e'.
Proof.
  intros He. induction sigs as [|s sigs IH]; intros k Hl.
  - exists k. split_and!; try done. intros e'. rewrite app_nil_r. by case_bool_decide; subst.
  - unfold add_signature_vec. simpl mfor. unfold mbind, M_mbind, add_signature. rewrite add_key_eval by done.
    destruct (IH (set_lists (<[Z.to_nat (enum_to_int e) := keys_of k e ++ [s]]> (m_cryptolists_general k)) k)) as (k' & Hk & Hl' & Hf).
    { simpl. by rewrite length_insert. }
    exists k'. split_and!; [done..|]. intros e'. rewrite Hf, !keys_of_insert by done.
    rewrite (bool_decide_eq_true_2 (e = e)) by done. rewrite <- app_assoc. by case_bool_decide; subst.
Qed.

Definition sign_step (k : c_multicryptostrings) (msg : bytes) (acc : c_multicryptostrings) (sys_enum : t_crypto_system_type) : outcome c_multicryptostrings :=
  n ← get_count_keys_in_system k sys_enum;
  if negb (cryptosystem_sign_allowed sys_enum) || (n =? 0) then Ret acc
  else
    signatures ← sign_type k msg sys_enum;
    match add_signature_vec signatures sys_enum acc with
    | (Ret _, acc') => Ret acc'
    | (Throw e, _) => Throw e
    | (Abort_, _) => Abort_
    | (Undef, _) => Undef
    end.

Lemma sign_systems k msg l : length (m_cryptolists_general k) = 32%nat ->
  (keys_of k e_crypto_system_type_NTRU_sign <> [] -> ENABLE_CRYPTO_NTRU = true) ->
  NoDup l -> Forall (fun e => enum_to_int e < 32) l -> forall acc,
  length (m_cryptolists_general acc) = 32%nat -> Forall (fun e => keys_of acc e = []) l ->
  exists s, ofold (sign_step k msg) acc l = Ret s /\ length (m_cryptolists_general s) = 32%nat /\
    forall e, keys_of s e = if bool_decide (e ∈ l) then signatures_of k msg e else keys_of acc e.
Proof.
  intros Hl Hn Hnd H32. induction l as [|e l IH]; intros acc Ha Hemp.
  - exists acc. split_and!; [done..|]. intros e. by rewrite bool_decide_eq_false_2 by (by intros ?%elem_of_nil).
  - apply NoDup_cons in Hnd as [Hel Hnd]. apply Forall_cons in H32 as [He H32]. apply Forall_cons in Hemp as [Hae Hemp].
    assert (exists acc', sign_step k msg acc e = Ret acc' /\ length (m_cryptolists_general acc') = 32%nat /\
      forall e', keys_of acc' e' = if bool_decide (e = e') then signatures_of k msg e else keys_of acc e') as (acc' & Hs & Hl' & Hk').
    { unfold sign_step. rewrite count_eval by done. simpl.
      destruct (cryptosystem_sign_allowed e) eqn:Ea; simpl.
      2:{ exists acc. split_and!; [done..|]. intros e'. case_bool_decide; subst; [|done]. rewrite Hae. by destruct e'. }
      destruct (zlen (keys_of k e) =? 0) eqn:E0; zbool.
      { exists acc. split_and!; [done..|]. intros e'. case_bool_decide; subst; [|done]. rewrite Hae.
        apply zlen_0_nil in E0 as Hk.
        destruct e'; simpl; rewrite ?Hk; done. }
      rewrite sign_type_eval; [|done..| |].
      - simpl. destruct (add_signature_vec_eval e (signatures_of k msg e) He acc Ha) as (acc' & -> & ? & Hk).
        exists acc'. split_and!; [done..|]. intros e'. rewrite Hk. case_bool_decide; subst; [|done]. by rewrite Hae.
      - intros H. by rewrite H in E0.
      - intros ->. apply Hn. intros H. by rewrite H in E0. }
    destruct (IH Hnd H32 acc' Hl') as (s & Hfold & Hls & Hks).
    { apply Forall_forall. intros e' He'. rewrite Hk'. rewrite Forall_forall in Hemp.
      case_bool_decide; [by subst|by apply Hemp]. }
    exists s. cbn [ofold]. rewrite Hs. split_and!; [done..|]. intros e'. rewrite Hks, Hk'.
    destruct (decide (e = e')) as [<-|Hee].
    + rewrite (bool_decide_eq_false_2 (e ∈ l)), (bool_decide_eq_true_2 (e = e)) by done.
      by rewrite bool_decide_eq_true_2 by apply list_elem_of_here.
    + rewrite (bool_decide_eq_false_2 (e = e')) by done.
      rewrite (bool_decide_ext (e' ∈ e :: l) (e' ∈ l)); [done|]. rewrite elem_of_cons. split; [by intros [->|?]|by right].
Qed.

Lemma sign_all_eval k msg : length (m_cryptolists_general k) = 32%nat ->
  (keys_of k e_crypto_system_type_NTRU_sign <> [] -> ENABLE_CRYPTO_NTRU = true) ->
  exists s, sign_all k msg = Ret s /\ length (m_cryptolists_general s) = 32%nat /\
    forall e, enum_to_int e < 32 -> keys_of s e = signatures_of k msg e.
Proof.
  intros Hl Hn. destruct (sign_systems k msg (systems_below 32) Hl Hn) with (acc := new_multisign) as (s & Hs & Hls & Hk).
  - apply (bool_decide_unpack _). by vm_compute.
  - vm_compute. repeat constructor.
  - done.
  - vm_compute. repeat constructor.
  - exists s. split_and!; [|done|].
    + unfold multi_sign, get_count_of_systems, zlen. rewrite Hl. exact Hs.
    + intros e He. rewrite Hk, bool_decide_eq_true_2; [done|].
      destruct e; try (apply (bool_decide_unpack _); by vm_compute).
Qed.
End SigningFacts.

(** ** Generation *)
Section GenerateFacts.
Context (ENABLE_CRYPTO_NTRU ENABLE_CRYPTO_SIDH : bool) {Rng : Type}.
Context (gen_x25519 gen_ed25519 gen_ntru_enc gen_ntru_sign gen_sidh : M Rng (bytes * bytes)).

Notation gen_type := (generate_type ENABLE_CRYPTO_NTRU ENABLE_CRYPTO_SIDH gen_x25519 gen_ed25519 gen_ntru_enc gen_ntru_sign gen_sidh).

(** [n] pairs of keys of system [e] were appended on both sides. *)
Definition extended (e : t_crypto_system_type) (n : nat) (p p' : c_multikeys_PAIR) : Prop :=
  exists pairs : list (bytes * bytes), length pairs = n /\
    length (m_cryptolists_general (pub_keys (m_pub p'))) = 32%nat /\
    length (m_cryptolists_general (m_PRV p')) = 32%nat /\
    (forall e', keys_of (pub_keys (m_pub p')) e' =
       if bool_decide (e = e') then keys_of (pub_keys (m_pub p)) e ++ pairs.*2 else keys_of (pub_keys (m_pub p)) e') /\
    (forall e', keys_of (m_PRV p') e' =
       if bool_decide (e = e') then keys_of (m_PRV p) e ++ pairs.*1 else keys_of (m_PRV p) e').

Definition wf_pair (p : c_multikeys_PAIR) : Prop :=
  length (m_cryptolists_general (pub_keys (m_pub p))) = 32%nat /\ length (m_cryptolists_general (m_PRV p)) = 32%nat.

Lemma extended_refl e p : wf_pair p -> extended e 0 p p.
Proof.
  intros [H1 H2]. exists []. split_and!; try done; intros e'; rewrite app_nil_r; by case_bool_decide; subst.
Qed.

Lemma add_pair_extended e pk sk p : wf_pair p -> enum_to_int e < 32 ->
  exists p1, add_public_and_PRIVATE e pk sk p = (Ret tt, p1) /\ wf_pair p1 /\
    forall n p', extended e n p1 p' -> extended e (S n) p p'.
Proof.
  intros [H1 H2] He. unfold add_public_and_PRIVATE, on_m_pub, on_m_PRV, add_public, on_pub_keys, mbind, M_mbind.
  rewrite add_key_eval by done. cbn [m_PRV m_pub pub_keys]. rewrite add_key_eval by done.
  eexists. split; [done|]. split; [split; simpl; by rewrite length_insert|].
  intros n p' (pairs & Hn & Hl1 & Hl2 & Hk1 & Hk2). exists ((sk, pk) :: pairs).
  cbn [m_PRV m_pub pub_keys] in *. split_and!; [simpl; by rewrite Hn|done|done| |]; intros e'.
  - rewrite Hk1, !keys_of_insert by done. rewrite (bool_decide_eq_true_2 (e = e)) by done.
    case_bool_decide; [|done]. by rewrite <- app_assoc.
  - rewrite Hk2, !keys_of_insert by done. rewrite (bool_decide_eq_true_2 (e = e)) by done.
    case_bool_decide; [|done]. by rewrite <- app_assoc.
Qed.

Lemma generate_loop_extended (gen : M Rng (bytes * bytes)) e n : enum_to_int e < 32 -> forall rng p rng' p', wf_pair p ->
  generate_loop gen e n (rng, p) = (Ret tt, (rng', p')) -> extended e n p p'.
Proof.
  intros He. induction n as [|n IH]; intros rng p rng' p' Hp; simpl.
  - intros [= <- <-]. by apply extended_refl.
  - intros (kp & [rng1 p1] & Hg & H)%M_bind_inv. unfold on_fst in Hg. cbn [fst snd] in Hg.
    destruct (gen rng) as [o r1] eqn:Eg. injection Hg as Ho <- <-.
    apply M_bind_inv in H as (u & [rng2 p2] & Ha & H). unfold on_snd in Ha. cbn [fst snd] in Ha.
    destruct (add_pair_extended e kp.2 kp.1 p Hp He) as (p3 & Hadd & Hw & Hx).
    rewrite Hadd in Ha. injection Ha as _ <- <-. apply Hx. by eapply IH.
Qed.

Lemma generate_type_extended e n rng p rng' p' : wf_pair p -> 0 < n ->
  gen_type e n (rng, p) = (Ret tt, (rng', p')) ->
  extended e (Z.to_nat n) p p' /\ m_hash_cached (pub_keys (m_pub p')) = [].
Proof.
  intros Hp Hn. unfold generate_type. rewrite (proj2 (Z.eqb_neq n 0)) by lia.
  intros ([] & [rng1 p1] & Hg & H)%M_bind_inv.
  assert (extended e (Z.to_nat n) p p1) as Hx.
  { destruct e; try discriminate Hg;
      repeat match type of Hg with context [if ?b then _ else _] => destruct b end; try discriminate Hg;
      eapply generate_loop_extended; try exact Hg; try done. }
  clear Hg. revert H. unfold on_snd, on_m_pub, on_pub_keys, set_hash_dirty. munfold. cbn [fst snd].
  destruct (serialize_bin _); intros H; try discriminate H. injection H as _ <-.
  split; [|done]. destruct Hx as (pairs & ? & ? & ? & ? & ?). by exists pairs.
Qed.
End GenerateFacts.

(** ** Properties *)

(** C39: loading what [serialize_bin] produced: every writable key collection
    serializes, and loading the result into any collection of the same use
    replaces the systems of the message, keeps the keys of systems absent from
    it (the comment says prior data is deleted) and drops the cached hash; a
    fresh collection becomes equal to the one saved. *)
Theorem keys_serialize_load k b :
  wf_keys k -> length (m_cryptolists_general b) = 32%nat -> m_crypto_use b = m_crypto_use k ->
  exists data, serialize_bin k = Ret data /\
    load_from_bin data b =
      (Ret tt, Multicryptostrings (override (m_cryptolists_general k) (m_cryptolists_general b)) [] (m_crypto_use k)) /\
    (b = new_multicryptostrings (m_crypto_use k) ->
     load_from_bin data b = (Ret tt, set_hash [] k)).
Proof.
  intros Hw Hb Hu. exists (keys_bytes k). split; [by apply serialize_bin_eval|].
  split; [rewrite <- Hu; by apply load_keys_bytes|]. intros ->. rewrite load_keys_bytes by done.
  destruct Hw as [Hl _]. pose proof (override_empty (m_cryptolists_general k)) as Ho. rewrite Hl in Ho.
  change (m_cryptolists_general (new_multicryptostrings (m_crypto_use k))) with (replicate 32 (@nil bytes)).
  by rewrite Ho.
Qed.

(** Loading private keys: because the reader of locked strings writes one
    octet past the buffer it allocates, the saved form of any collection of
    non-empty private keys is never loaded: the call ends in an undefined
    operation or a failed check, whatever the object it is loaded into. *)
Lemma private_keys_never_load k b :
  wf_keys k -> m_crypto_use b = m_crypto_use k ->
  used_systems (m_cryptolists_general k) <> [] -> Forall (Forall (fun x => x <> [])) (m_cryptolists_general k) ->
  exists data, serialize_bin k = Ret data /\ crashes (load_from_bin_PRV data b).1.
Proof.
  intros Hw Hu Hne Hk. exists (keys_bytes k). split; [by apply serialize_bin_eval|].
  pose proof (load_PRV_dies k b Hw Hu Hne Hk [] []) as H. rewrite app_nil_r in H. simpl app in H.
  unfold load_from_bin_PRV, load_from_bin_with. change (parser_of_string (keys_bytes k)) with (Ret (Parser (keys_bytes k) 0)).
  change (zlen (@nil Byte.byte)) with 0 in H. cbv beta iota. by destruct (load_body pop_private_keys _) as [o [k' p']].
Qed.

Definition example_PRV : c_multicryptostrings :=
  Multicryptostrings (<[5%nat := [str "secret"]]> (replicate 32 [])) [] e_crypto_use_secret.

Definition example_keys : c_multicryptostrings :=
  Multicryptostrings (<[5%nat := [str "abc"; str ""]]> (<[11%nat := [str "n"]]> (replicate 32 []))) [] e_crypto_use_open.

Lemma keys_serialize_load_witness :
  exists data, serialize_bin example_keys = Ret data /\
    (load_from_bin data (new_multicryptostrings e_crypto_use_open)).2 = example_keys.
Proof.
  destruct (keys_serialize_load example_keys (new_multicryptostrings e_crypto_use_open)) as (data & H1 & _ & H3).
  - apply wf_keysb_ok. vm_compute. reflexivity.
  - reflexivity.
  - reflexivity.
  - exists data. split; [exact H1|]. etransitivity; [exact (f_equal snd (H3 eq_refl))|]. reflexivity.
Defined.

(** The fingerprint, and with it the IPv6 address of an identity, does
    not see the order of the keys of a system nor a pair of equal keys: for
    any public keys and any key [k], adding [k] twice to a system that has
    keys gives the same hash and the same address. *)
Lemma fingerprint_ignores_key_pairs Hash1 p i keys keys' :
  (forall x, zlen (Hash1 x) = 64) -> m_hash_cached (pub_keys p) = [] ->
  m_cryptolists_general (pub_keys p) !! i = Some keys -> keys <> [] ->
  (keys' ≡ₚ keys \/ exists k, keys' ≡ₚ k :: k :: keys) ->
  let p' := MultikeysPub (set_lists (<[i := keys']> (m_cryptolists_general (pub_keys p))) (pub_keys p)) (m_ipv6_prefix p) in
  (get_hash Hash1 (pub_keys p)).1 = (get_hash Hash1 (pub_keys p')).1 /\
  (get_ipv6_string_bin Hash1 p).1 = (get_ipv6_string_bin Hash1 p').1.
Proof.
  intros H64 Hc Hi Hne Hk p'. apply address_same; try done.
  apply Forall2_replace with keys; [done|]. split.
  - split; [done|]. intros ->. destruct Hk as [Hk%Permutation_nil_l|(k & Hk%Permutation_nil_cons)]; done.
  - destruct Hk as [Hk|(k & Hk)]; [by apply fpr_accum_perm|].
    rewrite (fpr_accum_perm Hash1 H64 keys' _ Hk). by rewrite fpr_accum_pair.
Qed.

(** [add_key] does not mark the cached hash dirty: once the hash has been
    asked for, keys added later do not change it, nor the address. *)
Lemma add_public_keeps_stale_hash Hash1 p e key h p1 :
  (forall x, zlen (Hash1 x) = 64) -> enum_to_int e < 32 ->
  length (m_cryptolists_general (pub_keys p)) = 32%nat -> m_hash_cached (pub_keys p) = [] ->
  on_pub_keys (get_hash Hash1) p = (Ret h, p1) ->
  exists p2, add_public e key p1 = (Ret tt, p2) /\
    keys_of (pub_keys p2) e = keys_of (pub_keys p) e ++ [key] /\
    (get_hash Hash1 (pub_keys p2)).1 = Ret h /\
    (get_ipv6_string_bin Hash1 p2).1 = (get_ipv6_string_bin Hash1 p).1.
Proof.
  intros H64 He Hl Hc Hg. unfold on_pub_keys in Hg. rewrite get_hash_eval in Hg by done.
  destruct (fingerprint_serial Hash1 _) as [s|?| |] eqn:Ef; simplify_eq/=.
  unfold add_public, on_pub_keys. rewrite add_key_eval by done. eexists. split; [done|].
  assert (Hash1 s <> []) as Hne by (intros H; pose proof (Hash1_length Hash1 H64 s) as Hs; by rewrite H in Hs).
  split; [|split].
  - cbn [pub_keys]. rewrite keys_of_insert by done. by rewrite bool_decide_eq_true_2.
  - cbn [pub_keys]. by rewrite get_hash_cached.
  - unfold get_ipv6_string_bin, on_pub_keys, mbind, M_mbind, mget, mlift.
    rewrite get_hash_cached by done. rewrite get_hash_eval, Ef by done. simpl. by destruct (bin_of_hex _).
Qed.

(** C40: what [multi_sign_verify] accepts, exactly: the two collections have the
    same number of entries in every system below END, also in those that cannot
    sign, and every signature of a signing system verifies under the key at its
    position; in every other case it throws std::invalid_argument, a failed
    verification included, for which the comment of the header names
    sodiumpp::crypto_error instead (the code catches that and throws
    std::invalid_argument). *)
Theorem multi_sign_verify_exact ENABLE_CRYPTO_NTRU ed_verify ntru_verify sigs msg pks :
  length (m_cryptolists_general sigs) = 32%nat -> length (m_cryptolists_general pks) = 32%nat ->
  let accepted :=
    (forall e, enum_to_int e < 32 -> length (keys_of sigs e) = length (keys_of pks e)) /\
    Forall2 (fun s pk => ed_verify s msg pk = true)
      (keys_of sigs e_crypto_system_type_Ed25519) (keys_of pks e_crypto_system_type_Ed25519) /\
    (keys_of pks e_crypto_system_type_NTRU_sign = [] \/ ENABLE_CRYPTO_NTRU = true) /\
    Forall2 (fun s pk => ntru_verify s msg pk = true)
      (keys_of sigs e_crypto_system_type_NTRU_sign) (keys_of pks e_crypto_system_type_NTRU_sign) in
  (multi_sign_verify ENABLE_CRYPTO_NTRU ed_verify ntru_verify sigs msg pks = Ret tt <-> accepted) /\
  (multi_sign_verify ENABLE_CRYPTO_NTRU ed_verify ntru_verify sigs msg pks = Ret tt \/
   multi_sign_verify ENABLE_CRYPTO_NTRU ed_verify ntru_verify sigs msg pks = Throw ex_invalid_argument).
Proof.
  intros Hs Hp. rewrite verify_all_eval by done.
  set (ok := system_ok ENABLE_CRYPTO_NTRU ed_verify ntru_verify sigs msg pks).
  assert (Hall : forallb ok (systems_below 32) = true <-> forall e, enum_to_int e < 32 -> ok e = true).
  { rewrite forallb_forall. split.
    - intros H e He. apply H, list_elem_of_In. destruct e; try (apply (bool_decide_unpack _); by vm_compute).
    - intros H e Hin%list_elem_of_In. apply H. revert e Hin. apply Forall_forall. vm_compute. repeat constructor. }
  assert (Hzip : forall (v : bytes -> bytes -> bool) a b, length a = length b ->
    forallb (fun sp => v sp.1 sp.2) (zip a b) = true <-> Forall2 (fun s pk => v s pk = true) a b).
  { intros v a. induction a as [|x a IH]; intros [|y b] Hl; simplify_eq/=; [by split; constructor|].
    rewrite andb_true_iff, IH by done. rewrite Forall2_cons. done. }
  split.
  2:{ destruct (forallb ok _); auto. }
  transitivity (forallb ok (systems_below 32) = true); [by destruct (forallb ok _)|]. rewrite Hall.
  unfold ok, system_ok. split.
  - intros H.
    assert (forall e, enum_to_int e < 32 -> length (keys_of sigs e) = length (keys_of pks e)) as Hlen.
    { intros e He. specialize (H e He). zbool. unfold zlen in *. lia. }
    pose proof (H e_crypto_system_type_Ed25519 eq_refl) as [_ Hed]%andb_true_iff.
    pose proof (H e_crypto_system_type_NTRU_sign eq_refl) as [_ Hnt]%andb_true_iff. simpl in Hed, Hnt.
    split_and!; [done| | |].
    + apply (Hzip (fun s p => ed_verify s msg p)) in Hed; [done|by apply Hlen].
    + apply orb_true_iff in Hnt as [?%bool_decide_eq_true|[? _]%andb_true_iff]; auto.
    + apply orb_true_iff in Hnt as [Hn%bool_decide_eq_true|[_ Hn]%andb_true_iff].
      * pose proof (Hlen e_crypto_system_type_NTRU_sign eq_refl) as Hl0. rewrite Hn in *.
        by destruct (keys_of sigs e_crypto_system_type_NTRU_sign); [constructor|].
      * apply (Hzip (fun s p => ntru_verify s msg p)) in Hn; [done|by apply Hlen].
  - intros (Hlen & Hed & Hnt & Hn) e He. rewrite (proj2 (Z.eqb_eq _ _)) by (unfold zlen; by rewrite Hlen).
    simpl. destruct e; try done; simpl.
    + apply (Hzip (fun s p => ed_verify s msg p)); [by apply Hlen|done].
    + destruct Hnt as [-> | ->]; [done|]. rewrite (proj2 (Hzip (fun s p => ntru_verify s msg p) _ _ (Hlen e_crypto_system_type_NTRU_sign eq_refl)) Hn).
      by rewrite orb_true_r.
Qed.

Definition one_ed_key : c_multicryptostrings :=
  set_lists (<[6%nat := [str "k"]]> (replicate 32 [])) (new_multicryptostrings e_crypto_use_open).

Definition one_ed_signature : c_multicryptostrings :=
  set_lists (<[6%nat := [str "mk"]]> (replicate 32 [])) new_multisign.

Lemma multi_sign_verify_exact_witness :
  multi_sign_verify true (fun s m k => bool_decide (s = m ++ k)) (fun _ _ _ => false)
    one_ed_signature (str "m") one_ed_key = Ret tt.
Proof.
  destruct (multi_sign_verify_exact true (fun s m k => bool_decide (s = m ++ k)) (fun _ _ _ => false)
    one_ed_signature (str "m") one_ed_key ltac:(vm_compute; reflexivity) ltac:(vm_compute; reflexivity)) as [H _].
  apply H. split; [intros []; reflexivity|]. split; [repeat constructor|]. split; [left; reflexivity|constructor].
Defined.

(** Signing with all keys and verifying.  When every signature made with a
    private key verifies under the public key at the same position, an
    identity that holds signing keys only verifies what it signed; an identity
    that also holds a key of another system, X25519 say, is refused by its own
    verification. *)
Lemma sign_then_verify ENABLE_CRYPTO_NTRU ed_sign ntru_sign ed_verify ntru_verify prv pub msg :
  length (m_cryptolists_general prv) = 32%nat -> length (m_cryptolists_general pub) = 32%nat ->
  (keys_of prv e_crypto_system_type_NTRU_sign <> [] -> ENABLE_CRYPTO_NTRU = true) ->
  Forall2 (fun sk pk => ed_verify (ed_sign msg sk) msg pk = true)
    (keys_of prv e_crypto_system_type_Ed25519) (keys_of pub e_crypto_system_type_Ed25519) ->
  Forall2 (fun sk pk => ntru_verify (ntru_sign msg sk) msg pk = true)
    (keys_of prv e_crypto_system_type_NTRU_sign) (keys_of pub e_crypto_system_type_NTRU_sign) ->
  exists sigs,
    multi_sign ENABLE_CRYPTO_NTRU (fun m k => Ret (ed_sign m k)) (fun m k => Ret (ntru_sign m k)) prv msg = Ret sigs /\
    multi_sign_verify ENABLE_CRYPTO_NTRU ed_verify ntru_verify sigs msg pub =
      if forallb (fun e => cryptosystem_sign_allowed e || bool_decide (keys_of pub e = [])) (systems_below 32)
      then Ret tt else Throw ex_invalid_argument.
Proof.
  intros Hl Hlp Hn Hed Hnt.
  destruct (sign_all_eval ENABLE_CRYPTO_NTRU ed_sign ntru_sign prv msg Hl Hn) as (s & Hs & Hls & Hk).
  exists s. split; [done|]. rewrite verify_all_eval by done.
  assert (forallb (system_ok ENABLE_CRYPTO_NTRU ed_verify ntru_verify s msg pub) (systems_below 32) =
          forallb (fun e => cryptosystem_sign_allowed e || bool_decide (keys_of pub e = [])) (systems_below 32)) as ->; [|done].
  assert (Hzip : forall (v : bytes -> bytes -> bool) (sg : bytes -> bytes) a b,
    Forall2 (fun sk pk => v (sg sk) pk = true) a b ->
    length (map sg a) = length b /\ forallb (fun sp => v sp.1 sp.2) (zip (map sg a) b) = true).
  { intros v sg a b H. induction H as [|x y a b Hxy _ [IH1 IH2]]; [done|]. simpl. by rewrite IH1, Hxy, IH2. }
  destruct (Hzip (fun x p => ed_verify x msg p) (ed_sign msg) _ _ Hed) as [Hed1 Hed2]. destruct (Hzip (fun x p => ntru_verify x msg p) (ntru_sign msg) _ _ Hnt) as [Hnt1 Hnt2].
  assert (forall l, Forall (fun e => enum_to_int e < 32) l ->
    forallb (system_ok ENABLE_CRYPTO_NTRU ed_verify ntru_verify s msg pub) l =
    forallb (fun e => cryptosystem_sign_allowed e || bool_decide (keys_of pub e = [])) l) as Hgen.
  2:{ apply Hgen. vm_compute. repeat constructor. }
  induction 1 as [|e l He _ IH]; [done|]. simpl. rewrite IH. f_equal. unfold system_ok. rewrite Hk by done.
  assert (Hz : forall x : list bytes, (zlen (@nil bytes) =? zlen x) && true = bool_decide (x = [])).
  { intros x. rewrite andb_true_r. case_bool_decide as Hx; [by subst|]. rewrite zlen_nil.
    apply Z.eqb_neq. apply zlen_pos in Hx. lia. }
  destruct e; simpl; try apply Hz.
  - unfold zlen. rewrite Hed1, Z.eqb_refl. exact Hed2.
  - unfold zlen. rewrite Hnt1, Z.eqb_refl. simpl. rewrite Hnt2, andb_true_r.
    destruct (decide (keys_of pub e_crypto_system_type_NTRU_sign = [])) as [Hp|Hp].
    + by rewrite bool_decide_eq_true_2.
    + rewrite Hn; [by rewrite orb_true_r|]. intros H. rewrite H in Hnt. by inversion Hnt as [Hx|].
Qed.

(** A successful key generation appends the requested number of pairs, one
    public and one private key at the same position of the same system, leaves
    every other system alone, and drops the cached hash of the public keys. *)
Lemma generate_appends_pairs NTRU SIDH (Rng : Type) (g1 g2 g3 g4 g5 : M Rng (bytes * bytes)) e n rng p rng' p' :
  wf_pair p -> 0 < n ->
  generate_type NTRU SIDH g1 g2 g3 g4 g5 e n (rng, p) = (Ret tt, (rng', p')) ->
  extended e (Z.to_nat n) p p' /\ m_hash_cached (pub_keys (m_pub p')) = [].
Proof. intros Hp Hn H. by eapply generate_type_extended. Qed.

