(* ===== verification/Crypto.v ===== *)
(** * Streams and crypto tunnels (crypto/crypto.cpp, crypto/sidhpp.cpp)

    Models [c_symhash_state], [c_stream] (key agreement, packet start, boxing)
    and [c_crypto_tunnel].  libsodium, sodiumpp's boxers, the NTRU and the SIDH
    primitives are the fields of the class [CryptoLib]; [Rng] is the state of
    the random sources they read.  A null [unique_ptr] is [None]: [UsePtr]
    aborts on it, a plain dereference is undefined. *)
From S2P Require Import Prelude Serialize Cryptobasic Multikeys.

(** What the code calls outside the repository. *)
Class CryptoLib (Rng : Type) := {
  Hash1 : bytes -> bytes;                                   (* crypto_generichash, 64 octets *)
  key_agreement_locked : bytes -> bytes -> outcome bytes;   (* secret key, public key *)
  randombytes_locked : Z -> M Rng bytes;
  ntru_encrypt : bytes -> bytes -> M Rng bytes;             (* cleartext, public key *)
  ntru_decrypt : bytes -> bytes -> outcome bytes;           (* encrypted, private key *)
  SecretAgreement_A : bytes -> bytes -> outcome bytes;      (* private a, their public b *)
  SecretAgreement_B : bytes -> bytes -> outcome bytes;      (* private b, their public a *)
  (* sodiumpp::boxer and unboxer: parity of the nonce, key, constant part of the nonce *)
  Boxer : Type;
  Unboxer : Type;
  make_boxer : bool -> bytes -> bytes -> Boxer;
  make_unboxer : bool -> bytes -> bytes -> Unboxer;
  boxer_get_nonce : Boxer -> bytes;
  boxer_box : Boxer -> bytes -> bytes * Boxer;
  unboxer_get_nonce : Unboxer -> bytes;
  unboxer_unbox : bytes -> M Unboxer bytes;                 (* with the unboxer's own nonce *)
  unboxer_unbox_nonce : bytes -> bytes -> M Unboxer bytes;  (* message, nonce *)
  (* key generators: X25519, Ed25519, NTRU encryption, NTRU signature, SIDH *)
  gen_x25519 : M Rng (bytes * bytes);
  gen_ed25519 : M Rng (bytes * bytes);
  gen_ntru_encrypt : M Rng (bytes * bytes);
  gen_ntru_sign : M Rng (bytes * bytes);
  gen_sidh : M Rng (bytes * bytes)
}.

Definition crypto_secretbox_KEYBYTES : Z := 32.
(** [sodiumpp::nonce64]: 8 sequential octets of the 24 of a box nonce. *)
Definition nonce_constantbytes : Z := 16.

(** [for (x : l) acc = f(acc, x)] of code with state. *)
Fixpoint mfold {St A B} (f : A -> B -> M St A) (acc : A) (l : list B) : M St A :=
  match l with
  | [] => mret acc
  | x :: l' => acc' ← f acc x; mfold f acc' l'
  end.

(** Signed [char] keys of a std::map. *)
Definition char_le (a b : Byte.byte) : Prop := signed_char a <= signed_char b.
#[export] Instance char_le_dec : RelDecision char_le := fun a b => decide (signed_char a <= signed_char b).

(** [map<char, vector<string>>]: passwords by crypto system. *)
Notation t_kexasym := (gmap Byte.byte (list bytes)).

Section Crypto.
Context {Rng : Type} `{!CryptoLib Rng}.
Context (ENABLE_CRYPTO_NTRU ENABLE_CRYPTO_SIDH : bool).

(** ** c_symhash_state *)

Record c_symhash_state := Symhash { m_state : bytes; m_number : Z }.

Definition next_state (additional_secret_material : bytes) (s : c_symhash_state) : c_symhash_state :=
  Symhash (Hash1 (Hash1 (m_state s) ++ additional_secret_material)) (m_number s + 1).

Definition get_password (s : c_symhash_state) : outcome bytes := Hash2 Hash1 (m_state s).

(** ** c_stream *)

Record c_stream := Stream {
  m_KCT : bytes;
  m_nonce_odd : bool;
  m_side_initiator : bool;
  m_packetstart_kexasym : bytes;
  m_packetstart_IDe : bytes;
  m_cryptolists_count : list Z;
  m_boxer : option Boxer;
  m_unboxer : option Unboxer;
  m_nicename : bytes
}.

Definition return_empty_K : bytes := replicate (Z.to_nat Hash1_size) Byte.x00.

Definition new_stream (side_initiator : bool) (nicename : bytes) : c_stream :=
  Stream return_empty_K false side_initiator [] [] (replicate 32 0) None None nicename.

Definition set_KCT (k : bytes) (s : c_stream) : c_stream :=
  Stream k (m_nonce_odd s) (m_side_initiator s) (m_packetstart_kexasym s) (m_packetstart_IDe s)
    (m_cryptolists_count s) (m_boxer s) (m_unboxer s) (m_nicename s).
Definition set_nonce_odd (b : bool) (s : c_stream) : c_stream :=
  Stream (m_KCT s) b (m_side_initiator s) (m_packetstart_kexasym s) (m_packetstart_IDe s)
    (m_cryptolists_count s) (m_boxer s) (m_unboxer s) (m_nicename s).
Definition set_kexasym (k : bytes) (s : c_stream) : c_stream :=
  Stream (m_KCT s) (m_nonce_odd s) (m_side_initiator s) k (m_packetstart_IDe s)
    (m_cryptolists_count s) (m_boxer s) (m_unboxer s) (m_nicename s).
Definition set_packetstart_IDe (d : bytes) (s : c_stream) : c_stream :=
  Stream (m_KCT s) (m_nonce_odd s) (m_side_initiator s) (m_packetstart_kexasym s) d
    (m_cryptolists_count s) (m_boxer s) (m_unboxer s) (m_nicename s).
Definition set_count (c : list Z) (s : c_stream) : c_stream :=
  Stream (m_KCT s) (m_nonce_odd s) (m_side_initiator s) (m_packetstart_kexasym s) (m_packetstart_IDe s)
    c (m_boxer s) (m_unboxer s) (m_nicename s).
Definition set_boxers (b : option Boxer) (u : option Unboxer) (s : c_stream) : c_stream :=
  Stream (m_KCT s) (m_nonce_odd s) (m_side_initiator s) (m_packetstart_kexasym s) (m_packetstart_IDe s)
    (m_cryptolists_count s) b u (m_nicename s).

(** [box(msg, nonce)]: the result and the nonce that was used. *)
Definition box (msg : bytes) : M c_stream (bytes * bytes) :=
  s ← mget;
  match m_boxer s with
  | None => mabort
  | Some cb =>
      let N := boxer_get_nonce cb in
      let '(ret, cb') := boxer_box cb msg in
      mput (set_boxers (Some cb') (m_unboxer s) s);;
      mret (ret, N)
  end.

(** [unbox(msg, nonce, force_nonce)]; the handler logs and rethrows. *)
Definition unbox_nonce (msg nonce : bytes) (force_nonce : bool) : M c_stream bytes :=
  s ← mget;
  match m_unboxer s with
  | None => mabort
  | Some cb =>
      let N := if force_nonce then nonce else unboxer_get_nonce cb in
      mrun (fun _ => let '(o, cb') := unboxer_unbox_nonce msg N cb in
                     (o, set_boxers (m_boxer s) (Some cb') s))
  end.

(** [unbox(msg)]: the nonce given is a default one and not used. *)
Definition unbox (msg : bytes) : M c_stream bytes := unbox_nonce msg [] false.

Definition calculate_nonce_odd (self : c_multikeys_PAIR) (them : c_multikeys_pub) : outcome bool :=
  hash_greater Hash1 (pub_keys (m_pub self)) (pub_keys them).

Definition create_boxer_with_K : M c_stream unit :=
  s ← mget;
  let nonce_zero := replicate (Z.to_nat nonce_constantbytes) Byte.x00 in
  mput (set_boxers (Some (make_boxer (m_nonce_odd s) (m_KCT s) nonce_zero))
                   (Some (make_unboxer (negb (m_nonce_odd s)) (m_KCT s) nonce_zero)) s).

(** [generate_packetstart(stream_to_encrypt_with)]: the state is the string
    being generated and the other stream (which may be this one). *)
Definition generate_packetstart (this : c_stream) : M c_stream bytes := fun stream_to_encrypt_with =>
  let prog : M (bytes * c_stream) bytes :=
    on_fst (push_varstring (m_packetstart_kexasym this));;
    packetstart_IDe_via_CT ← on_snd (box (m_packetstart_IDe this));
    on_fst (push_varstring packetstart_IDe_via_CT.1);;
    g ← on_fst mget; mret g in
  let '(o, (_, s')) := prog ([], stream_to_encrypt_with) in (o, s').

(** Run a reader on a string. *)
Definition parse_with {A} (data : bytes) (m : M parser A) : outcome A :=
  p ← parser_of_string data; (m p).1.

Definition parse_packetstart_kexasym (data : bytes) : outcome bytes := parse_with data pop_varstring.

Definition parse_packetstart_IDe (data : bytes) : M c_stream bytes :=
  data_encr ← mlift (parse_with data (skip_varstring;; pop_varstring));
  s ← mget;
  match m_unboxer s with
  | None => mundef
  | Some u => mrun (fun _ =>
      let '(o, u') := unboxer_unbox data_encr u in (o, set_boxers (m_boxer s) (Some u') s))
  end.

Definition set_packetstart_IDe_from (keypair : c_multikeys_PAIR) : M c_stream unit :=
  d ← mlift (serialize_bin (pub_keys (m_pub keypair)));
  mmodify (set_packetstart_IDe d).

(** [c_stream::create_IDe(will_asymkex)] *)
Definition stream_create_IDe (will_asymkex : bool) : M (Rng * c_stream) c_multikeys_PAIR :=
  s ← on_snd mget;
  IDe ← on_fst (mrun (fun rng =>
    let '(o, (rng', p)) :=
      generate_list ENABLE_CRYPTO_NTRU ENABLE_CRYPTO_SIDH gen_x25519 gen_ed25519 gen_ntru_encrypt
        gen_ntru_sign gen_sidh (m_cryptolists_count s) will_asymkex (rng, new_multikeys_PAIR) in
    (match o with Ret _ => Ret p | Throw e => Throw e | Abort_ => Abort_ | Undef => Undef end, rng')));
  on_snd (set_packetstart_IDe_from IDe);;
  mret IDe.

(** ** Key agreement *)

(** [sidhpp::secret_agreement] *)
Definition secret_agreement (key_self_PRV key_self_pub them_public_key : bytes) : outcome bytes :=
  let them_public_key_a := take (Z.to_nat (zlen them_public_key / 2)) them_public_key in
  othrow_if (zlen them_public_key <? zlen key_self_pub / 2) ex_out_of_range;;
  let them_public_key_b := drop (Z.to_nat (zlen key_self_pub / 2)) them_public_key in
  oassert (zlen key_self_pub =? zlen them_public_key);;
  oassert (bool_decide (them_public_key = them_public_key_a ++ them_public_key_b));;
  let half := zlen key_self_PRV / 2 in
  oassert (zlen key_self_PRV =? half + half);;
  let key_self_PRV_a := take (Z.to_nat half) key_self_PRV in
  let key_self_PRV_b := sub key_self_PRV half half in
  shared_secret_a ← SecretAgreement_A key_self_PRV_a them_public_key_b;
  shared_secret_b ← SecretAgreement_B key_self_PRV_b them_public_key_a;
  binary_string_xor shared_secret_a shared_secret_b.

(** [Hash1_PRV( Hash1_PRV(secret) ^ Hash1(key_A_pub) ^ Hash1(key_B_pub) )] *)
Definition k_dh_agreed (secret key_A_pub key_B_pub : bytes) : outcome bytes :=
  x ← binary_string_xor (Hash1 secret) (Hash1 key_A_pub);
  y ← binary_string_xor x (Hash1 key_B_pub);
  Ret (Hash1 y).

Section KCT.
Context (self : c_multikeys_PAIR) (them : c_multikeys_pub).

(** What the loops carry: [KCT_accum] and [kexasym_passencr_tosend]. *)
Definition kct_acc : Type := bytes * t_kexasym.

(** The keys of turn [keynr_i]: (self public, self private, their public). *)
Definition kex_keys (sys : t_crypto_system_type) (key_count_a key_count_b keynr_i : Z) : outcome (bytes * bytes * bytes) :=
  let keynr_a := keynr_i mod key_count_a in
  let keynr_b := keynr_i mod key_count_b in
  key_A_pub ← get_public (m_pub self) sys keynr_a;
  key_A_PRV ← get_key (m_PRV self) sys keynr_a;
  key_B_pub ← get_public them sys keynr_b;
  Ret (key_A_pub, key_A_PRV, key_B_pub).

Definition kex_X25519 (a b : Z) (acc : kct_acc) (keynr_i : Z) : M Rng kct_acc :=
  '(key_A_pub, key_A_PRV, key_B_pub) ← mlift (kex_keys e_crypto_system_type_X25519 a b keynr_i);
  k_dh_raw ← mlift (key_agreement_locked key_A_PRV key_B_pub);
  k ← mlift (k_dh_agreed k_dh_raw key_A_pub key_B_pub);
  accum ← mlift (binary_string_xor acc.1 k);
  mret (accum, acc.2).

Definition push_back_at (m : t_kexasym) (c : Byte.byte) (s : bytes) : t_kexasym :=
  <[c := default [] (m !! c) ++ [s]]> m.

Definition kex_NTRU (side_initiator : bool) (received : t_kexasym) (sys_id : Byte.byte)
    (a b : Z) (acc : kct_acc) (keynr_i : Z) : M Rng kct_acc :=
  '(key_A_pub, key_A_PRV, key_B_pub) ← mlift (kex_keys e_crypto_system_type_NTRU_EES439EP1 a b keynr_i);
  if side_initiator then
    password_cleartext ← randombytes_locked 65;
    password_encrypted ← ntru_encrypt password_cleartext key_B_pub;
    k ← mlift (k_dh_agreed password_cleartext key_A_pub key_B_pub);
    accum ← mlift (binary_string_xor acc.1 k);
    mret (accum, push_back_at acc.2 sys_id password_encrypted)
  else
    l ← mlift (match received !! sys_id with Some l => Ret l | None => Throw ex_out_of_range end);
    encrypted ← mlift (at_ l keynr_i);
    decrypted ← mlift (ntru_decrypt encrypted key_A_PRV);
    k ← mlift (k_dh_agreed decrypted key_A_pub key_B_pub);
    accum ← mlift (binary_string_xor acc.1 k);
    mret (accum, acc.2).

Definition kex_SIDH (a b : Z) (acc : kct_acc) (keynr_i : Z) : M Rng kct_acc :=
  '(key_self_pub, key_self_PRV, key_them_pub) ← mlift (kex_keys e_crypto_system_type_SIDH a b keynr_i);
  dh_secret ← mlift (secret_agreement key_self_PRV key_self_pub key_them_pub);
  k ← mlift (k_dh_agreed dh_secret key_self_pub key_them_pub);
  accum ← mlift (binary_string_xor acc.1 k);
  mret (accum, acc.2).

(** One turn of the loop over the crypto systems. *)
Definition kct_system (side_initiator should_count : bool) (received : t_kexasym)
    (acc : kct_acc) (sys : t_crypto_system_type) : M (Rng * c_stream) kct_acc :=
  key_count_a ← mlift (get_count_keys_in_system (pub_keys (m_pub self)) sys);
  key_count_b ← mlift (get_count_keys_in_system (pub_keys them) sys);
  let key_count_bigger := Z.max key_count_a key_count_b in
  if key_count_bigger <? 1 then mret acc
  else if negb ((0 <? key_count_a) && (0 <? key_count_b)) then mret acc
  else
    sys_id ← mlift (t_crypto_system_type_to_ID (enum_to_int sys));
    when should_count (on_snd (
      s ← mget;
      _ ← mlift (at_ (m_cryptolists_count s) (enum_to_int sys));
      mput (set_count (<[Z.to_nat (enum_to_int sys) := 1]> (m_cryptolists_count s)) s)));;
    on_fst (match sys with
      | e_crypto_system_type_X25519 =>
          mfold (kex_X25519 key_count_a key_count_b) acc (indices key_count_bigger)
      | e_crypto_system_type_NTRU_EES439EP1 =>
          if ENABLE_CRYPTO_NTRU
          then mfold (kex_NTRU side_initiator received sys_id key_count_a key_count_b) acc (indices key_count_bigger)
          else mret acc
      | e_crypto_system_type_SIDH =>
          if ENABLE_CRYPTO_SIDH
          then mfold (kex_SIDH key_count_a key_count_b) acc (indices key_count_bigger)
          else mret acc
      | _ => mret acc
      end).

(** The passwords the initiator sent, or the refusal of a misused role. *)
Definition kct_received (side_initiator : bool) (packetstart : bytes) : outcome t_kexasym :=
  if side_initiator then
    othrow_if (negb (bool_decide (packetstart = []))) ex_invalid_argument;;
    Ret ∅
  else
    othrow_if (bool_decide (packetstart = [])) ex_invalid_argument;;
    packetstart_kexasym ← parse_packetstart_kexasym packetstart;
    parse_with packetstart_kexasym (pop_map_object (K:=Byte.byte) (V:=list bytes)).

Definition calculate_KCT (will_new_id : bool) (packetstart : bytes) : M (Rng * c_stream) bytes :=
  massert (get_count_of_systems (m_PRV self) =? get_count_of_systems (pub_keys them));;
  massert (get_count_of_systems (m_PRV self) =? get_count_of_systems (pub_keys (m_pub self)));;
  s ← on_snd mget;
  let side_initiator := m_side_initiator s in
  kexasym_passencr_received ← mlift (kct_received side_initiator packetstart);
  let should_count := will_new_id in
  when should_count (on_snd (mmodify (fun s => set_count (map (fun _ => 0) (m_cryptolists_count s)) s)));;
  acc ← mfold (kct_system side_initiator should_count kexasym_passencr_received)
          (replicate (Z.to_nat Hash1_size) Byte.x00, ∅)
          (systems_below (get_count_of_systems (pub_keys (m_pub self))));
  let KCT_ready_full := Hash1 acc.1 in
  massert (crypto_secretbox_KEYBYTES <=? zlen KCT_ready_full);;
  KCT_ready ← mlift (substr KCT_ready_full crypto_secretbox_KEYBYTES);
  d ← mlift (gen_str (push_map_object char_le acc.2));
  on_snd (mmodify (set_kexasym d));;
  mret KCT_ready.

Definition exchange (will_new_id : bool) (packetstart : bytes) : M (Rng * c_stream) unit :=
  k ← calculate_KCT will_new_id packetstart;
  on_snd (mmodify (set_KCT k));;
  odd ← mlift (calculate_nonce_odd self them);
  on_snd (mmodify (set_nonce_odd odd));;
  on_snd create_boxer_with_K.
End KCT.

Definition exchange_start (self : c_multikeys_PAIR) (them : c_multikeys_pub) (will_new_id : bool) : M (Rng * c_stream) unit :=
  exchange self them will_new_id [].
Definition exchange_done (self : c_multikeys_PAIR) (them : c_multikeys_pub) (packetstart : bytes) : M (Rng * c_stream) unit :=
  exchange self them true packetstart.

(** ** c_crypto_tunnel *)

Record c_crypto_tunnel := Tunnel {
  ct_side_initiator : bool;
  m_IDe : option c_multikeys_PAIR;
  m_stream_crypto_ab : option c_stream;
  m_stream_crypto_final : option c_stream;
  ct_nicename : bytes
}.

Definition set_IDe (i : c_multikeys_PAIR) (t : c_crypto_tunnel) : c_crypto_tunnel :=
  Tunnel (ct_side_initiator t) (Some i) (m_stream_crypto_ab t) (m_stream_crypto_final t) (ct_nicename t).
Definition set_ab (s : c_stream) (t : c_crypto_tunnel) : c_crypto_tunnel :=
  Tunnel (ct_side_initiator t) (m_IDe t) (Some s) (m_stream_crypto_final t) (ct_nicename t).
Definition set_final (s : c_stream) (t : c_crypto_tunnel) : c_crypto_tunnel :=
  Tunnel (ct_side_initiator t) (m_IDe t) (m_stream_crypto_ab t) (Some s) (ct_nicename t).

(** [UsePtr(m_stream).op(...)] *)
Definition use_ab {A} (m : M c_stream A) : M c_crypto_tunnel A := fun t =>
  match m_stream_crypto_ab t with
  | None => (Abort_, t)
  | Some s => let '(o, s') := m s in (o, set_ab s' t)
  end.
Definition use_final {A} (m : M c_stream A) : M c_crypto_tunnel A := fun t =>
  match m_stream_crypto_final t with
  | None => (Abort_, t)
  | Some s => let '(o, s') := m s in (o, set_final s' t)
  end.

Definition ct_box (msg : bytes) : M c_crypto_tunnel (bytes * bytes) := use_final (box msg).
Definition ct_unbox (msg : bytes) : M c_crypto_tunnel bytes := use_final (unbox msg).
Definition ct_unbox_nonce (msg nonce : bytes) : M c_crypto_tunnel bytes := use_final (unbox_nonce msg nonce true).
Definition box_ab (msg : bytes) : M c_crypto_tunnel (bytes * bytes) := use_ab (box msg).
Definition unbox_ab (msg : bytes) : M c_crypto_tunnel bytes := use_ab (unbox msg).
Definition unbox_ab_nonce (msg nonce : bytes) : M c_crypto_tunnel bytes := use_ab (unbox_nonce msg nonce true).

Definition get_packetstart_ab : M c_crypto_tunnel bytes :=
  t ← mget;
  match m_stream_crypto_ab t with
  | None => mabort
  | Some s => use_ab (generate_packetstart s)
  end.

Definition get_packetstart_final : M c_crypto_tunnel bytes :=
  t ← mget;
  match m_stream_crypto_final t with
  | None => mabort
  | Some s => use_ab (generate_packetstart s)
  end.

(** Run an operation on a stream the tunnel does not own yet. *)
Definition on_stream (s : c_stream) (m : M (Rng * c_stream) unit) : M Rng c_stream := fun rng =>
  let '(o, (rng', s')) := m (rng, s) in
  (match o with Ret _ => Ret s' | Throw e => Throw e | Abort_ => Abort_ | Undef => Undef end, rng').

Definition create_IDe : M (Rng * c_crypto_tunnel) unit :=
  t ← on_snd mget;
  mthrow_if (match m_IDe t with Some _ => true | None => false end) ex_runtime_error;;
  match m_stream_crypto_ab t with
  | None => mabort
  | Some s => mrun (fun st =>
      let '(o, (rng', s')) := stream_create_IDe true (st.1, s) in
      match o with
      | Ret IDe => (Ret tt, (rng', set_IDe IDe (set_ab s' st.2)))
      | Throw e => (Throw e, (rng', set_ab s' st.2))
      | Abort_ => (Abort_, (rng', set_ab s' st.2))
      | Undef => (Undef, (rng', set_ab s' st.2))
      end)
  end.

(** The constructor of the initiator. *)
Definition new_tunnel (self : c_multikeys_PAIR) (them : c_multikeys_pub) (nicename : bytes) : M Rng c_crypto_tunnel :=
  s ← on_stream (new_stream true (nicename ++ str "-CTab")) (exchange_start self them true);
  mret (Tunnel true None (Some s) None nicename).

(** [c_multikeys_pub them_IDe; them_IDe.load_from_bin(data)] *)
Definition load_pub (data : bytes) : outcome c_multikeys_pub :=
  match on_pub_keys (load_from_bin data) new_multikeys_pub with
  | (Ret _, p) => Ret p
  | (Throw e, _) => Throw e
  | (Abort_, _) => Abort_
  | (Undef, _) => Undef
  end.

Definition ide_of (t : c_crypto_tunnel) : outcome c_multikeys_PAIR :=
  match m_IDe t with Some i => Ret i | None => Undef end.

(** The body of the constructor of the respondent, after the stream "ab". *)
Definition respond (packetstart : bytes) : M (Rng * c_crypto_tunnel) unit :=
  create_IDe;;
  data ← on_snd (use_ab (parse_packetstart_IDe packetstart));
  them_IDe ← mlift (load_pub data);
  t ← on_snd mget;
  IDe ← mlift (ide_of t);
  s ← on_fst (on_stream (new_stream true (ct_nicename t ++ str "-CTf")) (exchange_start IDe them_IDe true));
  on_snd (mmodify (set_final s));;
  on_snd (use_final (set_packetstart_IDe_from IDe)).

Definition new_tunnel_respondent (self : c_multikeys_PAIR) (them : c_multikeys_pub) (packetstart nicename : bytes) : M Rng c_crypto_tunnel :=
  s ← on_stream (new_stream false (nicename ++ str "-CTab")) (exchange_done self them packetstart);
  mrun (fun rng =>
    let '(o, (rng', t)) := respond packetstart (rng, Tunnel false None (Some s) None nicename) in
    (match o with Ret _ => Ret t | Throw e => Throw e | Abort_ => Abort_ | Undef => Undef end, rng')).

Definition create_CTf (packetstart : bytes) : M (Rng * c_crypto_tunnel) unit :=
  data ← on_snd (use_ab (parse_packetstart_IDe packetstart));
  them_IDe ← mlift (load_pub data);
  t ← on_snd mget;
  on_snd (mmodify (set_final (new_stream false (ct_nicename t ++ str "-CTf"))));;
  IDe ← mlift (ide_of t);
  mrun (fun st =>
    let '(o, (rng', s')) := exchange_done IDe them_IDe packetstart (st.1, new_stream false (ct_nicename t ++ str "-CTf")) in
    (o, (rng', set_final s' st.2))).
End Crypto.
