(* ===== verification/CryptoFacts.v ===== *)
(** * Key agreement and boxing of the tunnels

    Theorems about [Crypto.v].  [CryptoLaws] is what the code relies on of the
    primitives; [honest] pairs hold matching keys.  The two sides of an
    exchange compute the same key with opposite nonce parities, whatever the
    numbers of keys; streams with one key read each other; and two identities
    without a common key-exchange system agree on a public constant. *)
From S2P Require Import Prelude Serialize SerializeFacts Cryptobasic Multikeys MultikeysFacts Crypto.

Class CryptoLaws (Rng : Type) `{!CryptoLib Rng} := {
  Hash1_64 : forall x, zlen (Hash1 x) = 64;
  x25519_pair : bytes -> bytes -> Prop;   (* secret, public *)
  ntru_pair : bytes -> bytes -> Prop;
  sidh_a : bytes -> bytes -> Prop;
  sidh_b : bytes -> bytes -> Prop;
  sidh_prv_size : Z;
  sidh_pub_size : Z;
  x25519_agree : forall a A b B, x25519_pair a A -> x25519_pair b B ->
    exists k, key_agreement_locked a B = Ret k /\ key_agreement_locked b A = Ret k;
  randombytes_size : forall n rng b rng', 0 <= n -> randombytes_locked n rng = (Ret b, rng') -> zlen b = n;
  ntru_decrypts : forall b B m rng c rng', ntru_pair b B -> zlen m = 65 ->
    ntru_encrypt m B rng = (Ret c, rng') -> ntru_decrypt c b = Ret m;
  ntru_cipher_size : forall m B rng c rng', ntru_encrypt m B rng = (Ret c, rng') -> zlen c <= 65535;
  sidh_sizes_a : forall p P, sidh_a p P -> zlen p = sidh_prv_size /\ zlen P = sidh_pub_size;
  sidh_sizes_b : forall p P, sidh_b p P -> zlen p = sidh_prv_size /\ zlen P = sidh_pub_size;
  sidh_secret_size : Z;
  sidh_agree : forall a A b B, sidh_a a A -> sidh_b b B ->
    exists k, SecretAgreement_A a B = Ret k /\ SecretAgreement_B b A = Ret k /\ zlen k = sidh_secret_size
}.

(** Boxers and unboxers of one key are inverse at the nonce used. *)
Class BoxLaws (Rng : Type) `{!CryptoLib Rng} := {
  boxer_key : Boxer -> bytes;
  unboxer_key : Unboxer -> bytes;
  boxer_key_make : forall odd k c, boxer_key (make_boxer odd k c) = k;
  unboxer_key_make : forall odd k c, unboxer_key (make_unboxer odd k c) = k;
  boxer_key_box : forall b m, boxer_key (boxer_box b m).2 = boxer_key b;
  unboxer_key_unbox : forall u c n, unboxer_key (unboxer_unbox_nonce c n u).2 = unboxer_key u;
  unbox_box : forall b u m, boxer_key b = unboxer_key u ->
    (unboxer_unbox_nonce (boxer_box b m).1 (boxer_get_nonce b) u).1 = Ret m
}.

(** ** Strings *)

Lemma xor_str_comm a b : xor_str a b = xor_str b a.
Proof.
  revert b. induction a as [|x a IH]; intros [|y b]; simpl; try done.
  by rewrite (comm_L byte_xor x y), IH.
Qed.

Lemma string_leb_refl a : string_leb a a = true.
Proof. induction a as [|x a IH]; simpl; [done|]. rewrite Z.ltb_irrefl. done. Qed.

Lemma string_leb_total a b : a <> b -> string_leb a b = negb (string_leb b a).
Proof.
  revert b. induction a as [|x a IH]; intros [|y b] Hn; simpl; try done.
  destruct (byte_val x <? byte_val y) eqn:E1, (byte_val y <? byte_val x) eqn:E2; zbool; try lia; try done.
  assert (x = y) as -> by (apply byte_val_inj; lia). apply IH. congruence.
Qed.

(** ** Loops *)

Section Agreement.
Context {Rng : Type} `{!CryptoLib Rng} `{!CryptoLaws Rng}.
Context (ENABLE_CRYPTO_NTRU ENABLE_CRYPTO_SIDH : bool).

Lemma Hash1_len x : length (Hash1 x) = 64%nat.
Proof. pose proof (Hash1_64 x) as H. unfold zlen in H. lia. Qed.

Definition agreed (s A B : bytes) : bytes := Hash1 (xor_str (xor_str (Hash1 s) (Hash1 A)) (Hash1 B)).

Lemma agreed_swap s A B : agreed s A B = agreed s B A.
Proof. unfold agreed. by rewrite xor_str_swap. Qed.

Lemma k_dh_agreed_eval s A B : k_dh_agreed s A B = Ret (agreed s A B).
Proof.
  unfold k_dh_agreed. rewrite binary_string_xor_eval by by rewrite !Hash1_len.
  unfold mbind, outcome_mbind, outcome_bind.
  rewrite binary_string_xor_eval by (rewrite xor_str_length; rewrite !Hash1_len; done). done.
Qed.

Definition join (acc : bytes) (ks : list bytes) : bytes := foldl xor_str acc ks.
Definition hashes (ks : list bytes) : Prop := Forall (fun k => length k = 64%nat) ks.

Lemma join_length ks : forall acc, length acc = 64%nat -> hashes ks -> length (join acc ks) = 64%nat.
Proof.
  induction ks as [|k ks IH]; intros acc Ha Hk; [done|]. inversion Hk; subst. apply IH; [|done].
  rewrite xor_str_length; congruence.
Qed.

Lemma agreed_length s A B : length (agreed s A B) = 64%nat.
Proof. apply Hash1_len. Qed.

(** A turn that joins the key [k] and leaves everything else. *)
Definition joins (f : kct_acc -> Z -> M Rng kct_acc) (i : Z) (k : bytes) : Prop :=
  forall acc rng, length acc.1 = 64%nat -> f acc i rng = (Ret (xor_str acc.1 k, acc.2), rng).

Definition joins_all (f : kct_acc -> Z -> M Rng kct_acc) (l : list Z) (ks : list bytes) : Prop :=
  forall acc rng, length acc.1 = 64%nat -> mfold f acc l rng = (Ret (join acc.1 ks, acc.2), rng).

Lemma joins_fold f l ks : Forall2 (joins f) l ks -> hashes ks -> joins_all f l ks.
Proof.
  intros H. induction H as [|i k l ks Hi H IH]; intros Hk [a t] rng Ha; [done|]. inversion Hk; subst.
  cbn [mfold]. rewrite (M_bind_ret _ _ _ _ _ (Hi _ rng Ha)).
  rewrite IH; [done|done|]. cbn. rewrite xor_str_length; cbn in Ha; congruence.
Qed.

(** Two sides whose turns join the same keys. *)
Lemma joins_both f g l : Forall (fun i => exists k, length k = 64%nat /\ joins f i k /\ joins g i k) l ->
  exists ks, hashes ks /\ joins_all f l ks /\ joins_all g l ks.
Proof.
  intros H. assert (exists ks, hashes ks /\ Forall2 (joins f) l ks /\ Forall2 (joins g) l ks) as (ks & Hk & H1 & H2).
  { induction H as [|i l (k & Hk & Hf & Hg) H (ks & ? & ? & ?)]; [exists []; split_and!; constructor|].
    exists (k :: ks). split_and!; by constructor. }
  exists ks. split_and!; [done|by apply joins_fold..].
Qed.

Lemma join_turn (m : outcome bytes) A B (acc : kct_acc) (rng : Rng) s : m = Ret s -> length acc.1 = 64%nat ->
  (x ← mlift m; k ← mlift (k_dh_agreed x A B); accum ← mlift (binary_string_xor acc.1 k); mret (accum, acc.2)) rng
  = (Ret (xor_str acc.1 (agreed s A B), acc.2), rng).
Proof.
  intros -> Ha. unfold mbind, M_mbind, mlift. rewrite k_dh_agreed_eval.
  rewrite binary_string_xor_eval by by rewrite agreed_length. done.
Qed.

(** ** Keys *)

Definition matched (rel : bytes -> bytes -> Prop) (p : c_multikeys_PAIR) (e : t_crypto_system_type) : Prop :=
  Forall2 rel (keys_of (m_PRV p) e) (keys_of (pub_keys (m_pub p)) e).

(** A SIDH key is the concatenation of its halves. *)
Definition sidh_pair (prv pub : bytes) : Prop := exists pa pb Pa Pb,
  prv = pa ++ pb /\ pub = Pa ++ Pb /\ sidh_a pa Pa /\ sidh_b pb Pb.

Record honest (p : c_multikeys_PAIR) : Prop := {
  honest_pub : length (m_cryptolists_general (pub_keys (m_pub p))) = 32%nat;
  honest_PRV : length (m_cryptolists_general (m_PRV p)) = 32%nat;
  honest_x : matched x25519_pair p e_crypto_system_type_X25519;
  honest_n : matched ntru_pair p e_crypto_system_type_NTRU_EES439EP1;
  honest_s : matched sidh_pair p e_crypto_system_type_SIDH
}.

Lemma at_lookup {A} (l : list A) i : 0 <= i < zlen l -> exists x, l !! Z.to_nat i = Some x /\ at_ l i = Ret x.
Proof.
  intros Hi. unfold zlen in Hi. destruct (lookup_lt_is_Some_2 l (Z.to_nat i)) as [x Hx]; [lia|].
  exists x. split; [done|]. apply at_some in Hx. by rewrite Z2Nat.id in Hx by lia.
Qed.

Lemma key_at k e i : length (m_cryptolists_general k) = 32%nat -> enum_to_int e < 32 ->
  get_key k e i = at_ (keys_of k e) i.
Proof. intros Hl He. by rewrite get_key_eval. Qed.

(** The keys of a turn, from both sides. *)
Lemma kex_keys_eval rel A B e i : honest A -> honest B -> enum_to_int e < 32 ->
  matched rel A e -> matched rel B e ->
  let a := zlen (keys_of (pub_keys (m_pub A)) e) in let b := zlen (keys_of (pub_keys (m_pub B)) e) in
  0 < a -> 0 < b -> 0 <= i ->
  exists pa Pa pb Pb, rel pa Pa /\ rel pb Pb /\
    kex_keys A (m_pub B) e a b i = Ret (Pa, pa, Pb) /\ kex_keys B (m_pub A) e b a i = Ret (Pb, pb, Pa).
Proof.
  intros HA HB He MA MB a b Ha Hb Hi.
  assert (forall p rel, honest p -> matched rel p e -> forall j, 0 <= j < zlen (keys_of (pub_keys (m_pub p)) e) ->
    exists s P, rel s P /\ get_public (m_pub p) e j = Ret P /\ get_key (m_PRV p) e j = Ret s) as Hk.
  { intros p rel' Hp Mp j Hj. destruct (at_lookup _ _ Hj) as (P & HP & EP).
    destruct (Forall2_lookup_r _ _ _ _ _ Mp HP) as (s & Hs & Hr). exists s, P.
    unfold get_public. rewrite !key_at, EP by (done || apply Hp). split_and!; try done.
    apply at_some in Hs. by rewrite Z2Nat.id in Hs by lia. }
  destruct (Hk A rel HA MA (i mod a)) as (pa & Pa & Ra & E1 & E2); [by apply Z.mod_pos_bound|].
  destruct (Hk B rel HB MB (i mod b)) as (pb & Pb & Rb & E3 & E4); [by apply Z.mod_pos_bound|].
  exists pa, Pa, pb, Pb. split_and!; try done; unfold kex_keys.
  - by rewrite E1, E2, E3.
  - by rewrite E3, E4, E1.
Qed.

(** ** One turn of each system *)

Lemma kex_X25519_turn A B i : honest A -> honest B ->
  let a := zlen (keys_of (pub_keys (m_pub A)) e_crypto_system_type_X25519) in
  let b := zlen (keys_of (pub_keys (m_pub B)) e_crypto_system_type_X25519) in
  0 < a -> 0 < b -> 0 <= i ->
  exists k, length k = 64%nat /\ joins (kex_X25519 A (m_pub B) a b) i k /\ joins (kex_X25519 B (m_pub A) b a) i k.
Proof.
  intros HA HB a b Ha Hb Hi.
  destruct (kex_keys_eval x25519_pair A B e_crypto_system_type_X25519 i) as (pa & Pa & pb & Pb & Ra & Rb & E1 & E2);
    try done; [apply HA|apply HB|].
  destruct (x25519_agree _ _ _ _ Ra Rb) as (k & K1 & K2).
  exists (agreed k Pa Pb). split; [apply agreed_length|]. split; intros acc rng Hacc; unfold kex_X25519; fold a b in E1, E2.
  - rewrite E1. unfold mbind at 1, M_mbind at 1, mlift at 1. by apply join_turn.
  - rewrite E2. unfold mbind at 1, M_mbind at 1, mlift at 1. rewrite agreed_swap. by apply join_turn.
Qed.

Lemma halves {A} (l k : list A) : zlen l = zlen k ->
  take (Z.to_nat (zlen (l ++ k) / 2)) (l ++ k) = l /\ drop (Z.to_nat (zlen (l ++ k) / 2)) (l ++ k) = k /\
  zlen (l ++ k) / 2 = zlen l.
Proof.
  intros H. assert (zlen (l ++ k) / 2 = zlen l) as E.
  { rewrite zlen_app, <- H. replace (zlen l + zlen l) with (zlen l * 2) by lia. by apply Z.div_mul. }
  rewrite E. unfold zlen. rewrite Nat2Z.id. by rewrite take_app_length, drop_app_length.
Qed.

Lemma secret_agreement_eval pa pb Pa Pb Qa Qb sa sb :
  zlen pa = zlen pb -> zlen Pa = zlen Pb -> zlen Qa = zlen Qb -> zlen Pa = zlen Qa ->
  SecretAgreement_A pa Qb = Ret sa -> SecretAgreement_B pb Qa = Ret sb -> length sa = length sb ->
  secret_agreement (pa ++ pb) (Pa ++ Pb) (Qa ++ Qb) = Ret (xor_str sa sb).
Proof.
  intros H1 H2 H3 H4 HA HB Hs. unfold secret_agreement.
  destruct (halves pa pb H1) as (T1 & D1 & E1). destruct (halves Qa Qb H3) as (T3 & D3 & E3).
  destruct (halves Pa Pb H2) as (_ & _ & E2).
  rewrite T3, E2, H4, <- E3, D3, T1. unfold othrow_if, oassert, mbind, outcome_mbind.
  pose proof (zlen_nonneg Qa). pose proof (zlen_nonneg Qb). pose proof (zlen_nonneg pa).
  assert ((zlen (Qa ++ Qb) <? zlen (Qa ++ Qb) / 2) = false) as -> by (apply Z.ltb_ge; rewrite E3, zlen_app; lia).
  assert ((zlen (Pa ++ Pb) =? zlen (Qa ++ Qb)) = true) as -> by (apply Z.eqb_eq; rewrite !zlen_app; lia).
  assert ((zlen (pa ++ pb) =? zlen (pa ++ pb) / 2 + zlen (pa ++ pb) / 2) = true) as ->
    by (apply Z.eqb_eq; rewrite E1, zlen_app; lia).
  rewrite bool_decide_eq_true_2 by done. cbn [outcome_bind].
  rewrite HA. cbn [outcome_bind].
  replace (sub (pa ++ pb) (zlen (pa ++ pb) / 2) (zlen (pa ++ pb) / 2)) with pb.
  - rewrite HB. cbn [outcome_bind]. by apply binary_string_xor_eval.
  - unfold sub. rewrite D1, E1, H1. unfold zlen. by rewrite Nat2Z.id, take_ge by lia.
Qed.

Lemma kex_SIDH_turn A B i : honest A -> honest B ->
  let a := zlen (keys_of (pub_keys (m_pub A)) e_crypto_system_type_SIDH) in
  let b := zlen (keys_of (pub_keys (m_pub B)) e_crypto_system_type_SIDH) in
  0 < a -> 0 < b -> 0 <= i ->
  exists k, length k = 64%nat /\ joins (kex_SIDH A (m_pub B) a b) i k /\ joins (kex_SIDH B (m_pub A) b a) i k.
Proof.
  intros HA HB a b Ha Hb Hi.
  destruct (kex_keys_eval sidh_pair A B e_crypto_system_type_SIDH i) as (pa & Pa & pb & Pb & Ra & Rb & E1 & E2);
    try done; [apply HA|apply HB|].
  destruct Ra as (pa1 & pa2 & Pa1 & Pa2 & -> & -> & Sa1 & Sa2).
  destruct Rb as (pb1 & pb2 & Pb1 & Pb2 & -> & -> & Sb1 & Sb2).
  destruct (sidh_agree _ _ _ _ Sa1 Sb2) as (k1 & K1 & K2 & L1).
  destruct (sidh_agree _ _ _ _ Sb1 Sa2) as (k2 & K3 & K4 & L2).
  assert (length k1 = length k2) as Hl by (unfold zlen in *; lia).
  destruct (sidh_sizes_a _ _ Sa1) as [??], (sidh_sizes_b _ _ Sa2) as [??],
    (sidh_sizes_a _ _ Sb1) as [??], (sidh_sizes_b _ _ Sb2) as [??].
  exists (agreed (xor_str k1 k2) (Pa1 ++ Pa2) (Pb1 ++ Pb2)). split; [apply agreed_length|].
  split; intros acc rng Hacc; unfold kex_SIDH; fold a b in E1, E2.
  - rewrite E1. unfold mbind at 1, M_mbind at 1, mlift at 1. apply join_turn; [|done].
    apply secret_agreement_eval; congruence.
  - rewrite E2. unfold mbind at 1, M_mbind at 1, mlift at 1. rewrite agreed_swap. apply join_turn; [|done].
    rewrite xor_str_comm. apply secret_agreement_eval; congruence.
Qed.

(** What a turn of the NTRU loop adds to [kexasym_passencr_tosend]. *)
Definition sent (c : Byte.byte) (encs : list bytes) (t : t_kexasym) : t_kexasym :=
  match encs with [] => t | _ => <[c := default [] (t !! c) ++ encs]> t end.

Lemma sent_cons c e encs t : sent c encs (push_back_at t c e) = sent c (e :: encs) t.
Proof.
  unfold sent, push_back_at. destruct encs as [|x encs]; [done|].
  rewrite lookup_insert_eq, insert_insert_eq. simpl. by rewrite <- app_assoc.
Qed.

Definition small (encs : list bytes) : Prop := Forall (fun e => zlen e <= 65535) encs.

Lemma kex_NTRU_fold A B c n : honest A -> honest B ->
  let a := zlen (keys_of (pub_keys (m_pub A)) e_crypto_system_type_NTRU_EES439EP1) in
  let b := zlen (keys_of (pub_keys (m_pub B)) e_crypto_system_type_NTRU_EES439EP1) in
  0 < a -> 0 < b -> forall start acc rng acc' rng' recv, length acc.1 = 64%nat ->
  mfold (kex_NTRU A (m_pub B) true recv c a b) acc (map Z.of_nat (seq start n)) rng = (Ret acc', rng') ->
  exists ks encs, hashes ks /\ length encs = n /\ small encs /\
    acc' = (join acc.1 ks, sent c encs acc.2) /\
    forall received pre post accB rngB, received !! c = Some (pre ++ encs ++ post) -> length pre = start ->
      length accB.1 = 64%nat ->
      mfold (kex_NTRU B (m_pub A) false received c b a) accB (map Z.of_nat (seq start n)) rngB
      = (Ret (join accB.1 ks, accB.2), rngB).
Proof.
  intros HA HB a b Ha Hb. induction n as [|n IH]; intros start acc rng acc' rng' recv Hacc H.
  { injection H as <- <-. exists [], []. destruct acc. split_and!; [constructor|done|constructor|done|].
    by intros ? ? ? [] ?. }
  cbn [seq map mfold] in H. apply M_bind_inv in H as (acc1 & rng1 & H1 & H).
  destruct (kex_keys_eval ntru_pair A B e_crypto_system_type_NTRU_EES439EP1 (Z.of_nat start))
    as (pa & Pa & pb & Pb & Ra & Rb & E1 & E2); try done; [apply HA|apply HB|lia|]. fold a b in E1, E2.
  unfold kex_NTRU in H1. rewrite E1 in H1. unfold mbind at 1, M_mbind at 1, mlift at 1 in H1.
  apply M_bind_inv in H1 as (pw & rng2 & Hpw & H1). apply randombytes_size in Hpw; [|lia].
  apply M_bind_inv in H1 as (enc & rng3 & Henc & H1).
  assert (acc1 = (xor_str acc.1 (agreed pw Pa Pb), push_back_at acc.2 c enc)) as ->.
  { rewrite k_dh_agreed_eval in H1. unfold mbind, M_mbind, mlift in H1.
    rewrite binary_string_xor_eval in H1 by (rewrite agreed_length; done). by injection H1 as <- _. }
  apply IH in H as (ks & encs & Hk & Hl & Hs & -> & HBob);
    [|cbn; rewrite xor_str_length, ?agreed_length; rewrite ?agreed_length; done].
  exists (agreed pw Pa Pb :: ks), (enc :: encs). split_and!.
  - constructor; [apply agreed_length|done].
  - simpl. lia.
  - constructor; [|done]. by eapply ntru_cipher_size.
  - cbn [fst snd]. by rewrite sent_cons.
  - intros received pre post accB rngB Hr Hp HlB. cbn [seq map mfold].
    rewrite (M_bind_ret _ _ rngB (xor_str accB.1 (agreed pw Pa Pb), accB.2) rngB).
    + rewrite (HBob received (pre ++ [enc]) post).
      * done.
      * rewrite Hr. by rewrite <- app_assoc.
      * rewrite length_app. simpl. lia.
      * cbn. rewrite xor_str_length; [done|]. by rewrite agreed_length.
    + unfold kex_NTRU. rewrite E2. unfold mbind at 1, M_mbind at 1, mlift at 1.
      rewrite Hr. unfold mbind at 1, M_mbind at 1, mlift at 1. rewrite (at_some _ _ enc).
      2:{ rewrite <- Hp. by apply list_lookup_middle. }
      unfold mbind at 1, M_mbind at 1, mlift at 1. rewrite agreed_swap. apply join_turn; [|done].
      by eapply ntru_decrypts.
Qed.

(** ** One system, then all of them *)

(** The stream after a turn: only the counts may differ. *)
Definition recounts (s s' : c_stream) : Prop :=
  exists c, length c = 32%nat /\ s' = set_count c s.

Lemma recounts_refl s : length (m_cryptolists_count s) = 32%nat -> recounts s s.
Proof. intros H. exists (m_cryptolists_count s). split; [done|]. by destruct s. Qed.

Lemma recounts_trans s1 s2 s3 : recounts s1 s2 -> recounts s2 s3 -> recounts s1 s3.
Proof. intros (c & Hc & ->) (d & Hd & ->). by exists d. Qed.

Lemma recounts_length s s' : recounts s s' -> length (m_cryptolists_count s') = 32%nat.
Proof. by intros (c & Hc & ->). Qed.

(** The counting statement of [kct_system]. *)
Definition count_system (should_count : bool) (sys : t_crypto_system_type) : M (Rng * c_stream) unit :=
  when should_count (on_snd (
      s ← mget;
      _ ← mlift (at_ (m_cryptolists_count s) (enum_to_int sys));
      mput (set_count (<[Z.to_nat (enum_to_int sys) := 1]> (m_cryptolists_count s)) s))).

Lemma count_system_eval sc sys rng s : enum_to_int sys < 32 -> length (m_cryptolists_count s) = 32%nat ->
  exists s', count_system sc sys (rng, s) = (Ret tt, (rng, s')) /\ recounts s s'.
Proof.
  intros He Hl. destruct sc; [|exists s; split; [done|by apply recounts_refl]].
  destruct (at_lookup (m_cryptolists_count s) (enum_to_int sys)) as (x & _ & E).
  { unfold zlen. rewrite Hl. destruct sys; simpl in *; lia. }
  unfold count_system, when, on_snd, mbind, M_mbind, mget, mlift, mput. cbn [fst snd]. rewrite E.
  eexists. split; [done|]. eexists. split; [|done]. by rewrite length_insert.
Qed.

(** What one side learns from the other for system [sys]. *)
Definition agrees (fA : M (Rng * c_stream) kct_acc) (fB : t_kexasym -> kct_acc -> M (Rng * c_stream) kct_acc)
    (acc : kct_acc) (asym : bool) : Prop :=
  forall rng s acc' rng' s', length (m_cryptolists_count s) = 32%nat -> length acc.1 = 64%nat ->
  fA (rng, s) = (Ret acc', (rng', s')) ->
  exists ks encs, hashes ks /\ small encs /\ (asym = false -> encs = []) /\ zlen encs < 2 ^ 62 /\
    acc' = (join acc.1 ks, sent Byte.x74 encs acc.2) /\ recounts s s' /\
    forall received accB rngB sB, (encs <> [] -> received !! Byte.x74 = Some encs) ->
      length (m_cryptolists_count sB) = 32%nat -> length accB.1 = 64%nat ->
      exists sB', fB received accB (rngB, sB) = (Ret (join accB.1 ks, accB.2), (rngB, sB')) /\ recounts sB sB'.

Lemma agrees_skip acc asym : agrees (mret acc) (fun _ => mret) acc asym.
Proof.
  intros rng s acc' rng' s' Hs Ha [= <- <- <-]. exists [], []. destruct acc as [a t].
  split_and!; try done; [constructor|constructor|by apply recounts_refl|].
  intros received [x y] rngB sB _ HsB _. exists sB. split; [done|by apply recounts_refl].
Qed.

Lemma agrees_counted sc sys fA fB acc asym : enum_to_int sys < 32 ->
  agrees fA fB acc asym ->
  agrees (count_system sc sys;; fA) (fun r accB => count_system sc sys;; fB r accB) acc asym.
Proof.
  intros He H rng s acc' rng' s' Hs Ha E.
  destruct (count_system_eval sc sys rng s He Hs) as (s1 & E1 & R1).
  rewrite (M_bind_ret _ _ _ _ _ E1) in E. pose proof (recounts_length _ _ R1) as Hs1.
  destruct (H rng s1 acc' rng' s' Hs1 Ha E) as (ks & encs & ? & ? & ? & ? & ? & R2 & HB).
  exists ks, encs. split_and!; try done; [by eapply recounts_trans|].
  intros received accB rngB sB Hr HsB HaB.
  destruct (count_system_eval sc sys rngB sB He HsB) as (s2 & E2 & R3).
  destruct (HB received accB rngB s2 Hr (recounts_length _ _ R3) HaB) as (sB' & E3 & R4).
  exists sB'. split; [by rewrite (M_bind_ret _ _ _ _ _ E2)|by eapply recounts_trans].
Qed.

Lemma agrees_joins f g l asym acc : (exists ks, hashes ks /\ joins_all f l ks /\ joins_all g l ks) ->
  agrees (on_fst (mfold f acc l)) (fun _ accB => on_fst (mfold g accB l)) acc asym.
Proof.
  intros (ks & Hk & Hf & Hg) rng s acc' rng' s' Hs Ha E. unfold on_fst in E. cbn [fst snd] in E.
  rewrite (Hf acc rng Ha) in E. injection E as <- <- <-. exists ks, [].
  split_and!; try done; [constructor|by apply recounts_refl|].
  intros received accB rngB sB _ HsB HaB. exists sB. unfold on_fst. cbn [fst snd].
  rewrite (Hg accB rngB HaB). split; [done|by apply recounts_refl].
Qed.

Lemma indices_nonneg n : Forall (fun i => 0 <= i) (indices n).
Proof. apply Forall_forall. intros i (j & -> & _)%list_elem_of_fmap. lia. Qed.

Notation system := (kct_system ENABLE_CRYPTO_NTRU ENABLE_CRYPTO_SIDH).
Notation KCT := (calculate_KCT ENABLE_CRYPTO_NTRU ENABLE_CRYPTO_SIDH).

(** Fewer NTRU keys than the counters of the code can hold. *)
Definition few_keys (p : c_multikeys_PAIR) : Prop :=
  zlen (keys_of (pub_keys (m_pub p)) e_crypto_system_type_NTRU_EES439EP1) < 2 ^ 62.

Notation nkeys p sys := (zlen (keys_of (pub_keys (m_pub p)) sys)).

(** The exchange proper of [kct_system]. *)
Definition kct_body (self them : c_multikeys_PAIR) (side_initiator : bool) (received : t_kexasym)
    (sys : t_crypto_system_type) (sys_id : Byte.byte) (acc : kct_acc) : M Rng kct_acc :=
  let a := nkeys self sys in let b := nkeys them sys in
  match sys with
  | e_crypto_system_type_X25519 => mfold (kex_X25519 self (m_pub them) a b) acc (indices (Z.max a b))
  | e_crypto_system_type_NTRU_EES439EP1 =>
      if ENABLE_CRYPTO_NTRU
      then mfold (kex_NTRU self (m_pub them) side_initiator received sys_id a b) acc (indices (Z.max a b))
      else mret acc
  | e_crypto_system_type_SIDH =>
      if ENABLE_CRYPTO_SIDH then mfold (kex_SIDH self (m_pub them) a b) acc (indices (Z.max a b)) else mret acc
  | _ => mret acc
  end.

Lemma system_eval P Q si sc recv acc sys st :
  length (m_cryptolists_general (pub_keys (m_pub P))) = 32%nat ->
  length (m_cryptolists_general (pub_keys (m_pub Q))) = 32%nat -> enum_to_int sys < 32 ->
  system P (m_pub Q) si sc recv acc sys st =
  (if (0 <? nkeys P sys) && (0 <? nkeys Q sys) then
     sys_id ← mlift (t_crypto_system_type_to_ID (enum_to_int sys));
     count_system sc sys;; on_fst (kct_body P Q si recv sys sys_id acc)
   else mret acc) st.
Proof.
  intros HP HQ He. unfold kct_system, kct_body.
  rewrite !count_eval by done. unfold mbind at 1 2, M_mbind at 1 2, mlift at 1 2.
  destruct (0 <? nkeys P sys) eqn:E1, (0 <? nkeys Q sys) eqn:E2; cbn [andb negb]; zbool.
  2-4: by destruct (Z.max _ _ <? 1).
  rewrite (proj2 (Z.ltb_ge (Z.max _ _) 1)) by lia. by destruct sys.
Qed.

Definition is_NTRU (sys : t_crypto_system_type) : bool := bool_decide (sys = e_crypto_system_type_NTRU_EES439EP1).

Lemma agrees_body A B recv acc sys sys_id : honest A -> honest B -> few_keys A -> few_keys B ->
  0 < nkeys A sys -> 0 < nkeys B sys ->
  t_crypto_system_type_to_ID (enum_to_int sys) = Ret sys_id ->
  agrees (on_fst (kct_body A B true recv sys sys_id acc))
    (fun r accB => on_fst (kct_body B A false r sys sys_id accB)) acc (is_NTRU sys).
Proof.
  intros HA HB FA FB Ha Hb Hid. unfold kct_body. rewrite (Z.max_comm (nkeys B sys)).
  assert (forall asym, agrees (on_fst (mret acc : M Rng kct_acc)) (fun _ accB => on_fst (mret accB : M Rng kct_acc)) acc asym)
    as Hskip by (intros; apply (agrees_skip acc)).
  pose proof (indices_nonneg (Z.max (nkeys A sys) (nkeys B sys))) as Hi.
  destruct sys; try (by apply Hskip).
  - apply agrees_joins, joins_both. eapply Forall_impl; [exact Hi|]. intros i Hn. by apply kex_X25519_turn.
  - destruct ENABLE_CRYPTO_NTRU; [|by apply Hskip]. injection Hid as <-.
    intros rng s acc' rng' s' Hs Hacc E. unfold on_fst in E. cbn [fst snd] in E.
    destruct (mfold _ acc _ rng) as [[x|e| |] rng1] eqn:E1; try discriminate E.
    injection E as -> -> ->.
    unfold indices in E1. apply kex_NTRU_fold in E1 as (ks & encs & Hk & Hl & Hsm & -> & HBob); try done.
    exists ks, encs. unfold few_keys in FA, FB. split_and!; try done;
      [unfold zlen at 1; lia|by apply recounts_refl|].
    intros received accB rngB sB Hr HsB HaB. exists sB. split; [|by apply recounts_refl].
    unfold on_fst, indices. cbn [fst snd]. rewrite (HBob received [] [] accB rngB); try done.
    rewrite app_nil_r. apply Hr. intros ->. simpl in Hl. lia.
  - destruct ENABLE_CRYPTO_SIDH; [|by apply Hskip].
    apply agrees_joins, joins_both. eapply Forall_impl; [exact Hi|]. intros i Hn. by apply kex_SIDH_turn.
Qed.

Lemma agrees_system A B sc recv acc sys : honest A -> honest B -> few_keys A -> few_keys B -> enum_to_int sys < 32 ->
  agrees (system A (m_pub B) true sc recv acc sys)
    (fun r accB => system B (m_pub A) false sc r accB sys) acc (is_NTRU sys).
Proof.
  intros HA HB FA FB He.
  assert (agrees (if (0 <? nkeys A sys) && (0 <? nkeys B sys) then
     sys_id ← mlift (t_crypto_system_type_to_ID (enum_to_int sys));
     count_system sc sys;; on_fst (kct_body A B true recv sys sys_id acc) else mret acc)
    (fun r accB => if (0 <? nkeys B sys) && (0 <? nkeys A sys) then
     sys_id ← mlift (t_crypto_system_type_to_ID (enum_to_int sys));
     count_system sc sys;; on_fst (kct_body B A false r sys sys_id accB) else mret accB) acc (is_NTRU sys)) as H.
  { rewrite (andb_comm (0 <? nkeys B sys)).
    destruct (0 <? nkeys A sys) eqn:Ha, (0 <? nkeys B sys) eqn:Hb; try (by apply agrees_skip). zbool.
    destruct (t_crypto_system_type_to_ID (enum_to_int sys)) as [sys_id|e| |] eqn:Hid; 
      try (intros ????? _ _ E; discriminate E).
    apply (agrees_counted sc sys (on_fst (kct_body A B true recv sys sys_id acc))
      (fun r accB => on_fst (kct_body B A false r sys sys_id accB))); [done|]. by apply agrees_body. }
  intros rng s acc' rng' s' Hs Ha E. rewrite system_eval in E by (done || apply HA || apply HB).
  destruct (H rng s acc' rng' s' Hs Ha E) as (ks & encs & ? & ? & ? & ? & ? & ? & HBob).
  exists ks, encs. split_and!; try done. intros received accB rngB sB Hr HsB HaB.
  rewrite system_eval by (done || apply HA || apply HB). by apply HBob.
Qed.

Lemma sent_empty c encs t : sent c encs t = t \/ encs <> [].
Proof. destruct encs; [by left|by right]. Qed.

Lemma agrees_fold A B sc l : honest A -> honest B -> few_keys A -> few_keys B ->
  NoDup l -> Forall (fun e => enum_to_int e < 32) l ->
  forall recv acc, (e_crypto_system_type_NTRU_EES439EP1 ∈ l -> acc.2 = ∅) ->
  agrees (mfold (system A (m_pub B) true sc recv) acc l)
    (fun r accB => mfold (system B (m_pub A) false sc r) accB l) acc
    (bool_decide (e_crypto_system_type_NTRU_EES439EP1 ∈ l)).
Proof.
  intros HA HB FA FB Hd Hl. induction l as [|sys l IH]; intros recv acc Hacc.
  { apply (agrees_skip acc). }
  apply NoDup_cons in Hd as [Hin Hd]. inversion Hl; subst.
  intros rng s acc' rng' s' Hs Hlen E. cbn [mfold] in E. apply M_bind_inv in E as (acc1 & [rng1 s1] & E1 & E).
  destruct (agrees_system A B sc recv acc sys HA HB FA FB ltac:(done) rng s acc1 rng1 s1 Hs Hlen E1)
    as (ks & encs & Hk & Hsm & Hna & Hsz & Eacc1 & R1 & HB1).
  destruct (IH Hd ltac:(done) recv acc1) with (rng := rng1) (s := s1) (acc' := acc') (rng' := rng') (s' := s')
    as (ks2 & encs2 & Hk2 & Hsm2 & Hna2 & Hsz2 & Eacc2 & R2 & HB2).
  - intros Hn. rewrite Eacc1. cbn. rewrite Hna; [apply Hacc; by right|]. unfold is_NTRU.
    apply bool_decide_eq_false. intros ->. done.
  - by eapply recounts_length.
  - rewrite Eacc1. by apply join_length.
  - done.
  - assert (encs = [] \/ encs2 = []) as Hone.
    { destruct (decide (sys = e_crypto_system_type_NTRU_EES439EP1)) as [->|Hn].
      - right. apply Hna2. by apply bool_decide_eq_false.
      - left. apply Hna. by apply bool_decide_eq_false. }
    exists (ks ++ ks2), (encs ++ encs2). subst acc1. split_and!.
    + by apply Forall_app.
    + by apply Forall_app.
    + intros Hn. apply bool_decide_eq_false in Hn. rewrite not_elem_of_cons in Hn. destruct Hn as [Hn1 Hn2].
      rewrite Hna, Hna2; [done|by apply bool_decide_eq_false|]. apply bool_decide_eq_false. congruence.
    + destruct Hone as [-> | ->]; rewrite ?app_nil_r; done.
    + rewrite Eacc2. cbn [fst snd]. unfold join. rewrite foldl_app. f_equal.
      destruct Hone as [-> | ->]; rewrite ?app_nil_r; done.
    + by eapply recounts_trans.
    + intros received accB rngB sB Hr HsB HaB. cbn [mfold].
      destruct (HB1 received accB rngB sB) as (sB1 & F1 & R3); [|done..|].
      { intros Hne. rewrite Hr by (destruct encs; done). destruct Hone as [-> | ->]; [done|by rewrite app_nil_r]. }
      rewrite (M_bind_ret _ _ _ _ _ F1).
      destruct (HB2 received (join accB.1 ks, accB.2) rngB sB1) as (sB2 & F2 & R4).
      * intros Hne. rewrite Hr by (destruct encs2; [done|by destruct encs]).
        destruct Hone as [-> | ->]; [done|by destruct Hne].
      * by eapply recounts_length.
      * by apply join_length.
      * exists sB2. rewrite F2. cbn [fst snd]. unfold join. rewrite foldl_app. split; [done|by eapply recounts_trans].
Qed.

(** ** The whole key agreement *)

Definition final_key (ks : list bytes) : bytes :=
  take 32 (Hash1 (join (replicate (Z.to_nat Hash1_size) Byte.x00) ks)).

Lemma systems_32 : NoDup (systems_below 32) /\ Forall (fun e => enum_to_int e < 32) (systems_below 32).
Proof.
  assert (bool_decide (NoDup (systems_below 32)) = true /\
    forallb (fun e => enum_to_int e <? 32) (systems_below 32) = true) as [H1 H2] by (by vm_compute).
  split; [by apply bool_decide_eq_true in H1|]. apply Forall_forall. intros e He.
  rewrite forallb_forall in H2. apply Z.ltb_lt, H2. by apply list_elem_of_In.
Qed.

Lemma pop_map_nothing m : (pop_map_object (K:=Byte.byte) (V:=list bytes) (Parser [] 0)).1 <> Ret m.
Proof.
  assert (match (pop_map_object (K:=Byte.byte) (V:=list bytes) (Parser [] 0)).1 with Ret _ => false | _ => true end = true)
    as H by (vm_compute; reflexivity).
  intros E. by rewrite E in H.
Qed.

(** The password map as it travels. *)
Lemma sent_map_valid encs : small encs -> zlen encs < 2 ^ 62 ->
  zlen (map_to_list (sent Byte.x74 encs (∅ : t_kexasym))) < 2 ^ 64 - 1 /\
  map_Forall (fun k v => ser_valid k /\ ser_valid v) (sent Byte.x74 encs (∅ : t_kexasym)).
Proof.
  intros Hs Hz.
  assert (Forall ser_valid encs) as Hv.
  { eapply Forall_impl; [exact Hs|]. intros e He. cbn. unfold SANE_MAX_SIZE_FOR_STRING. cbn in He. lia. }
  split.
  - destruct encs; [by vm_compute|]. unfold sent. rewrite lookup_empty, insert_empty. by rewrite map_to_list_singleton.
  - destruct encs; [by apply map_Forall_empty|]. unfold sent. rewrite lookup_empty, insert_empty.
    apply map_Forall_singleton. split; [done|]. split; [simpl; simpl in Hz; lia|done].
Qed.

Lemma sent_written encs : small encs -> zlen encs < 2 ^ 62 ->
  gen_str (push_map_object char_le (sent Byte.x74 encs (∅ : t_kexasym))) = Ret (map_bytes char_le (sent Byte.x74 encs ∅)).
Proof. intros Hs Hz. destruct (sent_map_valid encs Hs Hz). apply gen_str_pushes. by apply pushes_map. Qed.

Lemma sent_roundtrip encs d : small encs -> zlen encs < 2 ^ 62 ->
  gen_str (push_map_object char_le (sent Byte.x74 encs (∅ : t_kexasym))) = Ret d ->
  d <> [] /\ parse_with d (pop_map_object (K:=Byte.byte) (V:=list bytes)) = Ret (sent Byte.x74 encs ∅).
Proof.
  intros Hs Hz E. rewrite sent_written in E by done. injection E as <-.
  destruct (sent_map_valid encs Hs Hz) as [Hl Hv]. pose proof (pops_map char_le _ Hl Hv [] []) as P2. cbn [app] in P2.
  rewrite app_nil_r, zlen_nil in P2.
  split; [intros E; rewrite E in P2; by apply (f_equal fst), pop_map_nothing in P2|].
  unfold parse_with, parser_of_string. destruct (map_bytes _ _) eqn:Em; [by apply (f_equal fst), pop_map_nothing in P2|].
  unfold mbind, outcome_mbind, othrow_if. cbn [outcome_bind]. by rewrite P2.
Qed.

Lemma count_systems k : length (m_cryptolists_general k) = 32%nat -> get_count_of_systems k = 32.
Proof. intros H. unfold get_count_of_systems, zlen. by rewrite H. Qed.

(** What [calculate_KCT] does after its guards, for honest collections. *)
Definition kct_finish (acc : kct_acc) : M (Rng * c_stream) bytes :=
  massert (crypto_secretbox_KEYBYTES <=? zlen (Hash1 acc.1));;
  KCT_ready ← mlift (substr (Hash1 acc.1) crypto_secretbox_KEYBYTES);
  d ← mlift (gen_str (push_map_object char_le acc.2));
  on_snd (mmodify (set_kexasym d));;
  mret KCT_ready.

Definition zero_counts (s : c_stream) : c_stream := set_count (map (fun _ => 0) (m_cryptolists_count s)) s.

Lemma KCT_eval P Q ps rng s : length (m_cryptolists_general (pub_keys (m_pub P))) = 32%nat ->
  length (m_cryptolists_general (m_PRV P)) = 32%nat ->
  length (m_cryptolists_general (pub_keys (m_pub Q))) = 32%nat ->
  KCT P (m_pub Q) true ps (rng, s) =
  (recv ← mlift (kct_received (m_side_initiator s) ps);
   on_snd (mmodify zero_counts);;
   acc ← mfold (system P (m_pub Q) (m_side_initiator s) true recv)
     (replicate (Z.to_nat Hash1_size) Byte.x00, ∅) (systems_below 32);
   kct_finish acc) (rng, s).
Proof.
  intros H1 H2 H3. unfold calculate_KCT. rewrite !count_systems by done. rewrite Z.eqb_refl. reflexivity.
Qed.

Lemma finish_eval acc rng s d : gen_str (push_map_object char_le acc.2) = Ret d ->
  kct_finish acc (rng, s) = (Ret (take 32 (Hash1 acc.1)), (rng, set_kexasym d s)).
Proof.
  intros E. unfold kct_finish, massert, mlift, mbind, M_mbind, oassert, substr.
  rewrite (Hash1_64 acc.1). cbn. by rewrite E.
Qed.

Lemma finish_inv acc rng s k st : kct_finish acc (rng, s) = (Ret k, st) ->
  exists d, gen_str (push_map_object char_le acc.2) = Ret d /\
    k = take 32 (Hash1 acc.1) /\ st = (rng, set_kexasym d s).
Proof.
  intros E. destruct (gen_str (push_map_object char_le acc.2)) as [d|e| |] eqn:Ed.
  - exists d. rewrite (finish_eval _ _ _ d) in E by done. by injection E as <- <-.
  - unfold kct_finish, massert, mlift, mbind, M_mbind, oassert, substr in E. rewrite (Hash1_64 acc.1), Ed in E. discriminate E.
  - unfold kct_finish, massert, mlift, mbind, M_mbind, oassert, substr in E. rewrite (Hash1_64 acc.1), Ed in E. discriminate E.
  - unfold kct_finish, massert, mlift, mbind, M_mbind, oassert, substr in E. rewrite (Hash1_64 acc.1), Ed in E. discriminate E.
Qed.

(** Same stream but for the counts and the recorded passwords. *)
Definition rekeys (s s' : c_stream) : Prop := exists c d, s' = set_kexasym d (set_count c s).

Lemma zero_recounts s : length (m_cryptolists_count s) = 32%nat -> recounts s (zero_counts s).
Proof. intros H. eexists. split; [|done]. by rewrite length_map. Qed.

Lemma KCT_agreement A B rng s k rng' s' : honest A -> honest B -> few_keys A -> few_keys B ->
  m_side_initiator s = true -> length (m_cryptolists_count s) = 32%nat ->
  KCT A (m_pub B) true [] (rng, s) = (Ret k, (rng', s')) ->
  rekeys s s' /\
  forall ps rngB sB, ps <> [] -> parse_packetstart_kexasym ps = Ret (m_packetstart_kexasym s') ->
    m_side_initiator sB = false -> length (m_cryptolists_count sB) = 32%nat ->
    exists sB', KCT B (m_pub A) true ps (rngB, sB) = (Ret k, (rngB, sB')) /\ rekeys sB sB'.
Proof.
  intros HA HB FA FB Hsi Hc E. rewrite KCT_eval in E by (apply HA || apply HB).
  rewrite Hsi in E. unfold kct_received in E. rewrite (M_bind_ret _ _ _ ∅ (rng, s)) in E by done.
  rewrite (M_bind_ret _ _ _ tt (rng, zero_counts s)) in E by done.
  apply M_bind_inv in E as (acc & [rng1 s1] & E1 & E2).
  apply finish_inv in E2 as (d & Ed & -> & [= <- ->]).
  pose proof (zero_recounts s Hc) as R0.
  destruct systems_32 as [Hnd H32].
  destruct (agrees_fold A B true (systems_below 32) HA HB FA FB Hnd H32 ∅
    (replicate (Z.to_nat Hash1_size) Byte.x00, ∅) ltac:(done) _ _ _ _ _ (recounts_length _ _ R0) ltac:(done) E1)
    as (ks & encs & Hk & Hsm & _ & Hsz & -> & R1 & HBob).
  cbn [fst snd] in *.
  split. { destruct (recounts_trans _ _ _ R0 R1) as (c & _ & ->). by exists c, d. }
  intros ps rngB sB Hps Hparse HsiB HcB. rewrite KCT_eval by (apply HA || apply HB). rewrite HsiB.
  destruct (sent_roundtrip encs d Hsm Hsz Ed) as [Hd Hround].
  rewrite (M_bind_ret _ _ _ (sent Byte.x74 encs ∅) (rngB, sB)).
  2:{ unfold kct_received, mlift. rewrite bool_decide_eq_false_2 by done. rewrite Hparse. simpl.
      unfold mbind, outcome_mbind. simpl. by rewrite Hround. }
  rewrite (M_bind_ret _ _ _ tt (rngB, zero_counts sB)) by done.
  destruct (HBob (sent Byte.x74 encs ∅) (replicate (Z.to_nat Hash1_size) Byte.x00, ∅) rngB (zero_counts sB))
    as (sB1 & F1 & R2); [|by eapply recounts_length, zero_recounts|done|].
  { intros Hne. unfold sent. destruct encs; [done|]. by rewrite lookup_insert_eq. }
  rewrite (M_bind_ret _ _ _ _ _ F1). cbn [fst snd].
  assert (gen_str (push_map_object char_le (∅ : t_kexasym)) = Ret [Byte.x00]) as G by (by vm_compute).
  rewrite (finish_eval (_, ∅) rngB sB1 _ G). eexists. split; [done|].
  destruct (recounts_trans _ _ _ (zero_recounts sB HcB) R2) as (c & _ & ->). by exists c, [Byte.x00].
Qed.

(** ** Exchanges *)

Notation nonce_zero := (replicate (Z.to_nat nonce_constantbytes) Byte.x00).

(** The stream after an exchange that agreed on [k]. *)
Definition exchanged (odd : bool) (k : bytes) (s : c_stream) : c_stream :=
  set_boxers (Some (make_boxer odd k nonce_zero)) (Some (make_unboxer (negb odd) k nonce_zero))
    (set_nonce_odd odd (set_KCT k s)).

Lemma exchange_eval P Q w ps st k rng s odd : KCT P Q w ps st = (Ret k, (rng, s)) ->
  calculate_nonce_odd P Q = Ret odd ->
  exchange ENABLE_CRYPTO_NTRU ENABLE_CRYPTO_SIDH P Q w ps st = (Ret tt, (rng, exchanged odd k s)).
Proof. intros E1 E2. unfold exchange. rewrite (M_bind_ret _ _ _ _ _ E1). unfold mlift. rewrite E2. reflexivity. Qed.

Lemma exchange_inv P Q w ps st rng s' :
  exchange ENABLE_CRYPTO_NTRU ENABLE_CRYPTO_SIDH P Q w ps st = (Ret tt, (rng, s')) ->
  exists k s odd, KCT P Q w ps st = (Ret k, (rng, s)) /\ calculate_nonce_odd P Q = Ret odd /\ s' = exchanged odd k s.
Proof.
  unfold exchange. intros (k & [rng1 s] & E1 & E2)%M_bind_inv. exists k, s.
  unfold mlift in E2. destruct (calculate_nonce_odd P Q) as [odd|e| |] eqn:Eo; try discriminate E2.
  exists odd. injection E2 as <- <-. by split_and!.
Qed.

Lemma hash_greater_swap a b odd : hash_greater Hash1 a b = Ret odd ->
  exists odd', hash_greater Hash1 b a = Ret odd' /\
    ((get_hash Hash1 a).1 <> (get_hash Hash1 b).1 -> odd' = negb odd).
Proof.
  unfold hash_greater. destruct (get_hash Hash1 a).1 as [ha|?| |], (get_hash Hash1 b).1 as [hb|?| |]; try done.
  unfold mbind, outcome_mbind. simpl. intros [= <-]. eexists. split; [done|]. intros Hn.
  rewrite (string_leb_total ha hb) by congruence. by rewrite negb_involutive.
Qed.
End Agreement.

(** ** Packet starts *)

(** Programs of the generator that only append. *)
Definition appends {A} (m : M bytes A) : Prop := forall g, exists e, (m g).2 = g ++ e.

Lemma appends_bind {A B} (m : M bytes A) (f : A -> M bytes B) : appends m -> (forall a, appends (f a)) -> appends (m ≫= f).
Proof.
  intros Hm Hf g. unfold mbind, M_mbind. destruct (Hm g) as [e He].
  destruct (m g) as [[a|x| |] g1]; cbn in He; subst; eauto.
  destruct (Hf a (g ++ e)) as [e2 ->]. exists (e ++ e2). by rewrite app_assoc.
Qed.

Lemma appends_lift {A} (o : outcome A) : appends (mlift o).
Proof. intros g. exists []. simpl. by rewrite app_nil_r. Qed.

Lemma appends_add e : appends (mmodify (fun s => s ++ e)).
Proof. intros g. by exists e. Qed.

Lemma appends_octets n d v : appends (push_octets n d v).
Proof.
  revert d. induction n as [|n IH]; intros d; [intros g; exists []; simpl; by rewrite app_nil_r|].
  cbn [push_octets]. repeat (apply appends_bind; [apply appends_lift || apply appends_add|intros _]). apply IH.
Qed.

Lemma appends_uvarint v : appends (push_integer_uvarint v).
Proof.
  unfold push_integer_uvarint, push_integer_u, push_byte_u, mthrow_if.
  assert (forall (b : bool) (x y : M bytes unit), appends x -> appends y -> appends (if b then x else y)) as Hif
    by (by intros []).
  repeat (apply Hif || apply appends_bind || intros ? || apply appends_lift || apply appends_add || apply appends_octets).
Qed.

Lemma appends_varstring d : appends (push_varstring d).
Proof.
  apply appends_bind; [apply appends_uvarint|intros _].
  apply appends_bind; [apply appends_lift|intros _; apply appends_add].
Qed.

Lemma packetstart_kexasym {Rng} `{!CryptoLib Rng} this s ps s' : zlen (m_packetstart_kexasym this) <= SANE_MAX_SIZE_FOR_STRING ->
  generate_packetstart this s = (Ret ps, s') ->
  ps <> [] /\ parse_packetstart_kexasym ps = Ret (m_packetstart_kexasym this).
Proof.
  intros Hz E. set (kex := m_packetstart_kexasym this) in *.
  assert (exists r, ps = varstring_bytes kex ++ r) as [r ->].
  { unfold generate_packetstart in E. fold kex in E.
    assert (on_fst (push_varstring kex) ([], s) = (Ret tt, (varstring_bytes kex, s))) as E1.
    { unfold on_fst. cbn [fst snd]. rewrite (pushes_varstring kex) by (unfold SANE_MAX_SIZE_FOR_STRING in Hz; lia). done. }
    rewrite (M_bind_ret _ _ _ _ _ E1) in E.
    destruct (((on_snd (box (m_packetstart_IDe this)) : M (bytes * c_stream) _) ≫= _) _) as [o [g s2]] eqn:E2 in E.
    destruct o; try discriminate E. injection E as -> ->.
    apply M_bind_inv in E2 as (c & [g1 s1] & E3 & E4).
    assert (g1 = varstring_bytes kex) as ->.
    { unfold on_snd in E3. cbn [fst snd] in E3. destruct (box _ s). by injection E3. }
    apply M_bind_inv in E4 as ([] & [g2 s3] & E5 & E6). injection E6 as <- <- <-.
    unfold on_fst in E5. cbn [fst snd] in E5. destruct (appends_varstring c.1 (varstring_bytes kex)) as [e He].
    destruct (push_varstring c.1 (varstring_bytes kex)) as [o g3]. cbn in He. injection E5 as -> <- _. by exists e. }
  split. { intros H. apply app_eq_nil in H as [H _]. by apply varstring_nonempty in H. }
  unfold parse_packetstart_kexasym, parse_with, parser_of_string.
  pose proof (pops_varstring kex Hz [] r) as P. simpl in P.
  destruct (varstring_bytes kex ++ r) as [|x rest] eqn:El.
  { apply app_eq_nil in El as [El _]. by apply varstring_nonempty in El. }
  unfold mbind, outcome_mbind. simpl. rewrite zlen_nil in P. by rewrite P.
Qed.

(** ** Boxing *)

Section Boxing.
Context {Rng : Type} `{!CryptoLib Rng} `{!BoxLaws Rng}.

(** A stream whose boxers hold its key. *)
Definition keyed (k : bytes) (s : c_stream) : Prop :=
  (exists b, m_boxer s = Some b /\ boxer_key b = k) /\ (exists u, m_unboxer s = Some u /\ unboxer_key u = k).

Lemma exchanged_keyed odd k s : keyed k (exchanged odd k s).
Proof. split; eexists; (split; [done|]); [apply boxer_key_make|apply unboxer_key_make]. Qed.

Lemma box_keyed k s msg : keyed k s -> exists c N s', box msg s = (Ret (c, N), s') /\ keyed k s' /\
  forall s2 , keyed k s2 -> exists s2', unbox_nonce c N true s2 = (Ret msg, s2') /\ keyed k s2'.
Proof.
  intros [(b & Hb & Kb) Hu]. unfold box, mget, mput, mret, M_mret, mbind, M_mbind. rewrite Hb.
  pose proof (boxer_key_box b msg) as Kb'. destruct (boxer_box b msg) as [c b'] eqn:E. cbn in Kb'.
  do 3 eexists. split; [done|]. split; [split; [|exact Hu]; exists b'; split; [done|congruence]|].
  intros s2 [Hb2 (u & Hu2 & Ku)]. unfold unbox_nonce, mrun, mbind, M_mbind, mget. rewrite Hu2.
  assert (boxer_key b = unboxer_key u) as Hbu by congruence.
  pose proof (unbox_box b u msg Hbu) as Hub. pose proof (unboxer_key_unbox u c (boxer_get_nonce b)) as Hku.
  rewrite E in Hub. cbn [fst] in Hub. destruct (unboxer_unbox_nonce c (boxer_get_nonce b) u) as [o u']. cbn in Hub, Hku. subst o.
  eexists. split; [done|]. split; [exact Hb2|]. exists u'. split; [done|congruence].
Qed.

(** Boxing every message, and unboxing received ones with their nonces. *)
Fixpoint box_all (msgs : list bytes) : M c_stream (list (bytes * bytes)) :=
  match msgs with
  | [] => mret []
  | m :: msgs' => c ← box m; cs ← box_all msgs'; mret (c :: cs)
  end.

Fixpoint unbox_all (cs : list (bytes * bytes)) : M c_stream (list bytes) :=
  match cs with
  | [] => mret []
  | (c, N) :: cs' => m ← unbox_nonce c N true; ms ← unbox_all cs'; mret (m :: ms)
  end.

(** A boxed message any keyed stream reads. *)
Definition readable (k : bytes) (c : bytes * bytes) (msg : bytes) : Prop :=
  forall s, keyed k s -> exists s', unbox_nonce c.1 c.2 true s = (Ret msg, s') /\ keyed k s'.

Lemma box_all_readable k msgs : forall s, keyed k s -> exists cs s', box_all msgs s = (Ret cs, s') /\
  keyed k s' /\ Forall2 (readable k) cs msgs.
Proof.
  induction msgs as [|m msgs IH]; intros s Hs; [exists [], s; split_and!; try done; constructor|].
  destruct (box_keyed k s m Hs) as (c & N & s1 & E1 & K1 & R1). destruct (IH s1 K1) as (cs & s2 & E2 & K2 & R2).
  exists ((c, N) :: cs), s2. cbn [box_all]. rewrite (M_bind_ret _ _ _ _ _ E1), (M_bind_ret _ _ _ _ _ E2).
  split_and!; [done|done|by constructor].
Qed.

Lemma unbox_all_readable k l ms : Forall2 (readable k) l ms -> forall s, keyed k s ->
  exists s', unbox_all l s = (Ret ms, s') /\ keyed k s'.
Proof.
  intros H. induction H as [|[c N] m l ms Hr H IH]; intros s Hs; [by exists s|].
  destruct (Hr s Hs) as (s1 & E1 & K1). destruct (IH s1 K1) as (s2 & E2 & K2).
  exists s2. cbn [unbox_all]. cbn [fst snd] in E1.
  by rewrite (M_bind_ret _ _ _ _ _ E1), (M_bind_ret _ _ _ _ _ E2).
Qed.
End Boxing.

(** ** Identities with nothing in common *)

Section NoCommon.
Context {Rng : Type} `{!CryptoLib Rng} `{!CryptoLaws Rng}.
Context (NTRU SIDH : bool) (P Q : c_multikeys_PAIR).
Hypothesis HP : length (m_cryptolists_general (pub_keys (m_pub P))) = 32%nat.
Hypothesis HPRV : length (m_cryptolists_general (m_PRV P)) = 32%nat.
Hypothesis HQ : length (m_cryptolists_general (pub_keys (m_pub Q))) = 32%nat.
Hypothesis Hno : forall sys, 0 < zlen (keys_of (pub_keys (m_pub P)) sys) -> 0 < zlen (keys_of (pub_keys (m_pub Q)) sys) ->
  sys = e_crypto_system_type_Ed25519 \/ sys = e_crypto_system_type_NTRU_sign.

Lemma system_no_common si sc recv acc sys rng s : enum_to_int sys < 32 -> length (m_cryptolists_count s) = 32%nat ->
  exists s', kct_system NTRU SIDH P (m_pub Q) si sc recv acc sys (rng, s) = (Ret acc, (rng, s')) /\
    length (m_cryptolists_count s') = 32%nat.
Proof.
  intros He Hs. rewrite system_eval by done.
  destruct (0 <? zlen (keys_of (pub_keys (m_pub P)) sys)) eqn:E1, (0 <? zlen (keys_of (pub_keys (m_pub Q)) sys)) eqn:E2;
    cbn [andb]; try (by exists s). zbool.
  destruct (count_system_eval sc sys rng s He Hs) as (s' & E & R). exists s'. split; [|by eapply recounts_length].
  destruct (Hno sys E1 E2) as [-> | ->]; unfold mbind at 1, M_mbind at 1, mlift; cbn -[count_system];
    by rewrite (M_bind_ret _ _ _ _ _ E).
Qed.

Lemma fold_no_common si sc recv acc l : Forall (fun e => enum_to_int e < 32) l -> forall rng s,
  length (m_cryptolists_count s) = 32%nat ->
  exists s', mfold (kct_system NTRU SIDH P (m_pub Q) si sc recv) acc l (rng, s) = (Ret acc, (rng, s')).
Proof.
  intros Hl. induction Hl as [|sys l He Hl IH]; intros rng s Hs; [by exists s|]. cbn [mfold].
  destruct (system_no_common si sc recv acc sys rng s He Hs) as (s1 & E1 & H1).
  rewrite (M_bind_ret _ _ _ _ _ E1). by apply IH.
Qed.

Lemma KCT_no_common ps rng s recv : length (m_cryptolists_count s) = 32%nat ->
  kct_received (m_side_initiator s) ps = Ret recv ->
  exists s', calculate_KCT NTRU SIDH P (m_pub Q) true ps (rng, s) = (Ret (take 32 (Hash1 return_empty_K)), (rng, s')).
Proof.
  intros Hs Hr. rewrite KCT_eval by done. unfold mlift. rewrite Hr.
  rewrite (M_bind_ret _ _ _ recv (rng, s)) by done. rewrite (M_bind_ret _ _ _ tt (rng, zero_counts s)) by done.
  destruct (fold_no_common (m_side_initiator s) true recv (replicate (Z.to_nat Hash1_size) Byte.x00, ∅)
    (systems_below 32) ltac:(apply systems_32) rng (zero_counts s)) as (s1 & E1).
  { cbn. by rewrite length_map. }
  rewrite (M_bind_ret _ _ _ _ _ E1).
  rewrite (finish_eval _ _ _ [Byte.x00]) by (by vm_compute). by eexists.
Qed.
End NoCommon.

(** Public keys as they are sent. *)
Lemma load_pub_keys k : wf_keys k -> m_crypto_use k = e_crypto_use_open ->
  load_pub (keys_bytes k) = Ret (MultikeysPub (set_hash [] k) (str "fd42")).
Proof.
  intros Hw Hu. unfold load_pub, on_pub_keys. cbn [new_multikeys_pub pub_keys m_ipv6_prefix].
  rewrite load_keys_bytes by (done || by rewrite Hu). cbn [fst snd]. do 2 f_equal.
  pose proof Hw as [Hlen _]. pose proof (override_empty (m_cryptolists_general k)) as Ho. rewrite Hlen in Ho.
  change (m_cryptolists_general (new_multicryptostrings e_crypto_use_open)) with (replicate 32 (@nil bytes)).
  rewrite Ho. unfold set_hash. by rewrite <- Hu.
Qed.

(** ** Properties *)

(** C33: the respondent, given the initiator's packet start, always completes
    the exchange and computes the initiator's key: for every number of X25519,
    NTRU and SIDH keys on either side (the key numbers wrap around), for any
    randomness, with the passwords travelling through the serialized map.
    The nonce parities are opposite unless the identities have one hash. *)
Theorem tunnel_key_agreement (Rng : Type) `{!CryptoLib Rng} `{!CryptoLaws Rng} NTRU SIDH A B rngA nA rngA' sA ps sA' :
  honest A -> honest B -> few_keys A -> few_keys B ->
  exchange_start NTRU SIDH A (m_pub B) true (rngA, new_stream true nA) = (Ret tt, (rngA', sA)) ->
  zlen (m_packetstart_kexasym sA) <= SANE_MAX_SIZE_FOR_STRING ->
  generate_packetstart sA sA = (Ret ps, sA') ->
  forall rngB nB, exists sB,
    exchange_done NTRU SIDH B (m_pub A) ps (rngB, new_stream false nB) = (Ret tt, (rngB, sB)) /\
    m_KCT sB = m_KCT sA /\
    ((get_hash Hash1 (pub_keys (m_pub A))).1 <> (get_hash Hash1 (pub_keys (m_pub B))).1 ->
     m_nonce_odd sB = negb (m_nonce_odd sA)).
Proof.
  intros HA HB FA FB E Hz Hps rngB nB.
  apply exchange_inv in E as (k & s1 & odd & E1 & Eo & ->).
  destruct (KCT_agreement NTRU SIDH A B rngA (new_stream true nA) k rngA' s1 HA HB FA FB eq_refl eq_refl E1) as [_ HBob].
  destruct (packetstart_kexasym _ _ _ _ Hz Hps) as [Hne Hparse].
  destruct (HBob ps rngB (new_stream false nB) Hne Hparse eq_refl eq_refl) as (sB & E2 & _).
  destruct (hash_greater_swap _ _ _ Eo) as (odd' & Eo' & Hodd).
  exists (exchanged odd' k sB). split_and!; [|done|done]. by apply exchange_eval.
Qed.

(** Two streams that hold one key read each other's messages in any
    order, with losses and repetitions: every message boxed by one is unboxed
    to itself by the other with the nonce it was sent with, as the datagrams
    of the tunnel need. *)
Lemma boxed_messages_any_order (Rng : Type) `{!CryptoLib Rng} `{!BoxLaws Rng} oddA oddB k sA sB msgs received :
  Forall (fun i => i < length msgs)%nat received ->
  exists cs sA' sB', box_all msgs (exchanged oddA k sA) = (Ret cs, sA') /\ length cs = length msgs /\
    unbox_all (omap (fun i => cs !! i) received) (exchanged oddB k sB)
    = (Ret (omap (fun i => msgs !! i) received), sB').
Proof.
  intros Hr. destruct (box_all_readable k msgs (exchanged oddA k sA) (exchanged_keyed oddA k sA)) as (cs & sA' & E1 & _ & HR).
  assert (Forall2 (readable k) (omap (fun i => cs !! i) received) (omap (fun i => msgs !! i) received)) as HR2.
  { induction Hr as [|i received Hi Hr IH]; [constructor|].
    destruct (lookup_lt_is_Some_2 msgs i Hi) as [m Hm]. destruct (Forall2_lookup_r _ _ _ _ _ HR Hm) as (c & Hc & Hread).
    cbn. rewrite Hm, Hc. by constructor. }
  destruct (unbox_all_readable k _ _ HR2 (exchanged oddB k sB) (exchanged_keyed oddB k sB)) as (sB' & E2 & _).
  exists cs, sA', sB'. split_and!; [done|by apply Forall2_length in HR|done].
Qed.

(** When no crypto system but the two signature systems has keys on both
    sides, the agreed key does not depend on anybody's keys: the initiator and
    any respondent get the first 32 octets of the hash of 64 zero octets. *)
Lemma no_common_system_known_key (Rng : Type) `{!CryptoLib Rng} `{!CryptoLaws Rng} NTRU SIDH P Q rng name :
  length (m_cryptolists_general (pub_keys (m_pub P))) = 32%nat -> length (m_cryptolists_general (m_PRV P)) = 32%nat ->
  length (m_cryptolists_general (pub_keys (m_pub Q))) = 32%nat ->
  (forall sys, 0 < zlen (keys_of (pub_keys (m_pub P)) sys) -> 0 < zlen (keys_of (pub_keys (m_pub Q)) sys) ->
     sys = e_crypto_system_type_Ed25519 \/ sys = e_crypto_system_type_NTRU_sign) ->
  forall odd, calculate_nonce_odd P (m_pub Q) = Ret odd ->
  exists s, exchange_start NTRU SIDH P (m_pub Q) true (rng, new_stream true name) = (Ret tt, (rng, s)) /\
    m_KCT s = take 32 (Hash1 return_empty_K) /\
    forall ps rng2 name2 recv, kct_received false ps = Ret recv ->
      exists s2, exchange_done NTRU SIDH P (m_pub Q) ps (rng2, new_stream false name2) = (Ret tt, (rng2, s2)) /\
        m_KCT s2 = take 32 (Hash1 return_empty_K).
Proof.
  intros HP HPRV HQ Hno odd Hodd.
  destruct (KCT_no_common NTRU SIDH P Q HP HPRV HQ Hno [] rng (new_stream true name) ∅ eq_refl eq_refl) as (s & E).
  eexists. split; [by eapply exchange_eval|]. split; [done|].
  intros ps rng2 name2 recv Hrecv.
  destruct (KCT_no_common NTRU SIDH P Q HP HPRV HQ Hno ps rng2 (new_stream false name2) recv eq_refl Hrecv) as (s2 & E2).
  eexists. split; [by eapply exchange_eval|done].
Qed.

(** The roles are enforced: a stream made for the initiator refuses a
    non-empty packet start, one made for the respondent refuses an empty one,
    both with std::invalid_argument and before any key is touched. *)
Lemma exchange_roles (Rng : Type) `{!CryptoLib Rng} NTRU SIDH P Q rng s ps :
  length (m_cryptolists_general (pub_keys (m_pub P))) = 32%nat -> length (m_cryptolists_general (m_PRV P)) = 32%nat ->
  length (m_cryptolists_general (pub_keys Q)) = 32%nat ->
  (m_side_initiator s = true -> ps <> [] ->
   exchange_done NTRU SIDH P Q ps (rng, s) = (Throw ex_invalid_argument, (rng, s))) /\
  (m_side_initiator s = false -> forall w,
   exchange_start NTRU SIDH P Q w (rng, s) = (Throw ex_invalid_argument, (rng, s))).
Proof.
  intros HP HR HQ. unfold exchange_done, exchange_start, exchange, calculate_KCT.
  rewrite !count_systems by done. rewrite Z.eqb_refl.
  split; [intros Hs Hps|intros Hs w]; apply M_bind_throw;
    do 2 rewrite (M_bind_ret _ _ _ tt (rng, s)) by done; rewrite (M_bind_ret _ _ _ s (rng, s)) by done;
    apply M_bind_throw; unfold mlift, kct_received; rewrite Hs; [by rewrite bool_decide_eq_false_2|done].
Qed.

(** A small instance of the primitives: keys agree by xor, "encryption" puts
    16 octets of the key in front, a hash is the first 64 octets. *)
Definition toy_hash (x : bytes) : bytes := take 64 (x ++ replicate 64 Byte.x00).

Definition toy_mac (k : bytes) : bytes := take 16 (k ++ replicate 16 Byte.x00).

Definition toy_unbox (c : bytes) (u : bytes * Z) : outcome bytes :=
  if bool_decide (take 16 c = toy_mac u.1) then Ret (drop 16 c) else Throw ex_crypto_error.

Lemma toy_mac_length k : length (toy_mac k) = 16%nat.
Proof. unfold toy_mac. rewrite length_take, length_app, length_replicate. lia. Qed.

Definition toy_lib : CryptoLib Z := {|
  Hash1 := toy_hash;
  key_agreement_locked := fun p P => Ret (xor_str p P);
  randombytes_locked := fun n rng => (Ret (replicate (Z.to_nat n) (byte_of_Z rng)), rng + 1);
  ntru_encrypt := fun m _ rng => (if zlen m <=? 65535 then Ret m else Throw ex_runtime_error, rng);
  ntru_decrypt := fun c _ => Ret c;
  SecretAgreement_A := fun p P => Ret (xor_str p P);
  SecretAgreement_B := fun p P => Ret (xor_str p P);
  Boxer := bytes * Z;
  Unboxer := bytes * Z;
  make_boxer := fun odd k _ => (k, if odd then 1 else 0);
  make_unboxer := fun odd k _ => (k, if odd then 1 else 0);
  boxer_get_nonce := fun b => replicate 24 (byte_of_Z b.2);
  boxer_box := fun b m => (toy_mac b.1 ++ m, (b.1, b.2 + 2));
  unboxer_get_nonce := fun u => replicate 24 (byte_of_Z u.2);
  unboxer_unbox := fun c u => (toy_unbox c u, (u.1, u.2 + 2));
  unboxer_unbox_nonce := fun c _ u => (toy_unbox c u, u);
  gen_x25519 := fun rng => (Ret (replicate 32 (byte_of_Z rng), replicate 32 (byte_of_Z rng)), rng + 1);
  gen_ed25519 := fun rng => (Ret (replicate 32 (byte_of_Z rng), replicate 32 (byte_of_Z rng)), rng + 1);
  gen_ntru_encrypt := fun rng => (Ret (replicate 659 (byte_of_Z rng), replicate 609 (byte_of_Z rng)), rng + 1);
  gen_ntru_sign := fun rng => (Ret (replicate (Z.to_nat 6152) (byte_of_Z rng), replicate (Z.to_nat 6158) (byte_of_Z rng)), rng + 1);
  gen_sidh := fun rng => (Ret (replicate 4 (byte_of_Z rng), replicate 4 (byte_of_Z rng)), rng + 1)
|}.

#[local] Existing Instance toy_lib.

#[local, refine] Instance toy_laws : CryptoLaws Z := {|
  x25519_pair := fun p P => p = P;
  ntru_pair := fun _ _ => True;
  sidh_a := fun p P => p = P /\ length p = 2%nat;
  sidh_b := fun p P => p = P /\ length p = 2%nat;
  sidh_prv_size := 2; sidh_pub_size := 2; sidh_secret_size := 2
|}.
Proof.
  - intros x. cbn. unfold toy_hash, zlen. rewrite length_take, length_app, length_replicate. lia.
  - intros a A b B -> ->. exists (xor_str A B). split; [done|]. cbn. by rewrite xor_str_comm.
  - intros n rng b rng' Hn [= <- _]. unfold zlen. rewrite length_replicate. lia.
  - intros b B m rng c rng' _ _. cbn. case_bool; [|done]. by intros [= <- _].
  - intros m B rng c rng'. cbn. destruct (zlen m <=? 65535) eqn:E; [|done]. intros [= <- _]. by zbool.
  - intros p P [-> H]. by unfold zlen; rewrite H.
  - intros p P [-> H]. by unfold zlen; rewrite H.
  - intros a A b B [-> HA] [-> HB]. exists (xor_str A B). split_and!; [done|cbn; by rewrite xor_str_comm|].
    unfold zlen. rewrite xor_str_length; [by rewrite HA|congruence].
Defined.

#[local, refine] Instance toy_boxes : BoxLaws Z := {| boxer_key := fun b => b.1; unboxer_key := fun u => u.1 |}.
Proof.
  - done.
  - done.
  - done.
  - done.
  - intros b u m E. cbn -[take drop] in *. unfold toy_unbox. rewrite <- E.
    rewrite take_app_le, drop_app_ge by (rewrite toy_mac_length; lia).
    rewrite take_ge, toy_mac_length by (rewrite toy_mac_length; lia). by rewrite bool_decide_eq_true_2.
Defined.

(** A collection with the given X25519, NTRU and SIDH keys. *)
Definition kex_lists (x n s : list bytes) : list (list bytes) :=
  <[5%nat := x]> (<[7%nat := n]> (<[8%nat := s]> (replicate 32 []))).

Definition toy_pair (x n s : list bytes) : c_multikeys_PAIR :=
  MultikeysPAIR (MultikeysPub (Multicryptostrings (kex_lists x n s) [] e_crypto_use_open) (str "fd42"))
    (Multicryptostrings (kex_lists x n s) [] e_crypto_use_secret).

Definition toy_A : c_multikeys_PAIR := toy_pair [str "a1"; str "a2"] [str "na"] [str "SIDA"].
Definition toy_B : c_multikeys_PAIR := toy_pair [str "b1"; str "b2"; str "b3"] [str "nb"; str "nc"] [].

Lemma toy_honest x n s : Forall (fun k => length k = 4%nat) s ->
  honest (toy_pair x n s).
Proof.
  intros Hs. split; try done; unfold matched, keys_of; cbn.
  - apply Forall_Forall2_diag. by apply Forall_forall.
  - apply Forall_Forall2_diag. by apply Forall_forall.
  - apply Forall_Forall2_diag. eapply Forall_impl; [exact Hs|]. intros k Hk.
    cbn in Hk. exists (take 2 k), (drop 2 k), (take 2 k), (drop 2 k). rewrite take_drop.
    split; [done|]. split; [done|]. split; (split; [done|]); rewrite ?length_take, ?length_drop; lia.
Qed.

Lemma tunnel_key_agreement_witness : exists sA rngA ps sA' sB,
  exchange_start true true toy_A (m_pub toy_B) true (7, new_stream true (str "A")) = (Ret tt, (rngA, sA)) /\
  generate_packetstart sA sA = (Ret ps, sA') /\
  exchange_done true true toy_B (m_pub toy_A) ps (0, new_stream false (str "B")) = (Ret tt, (0, sB)) /\
  m_KCT sB = m_KCT sA /\ m_KCT sB <> take 32 return_empty_K.
Proof.
  assert ((exchange_start true true toy_A (m_pub toy_B) true (7, new_stream true (str "A"))).1 = Ret tt) as Eo
    by (vm_compute; reflexivity).
  assert (let s := (exchange_start true true toy_A (m_pub toy_B) true (7, new_stream true (str "A"))).2.2 in
    (match (generate_packetstart s s).1 with Ret _ => true | _ => false end = true /\
     zlen (m_packetstart_kexasym s) <= SANE_MAX_SIZE_FOR_STRING) /\
     bool_decide (m_KCT s = take 32 return_empty_K) = false) as [[Hp Hz] Hk]
    by (vm_compute; split_and!; [reflexivity|discriminate|reflexivity]).
  destruct (exchange_start true true toy_A (m_pub toy_B) true (7, new_stream true (str "A"))) as [o [r sA]] eqn:E.
  cbn [fst snd] in *. subst o.
  destruct (generate_packetstart sA sA) as [o2 sA'] eqn:Es. cbn [fst] in Hp.
  destruct o2 as [ps|e| |]; try discriminate Hp.
  destruct (tunnel_key_agreement Z true true toy_A toy_B 7 (str "A") r sA ps sA'
    ltac:(apply toy_honest; repeat constructor) ltac:(apply toy_honest; repeat constructor)
    ltac:(by vm_compute) ltac:(by vm_compute) E Hz Es 0 (str "B")) as (sB & E1 & E2 & _).
  exists sA, r, ps, sA', sB. split_and!; [reflexivity|exact Es|exact E1|exact E2|].
  apply bool_decide_eq_false in Hk. congruence.
Defined.

(** An identity with X25519 keys only, and one with Ed25519 keys only. *)
Definition x25519_identity (k : bytes) : c_multikeys_PAIR := toy_pair [k] [] [].
Definition ed25519_identity (k : bytes) : c_multikeys_PAIR :=
  MultikeysPAIR (MultikeysPub (Multicryptostrings (<[6%nat := [k]]> (replicate 32 [])) [] e_crypto_use_open) (str "fd42"))
    (Multicryptostrings (<[6%nat := [k]]> (replicate 32 [])) [] e_crypto_use_secret).

