(* ===== verification/HandshakeFacts.v ===== *)
(** * Opening an end-to-end tunnel

    The whole protocol of [c_crypto_tunnel] between two sides: the initiator's
    stream, the ephemeral identities both sides make, the two packet starts
    and the final streams.  For honest keys every step succeeds, and the final
    streams of the two sides hold one key. *)
From S2P Require Import Prelude Serialize SerializeFacts Cryptobasic Multikeys MultikeysFacts Crypto CryptoFacts.

(** Documented behaviour of libsodium, NTRU and SIDH: generators and
    encryption do not fail, and make keys that match, of the size of their
    system. *)
Class FreshLaws (Rng : Type) `{!CryptoLib Rng} `{!CryptoLaws Rng} := {
  randombytes_fresh n rng : 0 <= n -> exists b rng', randombytes_locked n rng = (Ret b, rng') /\ zlen b = n;
  ntru_encrypt_some m b B rng : ntru_pair b B -> zlen m = 65 -> exists c rng', ntru_encrypt m B rng = (Ret c, rng');
  gen_x25519_fresh rng : exists s P rng', gen_x25519 rng = (Ret (s, P), rng') /\ x25519_pair s P /\ zlen P = 32;
  gen_ed25519_fresh rng : exists s P rng', gen_ed25519 rng = (Ret (s, P), rng') /\ zlen P = 32;
  gen_ntru_encrypt_fresh rng : exists s P rng', gen_ntru_encrypt rng = (Ret (s, P), rng') /\ ntru_pair s P /\
    zlen s = 659 /\ zlen P = 609;
  gen_ntru_sign_fresh rng : exists s P rng', gen_ntru_sign rng = (Ret (s, P), rng') /\ zlen s = 6152 /\ zlen P = 6158;
  gen_sidh_fresh rng : exists s P rng', gen_sidh rng = (Ret (s, P), rng') /\ sidh_pair s P /\ zlen P <= 10000
}.

(** Documented behaviour of sodiumpp: a boxer and an unboxer made alike begin
    with one nonce, an unboxer that is given no nonce uses its own, and a box
    is 16 octets longer than the message. *)
Class SequenceLaws (Rng : Type) `{!CryptoLib Rng} `{!BoxLaws Rng} := {
  nonce_first odd k c : unboxer_get_nonce (make_unboxer odd k c) = boxer_get_nonce (make_boxer odd k c);
  unbox_own c u : (unboxer_unbox c u).1 = (unboxer_unbox_nonce c (unboxer_get_nonce u) u).1;
  unboxer_key_own c u : unboxer_key (unboxer_unbox c u).2 = unboxer_key u;
  box_grows b m : zlen (boxer_box b m).1 = zlen m + 16
}.

Section Start.
Context {Rng : Type} `{!CryptoLib Rng} `{!CryptoLaws Rng} `{!FreshLaws Rng}.
Context (NTRU SIDH : bool).

Notation nkeys p sys := (zlen (keys_of (pub_keys (m_pub p)) sys)).
Notation system := (kct_system NTRU SIDH).
Notation KCT := (calculate_KCT NTRU SIDH).

(** The systems a build can make keys of. *)
Definition enabled (sys : t_crypto_system_type) : bool :=
  match sys with
  | e_crypto_system_type_X25519 | e_crypto_system_type_Ed25519 => true
  | e_crypto_system_type_NTRU_EES439EP1 | e_crypto_system_type_NTRU_sign => NTRU
  | e_crypto_system_type_SIDH => SIDH
  | _ => false
  end.

(** So many NTRU keys that the passwords fit a string of the wire format. *)
Definition modest (p : c_multikeys_PAIR) : Prop := nkeys p e_crypto_system_type_NTRU_EES439EP1 <= 700.

Lemma modest_few p : modest p -> few_keys p.
Proof. unfold modest, few_keys. lia. Qed.

(** ** The initiator's exchange succeeds *)

Lemma NTRU_fold_succeeds A B c n : honest A -> honest B ->
  let a := nkeys A e_crypto_system_type_NTRU_EES439EP1 in let b := nkeys B e_crypto_system_type_NTRU_EES439EP1 in
  0 < a -> 0 < b -> forall start acc rng recv, length acc.1 = 64%nat ->
  exists acc' rng', mfold (kex_NTRU A (m_pub B) true recv c a b) acc (map Z.of_nat (seq start n)) rng = (Ret acc', rng').
Proof.
  intros HA HB a b Ha Hb. induction n as [|n IH]; intros start acc rng recv Hacc; [by do 2 eexists|]. cbn [seq map mfold].
  destruct (kex_keys_eval ntru_pair A B e_crypto_system_type_NTRU_EES439EP1 (Z.of_nat start))
    as (pa & Pa & pb & Pb & Ra & Rb & E1 & _); try done; [apply HA|apply HB|lia|]. fold a b in E1.
  destruct (randombytes_fresh 65 rng ltac:(lia)) as (pw & rng1 & Epw & Hpw).
  destruct (ntru_encrypt_some pw pb Pb rng1 Rb Hpw) as (enc & rng2 & Een).
  rewrite (M_bind_ret _ _ rng (xor_str acc.1 (agreed pw Pa Pb), push_back_at acc.2 c enc) rng2).
  - apply IH. cbn. by rewrite xor_str_length, ?agreed_length; rewrite ?agreed_length.
  - unfold kex_NTRU. rewrite E1, bind_lift. rewrite (M_bind_ret _ _ _ _ _ Epw), (M_bind_ret _ _ _ _ _ Een).
    rewrite k_dh_agreed_eval, bind_lift, binary_string_xor_eval by (by rewrite agreed_length). done.
Qed.

(** What the initiator sends: some passwords, under the letter of NTRU. *)
Definition sends_few (acc : kct_acc) : Prop := length acc.1 = 64%nat /\
  exists encs, small encs /\ zlen encs <= 700 /\ acc.2 = sent Byte.x74 encs ∅.

Lemma body_succeeds A B recv sys id acc rng : honest A -> honest B -> modest A -> modest B ->
  0 < nkeys A sys -> 0 < nkeys B sys -> t_crypto_system_type_to_ID (enum_to_int sys) = Ret id ->
  sends_few acc -> (sys = e_crypto_system_type_NTRU_EES439EP1 -> acc.2 = ∅) ->
  exists acc' rng', kct_body NTRU SIDH A B true recv sys id acc rng = (Ret acc', rng') /\ sends_few acc' /\
    (sys <> e_crypto_system_type_NTRU_EES439EP1 -> acc'.2 = acc.2).
Proof.
  intros HA HB MA MB Ha Hb Hid [Hl Hs] Hempty. unfold kct_body.
  assert (exists acc' rng', (mret acc : M Rng kct_acc) rng = (Ret acc', rng') /\ sends_few acc' /\ (sys <> e_crypto_system_type_NTRU_EES439EP1 -> acc'.2 = acc.2))
    as Hskip by (exists acc, rng; split_and!; done).
  assert (forall f ks l, hashes ks -> joins_all f l ks -> exists acc' rng', mfold f acc l rng = (Ret acc', rng') /\ sends_few acc' /\
    (sys <> e_crypto_system_type_NTRU_EES439EP1 -> acc'.2 = acc.2)) as Hjoin.
  { intros f ks l Hk Hf. rewrite (Hf acc rng Hl). do 2 eexists. split; [done|]. split; [split; [by apply join_length|done]|done]. }
  pose proof (indices_nonneg (Z.max (nkeys A sys) (nkeys B sys))) as Hi. destruct sys; try exact Hskip.
  - destruct (joins_both (kex_X25519 A (m_pub B) (nkeys A e_crypto_system_type_X25519) (nkeys B e_crypto_system_type_X25519))
      (kex_X25519 B (m_pub A) (nkeys B e_crypto_system_type_X25519) (nkeys A e_crypto_system_type_X25519)) _
      (Forall_impl _ _ _ Hi (fun i Hn => kex_X25519_turn A B i HA HB Ha Hb Hn))) as (ks & Hk & Hf & _). by eapply Hjoin.
  - destruct NTRU; [|exact Hskip]. injection Hid as <-. unfold indices.
    destruct (NTRU_fold_succeeds A B Byte.x74 (Z.to_nat (Z.max (nkeys A e_crypto_system_type_NTRU_EES439EP1) (nkeys B e_crypto_system_type_NTRU_EES439EP1)))
      HA HB Ha Hb 0%nat acc rng recv Hl) as (acc' & rng' & E).
    exists acc', rng'. split; [exact E|]. split; [|done].
    apply (kex_NTRU_fold A B) in E as (ks & encs & Hk & Hn & Hsm & -> & _); try done.
    split; [by apply join_length|]. exists encs. rewrite (Hempty eq_refl). unfold modest in MA, MB.
    split_and!; [done| |done]. unfold zlen at 1. lia.
  - destruct SIDH; [|exact Hskip].
    destruct (joins_both (kex_SIDH A (m_pub B) (nkeys A e_crypto_system_type_SIDH) (nkeys B e_crypto_system_type_SIDH))
      (kex_SIDH B (m_pub A) (nkeys B e_crypto_system_type_SIDH) (nkeys A e_crypto_system_type_SIDH)) _
      (Forall_impl _ _ _ Hi (fun i Hn => kex_SIDH_turn A B i HA HB Ha Hb Hn))) as (ks & Hk & Hf & _). by eapply Hjoin.
Qed.

(** ** The counts say which systems both sides have *)

(** Every count is 0, or 1 for an enabled system. *)
Definition counts_ok (c : list Z) : Prop := length c = 32%nat /\
  forall i n, c !! i = Some n -> n = 0 \/ (n = 1 /\ exists sys, enum_to_int sys = Z.of_nat i /\ enabled sys = true).
Notation counted s := (counts_ok (m_cryptolists_count s)).

Definition compatible (A B : c_multikeys_PAIR) : Prop := forall sys, 0 < nkeys A sys -> 0 < nkeys B sys -> enabled sys = true.

Lemma enabled_ID sys : enabled sys = true -> exists c, t_crypto_system_type_to_ID (enum_to_int sys) = Ret c.
Proof. destruct sys; try discriminate; intros _; by eexists. Qed.

Lemma count_one sys rng (s : c_stream) : enum_to_int sys < 32 -> enabled sys = true -> counted s ->
  exists s', count_system true sys (rng, s) = (Ret tt, (rng, s')) /\ counted s' /\ m_side_initiator s' = m_side_initiator s.
Proof.
  intros He Hen [Hl Hc]. assert (0 <= enum_to_int sys) as H0 by (by destruct sys).
  destruct (at_lookup (m_cryptolists_count s) (enum_to_int sys)) as (x & _ & E); [unfold zlen; rewrite Hl; lia|].
  exists (set_count (<[Z.to_nat (enum_to_int sys) := 1]> (m_cryptolists_count s)) s). split_and!; [| |done].
  - unfold count_system, when, on_snd, mbind, M_mbind, mget, mlift, mput. cbn [fst snd]. by rewrite E.
  - split; [cbn; by rewrite length_insert|]. cbn [m_cryptolists_count set_count]. intros i n Hi.
    apply list_lookup_insert_Some in Hi as [(<- & <- & _)|[_ Hi]]; [|by apply Hc].
    right. split; [done|]. exists sys. split; [lia|done].
Qed.

Lemma system_succeeds A B recv acc sys rng (s : c_stream) : honest A -> honest B -> modest A -> modest B -> compatible A B ->
  enum_to_int sys < 32 -> counted s -> sends_few acc -> (sys = e_crypto_system_type_NTRU_EES439EP1 -> acc.2 = ∅) ->
  exists acc' rng' s', system A (m_pub B) true true recv acc sys (rng, s) = (Ret acc', (rng', s')) /\
    counted s' /\ sends_few acc' /\ (sys <> e_crypto_system_type_NTRU_EES439EP1 -> acc'.2 = acc.2).
Proof.
  intros HA HB MA MB Hcomp He Hs Hacc Hempty. rewrite system_eval by (done || apply HA || apply HB).
  destruct (0 <? nkeys A sys) eqn:Ea, (0 <? nkeys B sys) eqn:Eb; cbn [andb];
    try (exists acc, rng, s; split_and!; done). zbool.
  pose proof (Hcomp sys Ea Eb) as Hen. destruct (enabled_ID sys Hen) as [id Hid]. rewrite Hid, bind_lift.
  destruct (count_one sys rng s He Hen Hs) as (s' & Ec & Hs' & _). rewrite (M_bind_ret _ _ _ _ _ Ec).
  destruct (body_succeeds A B recv sys id acc rng HA HB MA MB Ea Eb Hid Hacc Hempty) as (acc' & rng' & E & Hacc' & Hsame).
  exists acc', rng', s'. unfold on_fst. cbn [fst snd]. by rewrite E.
Qed.

Lemma fold_succeeds A B recv l : honest A -> honest B -> modest A -> modest B -> compatible A B ->
  NoDup l -> Forall (fun e => enum_to_int e < 32) l -> forall acc rng (s : c_stream), counted s -> sends_few acc ->
  (e_crypto_system_type_NTRU_EES439EP1 ∈ l -> acc.2 = ∅) ->
  exists acc' rng' s', mfold (system A (m_pub B) true true recv) acc l (rng, s) = (Ret acc', (rng', s')) /\
    counted s' /\ sends_few acc'.
Proof.
  intros HA HB MA MB Hcomp Hnd Hl. induction Hl as [|sys l He Hl IH]; intros acc rng s Hs Hacc Hempty; [by exists acc, rng, s|].
  apply NoDup_cons in Hnd as [Hin Hnd]. cbn [mfold].
  destruct (system_succeeds A B recv acc sys rng s HA HB MA MB Hcomp He Hs Hacc) as (acc1 & rng1 & s1 & E1 & Hs1 & Hacc1 & Hsame);
    [intros ->; apply Hempty; by left|].
  rewrite (M_bind_ret _ _ _ _ _ E1). apply IH; [done..|]. intros Hn. rewrite Hsame; [apply Hempty; by right|]. congruence.
Qed.

(** Counting keeps the counts, on either side. *)
Lemma system_counted P Q w recv acc sys rng s acc' rng' s' : honest P -> honest Q -> compatible P Q ->
  enum_to_int sys < 32 -> counted s -> system P (m_pub Q) w true recv acc sys (rng, s) = (Ret acc', (rng', s')) -> counted s'.
Proof.
  intros HP HQ Hcomp He Hs. rewrite system_eval by (done || apply HP || apply HQ).
  destruct (0 <? nkeys P sys) eqn:Ea, (0 <? nkeys Q sys) eqn:Eb; cbn [andb]; try (intros [= _ _ <-]; done). zbool.
  pose proof (Hcomp sys Ea Eb) as Hen. destruct (enabled_ID sys Hen) as [id Hid]. rewrite Hid, bind_lift.
  destruct (count_one sys rng s He Hen Hs) as (s1 & Ec & Hs1 & _). rewrite (M_bind_ret _ _ _ _ _ Ec).
  unfold on_fst. cbn [fst snd]. destruct (kct_body _ _ _ _ _ _ _ _ _ _) as [o r]. by intros [= _ _ <-].
Qed.

Lemma fold_counted P Q w recv l : honest P -> honest Q -> compatible P Q -> Forall (fun e => enum_to_int e < 32) l ->
  forall acc rng s acc' rng' s', counted s -> mfold (system P (m_pub Q) w true recv) acc l (rng, s) = (Ret acc', (rng', s')) -> counted s'.
Proof.
  intros HP HQ Hcomp Hl. induction Hl as [|sys l He Hl IH]; intros acc rng s acc' rng' s' Hs E; [by injection E as _ _ <-|].
  cbn [mfold] in E. apply M_bind_inv in E as (acc1 & [rng1 s1] & E1 & E2).
  eapply IH; [|exact E2]. by apply (system_counted P Q w recv acc sys rng s acc1 rng1 s1).
Qed.

Lemma zero_counted s : length (m_cryptolists_count s) = 32%nat -> counted (zero_counts s).
Proof.
  intros Hl. split; [cbn; by rewrite length_map|]. intros i n Hi. cbn in Hi. left.
  rewrite list_lookup_fmap in Hi. destruct (m_cryptolists_count s !! i); [by injection Hi as <-|done].
Qed.

Lemma KCT_counted P Q ps rng s k rng' s' : honest P -> honest Q -> compatible P Q -> length (m_cryptolists_count s) = 32%nat ->
  KCT P (m_pub Q) true ps (rng, s) = (Ret k, (rng', s')) -> counted s'.
Proof.
  intros HP HQ Hcomp Hl E. rewrite KCT_eval in E by (apply HP || apply HQ).
  apply M_bind_inv in E as (recv & [rng0 s0] & E0 & E). unfold mlift in E0. injection E0 as _ <- <-.
  rewrite (M_bind_ret _ _ _ tt (rng, zero_counts s)) in E by done.
  apply M_bind_inv in E as (acc & [rng1 s1] & E1 & E2).
  apply finish_inv in E2 as (d & _ & _ & [= -> ->]). cbn [m_cryptolists_count set_kexasym].
  eapply fold_counted; [..|exact E1]; [done..|apply systems_32|by apply zero_counted].
Qed.

(** ** The size of the passwords *)

Lemma zlen_uvarint v : zlen (uvarint_bytes v) <= 9.
Proof.
  unfold uvarint_bytes. repeat case_bool; rewrite ?zlen_cons, ?zlen_be_bytes; lia.
Qed.

Lemma zlen_sent encs : small encs -> zlen encs <= 700 ->
  zlen (map_bytes char_le (sent Byte.x74 encs (∅ : t_kexasym))) <= SANE_MAX_SIZE_FOR_STRING.
Proof.
  intros Hs Hn. destruct encs as [|x encs]; [vm_compute; discriminate|]. set (l := x :: encs) in *.
  assert (map_items char_le (sent Byte.x74 l (∅ : t_kexasym)) = [(Byte.x74, l)]) as E.
  { unfold map_items, sent, l. rewrite lookup_empty, insert_empty, map_to_list_singleton. reflexivity. }
  unfold map_bytes. rewrite E. cbn [map concat]. unfold pair_bytes. cbn [fst snd]. rewrite app_nil_r, !zlen_app.
  cbn [ser_bytes vector_string_ok char_ok]. unfold counted_bytes. rewrite zlen_app.
  assert (zlen (concat (map ser_bytes l)) <= zlen l * 65544) as Hc.
  { clear -Hs. induction Hs as [|e l He Hs IH]; [done|]. cbn [map concat]. rewrite zlen_app, zlen_cons.
    assert (zlen (ser_bytes e) = zlen (uvarint_bytes (zlen e)) + zlen e) as -> by apply (zlen_app (uvarint_bytes (zlen e)) e).
    pose proof (zlen_uvarint (zlen e)). lia. }
  pose proof (zlen_uvarint (zlen [(Byte.x74, l)])). pose proof (zlen_uvarint (zlen l)).
  unfold SANE_MAX_SIZE_FOR_STRING. change (zlen [Byte.x74]) with 1. lia.
Qed.

(** ** The start *)

Lemma KCT_succeeds A B rng (s : c_stream) : honest A -> honest B -> modest A -> modest B -> compatible A B ->
  m_side_initiator s = true -> length (m_cryptolists_count s) = 32%nat ->
  exists k rng' s', KCT A (m_pub B) true [] (rng, s) = (Ret k, (rng', s')) /\ counted s' /\
    zlen (m_packetstart_kexasym s') <= SANE_MAX_SIZE_FOR_STRING.
Proof.
  intros HA HB MA MB Hcomp Hsi Hl. rewrite KCT_eval by (apply HA || apply HB). rewrite Hsi. unfold kct_received.
  rewrite (M_bind_ret _ _ _ ∅ (rng, s)) by done. rewrite (M_bind_ret _ _ _ tt (rng, zero_counts s)) by done.
  destruct systems_32 as [Hnd H32].
  destruct (fold_succeeds A B ∅ (systems_below 32) HA HB MA MB Hcomp Hnd H32 (replicate (Z.to_nat Hash1_size) Byte.x00, ∅) rng (zero_counts s))
    as (acc & rng1 & s1 & E1 & Hc & _ & encs & Hsm & Hn & Hs); [|split; [done|exists []; split_and!; [constructor|done|done]]|done|].
  { by apply zero_counted. }
  rewrite (M_bind_ret _ _ _ _ _ E1).
  assert (gen_str (push_map_object char_le acc.2) = Ret (map_bytes char_le (sent Byte.x74 encs (∅ : t_kexasym)))) as Ed
    by (rewrite Hs; apply sent_written; [done|lia]).
  rewrite (finish_eval _ _ _ _ Ed). do 3 eexists. split; [done|]. split; [exact Hc|]. cbn [m_packetstart_kexasym set_kexasym].
  by apply zlen_sent.
Qed.

(** The parity of an exchange is defined. *)
Definition hashed (p : c_multikeys_PAIR) : Prop := exists h, (get_hash Hash1 (pub_keys (m_pub p))).1 = Ret h.

End Start.

(** ** Ephemeral identities *)

Section Ephemeral.
Context {Rng : Type} `{!CryptoLib Rng} `{!CryptoLaws Rng} `{!FreshLaws Rng}.
Context (NTRU SIDH : bool).

Notation enabled := (enabled NTRU SIDH).
Notation gen_type := (generate_type NTRU SIDH gen_x25519 gen_ed25519 gen_ntru_encrypt gen_ntru_sign gen_sidh).
Notation pub_lists p := (m_cryptolists_general (pub_keys (m_pub p))).
Notation prv_lists p := (m_cryptolists_general (m_PRV p)).

(** A pair of keys that a generator made. *)
Definition fresh_key (sys : t_crypto_system_type) (s P : bytes) : Prop := zlen P <= 10000 /\
  match sys with
  | e_crypto_system_type_X25519 => x25519_pair s P
  | e_crypto_system_type_NTRU_EES439EP1 => ntru_pair s P
  | e_crypto_system_type_SIDH => sidh_pair s P
  | _ => True
  end.

(** At each place no keys, or one fresh pair of an enabled system. *)
Definition one_or_none (i : nat) (pub prv : list bytes) : Prop := (pub = [] /\ prv = []) \/
  exists sys s P, enum_to_int sys = Z.of_nat i /\ enabled sys = true /\ pub = [P] /\ prv = [s] /\ fresh_key sys s P.

Record ephemeral (p : c_multikeys_PAIR) : Prop := {
  eph_wf : wf_pair p;
  eph_hash : m_hash_cached (pub_keys (m_pub p)) = [];
  eph_use : m_crypto_use (pub_keys (m_pub p)) = e_crypto_use_open;
  eph_prefix : m_ipv6_prefix (m_pub p) = str "fd42";
  eph_keys : forall i, (i < 32)%nat -> exists pub prv, pub_lists p !! i = Some pub /\ prv_lists p !! i = Some prv /\ one_or_none i pub prv
}.

Lemma ephemeral_new : ephemeral new_multikeys_PAIR.
Proof.
  split; [by split|done..|]. intros i Hi. exists [], []. split_and!; [by apply lookup_replicate_2..|by left].
Qed.

Lemma enum_nonneg sys : 0 <= enum_to_int sys.
Proof. by destruct sys. Qed.

Lemma enum_inj sys sys' : enum_to_int sys = enum_to_int sys' -> sys = sys'.
Proof.
  intros E. pose proof (crypto_system_of_to_int sys) as H. rewrite E, crypto_system_of_to_int in H. by injection H.
Qed.

(** The keys of a system of such an identity. *)
Lemma ephemeral_at p sys : ephemeral p -> enum_to_int sys < 32 ->
  (keys_of (pub_keys (m_pub p)) sys = [] /\ keys_of (m_PRV p) sys = []) \/
  exists s P, enabled sys = true /\ keys_of (pub_keys (m_pub p)) sys = [P] /\ keys_of (m_PRV p) sys = [s] /\ fresh_key sys s P.
Proof.
  intros Hp Hs. pose proof (enum_nonneg sys). destruct (eph_keys p Hp (Z.to_nat (enum_to_int sys))) as (pub & prv & E1 & E2 & Hk); [lia|].
  unfold keys_of. rewrite E1, E2. destruct Hk as [[-> ->]|(sys' & s & P & Ei & Hen & -> & -> & Hf)]; [by left|right].
  assert (sys' = sys) as -> by (apply enum_inj; lia). by exists s, P.
Qed.

Lemma ephemeral_wf_keys p : ephemeral p -> wf_keys (pub_keys (m_pub p)).
Proof.
  intros Hp. split; [apply Hp|]. intros i keys Hi Hne.
  assert (i < 32)%nat as Hlt by (apply lookup_lt_Some in Hi; rewrite (proj1 (eph_wf p Hp)) in Hi; lia).
  destruct (eph_keys p Hp i Hlt) as (pub & prv & E1 & _ & Hk). rewrite Hi in E1. injection E1 as <-.
  destruct Hk as [[-> _]|(sys & s & P & Ei & Hen & -> & _ & Hz & _)]; [done|]. rewrite <- Ei. split_and!.
  - by apply (enabled_ID NTRU SIDH).
  - done.
  - constructor; [|done]. unfold SANE_MAX_SIZE_FOR_STRING. lia.
Qed.

Lemma ephemeral_honest p : ephemeral p -> honest p.
Proof.
  intros Hp. pose proof (eph_wf p Hp) as [H1 H2]. split; [done..| | |]; unfold matched.
  - destruct (ephemeral_at p e_crypto_system_type_X25519 Hp eq_refl) as [[-> ->]|(s & P & _ & -> & -> & _ & Hf)]; repeat constructor; done.
  - destruct (ephemeral_at p e_crypto_system_type_NTRU_EES439EP1 Hp eq_refl) as [[-> ->]|(s & P & _ & -> & -> & _ & Hf)]; repeat constructor; done.
  - destruct (ephemeral_at p e_crypto_system_type_SIDH Hp eq_refl) as [[-> ->]|(s & P & _ & -> & -> & _ & Hf)]; repeat constructor; done.
Qed.

Lemma ephemeral_modest p : ephemeral p -> modest p.
Proof.
  intros Hp. unfold modest.
  destruct (ephemeral_at p e_crypto_system_type_NTRU_EES439EP1 Hp eq_refl) as [[-> _]|(s & P & _ & -> & _)]; vm_compute; discriminate.
Qed.

Lemma keys_of_beyond k sys : length (m_cryptolists_general k) = 32%nat -> 32 <= enum_to_int sys -> keys_of k sys = [].
Proof. intros Hl Hs. unfold keys_of. by rewrite lookup_ge_None_2 by lia. Qed.

Lemma ephemeral_compatible p q : ephemeral p -> compatible NTRU SIDH p q.
Proof.
  intros Hp sys Hn _. destruct (decide (enum_to_int sys < 32)) as [Hs|Hs].
  - destruct (ephemeral_at p sys Hp Hs) as [[E _]|(s & P & Hen & _)]; [by rewrite E in Hn|done].
  - rewrite keys_of_beyond in Hn; [done|apply Hp|lia].
Qed.

(** A collection that can be written has a hash. *)
Lemma hash_defined k : wf_keys k -> m_hash_cached k = [] -> exists h, (get_hash Hash1 k).1 = Ret h.
Proof.
  intros Hw Hc. rewrite (get_hash_eval Hash1 Hash1_64 k Hc).
  assert (exists e, pushes (mfor (used_systems (m_cryptolists_general k)) (push_fingerprint Hash1)) e) as [e He].
  { assert (Forall (fun x => exists e, pushes (push_fingerprint Hash1 x) e) (used_systems (m_cryptolists_general k))) as Hall.
    { eapply Forall_impl; [by apply used_writable|]. intros [i l] [Hne Hwr]. destruct (Hwr Hne) as ((c & Hid) & _).
      eexists. unfold push_fingerprint. apply (pushes_lift _ _ c); [done|]. apply pushes_bind; [apply pushes_append|].
      apply (pushes_lift _ _ _ _ (fpr_accum_eval Hash1 Hash1_64 l)). apply pushes_varstring.
      pose proof (proj2 (fpr_fold Hash1 Hash1_64 l zeros64 eq_refl)) as Hl. unfold zlen. by rewrite Hl. }
    induction Hall as [|x l [e1 He1] Hall [e2 He2]]; [exists []; apply pushes_ret|]. exists (e1 ++ e2). by apply pushes_bind. }
  assert (exists d, fingerprint_serial Hash1 (m_cryptolists_general k) = Ret d) as [d ->]; [|by eexists].
  pose proof (used_count_bound k Hw). eexists. apply gen_str_pushes.
  apply (pushes_bind (push_bytes_n 3 (str "GMK"))); [apply (pushes_bytes_n (str "GMK"))|].
  do 3 (apply (pushes_bind (push_byte_u _)); [apply pushes_append|]).
  apply pushes_bind; [apply pushes_uvarint; lia|exact He].
Qed.

Lemma ephemeral_hashed p : ephemeral p -> hashed p.
Proof. intros Hp. apply hash_defined; [by apply ephemeral_wf_keys|apply Hp]. Qed.

(** ** Making one *)

Definition add_fresh (p : c_multikeys_PAIR) (sys : t_crypto_system_type) (s P : bytes) : c_multikeys_PAIR :=
  MultikeysPAIR (MultikeysPub (set_lists (<[Z.to_nat (enum_to_int sys) := [P]]> (pub_lists p)) (pub_keys (m_pub p))) (m_ipv6_prefix (m_pub p)))
    (set_lists (<[Z.to_nat (enum_to_int sys) := [s]]> (prv_lists p)) (m_PRV p)).

Definition without (p : c_multikeys_PAIR) (sys : t_crypto_system_type) : Prop := keys_of (pub_keys (m_pub p)) sys = [].

Lemma without_prv p sys : ephemeral p -> enum_to_int sys < 32 -> without p sys -> keys_of (m_PRV p) sys = [].
Proof. intros Hp Hs Hw. destruct (ephemeral_at p sys Hp Hs) as [[_ E]|(s & P & _ & E & _)]; [done|]. by rewrite Hw in E. Qed.

Lemma add_fresh_ephemeral p sys s P : ephemeral p -> enum_to_int sys < 32 -> enabled sys = true -> fresh_key sys s P ->
  ephemeral (add_fresh p sys s P) /\ (forall sys', sys' <> sys -> without p sys' -> without (add_fresh p sys s P) sys').
Proof.
  intros [[H1 H2] Hh Hu Hpre Hk] Hs Hen Hf. pose proof (enum_nonneg sys). split; [split|].
  - split; cbn; by rewrite length_insert.
  - done.
  - done.
  - done.
  - intros i Hi. cbn [add_fresh m_pub m_PRV pub_keys set_lists m_cryptolists_general]. destruct (decide (i = Z.to_nat (enum_to_int sys))) as [->|Hne].
    + rewrite !list_lookup_insert_eq by lia. exists [P], [s]. split_and!; [done..|]. right. exists sys, s, P. split_and!; try done. lia.
    + rewrite !list_lookup_insert_ne by done. by apply Hk.
  - intros sys' Hne Hw. unfold without. cbn [add_fresh m_pub pub_keys]. rewrite keys_of_insert by done. by rewrite bool_decide_eq_false_2 by done.
Qed.

Lemma generate_one_key (gen : M Rng (bytes * bytes)) p sys rng s P rng' : ephemeral p -> enum_to_int sys < 32 -> without p sys ->
  gen rng = (Ret (s, P), rng') -> generate_loop gen sys 1 (rng, p) = (Ret tt, (rng', add_fresh p sys s P)).
Proof.
  intros Hp Hs Hw Hg. cbn [generate_loop].
  rewrite (M_bind_ret _ _ _ (s, P) (rng', p)) by (unfold on_fst; cbn [fst snd]; by rewrite Hg). cbn [fst snd].
  rewrite (M_bind_ret _ _ _ tt (rng', add_fresh p sys s P)); [done|]. unfold on_snd. cbn [fst snd].
  unfold add_public_and_PRIVATE, on_m_pub, on_m_PRV, add_public, on_pub_keys, mbind, M_mbind.
  rewrite add_key_eval by (done || apply (eph_wf p Hp)). cbn [m_PRV m_pub pub_keys].
  rewrite add_key_eval by (done || apply (eph_wf p Hp)). by rewrite Hw, (without_prv p sys Hp Hs Hw).
Qed.

(** What [generate_type] ends with. *)
Definition gen_end : M (Rng * c_multikeys_PAIR) unit :=
  on_snd (on_m_pub (on_pub_keys set_hash_dirty));;
  s ← mget;
  _ ← mlift (serialize_bin (pub_keys (m_pub s.2)));
  mret tt.

Lemma generate_type_end p rng : ephemeral p -> gen_end (rng, p) = (Ret tt, (rng, p)).
Proof.
  intros Hp. unfold gen_end. assert ((on_snd (on_m_pub (on_pub_keys set_hash_dirty)) : M (Rng * c_multikeys_PAIR) unit) (rng, p) = (Ret tt, (rng, p))) as E.
  { pose proof (eph_hash p Hp) as Hh. destruct p as [[[l h u] pre] prv]. cbn in Hh. by subst h. }
  rewrite (M_bind_ret _ _ _ _ _ E). unfold mbind, M_mbind, mget. cbn [snd].
  by rewrite (serialize_bin_eval _ (ephemeral_wf_keys p Hp)).
Qed.

Lemma generate_type_makes p sys rng : ephemeral p -> enum_to_int sys < 32 -> enabled sys = true -> without p sys ->
  exists rng' s P, gen_type sys 1 (rng, p) = (Ret tt, (rng', add_fresh p sys s P)) /\ fresh_key sys s P.
Proof.
  intros Hp Hs Hen Hw.
  assert (forall gen s P rng', gen rng = (Ret (s, P), rng') -> fresh_key sys s P ->
    (generate_loop gen sys 1;; gen_end) (rng, p) = (Ret tt, (rng', add_fresh p sys s P))) as Hrun.
  { intros gen s P rng' Hg Hf. rewrite (M_bind_ret _ _ _ _ _ (generate_one_key gen p sys rng s P rng' Hp Hs Hw Hg)).
    by apply generate_type_end, add_fresh_ephemeral. }
  unfold generate_type. change (1 =? 0) with false. change (Z.to_nat 1) with 1%nat. cbn match.
  destruct sys; try discriminate Hen.
  - destruct (gen_x25519_fresh rng) as (s & P & rng' & Hg & Hx & Hz). exists rng', s, P.
    assert (fresh_key e_crypto_system_type_X25519 s P) as Hf by (split; [lia|done]). split; [by apply Hrun|done].
  - destruct (gen_ed25519_fresh rng) as (s & P & rng' & Hg & Hz). exists rng', s, P.
    assert (fresh_key e_crypto_system_type_Ed25519 s P) as Hf by (split; [lia|done]). split; [by apply Hrun|done].
  - cbn in Hen. rewrite Hen. destruct (gen_ntru_encrypt_fresh rng) as (s & P & rng' & Hg & Hx & Hz1 & Hz2). exists rng', s, P.
    assert (fresh_key e_crypto_system_type_NTRU_EES439EP1 s P) as Hf by (split; [lia|done]). split; [|done]. apply Hrun; [|done].
    unfold generate_nrtu_encrypt_key_pair. rewrite (M_bind_ret _ _ _ _ _ Hg). unfold massert. cbn [fst snd]. by rewrite Hz1, Hz2.
  - cbn in Hen. rewrite Hen. destruct (gen_sidh_fresh rng) as (s & P & rng' & Hg & Hx & Hz). exists rng', s, P.
    assert (fresh_key e_crypto_system_type_SIDH s P) as Hf by (split; [lia|done]). split; [by apply Hrun|done].
  - cbn in Hen. rewrite Hen. destruct (gen_ntru_sign_fresh rng) as (s & P & rng' & Hg & Hz1 & Hz2). exists rng', s, P.
    assert (fresh_key e_crypto_system_type_NTRU_sign s P) as Hf by (split; [lia|done]). split; [|done]. apply Hrun; [|done].
    unfold generate_nrtu_sign_key_pair. rewrite (M_bind_ret _ _ _ _ _ Hg). unfold massert. cbn [fst snd]. by rewrite Hz1, Hz2.
Qed.

Lemma generate_list_makes c rng : counts_ok NTRU SIDH c ->
  exists rng' p, generate_list NTRU SIDH gen_x25519 gen_ed25519 gen_ntru_encrypt gen_ntru_sign gen_sidh c true (rng, new_multikeys_PAIR)
    = (Ret tt, (rng', p)) /\ ephemeral p.
Proof.
  intros [Hl Hc]. unfold generate_list. assert (zlen c = 32) as -> by (unfold zlen; lia). destruct systems_32 as [Hnd H32].
  assert (forall sys, sys ∈ systems_below 32 -> without new_multikeys_PAIR sys) as Hw.
  { intros sys Hin. rewrite Forall_forall in H32. specialize (H32 sys Hin). pose proof (enum_nonneg sys).
    unfold without, keys_of. change (pub_lists new_multikeys_PAIR) with (replicate 32 (@nil bytes)). by rewrite lookup_replicate_2 by lia. }
  revert Hw. generalize ephemeral_new. generalize new_multikeys_PAIR. intros p Hp Hw. revert rng p Hp Hw.
  induction H32 as [|sys l Hs H32 IH]; intros rng p Hp Hw; [by exists rng, p|]. apply NoDup_cons in Hnd as [Hin Hnd]. cbn [mfor].
  pose proof (enum_nonneg sys). destruct (at_lookup c (enum_to_int sys)) as (n & Hn & En); [unfold zlen; lia|].
  destruct (Hc _ _ Hn) as [->|(-> & sys' & Es & Hen)].
  - rewrite (M_bind_ret _ _ _ tt (rng, p)) by (rewrite En; done). apply IH; [done..|]. intros sys2 Hin2. apply Hw. by right.
  - assert (sys' = sys) as -> by (apply enum_inj; lia).
    destruct (generate_type_makes p sys rng Hp Hs Hen) as (rng' & s & P & E & Hf); [apply Hw; by left|].
    destruct (add_fresh_ephemeral p sys s P Hp Hs Hen Hf) as [Hp' Hw'].
    rewrite (M_bind_ret _ _ _ tt (rng', add_fresh p sys s P)) by (rewrite En, bind_lift; exact E).
    apply IH; [done..|]. intros sys2 Hin2. apply Hw'; [congruence|]. apply Hw. by right.
Qed.
End Ephemeral.

(** ** What travels *)

Section Travel.
Context {Rng : Type} `{!CryptoLib Rng} `{!CryptoLaws Rng} `{!FreshLaws Rng} `{!BoxLaws Rng} `{!SequenceLaws Rng}.
Context (NTRU SIDH : bool).

Notation ephemeral := (ephemeral NTRU SIDH).
Notation counted s := (counts_ok NTRU SIDH (m_cryptolists_count s)).
Notation system := (kct_system NTRU SIDH).
Notation KCT := (calculate_KCT NTRU SIDH).
Notation nonce_zero := (replicate (Z.to_nat nonce_constantbytes) Byte.x00).

(** The public keys of an ephemeral identity, as sent and as received. *)
Definition ide_bytes (p : c_multikeys_PAIR) : bytes := keys_bytes (pub_keys (m_pub p)).

Lemma ephemeral_sent p : ephemeral p -> load_pub (ide_bytes p) = Ret (m_pub p).
Proof.
  intros Hp. unfold ide_bytes. rewrite (load_pub_keys _ (ephemeral_wf_keys _ _ p Hp) (eph_use _ _ p Hp)).
  pose proof (eph_hash _ _ p Hp) as Hh. pose proof (eph_prefix _ _ p Hp) as Hpre. destruct p as [[[l h u] pre] prv]. cbn in *. by subst h pre.
Qed.

Lemma zlen_concat_le {A} (enc : A -> bytes) (l : list A) (n : Z) : Forall (fun x => zlen (enc x) <= n) l ->
  zlen (concat (map enc l)) <= zlen l * n.
Proof.
  intros H. induction H as [|x l Hx H IH]; [done|]. cbn [map concat]. rewrite zlen_app, zlen_cons. lia.
Qed.

Lemma ide_size p : ephemeral p -> zlen (ide_bytes p) <= 1000000.
Proof.
  intros Hp. pose proof (ephemeral_wf_keys _ _ p Hp) as Hw. pose proof (used_count_bound _ Hw) as [_ Hn].
  assert (Forall (fun x => zlen (system_bytes x) <= 20000) (used_systems (m_cryptolists_general (pub_keys (m_pub p))))) as Hall.
  { apply Forall_forall. intros [i l] Hin. rewrite used_systems_from in Hin. apply used_from_elem in Hin as (j & Hj & -> & Hne).
    assert (j < 32)%nat as Hlt by (apply lookup_lt_Some in Hj; rewrite (proj1 (eph_wf _ _ p Hp)) in Hj; lia).
    destruct (eph_keys _ _ p Hp j Hlt) as (pub & prv & E1 & _ & Hk). rewrite Hj in E1. injection E1 as <-.
    destruct Hk as [[-> _]|(sys & s & P & Ei & _ & -> & _ & Hz & _)]; [done|]. unfold system_bytes. cbn [fst snd].
    destruct (t_crypto_system_type_to_ID _) as [c|e| |]; [|by vm_compute..]. unfold counted_bytes. cbn [map concat].
    unfold varstring_bytes. rewrite !zlen_app, zlen_nil. pose proof (zlen_uvarint (byte_val c)). pose proof (zlen_uvarint (zlen [P])).
    pose proof (zlen_uvarint (zlen P)). lia. }
  pose proof (zlen_concat_le system_bytes _ _ Hall). unfold ide_bytes, keys_bytes. rewrite !zlen_app.
  pose proof (zlen_uvarint (zlen (used_systems (m_cryptolists_general (pub_keys (m_pub p)))))).
  change (zlen (str "GMK")) with 3. change (zlen [Byte.x61]) with 1. change (zlen [crypto_use_byte (m_crypto_use (pub_keys (m_pub p)))]) with 1. lia.
Qed.

(** ** Packet starts *)

Definition start_bytes (kex c : bytes) : bytes := varstring_bytes kex ++ varstring_bytes c.

Lemma packetstart_eval (this s : c_stream) b : m_boxer s = Some b ->
  zlen (m_packetstart_kexasym this) <= SANE_MAX_SIZE_FOR_STRING -> zlen (m_packetstart_IDe this) <= 1000000 ->
  generate_packetstart this s = (Ret (start_bytes (m_packetstart_kexasym this) (boxer_box b (m_packetstart_IDe this)).1),
    set_boxers (Some (boxer_box b (m_packetstart_IDe this)).2) (m_unboxer s) s).
Proof.
  intros Hb Hk Hi. unfold SANE_MAX_SIZE_FOR_STRING in Hk. unfold generate_packetstart, box.
  pose proof (box_grows b (m_packetstart_IDe this)) as Hg.
  rewrite (M_bind_ret _ _ _ tt (varstring_bytes (m_packetstart_kexasym this), s))
    by (unfold on_fst; cbn [fst snd]; rewrite (pushes_varstring (m_packetstart_kexasym this)) by lia; done).
  unfold mbind, M_mbind, on_snd, on_fst, mget, mput, mret, M_mret. cbn [fst snd]. rewrite Hb.
  destruct (boxer_box b (m_packetstart_IDe this)) as [c b'] eqn:Eb. cbn [fst snd] in *.
  rewrite (pushes_varstring c) by lia. done.
Qed.

Lemma pops_skip_bytes s : pops (skip_bytes_n (zlen s)) s tt.
Proof.
  intros p r. pose proof (pops_bytes_n s p r) as H. revert H. unfold pop_bytes_n, skip_bytes_n.
  destruct (zlen s =? 0); [by intros [= _ <-]|]. unfold mbind, M_mbind, mget, move_now, mmodify, mret, M_mret.
  destruct (check_available (zlen s) _) as [[u|e| |] [d n]]; [|intros [=]..]. cbn [m_data m_data_now]; by intros [= _ -> ->].
Qed.

Lemma pops_skip_varstring s : zlen s <= SANE_MAX_SIZE_FOR_STRING -> pops skip_varstring (varstring_bytes s) tt.
Proof.
  intros Hs. pose proof (zlen_nonneg s). unfold SANE_MAX_SIZE_FOR_STRING in Hs.
  apply (pops_bind _ _ _ _ (zlen s)); [apply pops_uvarint; lia|].
  apply (pops_bind_0 _ _ _ tt); [apply pops_assert; by apply Z.leb_le|apply pops_skip_bytes].
Qed.

Lemma start_nonempty kex c : start_bytes kex c <> [].
Proof. unfold start_bytes. intros [H _]%app_eq_nil. by apply varstring_nonempty in H. Qed.

Lemma parse_start {A} kex c (m : M parser A) x : (m (Parser (start_bytes kex c) 0)).1 = Ret x ->
  parse_with (start_bytes kex c) m = Ret x.
Proof.
  intros E. unfold parse_with, parser_of_string. pose proof (start_nonempty kex c) as Hn.
  destruct (start_bytes kex c); [done|]. exact E.
Qed.

Lemma start_kexasym kex c : zlen kex <= SANE_MAX_SIZE_FOR_STRING ->
  parse_packetstart_kexasym (start_bytes kex c) = Ret kex.
Proof.
  intros Hz. apply parse_start. pose proof (pops_varstring kex Hz [] (varstring_bytes c)) as P.
  rewrite zlen_nil in P. cbn [app] in P. unfold start_bytes. by rewrite P.
Qed.

Lemma start_IDe kex c (s : c_stream) u : m_unboxer s = Some u -> zlen kex <= SANE_MAX_SIZE_FOR_STRING -> zlen c <= SANE_MAX_SIZE_FOR_STRING ->
  parse_packetstart_IDe (start_bytes kex c) s = ((unboxer_unbox c u).1, set_boxers (m_boxer s) (Some (unboxer_unbox c u).2) s).
Proof.
  intros Hu Hk Hc. unfold parse_packetstart_IDe.
  assert (parse_with (start_bytes kex c) (skip_varstring;; pop_varstring) = Ret c) as E.
  { apply parse_start. pose proof (pops_bind skip_varstring (fun _ => pop_varstring) _ _ tt c (pops_skip_varstring kex Hk) (pops_varstring c Hc) [] []) as P.
    rewrite zlen_nil, app_nil_r in P. cbn [app] in P. unfold start_bytes. by rewrite P. }
  rewrite E, bind_lift. unfold mbind, M_mbind, mget. rewrite Hu. unfold mrun. by destruct (unboxer_unbox c u).
Qed.

(** The first box of one side is opened by the unboxer of the other. *)
Lemma first_box odd k m : (unboxer_unbox (boxer_box (make_boxer odd k nonce_zero) m).1 (make_unboxer odd k nonce_zero)).1 = Ret m.
Proof.
  rewrite unbox_own, nonce_first. apply unbox_box. by rewrite boxer_key_make, unboxer_key_make.
Qed.

(** ** Steps of the tunnel *)

(** A stream after an exchange, whose boxers have not been used. *)
Definition opened (odd : bool) (k kex : bytes) (s : c_stream) : Prop :=
  m_boxer s = Some (make_boxer odd k nonce_zero) /\ m_unboxer s = Some (make_unboxer (negb odd) k nonce_zero) /\
  m_packetstart_kexasym s = kex /\ counted s /\ m_KCT s = k /\ m_nonce_odd s = odd.

Lemma stream_IDe_made s rng odd k kex : opened odd k kex s ->
  exists p rng' s', stream_create_IDe NTRU SIDH true (rng, s) = (Ret p, (rng', s')) /\ ephemeral p /\
    opened odd k kex s' /\ m_packetstart_IDe s' = ide_bytes p.
Proof.
  intros (Hb & Hu & Hk & Hc & Ho). destruct (generate_list_makes NTRU SIDH _ rng Hc) as (rng' & p & E & Hp).
  exists p, rng', (set_packetstart_IDe (ide_bytes p) s). split; [|by split_and!].
  unfold stream_create_IDe. rewrite (M_bind_ret _ _ _ s (rng, s)) by done.
  rewrite (M_bind_ret _ _ _ p (rng', s)); [|unfold on_fst, mrun; cbn [fst snd]; by rewrite E].
  rewrite (M_bind_ret _ _ _ tt (rng', set_packetstart_IDe (ide_bytes p) s)); [done|].
  unfold on_snd, set_packetstart_IDe_from. cbn [fst snd].
  by rewrite (serialize_bin_eval _ (ephemeral_wf_keys _ _ p Hp)).
Qed.

Lemma create_IDe_made w s nm rng odd k kex : opened odd k kex s ->
  exists p rng' s', create_IDe NTRU SIDH (rng, Tunnel w None (Some s) None nm) = (Ret tt, (rng', Tunnel w (Some p) (Some s') None nm)) /\
    ephemeral p /\ opened odd k kex s' /\ m_packetstart_IDe s' = ide_bytes p.
Proof.
  intros Hs. destruct (stream_IDe_made s rng odd k kex Hs) as (p & rng' & s' & E & H). exists p, rng', s'. split; [|done].
  unfold create_IDe. rewrite (M_bind_ret _ _ _ (Tunnel w None (Some s) None nm) (rng, Tunnel w None (Some s) None nm)) by done.
  cbn [m_IDe m_stream_crypto_ab]. unfold mthrow_if, othrow_if. rewrite bind_lift. unfold mrun. cbn [fst snd]. by rewrite E.
Qed.

(** The packet start that carries an identity, read by the other side. *)
Lemma start_opens odd k kex p s : ephemeral p -> zlen kex <= SANE_MAX_SIZE_FOR_STRING -> m_unboxer s = Some (make_unboxer odd k nonce_zero) ->
  exists s', parse_packetstart_IDe (start_bytes kex (boxer_box (make_boxer odd k nonce_zero) (ide_bytes p)).1) s = (Ret (ide_bytes p), s') /\
    m_boxer s' = m_boxer s /\ m_KCT s' = m_KCT s.
Proof.
  intros Hp Hk Hu. rewrite (start_IDe _ _ s _ Hu); [|done|].
  - rewrite first_box. by eexists.
  - rewrite box_grows. pose proof (ide_size p Hp). unfold SANE_MAX_SIZE_FOR_STRING. lia.
Qed.

(** A packet start for [this], boxed by a stream that was not used yet. *)
Lemma start_sent odd k kex this s p : m_packetstart_IDe this = ide_bytes p -> ephemeral p ->
  zlen (m_packetstart_kexasym this) <= SANE_MAX_SIZE_FOR_STRING -> m_boxer s = Some (make_boxer odd k nonce_zero) ->
  m_packetstart_kexasym this = kex ->
  exists s', generate_packetstart this s = (Ret (start_bytes kex (boxer_box (make_boxer odd k nonce_zero) (ide_bytes p)).1), s') /\
    m_unboxer s' = m_unboxer s /\ m_KCT s' = m_KCT s.
Proof.
  intros Hi Hp Hz Hb <-. rewrite (packetstart_eval this s _ Hb Hz); [|rewrite Hi; by apply ide_size].
  rewrite Hi. by eexists.
Qed.

(** The exchange of an initiator and the answers it gets. *)
Lemma exchange_both A B nA rng : honest A -> honest B -> modest A -> modest B -> compatible NTRU SIDH A B -> hashed A -> hashed B ->
  exists k odd kex rng' s, exchange_start NTRU SIDH A (m_pub B) true (rng, new_stream true nA) = (Ret tt, (rng', s)) /\
    opened odd k kex s /\ zlen kex <= SANE_MAX_SIZE_FOR_STRING /\
    forall c rngB nB, exists odd' kex' sB,
      exchange_done NTRU SIDH B (m_pub A) (start_bytes kex c) (rngB, new_stream false nB) = (Ret tt, (rngB, sB)) /\ opened odd' k kex' sB /\
      ((get_hash Hash1 (pub_keys (m_pub A))).1 <> (get_hash Hash1 (pub_keys (m_pub B))).1 -> odd' = negb odd).
Proof.
  intros HA HB MA MB Hcomp hA hB.
  destruct (KCT_succeeds NTRU SIDH A B rng (new_stream true nA) HA HB MA MB Hcomp eq_refl eq_refl) as (k & rng' & s1 & E1 & Hc & Hz).
  assert (exists odd, calculate_nonce_odd A (m_pub B) = Ret odd) as [odd Ho].
  { destruct hA as [ha Ha], hB as [hb Hb]. unfold calculate_nonce_odd, hash_greater. rewrite Ha, Hb. by eexists. }
  exists k, odd, (m_packetstart_kexasym s1), rng', (exchanged odd k s1). split; [by apply exchange_eval|]. split; [by split_and!|]. split; [done|].
  intros c rngB nB.
  destruct (KCT_agreement NTRU SIDH A B rng (new_stream true nA) k rng' s1 HA HB (modest_few A MA) (modest_few B MB) eq_refl eq_refl E1) as [_ HBob].
  destruct (HBob (start_bytes (m_packetstart_kexasym s1) c) rngB (new_stream false nB)) as (sB & E2 & _);
    [apply start_nonempty|by apply start_kexasym|done..|].
  destruct (hash_greater_swap _ _ _ Ho) as (odd' & Ho' & Hodd).
  exists odd', (m_packetstart_kexasym sB), (exchanged odd' k sB). split; [by apply exchange_eval|]. split; [|done].
  assert (counted sB) as HcB; [|by split_and!].
  eapply (KCT_counted NTRU SIDH B A _ rngB (new_stream false nB) k rngB); [done..| |done|exact E2].
  intros sys H1 H2. by apply Hcomp.
Qed.

(** ** The two sides *)

(** The initiator, ready to be answered. *)
Lemma initiator_opens A B nA rng : honest A -> honest B -> modest A -> modest B -> compatible NTRU SIDH A B -> hashed A -> hashed B ->
  exists t1 rng1 p rng2 t2 t3 sA odd k kex,
    let ps := start_bytes kex (boxer_box (make_boxer odd k nonce_zero) (ide_bytes p)).1 in
    new_tunnel NTRU SIDH A (m_pub B) nA rng = (Ret t1, rng1) /\ create_IDe NTRU SIDH (rng1, t1) = (Ret tt, (rng2, t2)) /\
    get_packetstart_ab t2 = (Ret ps, t3) /\ ephemeral p /\ zlen kex <= SANE_MAX_SIZE_FOR_STRING /\
    t3 = Tunnel true (Some p) (Some sA) None nA /\ m_unboxer sA = Some (make_unboxer (negb odd) k nonce_zero) /\
    forall c rngB nB, exists odd' kex' sB,
      exchange_done NTRU SIDH B (m_pub A) (start_bytes kex c) (rngB, new_stream false nB) = (Ret tt, (rngB, sB)) /\ opened odd' k kex' sB /\
      ((get_hash Hash1 (pub_keys (m_pub A))).1 <> (get_hash Hash1 (pub_keys (m_pub B))).1 -> odd' = negb odd).
Proof.
  intros HA HB MA MB Hcomp hA hB.
  destruct (exchange_both A B (nA ++ str "-CTab") rng HA HB MA MB Hcomp hA hB) as (k & odd & kex & rng1 & s & E1 & Ho & Hz & HBob).
  destruct (create_IDe_made true s nA rng1 odd k kex Ho) as (p & rng2 & s' & E2 & Hp & (Hb & Hu & Hk & _) & Hi).
  destruct (start_sent odd k kex s' s' p Hi Hp) as (sA & E3 & Hu3 & _); [by rewrite Hk|done..|].
  exists (Tunnel true None (Some s) None nA), rng1, p, rng2. do 2 eexists. exists sA, odd, k, kex. cbn zeta. split_and!.
  - unfold new_tunnel. rewrite (M_bind_ret _ _ _ s rng1); [done|]. unfold on_stream. by rewrite E1.
  - exact E2.
  - unfold get_packetstart_ab, mbind, M_mbind, mget. cbn [m_stream_crypto_ab]. unfold use_ab. cbn [m_stream_crypto_ab]. by rewrite E3.
  - done.
  - done.
  - reflexivity.
  - by rewrite Hu3.
  - exact HBob.
Qed.

(** The respondent, given the packet start of an ephemeral identity. *)
Lemma respondent_opens A B nB rng odd k kex p : ephemeral p -> zlen kex <= SANE_MAX_SIZE_FOR_STRING ->
  let ps := start_bytes kex (boxer_box (make_boxer odd k nonce_zero) (ide_bytes p)).1 in
  (exists kex' sB, exchange_done NTRU SIDH B (m_pub A) ps (rng, new_stream false (nB ++ str "-CTab")) = (Ret tt, (rng, sB)) /\
     opened (negb odd) k kex' sB) ->
  exists t rng1 q t' oddf kf kexf s,
    let psf := start_bytes kexf (boxer_box (make_boxer (negb odd) k nonce_zero) (ide_bytes q)).1 in
    new_tunnel_respondent NTRU SIDH B (m_pub A) ps nB rng = (Ret t, rng1) /\ get_packetstart_final t = (Ret psf, t') /\
    ephemeral q /\ zlen kexf <= SANE_MAX_SIZE_FOR_STRING /\ m_stream_crypto_final t' = Some s /\ opened oddf kf kexf s /\
    forall c rngA nA, exists odd' kex' sA,
      exchange_done NTRU SIDH p (m_pub q) (start_bytes kexf c) (rngA, new_stream false nA) = (Ret tt, (rngA, sA)) /\ opened odd' kf kex' sA.
Proof.
  intros Hp Hz ps (kex' & sB & E1 & HoB). subst ps.
  destruct (create_IDe_made false sB nB rng (negb odd) k kex' HoB) as (q & rng2 & s2 & E2 & Hq & (Hb2 & Hu2 & _) & _).
  rewrite negb_involutive in Hu2. destruct (start_opens odd k kex p s2 Hp Hz Hu2) as (s3 & E3 & Hb3 & _).
  destruct (exchange_both q p (nB ++ str "-CTf") rng2) as (kf & oddf & kexf & rng4 & sf & E4 & Hof & Hzf & HAlice);
    eauto using ephemeral_honest, ephemeral_modest, ephemeral_compatible, ephemeral_hashed.
  set (sf' := set_packetstart_IDe (ide_bytes q) sf).
  destruct (start_sent (negb odd) k kexf sf' s3 q eq_refl Hq) as (s5 & E5 & _); [unfold sf'; cbn [m_packetstart_kexasym set_packetstart_IDe]; by rewrite (proj1 (proj2 (proj2 Hof)))|by rewrite Hb3|apply Hof|].
  exists (Tunnel false (Some q) (Some s3) (Some sf') nB), rng4, q. eexists. exists oddf, kf, kexf, sf'. cbn zeta. split_and!.
  - unfold new_tunnel_respondent. rewrite (M_bind_ret _ _ _ sB rng) by (unfold on_stream; by rewrite E1).
    unfold mrun, respond. rewrite (M_bind_ret _ _ _ _ _ E2).
    rewrite (M_bind_ret _ _ _ (ide_bytes p) (rng2, Tunnel false (Some q) (Some s3) None nB))
      by (unfold on_snd, use_ab; cbn [fst snd m_stream_crypto_ab]; by rewrite E3).
    rewrite (ephemeral_sent p Hp), bind_lift.
    rewrite (M_bind_ret _ _ _ (Tunnel false (Some q) (Some s3) None nB) (rng2, Tunnel false (Some q) (Some s3) None nB)) by done.
    unfold ide_of. cbn [m_IDe ct_nicename]. rewrite bind_lift.
    rewrite (M_bind_ret _ _ _ sf (rng4, Tunnel false (Some q) (Some s3) None nB)) by (unfold on_fst, on_stream; cbn [fst snd]; by rewrite E4).
    rewrite (M_bind_ret _ _ _ tt (rng4, Tunnel false (Some q) (Some s3) (Some sf) nB)) by done.
    unfold on_snd, use_final, set_packetstart_IDe_from. cbn [fst snd m_stream_crypto_final].
    by rewrite (serialize_bin_eval _ (ephemeral_wf_keys _ _ q Hq)).
  - unfold get_packetstart_final, mbind, M_mbind, mget. cbn [m_stream_crypto_final]. unfold use_ab. cbn [m_stream_crypto_ab]. by rewrite E5.
  - done.
  - done.
  - reflexivity.
  - exact Hof.
  - intros c rngA nA. destruct (HAlice c rngA nA) as (odd' & kx & sA & E & H & _). by exists odd', kx, sA.
Qed.

(** The initiator again, given the final packet start. *)
Lemma initiator_finishes rng nA sA odd k kexf p q oddf kf : ephemeral q -> zlen kexf <= SANE_MAX_SIZE_FOR_STRING ->
  m_unboxer sA = Some (make_unboxer odd k nonce_zero) ->
  let psf := start_bytes kexf (boxer_box (make_boxer odd k nonce_zero) (ide_bytes q)).1 in
  (exists kex' s', exchange_done NTRU SIDH p (m_pub q) psf (rng, new_stream false (nA ++ str "-CTf")) = (Ret tt, (rng, s')) /\ opened oddf kf kex' s') ->
  exists t s, create_CTf NTRU SIDH psf (rng, Tunnel true (Some p) (Some sA) None nA) = (Ret tt, (rng, t)) /\
    m_stream_crypto_final t = Some s /\ keyed kf s.
Proof.
  intros Hq Hz Hu psf (kex' & s' & E & Hb & Hub & _). subst psf.
  destruct (start_opens odd k kexf q sA Hq Hz Hu) as (s2 & E2 & _). do 2 eexists. split_and!.
  - unfold create_CTf. set (t0 := Tunnel true (Some p) (Some sA) None nA).
    rewrite (M_bind_ret _ _ _ (ide_bytes q) (rng, set_ab s2 t0)) by (unfold on_snd, use_ab, t0; cbn [fst snd m_stream_crypto_ab]; by rewrite E2).
    rewrite (ephemeral_sent q Hq), bind_lift.
    rewrite (M_bind_ret _ _ _ (set_ab s2 t0) (rng, set_ab s2 t0)) by done.
    rewrite (M_bind_ret _ _ _ tt (rng, set_final (new_stream false (nA ++ str "-CTf")) (set_ab s2 t0))) by done.
    unfold ide_of. cbn [m_IDe set_ab t0 ct_nicename]. rewrite bind_lift. unfold mrun. cbn [fst snd]. by rewrite E.
  - reflexivity.
  - split; eexists; (split; [eassumption|]); [apply boxer_key_make|apply unboxer_key_make].
Qed.

(** One tunnel reads what the other boxes for it. *)
Definition reads (from to : c_crypto_tunnel) : Prop := forall msg, exists c N from' to',
  ct_box msg from = (Ret (c, N), from') /\ zlen c = zlen msg + 16 /\ ct_unbox_nonce c N to = (Ret msg, to').

Lemma keyed_reads k t1 t2 s1 s2 : m_stream_crypto_final t1 = Some s1 -> m_stream_crypto_final t2 = Some s2 -> keyed k s1 -> keyed k s2 -> reads t1 t2.
Proof.
  intros F1 F2 K1 K2 msg. pose proof K1 as [(b & Hb & _) _].
  destruct (box_keyed k s1 msg K1) as (c & N & s1' & E1 & _ & Hread). destruct (Hread s2 K2) as (s2' & E2 & _).
  exists c, N. do 2 eexists. unfold ct_box, ct_unbox_nonce, use_final. rewrite F1, F2, E1, E2. split_and!; [done| |done].
  revert E1. unfold box, mbind, M_mbind, mget. rewrite Hb. pose proof (box_grows b msg) as Hg. destruct (boxer_box b msg). by intros [= -> _ _].
Qed.

(** ** Properties *)

(** C4: an end-to-end tunnel between two identities with matching keys always
    opens: for any numbers of X25519, NTRU and SIDH keys that the build
    supports and two identities with different hashes, the initiator's
    stream, its ephemeral identity, its packet start, the respondent's whole
    constructor on that packet start, the respondent's final packet start and
    the initiator's final stream are all made without an error, whatever the
    randomness of either side; and then each side reads every message that
    the other boxes. *)
Theorem tunnel_handshake A B nA rng : honest A -> honest B -> modest A -> modest B -> compatible NTRU SIDH A B -> hashed A -> hashed B ->
  (get_hash Hash1 (pub_keys (m_pub A))).1 <> (get_hash Hash1 (pub_keys (m_pub B))).1 ->
  exists a1 rng1 a2 rng2 ps1 a3,
    new_tunnel NTRU SIDH A (m_pub B) nA rng = (Ret a1, rng1) /\
    create_IDe NTRU SIDH (rng1, a1) = (Ret tt, (rng2, a2)) /\
    get_packetstart_ab a2 = (Ret ps1, a3) /\
    forall nB rngB, exists b1 rngB1 ps2 b2,
      new_tunnel_respondent NTRU SIDH B (m_pub A) ps1 nB rngB = (Ret b1, rngB1) /\
      get_packetstart_final b1 = (Ret ps2, b2) /\
      forall rngA, exists a4,
        create_CTf NTRU SIDH ps2 (rngA, a3) = (Ret tt, (rngA, a4)) /\ reads a4 b2 /\ reads b2 a4.
Proof.
  intros HA HB MA MB Hcomp hA hB Hne.
  destruct (initiator_opens A B nA rng HA HB MA MB Hcomp hA hB)
    as (a1 & rng1 & p & rng2 & a2 & a3 & sA & odd & k & kex & E1 & E2 & E3 & Hp & Hz & -> & Hu & HBob).
  exists a1, rng1, a2, rng2. do 2 eexists. split_and!; [exact E1|exact E2|exact E3|]. intros nB rngB.
  destruct (respondent_opens A B nB rngB odd k kex p Hp Hz)
    as (b1 & rngB1 & q & b2 & oddf & kf & kexf & s & E4 & E5 & Hq & Hzf & Hs & Hof & HAlice).
  { destruct (HBob (boxer_box (make_boxer odd k nonce_zero) (ide_bytes p)).1 rngB (nB ++ str "-CTab")) as (odd' & kex' & sB & E & Ho & Hodd).
    rewrite (Hodd Hne) in Ho. by exists kex', sB. }
  exists b1, rngB1. do 2 eexists. split_and!; [exact E4|exact E5|]. intros rngA.
  destruct (HAlice (boxer_box (make_boxer (negb odd) k nonce_zero) (ide_bytes q)).1 rngA (nA ++ str "-CTf")) as (odd' & kex' & sf & E & Ho).
  destruct (initiator_finishes rngA nA sA (negb odd) k kexf p q odd' kf Hq Hzf Hu) as (a4 & s4 & E6 & Hs4 & Hk4); [by exists kex', sf|].
  assert (keyed kf s) as Hks.
  { destruct Hof as (Hb & Hub & _). split; eexists; (split; [eassumption|]); [apply boxer_key_make|apply unboxer_key_make]. }
  exists a4. split_and!; [exact E6|by eapply keyed_reads|by eapply keyed_reads].
Qed.
End Travel.

(** ** At concrete keys *)

#[local] Existing Instance toy_lib.
#[local] Existing Instance toy_laws.
#[local] Existing Instance toy_boxes.

#[export, refine] Instance toy_fresh : FreshLaws Z := {}.
Proof.
  - intros n rng Hn. do 2 eexists. split; [reflexivity|]. unfold zlen. rewrite length_replicate. lia.
  - intros m b B rng _ Hm. cbn. rewrite Hm. by do 2 eexists.
  - intros rng. do 3 eexists. by split_and!.
  - intros rng. do 3 eexists. by split_and!.
  - intros rng. do 3 eexists. by split_and!.
  - intros rng. do 3 eexists. split; [reflexivity|]. unfold zlen. rewrite !length_replicate. lia.
  - intros rng. do 3 eexists. split; [reflexivity|]. split; [|by vm_compute].
    set (x := byte_of_Z rng). exists [x; x], [x; x], [x; x], [x; x]. by split_and!.
Defined.

#[export, refine] Instance toy_sequence : SequenceLaws Z := {}.
Proof.
  - done.
  - done.
  - done.
  - intros b m. change (boxer_box b m).1 with (toy_mac b.1 ++ m). rewrite zlen_app. unfold zlen at 1. rewrite toy_mac_length. lia.
Defined.

Lemma tunnel_handshake_witness : exists (a1 a2 a3 a4 b1 b2 : @c_crypto_tunnel Z toy_lib) r1 r2 r3 r4 ps1 ps2 c N a5 b3,
  new_tunnel true true toy_A (m_pub toy_B) (str "Alice") 7 = (Ret a1, r1) /\ create_IDe true true (r1, a1) = (Ret tt, (r2, a2)) /\
  get_packetstart_ab a2 = (Ret ps1, a3) /\ new_tunnel_respondent true true toy_B (m_pub toy_A) ps1 (str "Bobby") 0 = (Ret b1, r3) /\
  get_packetstart_final b1 = (Ret ps2, b2) /\ create_CTf true true ps2 (r4, a3) = (Ret tt, (r4, a4)) /\
  ct_box (str "hello") a4 = (Ret (c, N), a5) /\ ct_unbox_nonce c N b2 = (Ret (str "hello"), b3).
Proof.
  destruct (tunnel_handshake true true toy_A toy_B (str "Alice") 7) as (a1 & r1 & a2 & r2 & ps1 & a3 & E1 & E2 & E3 & Hbob).
  - apply toy_honest. repeat constructor.
  - apply toy_honest. repeat constructor.
  - vm_compute. discriminate.
  - vm_compute. discriminate.
  - intros sys Ha Hb. destruct sys; vm_compute in Ha, Hb; done.
  - eexists. vm_compute. reflexivity.
  - eexists. vm_compute. reflexivity.
  - vm_compute. discriminate.
  - destruct (Hbob (str "Bobby") 0) as (b1 & r3 & ps2 & b2 & E4 & E5 & Hfin). destruct (Hfin 5) as (a4 & E6 & Hr & _).
    destruct (Hr (str "hello")) as (c & N & a5 & b3 & E7 & _ & E8).
    exists a1, a2, a3, a4, b1, b2, r1, r2, r3, 5, ps1, ps2, c, N, a5, b3. split_and!; assumption.
Defined.
