(* ===== verification/Peering.v ===== *)
(** * Addresses, the peer protocol and peers

    Models [haship.hpp/cpp] (hash-ip addresses), [c_ip46_addr.cpp] (physical
    addresses, the Linux build), [protocol.hpp/cpp] (commands),
    [httpdbg/peering_stats.cpp] (transmission counters) and [c_peering.cpp]
    (a peer and the datagrams sent to it).  What a socket is given is a list of
    destinations and datagrams, in order.  The clock is a number of
    nanoseconds passed as [now].  boost::asio's address parser is a parameter. *)
From S2P Require Import Prelude Serialize Hexstr Cryptobasic Multikeys.

(** ** haship *)

Definition g_haship_addr_size : Z := 16.
Definition length_of_addr : Z := 16.
Definition header_position_of_ip_protocol_type : Z := 6.
Definition header_position_of_src : Z := 8.
Definition header_position_of_dst : Z := 24.
Definition header_position_of_ipv6 : Z := 4.

(** A [std::array<unsigned char, 16>]: a string of 16 octets. *)
Notation c_haship_addr := bytes (only parsing).

Definition haship_zero : c_haship_addr := replicate 16 Byte.x00.
Definition make_empty : c_haship_addr := haship_zero.

Definition haship_of_bin (data : bytes) : outcome c_haship_addr :=
  othrow_if (negb (g_haship_addr_size =? zlen data)) ex_runtime_error;;
  Ret data.

Definition is_empty (a : c_haship_addr) : bool := forallb (fun b => byte_val b =? 0) a.

Definition addr_is_galaxy (addr : c_haship_addr) : outcome bool :=
  b ← at_ addr 0; Ret (byte_val b =? 0xFD).

(** The loop of [get_hip_as_string], from position [i]. *)
Fixpoint hip_chars (with_dots : bool) (i : Z) (s : bytes) : bytes :=
  match s with
  | [] => []
  | c :: s' => (if with_dots && negb (i =? 0) && (i mod 4 =? 0) then [Byte.x3a; c] else [c]) ++ hip_chars with_dots (i + 1) s'
  end.

Definition get_hip_as_string (a : c_haship_addr) (with_dots : bool) : outcome bytes :=
  hip ← hex_of_bin a; Ret (hip_chars with_dots 0 hip).

Section HashIp.
Context (Hash1 : bytes -> bytes) (ipv6_from_string : bytes -> option bytes).

(** [c_haship_addr(tag_constr_by_hash_of_pubkey, pubkey)]: [at(i) = addr.at(i)]. *)
Definition haship_of_pubkey : M c_multikeys_pub c_haship_addr :=
  addr ← get_ipv6_string_bin Hash1;
  mlift (omap_list (at_ addr) (map Z.of_nat (seq 0 16))).

Definition haship_of_dot (addr_string : bytes) : outcome c_haship_addr :=
  match ipv6_from_string addr_string with
  | Some asio_addr_bytes =>
      oassert (zlen asio_addr_bytes =? 16);; Ret asio_addr_bytes
  | None => Throw ex_invalid_argument
  end.
End HashIp.

(** ** c_ip46_addr *)

Inductive c_ip46_addr :=
  | tag_none
  | tag_ipv4 (sin_addr : bytes) (port : Z)
  | tag_ipv6 (sin6_addr : bytes) (port : Z).

#[export] Instance c_ip46_addr_eq_dec : EqDecision c_ip46_addr.
Proof. solve_decision. Defined.

Definition get_assigned_port (a : c_ip46_addr) : Z :=
  match a with tag_none => 0 | tag_ipv4 _ p => p | tag_ipv6 _ p => p end.

Definition ip_check (lhs rhs : c_ip46_addr) : outcome unit :=
  match lhs, rhs with
  | tag_none, _ => Throw ex_invalid_argument
  | _, tag_none => Throw ex_invalid_argument
  | _, _ => Ret tt
  end.

(** [operator==] *)
Definition ip_eq (lhs rhs : c_ip46_addr) : outcome bool :=
  ip_check lhs rhs;;
  match lhs, rhs with
  | tag_ipv4 a p, tag_ipv4 b q => Ret (bool_decide (a = b) && (p =? q))
  | tag_ipv6 a p, tag_ipv6 b q => Ret (bool_decide (a = b) && (p =? q))
  | _, _ => Ret false
  end.

(** [memcmp(a, b, n) < 0] *)
Definition memcmp_lt (n : nat) (a b : bytes) : bool := negb (string_leb (take n b) (take n a)).

(** [operator<]; both branches compare [sizeof(in_addr)] octets. *)
Definition ip_lt (lhs rhs : c_ip46_addr) : outcome bool :=
  ip_check lhs rhs;;
  let by_addr a p b q :=
    if memcmp_lt 4 a b then Ret true else if memcmp_lt 4 b a then Ret false else Ret (p <? q) in
  match lhs, rhs with
  | tag_ipv4 _ _, tag_ipv6 _ _ => Ret true
  | tag_ipv6 _ _, tag_ipv4 _ _ => Ret false
  | tag_ipv4 a p, tag_ipv4 b q => by_addr a p b q
  | tag_ipv6 a p, tag_ipv6 b q => by_addr a p b q
  | _, _ => Ret false
  end.

(** ** c_protocol *)

Definition current_version : Z := 1.
Definition ttl_max_accepted : Z := 5.

Inductive t_proto_cmd :=
  | e_proto_cmd_test0
  | e_proto_cmd_test1
  | e_proto_cmd_tunneled_data
  | e_proto_cmd_public_hi
  | e_proto_cmd_public_ping_request
  | e_proto_cmd_public_ping_reply
  | e_proto_cmd_findhip_query
  | e_proto_cmd_findhip_reply.

#[export] Instance t_proto_cmd_eq_dec : EqDecision t_proto_cmd.
Proof. solve_decision. Defined.

Definition cmd_to_int (c : t_proto_cmd) : Z :=
  match c with
  | e_proto_cmd_test0 => 0
  | e_proto_cmd_test1 => 1
  | e_proto_cmd_tunneled_data => 2
  | e_proto_cmd_public_hi => 3
  | e_proto_cmd_public_ping_request => 4
  | e_proto_cmd_public_ping_reply => 5
  | e_proto_cmd_findhip_query => 10
  | e_proto_cmd_findhip_reply => 11
  end.

Definition all_cmds : list t_proto_cmd :=
  [ e_proto_cmd_test0; e_proto_cmd_test1; e_proto_cmd_tunneled_data; e_proto_cmd_public_hi;
    e_proto_cmd_public_ping_request; e_proto_cmd_public_ping_reply;
    e_proto_cmd_findhip_query; e_proto_cmd_findhip_reply ].

(** The cases of [enum_is_valid_value], as the partial inverse of the values. *)
Definition cmd_of_int (v : Z) : option t_proto_cmd := List.find (fun c => cmd_to_int c =? v) all_cmds.

Definition command_is_valid_from_unknown_peer (cmd : t_proto_cmd) : bool :=
  if bool_decide (cmd = e_proto_cmd_tunneled_data) then false
  else if bool_decide (cmd = e_proto_cmd_public_hi) then true
  else if bool_decide (cmd = e_proto_cmd_public_ping_request) then true
  else if bool_decide (cmd = e_proto_cmd_public_ping_reply) then true
  else false.

Definition cmd_byte (cmd : t_proto_cmd) : Byte.byte := byte_of_Z (cmd_to_int cmd).

(** ** Transmission counters *)

(** [boost::circular_buffer<size_t>] at full size: the oldest entry goes. *)
Definition cb_push_back (x : Z) (buf : list Z) : list Z :=
  match buf with [] => [] | _ :: rest => rest ++ [x] end.

(** [buf.back() = f(buf.back())] *)
Definition cb_on_back (f : Z -> Z) (buf : list Z) : list Z :=
  match rev buf with [] => [] | x :: rest => rev rest ++ [f x] end.

(** One direction of [c_data_transmission_buffer]. *)
Record c_data_transmission_buffer := TransmissionBuffer {
  m_data_buffer : list Z;
  m_packets_buffer : list Z;
  m_last : Z
}.

Definition m_interval : Z := 1000.

(** [update_sent_buffer] / [update_read_buffer], [reference] being
    [m_reference_time]; times in nanoseconds. *)
Definition update_buffer (reference now data_size : Z) (b : c_data_transmission_buffer) : c_data_transmission_buffer :=
  let units := Z.quot (now - reference) (1000000 * m_interval) in
  let distance := units - m_last b in
  let push := Nat.iter (Z.to_nat distance) (cb_push_back 0) in
  let data := push (m_data_buffer b) in
  let packets := push (m_packets_buffer b) in
  if data_size =? 0 then TransmissionBuffer data packets units
  else TransmissionBuffer (cb_on_back (fun x => u64 (x + data_size)) data)
                          (cb_on_back (fun x => u64 (x + 1)) packets) units.

Record c_transmission_stats := Stats {
  m_size_of_sent_data : Z;
  m_size_of_read_data : Z;
  m_number_of_sent_packets : Z;
  m_number_of_read_packets : Z;
  m_reference_time : Z;
  m_sent_buffer : c_data_transmission_buffer;
  m_read_buffer : c_data_transmission_buffer
}.

Definition new_stats (now : Z) : c_transmission_stats :=
  let empty := TransmissionBuffer (replicate 120 0) (replicate 120 0) 0 in
  Stats 0 0 0 0 now empty empty.

Definition update_sent_stats (now size : Z) (s : c_transmission_stats) : c_transmission_stats :=
  Stats (u64 (m_size_of_sent_data s + size)) (m_size_of_read_data s)
    (m_number_of_sent_packets s + 1) (m_number_of_read_packets s) (m_reference_time s)
    (update_buffer (m_reference_time s) now size (m_sent_buffer s)) (m_read_buffer s).

Definition update_read_stats (now size : Z) (s : c_transmission_stats) : c_transmission_stats :=
  Stats (m_size_of_sent_data s) (u64 (m_size_of_read_data s + size))
    (m_number_of_sent_packets s) (m_number_of_read_packets s + 1) (m_reference_time s)
    (m_sent_buffer s) (update_buffer (m_reference_time s) now size (m_read_buffer s)).

(** ** c_peering *)

Record t_peering_reference := PeeringReference { peering_addr : c_ip46_addr; haship_addr : c_haship_addr }.

Record c_peering := Peering {
  m_peering_addr : c_ip46_addr;
  m_haship_addr : c_haship_addr;
  m_pubkey : option c_multikeys_pub;
  m_limit_points : Z;
  m_peering_stats : c_transmission_stats;
  m_last_ping_time : Z
}.

Definition new_peering (now : Z) (ref : t_peering_reference) : c_peering :=
  Peering (peering_addr ref) (haship_addr ref) None 100 (new_stats now) now.

Definition set_pip (addr : c_ip46_addr) (p : c_peering) : c_peering :=
  Peering addr (m_haship_addr p) (m_pubkey p) (m_limit_points p) (m_peering_stats p) (m_last_ping_time p).
Definition set_pubkey (k : c_multikeys_pub) (p : c_peering) : c_peering :=
  Peering (m_peering_addr p) (m_haship_addr p) (Some k) (m_limit_points p) (m_peering_stats p) (m_last_ping_time p).
Definition is_pubkey (p : c_peering) : bool := match m_pubkey p with Some _ => true | None => false end.
Definition add_limit_points (points : Z) (p : c_peering) : c_peering :=
  Peering (m_peering_addr p) (m_haship_addr p) (m_pubkey p) (m_limit_points p + points) (m_peering_stats p) (m_last_ping_time p).
Definition decrement_limit_points (p : c_peering) : c_peering := add_limit_points (-1) p.
Definition set_stats (s : c_transmission_stats) (p : c_peering) : c_peering :=
  Peering (m_peering_addr p) (m_haship_addr p) (m_pubkey p) (m_limit_points p) s (m_last_ping_time p).
Definition update_last_ping_time (now : Z) (p : c_peering) : c_peering :=
  Peering (m_peering_addr p) (m_haship_addr p) (m_pubkey p) (m_limit_points p) (m_peering_stats p) now.

(** What was given to the socket. *)
Notation net := (list (c_ip46_addr * bytes)).

Definition send_data_RAW_udp (dst : c_ip46_addr) (data : bytes) : M net unit :=
  match dst with
  | tag_none => mthrow ex_runtime_error
  | _ => mmodify (fun out => out ++ [(dst, data)])
  end.

Definition send_data_udp_cmd (cmd : t_proto_cmd) (bin : bytes) (dst : c_ip46_addr) : M net unit :=
  send_data_RAW_udp dst ([byte_of_Z current_version] ++ [cmd_byte cmd] ++ bin).

Definition crypto_box_NONCEBYTES : Z := 24.

(** The datagram of tunneled data. *)
Definition tunneled_datagram (src_hip dst_hip : c_haship_addr) (ttl : Z) (nonce_used data : bytes) : outcome bytes :=
  gen_str (
    push_byte_u (byte_of_Z current_version);;
    push_byte_u (cmd_byte e_proto_cmd_tunneled_data);;
    push_bytes_n length_of_addr src_hip;;
    push_bytes_n length_of_addr dst_hip;;
    push_byte_u (byte_of_Z ttl);;
    push_bytes_n crypto_box_NONCEBYTES nonce_used;;
    push_varstring data).

Definition send_data_udp (now : Z) (data : bytes) (src_hip dst_hip : c_haship_addr) (ttl : Z) (nonce_used : bytes) : M (c_peering * net) unit :=
  protomsg ← mlift (tunneled_datagram src_hip dst_hip ttl nonce_used data);
  on_fst (mmodify (fun p => set_stats (update_sent_stats now (zlen data) (m_peering_stats p)) p));;
  p ← on_fst mget;
  on_snd (send_data_RAW_udp (m_peering_addr p) protomsg).

(** What the receiver of tunneled data parses, after version and command. *)
Definition parse_tunneled : M parser (c_haship_addr * c_haship_addr * Z * bytes * bytes) :=
  skip_bytes_n 2;;
  src ← pop_bytes_n length_of_addr;
  src_hip ← mlift (haship_of_bin src);
  dst ← pop_bytes_n length_of_addr;
  dst_hip ← mlift (haship_of_bin dst);
  ttl ← pop_byte_u;
  let requested_ttl := byte_val ttl in
  nonce_used_raw ← pop_bytes_n crypto_box_NONCEBYTES;
  blob ← pop_varstring;
  mret (src_hip, dst_hip, requested_ttl, nonce_used_raw, blob).
