(* ===== verification/PeeringFacts.v ===== *)
(** * Datagrams and counters of a peer

    Theorems about [Peering.v]: tunneled datagrams are parsed back by the
    receiver, the rate window of the counters holds exactly the traffic of each
    of its intervals, and what the order of addresses is. *)
From S2P Require Import Prelude Serialize SerializeFacts Multikeys MultikeysFacts Peering.

(** ** Tunneled datagrams *)

Lemma pops_lift {A} (o : outcome A) a : o = Ret a -> pops (mlift o) [] a.
Proof. intros -> p r. unfold mlift. by rewrite zlen_nil, Z.add_0_r. Qed.

Lemma pops_skip n e : zlen e = n -> 0 < n -> pops (skip_bytes_n n) e tt.
Proof.
  intros <- Hn p r. pose proof (zlen_nonneg p). pose proof (zlen_nonneg r).
  rewrite skip_bytes_n_eval by (rewrite ?zlen_app; lia).
  rewrite !zlen_app. repeat case_bool; zbool; try lia; done.
Qed.

Lemma haship_of_bin_eval a : zlen a = 16 -> haship_of_bin a = Ret a.
Proof. intros H. unfold haship_of_bin, g_haship_addr_size. by rewrite H. Qed.

Lemma pushes_bytes_n' n s : zlen s = n -> pushes (push_bytes_n n s) s.
Proof. intros <-. apply pushes_bytes_n. Qed.

Lemma pops_bytes_n' n e : zlen e = n -> pops (pop_bytes_n n) e e.
Proof. intros <-. apply pops_bytes_n. Qed.

(** The octets of a tunneled datagram after version and command. *)
Definition tunneled_body (src dst : c_haship_addr) (ttl : Z) (nonce data : bytes) : bytes :=
  src ++ dst ++ [byte_of_Z ttl] ++ nonce ++ varstring_bytes data.

Lemma tunneled_datagram_eval src dst ttl nonce data :
  zlen src = 16 -> zlen dst = 16 -> zlen nonce = 24 -> zlen data < 2 ^ 64 - 1 ->
  tunneled_datagram src dst ttl nonce data = Ret ([Byte.x01; Byte.x02] ++ tunneled_body src dst ttl nonce data).
Proof.
  intros Hs Hd Hn Hz. apply gen_str_pushes. unfold tunneled_body.
  apply (pushes_bind _ [Byte.x01]); [apply pushes_append|].
  apply (pushes_bind _ [Byte.x02]); [apply pushes_append|].
  apply pushes_bind; [by apply pushes_bytes_n'|]. apply pushes_bind; [by apply pushes_bytes_n'|].
  apply pushes_bind; [apply pushes_append|]. apply pushes_bind; [by apply pushes_bytes_n'|].
  by apply pushes_varstring.
Qed.

Lemma pops_tunneled c0 c1 src dst ttl nonce data :
  zlen src = 16 -> zlen dst = 16 -> zlen nonce = 24 -> zlen data <= SANE_MAX_SIZE_FOR_STRING ->
  pops parse_tunneled ([c0; c1] ++ tunneled_body src dst ttl nonce data) (src, dst, ttl mod 256, nonce, data).
Proof.
  intros Hs Hd Hn Hz. unfold parse_tunneled, tunneled_body.
  apply (pops_bind _ _ [c0; c1] _ tt); [by apply pops_skip|].
  apply (pops_bind _ _ src _ src); [by apply pops_bytes_n'|].
  apply (pops_bind_0 _ _ _ src); [by apply pops_lift, haship_of_bin_eval|].
  apply (pops_bind _ _ dst _ dst); [by apply pops_bytes_n'|].
  apply (pops_bind_0 _ _ _ dst); [by apply pops_lift, haship_of_bin_eval|].
  apply (pops_bind _ _ [byte_of_Z ttl] _ (byte_of_Z ttl)); [apply pops_byte|].
  rewrite byte_val_of_Z.
  apply (pops_bind _ _ nonce _ nonce); [by apply pops_bytes_n'|].
  rewrite <- (app_nil_r (varstring_bytes data)).
  apply (pops_bind _ _ (varstring_bytes data) [] data); [by apply pops_varstring|]. apply pops_ret.
Qed.

(** ** The rate window *)

Definition unit_of (reference now : Z) : Z := Z.quot (now - reference) (1000000 * m_interval).

(** The octets and packets the updates [us] reported in interval [t]; updates
    without data are not counted as packets. *)
Fixpoint data_in (reference t : Z) (us : list (Z * Z)) : Z :=
  match us with
  | [] => 0
  | (now, size) :: us' => (if unit_of reference now =? t then size else 0) + data_in reference t us'
  end.
Fixpoint packets_in (reference t : Z) (us : list (Z * Z)) : Z :=
  match us with
  | [] => 0
  | (now, size) :: us' =>
      (if (unit_of reference now =? t) && negb (size =? 0) then 1 else 0) + packets_in reference t us'
  end.

Definition run_updates (reference : Z) (b : c_data_transmission_buffer) (us : list (Z * Z)) : c_data_transmission_buffer :=
  foldl (fun b u => update_buffer reference u.1 u.2 b) b us.

Definition empty_buffer : c_data_transmission_buffer := TransmissionBuffer (replicate 120 0) (replicate 120 0) 0.

(** [buf] holds [f t] for the [120] intervals up to [last]. *)
Definition window (buf : list Z) (last : Z) (f : Z -> Z) : Prop :=
  length buf = 120%nat /\ forall j : nat, (j < 120)%nat -> buf !! j = Some (f (last - 119 + Z.of_nat j)).

Lemma window_push buf last f : window buf last f -> f (last + 1) = 0 ->
  window (cb_push_back 0 buf) (last + 1) f.
Proof.
  intros [Hl Hw] Hf. destruct buf as [|x rest]; [done|]. simpl in Hl. split.
  - simpl. rewrite length_app. simpl. lia.
  - intros j Hj. simpl. destruct (decide (j < 119)%nat) as [Hlt|Hge].
    + rewrite lookup_app_l by lia. specialize (Hw (S j) ltac:(lia)). simpl in Hw. rewrite Hw. f_equal. f_equal. lia.
    + assert (j = 119)%nat as -> by lia. rewrite lookup_app_r by lia.
      replace (119 - length rest)%nat with 0%nat by lia. simpl. f_equal.
      replace (last + 1 - 119 + Z.of_nat 119) with (last + 1) by lia. done.
Qed.

Lemma window_pushes buf last f k : window buf last f -> (forall t, last < t -> f t = 0) ->
  window (Nat.iter k (cb_push_back 0) buf) (last + Z.of_nat k) f.
Proof.
  intros Hw Hf. induction k as [|k IH]; [by rewrite Z.add_0_r|].
  replace (last + Z.of_nat (S k)) with (last + Z.of_nat k + 1) by lia. apply window_push; [done|]. apply Hf. lia.
Qed.

Lemma window_back buf last f h : window buf last f ->
  window (cb_on_back h buf) last (fun t => if t =? last then h (f t) else f t).
Proof.
  intros [Hl Hw]. destruct (rev buf) as [|x l] eqn:Er.
  { apply (f_equal (@length Z)) in Er. rewrite length_rev in Er. simpl in Er. lia. }
  assert (buf = rev l ++ [x]) as ->.
  { apply (f_equal (@rev Z)) in Er. by rewrite rev_involutive in Er. }
  unfold cb_on_back. rewrite Er. rewrite length_app in Hl. simpl in Hl. split.
  - rewrite length_app. simpl. lia.
  - intros j Hj. specialize (Hw j Hj). destruct (decide (j < 119)%nat) as [Hlt|Hge].
    + rewrite lookup_app_l in * by lia. rewrite Hw. f_equal. rewrite (proj2 (Z.eqb_neq _ _)) by lia. done.
    + assert (j = 119)%nat as -> by lia. rewrite lookup_app_r in * by lia.
      replace (119 - length (rev l))%nat with 0%nat in * by lia. simpl in *. injection Hw as ->.
      rewrite (proj2 (Z.eqb_eq _ _)) by lia. done.
Qed.

Lemma window_ext buf last f g : window buf last f -> (forall t, f t = g t) -> window buf last g.
Proof. intros [Hl Hw] Hfg. split; [done|]. intros j Hj. by rewrite Hw, Hfg by done. Qed.

Lemma u64_add a b : u64 (u64 a + b) = u64 (a + b).
Proof. unfold u64, wrap. by rewrite Z.add_mod_idemp_l by lia. Qed.

Lemma data_in_app r t us vs : data_in r t (us ++ vs) = data_in r t us + data_in r t vs.
Proof. induction us as [|[n s] us IH]; cbn; [done|]. rewrite IH. lia. Qed.
Lemma packets_in_app r t us vs : packets_in r t (us ++ vs) = packets_in r t us + packets_in r t vs.
Proof. induction us as [|[n s] us IH]; cbn; [done|]. rewrite IH. lia. Qed.

(** No update so far is later than the interval [m_last]. *)
Definition window_inv (r : Z) (us : list (Z * Z)) (b : c_data_transmission_buffer) : Prop :=
  window (m_data_buffer b) (m_last b) (fun t => u64 (data_in r t us)) /\
  window (m_packets_buffer b) (m_last b) (fun t => u64 (packets_in r t us)) /\
  (forall t, m_last b < t -> data_in r t us = 0 /\ packets_in r t us = 0).

Lemma window_update r us b now size : window_inv r us b -> m_last b <= unit_of r now ->
  window_inv r (us ++ [(now, size)]) (update_buffer r now size b).
Proof.
  intros (Hd & Hp & Hz) Hn. unfold update_buffer. fold (unit_of r now).
  pose proof (window_pushes _ _ _ (Z.to_nat (unit_of r now - m_last b)) Hd) as Hd'.
  pose proof (window_pushes _ _ _ (Z.to_nat (unit_of r now - m_last b)) Hp) as Hp'.
  rewrite Z2Nat.id in Hd', Hp' by lia. replace (m_last b + (unit_of r now - m_last b)) with (unit_of r now) in * by lia.
  specialize (Hd' ltac:(intros t Ht; by rewrite (proj1 (Hz t Ht)))).
  specialize (Hp' ltac:(intros t Ht; by rewrite (proj2 (Hz t Ht)))).
  assert (forall t, unit_of r now < t -> data_in r t (us ++ [(now, size)]) = 0 /\ packets_in r t (us ++ [(now, size)]) = 0) as Hz'.
  { intros t Ht. rewrite data_in_app, packets_in_app. cbn. rewrite (proj2 (Z.eqb_neq _ _)) by lia.
    destruct (Hz t ltac:(lia)). simpl. lia. }
  destruct (size =? 0) eqn:Es.
  - apply Z.eqb_eq in Es as ->. split_and!; cbn [m_data_buffer m_packets_buffer m_last]; [..|done].
    + eapply window_ext; [exact Hd'|]. intros t. cbn. rewrite data_in_app. cbn. case_bool; f_equal; lia.
    + eapply window_ext; [exact Hp'|]. intros t. cbn. rewrite packets_in_app. cbn. rewrite andb_false_r. f_equal; lia.
  - split_and!; cbn [m_data_buffer m_packets_buffer m_last]; [..|done].
    + eapply window_ext; [apply window_back, Hd'|]. intros t. cbn. rewrite data_in_app. cbn. rewrite (Z.eqb_sym t).
      case_bool; [rewrite u64_add|]; f_equal; lia.
    + eapply window_ext; [apply window_back, Hp'|]. intros t. cbn. rewrite packets_in_app. cbn. rewrite Es, (Z.eqb_sym t).
      destruct (unit_of r now =? t); cbn; [rewrite u64_add|]; f_equal; lia.
Qed.

Lemma unit_of_mono r a b : r <= a -> a <= b -> 0 <= unit_of r a <= unit_of r b.
Proof.
  intros Ha Hb. unfold unit_of, m_interval. split; [apply Z.quot_pos; lia|]. apply Z.quot_le_mono; lia.
Qed.

Lemma window_run r us2 : forall us1 b t0, window_inv r us1 b -> m_last b <= unit_of r t0 ->
  r <= t0 -> Sorted Z.le (t0 :: map fst us2) -> window_inv r (us1 ++ us2) (run_updates r b us2).
Proof.
  induction us2 as [|[now size] us2 IH]; intros us1 b t0 Hi Hl Hr Hs; [by rewrite app_nil_r|].
  cbn [run_updates foldl fst snd]. replace (us1 ++ (now, size) :: us2) with ((us1 ++ [(now, size)]) ++ us2) by by rewrite <- app_assoc.
  inversion Hs as [|?? Hs' Hh]; subst. inversion Hh; subst.
  destruct (unit_of_mono r t0 now Hr ltac:(done)) as [_ Hu].
  apply (IH _ _ now); [apply window_update; [done|lia]| |lia|done].
  unfold update_buffer. fold (unit_of r now). case_bool; done.
Qed.

(** ** Properties *)

(** Tunneled data built for the wire is parsed back by the receiver: same
    addresses, nonce and data, and the TTL modulo 256. *)
Lemma tunneled_roundtrip src dst ttl nonce data :
  zlen src = 16 -> zlen dst = 16 -> zlen nonce = 24 -> zlen data <= SANE_MAX_SIZE_FOR_STRING ->
  exists d, tunneled_datagram src dst ttl nonce data = Ret ([Byte.x01; cmd_byte e_proto_cmd_tunneled_data] ++ d) /\
    forall junk, (parse_tunneled (parser_of_buffer ([Byte.x01; cmd_byte e_proto_cmd_tunneled_data] ++ d ++ junk))).1
      = Ret (src, dst, ttl mod 256, nonce, data).
Proof.
  intros Hs Hd Hn Hz. exists (tunneled_body src dst ttl nonce data). split.
  { apply tunneled_datagram_eval; try done. unfold SANE_MAX_SIZE_FOR_STRING in Hz. lia. }
  intros junk. pose proof (pops_tunneled Byte.x01 (cmd_byte e_proto_cmd_tunneled_data) src dst ttl nonce data Hs Hd Hn Hz [] junk) as P.
  rewrite <- app_assoc in P. exact (f_equal fst P).
Qed.

(** The rate window is exact: after any updates at non-decreasing times,
    entry [j] of the 120 is the number of octets (modulo 2^64), and of packets,
    reported in the interval that many seconds before the last one. *)
Lemma stats_window_exact reference us :
  Sorted Z.le (reference :: map fst us) ->
  let b := run_updates reference empty_buffer us in
  window (m_data_buffer b) (m_last b) (fun t => u64 (data_in reference t us)) /\
  window (m_packets_buffer b) (m_last b) (fun t => u64 (packets_in reference t us)).
Proof.
  intros Hs b.
  destruct (window_run reference us [] empty_buffer reference) as (H1 & H2 & _).
  - assert (window (replicate 120 0) 0 (fun _ => u64 0)) as Hw.
    { split; [done|]. intros j Hj. by rewrite lookup_replicate_2 by lia. }
    split_and!; [exact Hw|exact Hw|done].
  - unfold unit_of. rewrite Z.sub_diag. done.
  - lia.
  - done.
  - by split.
Qed.

(** The order of IPv6 addresses looks at four of the sixteen octets: two
    different addresses on one port can be unordered. *)
Lemma ip_lt_not_total : exists a b, ip_eq a b = Ret false /\ ip_lt a b = Ret false /\ ip_lt b a = Ret false.
Proof.
  exists (tag_ipv6 (replicate 16 Byte.x00) 9042), (tag_ipv6 (replicate 15 Byte.x00 ++ [Byte.x01]) 9042).
  by vm_compute.
Qed.
