(* ===== verification/Routing.v ===== *)
(** * The routing manager (c_routing_manager of tunserver.cpp)

    Known routes, running searches and the search for a route.  The node that
    owns the manager is seen through [GalaxyNode], the interface
    [c_galaxy_node] of the source: sending a command to every peer and finding
    a peer by its address.  [now] is the reading of the clock. *)
From S2P Require Import Prelude Serialize Cryptobasic Multikeys Peering.

(** The interface [c_galaxy_node]. *)
Class GalaxyNode (Node : Type) := {
  nodep2p_foreach_cmd : t_proto_cmd -> bytes -> M Node unit;
  get_peer_with_hip : c_haship_addr -> bool -> M Node c_peering
}.

Inductive t_route_state := e_route_state_found | e_route_state_dead.

Inductive t_search_mode :=
  | e_search_mode_route_own_packet
  | e_search_mode_route_other_packet
  | e_search_mode_help_find.

#[export] Instance t_search_mode_eq_dec : EqDecision t_search_mode.
Proof. solve_decision. Defined.

Definition search_mode_int (m : t_search_mode) : Z :=
  match m with
  | e_search_mode_route_own_packet => 0
  | e_search_mode_route_other_packet => 1
  | e_search_mode_help_find => 2
  end.

Record c_route_info := RouteInfo {
  ri_state : t_route_state;
  ri_nexthop : c_haship_addr;
  ri_pubkey : c_multikeys_pub;
  ri_cost : Z;
  ri_time : Z
}.

Definition new_route_info (now : Z) (nexthop : c_haship_addr) (cost : Z) (pubkey : c_multikeys_pub) : c_route_info :=
  RouteInfo e_route_state_found nexthop pubkey cost now.

Record c_route_reason := RouteReason { rr_his_addr : c_haship_addr; rr_search_mode : t_search_mode }.

#[export] Instance c_route_reason_eq_dec : EqDecision c_route_reason.
Proof. solve_decision. Defined.

(** [operator<] of two [std::array]s. *)
Definition haship_lt (a b : c_haship_addr) : bool := negb (string_leb b a).

(** [c_route_reason::operator<] *)
Definition c_route_reason_less (this other : c_route_reason) : bool :=
  if haship_lt (rr_his_addr this) (rr_his_addr other) then true
  else if search_mode_int (rr_search_mode this) <? search_mode_int (rr_search_mode other) then true
  else false.

(** What a std::map takes for the same key. *)
Definition reason_equiv (a b : c_route_reason) : bool :=
  negb (c_route_reason_less a b) && negb (c_route_reason_less b a).

Record c_route_reason_detail := RouteReasonDetail { rd_when : Z; rd_ttl : Z }.

Record c_route_search := RouteSearch {
  rs_addr : c_haship_addr;
  rs_ever : bool;
  rs_ask_time : Z;
  rs_ttl_used : Z;
  rs_ttl_should_use : Z;
  rs_request : list (c_route_reason * c_route_reason_detail)
}.

(** The parameter [basic_ttl] is not used. *)
Definition new_route_search (addr : c_haship_addr) (basic_ttl : Z) : c_route_search :=
  RouteSearch addr false 0 0 5 [].

(** [m_request.find(reason)], [m_request] as the list of its entries: the
    entry with an equivalent key.  ([c_route_reason_less] is not the strict
    weak order std::map asks for, see [c_route_reason_less_cyclic]; a lookup
    that misses an entry for that reason only adds a second one.) *)
Fixpoint find_reason (reason : c_route_reason) (l : list (c_route_reason * c_route_reason_detail)) : option c_route_reason_detail :=
  match l with
  | [] => None
  | (r, d) :: l' => if reason_equiv r reason then Some d else find_reason reason l'
  end.

Fixpoint update_reason (reason : c_route_reason) (d' : c_route_reason_detail)
    (l : list (c_route_reason * c_route_reason_detail)) : list (c_route_reason * c_route_reason_detail) :=
  match l with
  | [] => []
  | (r, d) :: l' => if reason_equiv r reason then (r, d') :: l' else (r, d) :: update_reason reason d' l'
  end.

Definition add_request (now : Z) (reason : c_route_reason) (ttl : Z) (s : c_route_search) : c_route_search :=
  let request :=
    match find_reason reason (rs_request s) with
    | None => rs_request s ++ [(reason, RouteReasonDetail now ttl)]
    | Some detail => update_reason reason (RouteReasonDetail now (Z.max (rd_ttl detail) ttl)) (rs_request s)
    end in
  RouteSearch (rs_addr s) (rs_ever s) (rs_ask_time s) (rs_ttl_used s)
    (Z.max (rs_ttl_should_use s) ttl) request.

Record c_routing_manager := RoutingManager {
  m_search : gmap c_haship_addr c_route_search;
  m_route_nexthop : gmap c_haship_addr c_route_info
}.

Definition set_search (x : gmap c_haship_addr c_route_search) (r : c_routing_manager) : c_routing_manager :=
  RoutingManager x (m_route_nexthop r).

Definition add_route_info_and_return (target : c_haship_addr) (route_info : c_route_info) : M c_routing_manager c_route_info :=
  r ← mget;
  match m_route_nexthop r !! target with
  | None =>
      mput (RoutingManager (m_search r) (<[target := route_info]> (m_route_nexthop r)));;
      mret route_info
  | Some known => mret known
  end.

Section Search.
Context {Node : Type} `{!GalaxyNode Node}.

(** The query [HIP;TTL;] of [c_route_search::execute]. *)
Definition search_query (addr : c_haship_addr) (byte_highest_ttl : Byte.byte) : bytes :=
  addr ++ str ";" ++ [byte_highest_ttl] ++ str ";".

(** [m_search[dst]->execute(galaxy_node)] *)
Definition execute (now : Z) (dst : c_haship_addr) (s : c_route_search) : M (c_routing_manager * Node) unit :=
  let byte_highest_ttl := byte_of_Z (rs_ttl_should_use s) in
  massert (rs_ttl_should_use s =? byte_val byte_highest_ttl);;
  on_snd (nodep2p_foreach_cmd e_proto_cmd_findhip_query (search_query (rs_addr s) byte_highest_ttl));;
  on_fst (mmodify (fun r => set_search (<[dst :=
    RouteSearch (rs_addr s) (rs_ever s) now (byte_val byte_highest_ttl) (rs_ttl_should_use s) (rs_request s)]> (m_search r)) r)).

(** The part of [get_route_or_maybe_search] inside its [try]: the route by a
    direct peer.  [None] stands for the two exceptions the handlers catch. *)
Definition direct_route (now : Z) (dst : c_haship_addr) : M (c_routing_manager * Node) (option c_route_info) :=
  let prog : M (c_routing_manager * Node) (option c_route_info) :=
    peer ← on_snd (get_peer_with_hip dst false);
    match m_pubkey peer with
    | None => mthrow ex_runtime_error
    | Some peer_pub =>
        route ← on_fst (add_route_info_and_return dst (new_route_info now (m_haship_addr peer) 1 peer_pub));
        mret (Some route)
    end in
  mcatch prog (fun e =>
    match e with
    | ex_expected_not_found_missing_pubkey => mret None
    | ex_expected_not_found => mret None
    | e => mthrow e
    end).

Definition get_route_or_maybe_search (now : Z) (dst : c_haship_addr) (reason : c_route_reason)
    (start_search : bool) (search_ttl : Z) : M (c_routing_manager * Node) c_route_info :=
  direct ← direct_route now dst;
  match direct with
  | Some route => mret route
  | None =>
      r ← on_fst mget;
      match m_route_nexthop r !! dst with
      | Some route => mret route
      | None =>
          if negb start_search then mthrow ex_runtime_error
          else
            (match m_search r !! dst with
             | None =>
                 let new_search := add_request now reason search_ttl (new_route_search dst search_ttl) in
                 on_fst (mput (set_search (<[dst := new_search]> (m_search r)) r));;
                 execute now dst new_search
             | Some search =>
                 on_fst (mput (set_search (<[dst := add_request now reason search_ttl search]> (m_search r)) r))
             end);;
            mthrow ex_runtime_error
      end
  end.
End Search.
