(* ===== verification/RoutingFacts.v ===== *)
(** * What the routing manager knows

    Theorems about [Routing.v] against the interface [GalaxyNode]: routes are
    never changed once known, searches only grow, the TTL of a search is the
    maximum of its requests, and every branch of the search for a route. *)
From S2P Require Import Prelude Serialize Cryptobasic Multikeys Peering Routing.

(** The greatest TTL asked for, and at least 5. *)
Definition goal_ttl (l : list (c_route_reason * c_route_reason_detail)) : Z :=
  foldr (fun e => Z.max (rd_ttl e.2)) 5 l.

Record search_ok (dst : c_haship_addr) (s : c_route_search) : Prop := {
  search_addr : rs_addr s = dst;
  search_ttl_goal : rs_ttl_should_use s = goal_ttl (rs_request s)
}.

Definition rm_ok (r : c_routing_manager) : Prop := map_Forall search_ok (m_search r).

(** More is known in [r'] than in [r]. *)
Record grows (r r' : c_routing_manager) : Prop := {
  grows_routes : m_route_nexthop r ⊆ m_route_nexthop r';
  grows_searches k s : m_search r !! k = Some s -> exists s', m_search r' !! k = Some s' /\
    rs_ttl_should_use s <= rs_ttl_should_use s' /\ rs_ttl_used s <= Z.max (rs_ttl_used s') (rs_ttl_should_use s')
}.

Lemma goal_ttl_app l e : goal_ttl (l ++ [e]) = Z.max (goal_ttl l) (rd_ttl e.2).
Proof. induction l as [|x l IH]; cbn; [lia|]. unfold goal_ttl in *. rewrite IH. lia. Qed.

Lemma goal_ttl_update reason ttl now d l : find_reason reason l = Some d ->
  goal_ttl (update_reason reason (RouteReasonDetail now (Z.max (rd_ttl d) ttl)) l) = Z.max (goal_ttl l) ttl.
Proof.
  induction l as [|[r d'] l IH]; cbn; [done|]. destruct (reason_equiv r reason).
  - intros [= ->]. cbn. lia.
  - intros H. unfold goal_ttl in *. cbn. rewrite IH by done. lia.
Qed.

Lemma add_request_ok now reason ttl dst s : search_ok dst s -> search_ok dst (add_request now reason ttl s).
Proof.
  intros [Ha Ht]. split; [done|]. cbn. rewrite Ht.
  destruct (find_reason reason (rs_request s)) as [d|] eqn:E; [by rewrite goal_ttl_update|by rewrite goal_ttl_app].
Qed.

Lemma new_search_ok dst ttl : search_ok dst (new_route_search dst ttl).
Proof. by split. Qed.

Definition same_routes (r r' : c_routing_manager) : Prop := m_route_nexthop r = m_route_nexthop r'.

Lemma grows_refl r : map_Forall (fun _ s => rs_ttl_used s <= rs_ttl_should_use s) (m_search r) -> grows r r.
Proof. intros H. split; [done|]. intros k s Hs. exists s. split; [done|]. specialize (H k s Hs). cbn in H. lia. Qed.

(** One entry of the searches replaced by a greater one. *)
Lemma grows_insert r dst s : (forall s0, m_search r !! dst = Some s0 -> rs_ttl_should_use s0 <= rs_ttl_should_use s /\
    rs_ttl_used s0 <= Z.max (rs_ttl_used s) (rs_ttl_should_use s)) ->
  grows r (set_search (<[dst := s]> (m_search r)) r).
Proof.
  intros H. split; [done|]. intros k s0 Hk. cbn. destruct (decide (k = dst)) as [->|Hn].
  - rewrite lookup_insert_eq. exists s. destruct (H s0 Hk). by split_and!.
  - rewrite lookup_insert_ne by done. exists s0. split_and!; [done|lia|lia].
Qed.

Lemma grows_trans r1 r2 r3 : grows r1 r2 -> grows r2 r3 ->
  (forall k s, m_search r2 !! k = Some s -> rs_ttl_used s <= rs_ttl_should_use s) -> grows r1 r3.
Proof.
  intros [H1 G1] [H2 G2] Hu. split; [by etransitivity|]. intros k s Hs.
  destruct (G1 k s Hs) as (s2 & Hs2 & ? & ?). destruct (G2 k s2 Hs2) as (s3 & Hs3 & ? & ?).
  specialize (Hu k s2 Hs2). exists s3. split_and!; [done|lia|lia].
Qed.

Definition used_ok (r : c_routing_manager) : Prop :=
  map_Forall (fun _ s => rs_ttl_used s <= rs_ttl_should_use s) (m_search r).

Section Manager.
Context {Node : Type} `{!GalaxyNode Node}.
Context (now : Z) (dst : c_haship_addr) (reason : c_route_reason) (start_search : bool) (ttl : Z).

Lemma direct_route_cases r n : forall o r' n', direct_route now dst (r, n) = (o, (r', n')) ->
  m_search r' = m_search r /\ m_route_nexthop r ⊆ m_route_nexthop r' /\
  (o = Ret None -> r' = r).
Proof.
  intros o r' n' E. unfold direct_route, mcatch, mbind, M_mbind, on_snd in E. cbn [fst snd] in E.
  destruct (get_peer_with_hip dst false n) as [[peer|e| |] n1]; cbn [fst snd] in E.
  - destruct (m_pubkey peer) as [pk|]; [|by injection E as <- <- <-].
    unfold on_fst, add_route_info_and_return, mbind, M_mbind, mget, mput, mret, M_mret in E. cbn [fst snd] in E.
    destruct (m_route_nexthop r !! dst) as [known|] eqn:Ek; injection E as <- <- <-; split_and!; try done.
    by apply insert_subseteq.
  - by destruct e; injection E as <- <- <-.
  - by injection E as <- <- <-.
  - by injection E as <- <- <-.
Qed.

Definition request_new : c_route_search := add_request now reason ttl (new_route_search dst ttl).

Lemma execute_cases s r n : forall o r' n', execute now dst s (r, n) = (o, (r', n')) ->
  r' = r \/ r' = set_search (<[dst := RouteSearch (rs_addr s) (rs_ever s) now (rs_ttl_should_use s)
                              (rs_ttl_should_use s) (rs_request s)]> (m_search r)) r.
Proof.
  intros o r' n' E. unfold execute, massert, oassert, mlift, mbind, M_mbind, on_snd, on_fst, mmodify in E. cbn [fst snd] in E.
  destruct (rs_ttl_should_use s =? byte_val (byte_of_Z (rs_ttl_should_use s))) eqn:Eb; [|injection E as <- <- <-; by left].
  apply Z.eqb_eq in Eb.
  destruct (nodep2p_foreach_cmd _ _ n) as [[[]|e| |] n1]; cbn [fst snd] in E; injection E as <- <- <-; try by left.
  right. by rewrite <- Eb.
Qed.

(** All that a call can leave behind. *)
Lemma get_route_effect r n o r' n' : get_route_or_maybe_search now dst reason start_search ttl (r, n) = (o, (r', n')) ->
  (m_search r' = m_search r /\ m_route_nexthop r ⊆ m_route_nexthop r') \/
  (m_route_nexthop r' = m_route_nexthop r /\ exists s used ask, m_search r' = <[dst :=
     RouteSearch (rs_addr s) (rs_ever s) ask used (rs_ttl_should_use s) (rs_request s)]> (m_search r) /\
     ((m_search r !! dst = None /\ s = request_new /\ (used = 0 \/ used = rs_ttl_should_use s)) \/
      exists s0, m_search r !! dst = Some s0 /\ s = add_request now reason ttl s0 /\ used = rs_ttl_used s0)).
Proof.
  unfold get_route_or_maybe_search, mbind at 1, M_mbind at 1.
  destruct (direct_route now dst (r, n)) as [od [r1 n1]] eqn:Ed.
  apply direct_route_cases in Ed as (H1 & H2 & H3). intros E.
  destruct od as [[route|]|e| |]; try (injection E as <- <- <-; by left).
  rewrite (H3 eq_refl) in E. unfold mbind at 1, M_mbind at 1, on_fst at 1, mget in E. cbn [fst snd] in E.
  destruct (m_route_nexthop r !! dst) as [route|] eqn:Er; [injection E as <- <- <-; by left|].
  destruct start_search; cbn [negb] in E; [|injection E as <- <- <-; by left].
  right. unfold mbind at 1, M_mbind at 1, mthrow in E.
  destruct (m_search r !! dst) as [s0|] eqn:Es.
  - cbn [on_fst mput fst snd] in E. injection E as <- <- <-. split; [done|].
    exists (add_request now reason ttl s0), (rs_ttl_used s0), (rs_ask_time s0). split; [done|]. right. by exists s0.
  - unfold mbind, M_mbind in E. cbn [on_fst mput fst snd] in E. fold request_new in E.
    destruct (execute now dst request_new _) as [oe [r2 n2]] eqn:Ee.
    assert (r' = r2) as -> by (destruct oe as [[]|?| |]; by injection E as <- <- <-).
    apply execute_cases in Ee as [-> | ->]; (split; [done|]); exists request_new.
    + exists 0, 0. split; [done|]. left. by split_and!; [|done|left].
    + exists (rs_ttl_should_use request_new), now. cbn. rewrite insert_insert_eq. split; [done|]. left. by split_and!; [|done|right].
Qed.
End Manager.

(** ** Properties *)

(** Whatever a call of [get_route_or_maybe_search] returns or throws, no
    known route is changed or lost, no search is lost and its TTL never
    decreases, every search stays filed under its address with the greatest
    requested TTL (at least 5) as its goal, and the TTL used never exceeds it. *)
Lemma routing_knowledge_grows Node `{!GalaxyNode Node} now dst reason start ttl r (n : Node) :
  rm_ok r -> used_ok r ->
  let r' := (get_route_or_maybe_search now dst reason start ttl (r, n)).2.1 in
  grows r r' /\ rm_ok r' /\ used_ok r'.
Proof.
  intros Hok Hu r'. destruct (get_route_or_maybe_search now dst reason start ttl (r, n)) as [o [r2 n2]] eqn:E.
  cbn in r'. subst r'. apply get_route_effect in E as [[Hs Hr]|(Hr & s & used & ask & Hs & Hcase)].
  - split_and!; [|unfold rm_ok; by rewrite Hs|unfold used_ok; by rewrite Hs].
    split; [done|]. intros k s. rewrite Hs. intros Hk. exists s. pose proof (map_Forall_lookup_1 _ _ _ _ Hu Hk) as Hu'. cbn in Hu'. split_and!; [done|lia|lia].
  - assert (r2 = set_search (<[dst := RouteSearch (rs_addr s) (rs_ever s) ask used (rs_ttl_should_use s) (rs_request s)]> (m_search r)) r) as ->
      by (destruct r2; cbn in *; by subst).
    assert (search_ok dst s /\ used <= rs_ttl_should_use s /\
      forall s0, m_search r !! dst = Some s0 -> rs_ttl_should_use s0 <= rs_ttl_should_use s /\ rs_ttl_used s0 <= Z.max used (rs_ttl_should_use s))
      as (Hsok & Hused & Hle).
    { destruct Hcase as [(Hn & -> & Hused)|(s0 & H0 & -> & ->)].
      - split_and!; [apply add_request_ok, new_search_ok| |intros s0; by rewrite Hn].
        destruct Hused as [-> | ->]; [cbn; lia|lia].
      - pose proof (map_Forall_lookup_1 _ _ _ _ Hok H0) as Hs0. pose proof (map_Forall_lookup_1 _ _ _ _ Hu H0) as Hu0. cbn in Hu0.
        split_and!; [by apply add_request_ok|cbn; lia|]. intros s1. rewrite H0. intros [= <-]. cbn. lia. }
    split_and!.
    + apply grows_insert. cbn. exact Hle.
    + apply map_Forall_insert_2; [|done]. destruct Hsok. by split.
    + by apply map_Forall_insert_2.
Qed.

(** The search for a route, branch by branch, for a node whose peer
    lookup has no effects: a direct peer gives the route already stored for
    it, or a new one of cost 1; a direct peer without public key is an error;
    else a known route; else an error, after entering the request, with one
    query to all peers exactly when the search is new. *)
Lemma get_route_branches Node `{!GalaxyNode Node} now dst reason start ttl r (n : Node) :
  (forall peer pk, get_peer_with_hip dst false n = (Ret peer, n) -> m_pubkey peer = Some pk ->
     let route := default (new_route_info now (m_haship_addr peer) 1 pk) (m_route_nexthop r !! dst) in
     get_route_or_maybe_search now dst reason start ttl (r, n)
     = (Ret route, (RoutingManager (m_search r) (<[dst := route]> (m_route_nexthop r)), n))) /\
  (forall peer, get_peer_with_hip dst false n = (Ret peer, n) -> m_pubkey peer = None ->
     get_route_or_maybe_search now dst reason start ttl (r, n) = (Throw ex_runtime_error, (r, n))) /\
  (get_peer_with_hip dst false n = (Throw ex_expected_not_found, n) ->
     (forall route, m_route_nexthop r !! dst = Some route ->
        get_route_or_maybe_search now dst reason start ttl (r, n) = (Ret route, (r, n))) /\
     (m_route_nexthop r !! dst = None ->
        (start = false -> get_route_or_maybe_search now dst reason start ttl (r, n) = (Throw ex_runtime_error, (r, n))) /\
        (start = true -> forall s, m_search r !! dst = Some s ->
           get_route_or_maybe_search now dst reason start ttl (r, n)
           = (Throw ex_runtime_error, (set_search (<[dst := add_request now reason ttl s]> (m_search r)) r, n))) /\
        (start = true -> m_search r !! dst = None -> 0 <= Z.max 5 ttl < 256 -> forall n',
           nodep2p_foreach_cmd e_proto_cmd_findhip_query (search_query dst (byte_of_Z (Z.max 5 ttl))) n = (Ret tt, n') ->
           exists r', get_route_or_maybe_search now dst reason start ttl (r, n) = (Throw ex_runtime_error, (r', n')) /\
             exists s', m_search r' = <[dst := s']> (m_search r) /\ rs_ttl_used s' = Z.max 5 ttl))).
Proof.
  unfold get_route_or_maybe_search, direct_route, mcatch.
  refine (conj _ (conj _ _)); [intros peer pk Hp Hk|intros peer Hp Hk|intros Hp].
  - unfold mbind, M_mbind, on_snd. cbn [fst snd]. rewrite Hp. cbn [fst snd]. rewrite Hk.
    unfold on_fst, add_route_info_and_return, mbind, M_mbind, mget, mput, mret, M_mret. cbn [fst snd].
    destruct (m_route_nexthop r !! dst) as [known|] eqn:E; cbn; [|done].
    rewrite insert_id by done. by destruct r.
  - unfold mbind, M_mbind, on_snd. cbn [fst snd]. rewrite Hp. cbn [fst snd]. by rewrite Hk.
  - unfold mbind, M_mbind, on_snd. cbn [fst snd]. rewrite Hp. cbn [fst snd].
    unfold on_fst, mget, mput, mret, M_mret, mthrow. cbn [fst snd].
    split; [by intros route ->|]. intros ->. split_and!; [by intros ->|by intros -> s ->|].
    intros -> -> Hb n' Hn. cbn [negb fst snd].
    set (s := add_request now reason ttl (new_route_search dst ttl)).
    assert (rs_ttl_should_use s = Z.max 5 ttl) as Hs by done.
    unfold execute, massert, oassert, mlift, mbind, M_mbind, on_snd, on_fst, mmodify. cbn [fst snd].
    rewrite Hs, byte_val_of_Z, Z.mod_small, Z.eqb_refl by lia. change (rs_addr s) with dst. rewrite Hn. cbn [fst snd].
    eexists. split; [done|]. eexists. cbn. split; [by rewrite insert_insert_eq|].
    done.
Qed.

(** The comparison of reasons is not asymmetric: two reasons can each be less
    than the other. *)
Lemma c_route_reason_less_cyclic : exists a b, c_route_reason_less a b = true /\ c_route_reason_less b a = true.
Proof.
  exists (RouteReason (str "A") e_search_mode_help_find), (RouteReason (str "B") e_search_mode_route_other_packet).
  by vm_compute.
Qed.

(** A node that records the commands it sends and has one peer. *)
#[local] Instance example_node : GalaxyNode (list (t_proto_cmd * bytes)) := {|
  nodep2p_foreach_cmd := fun cmd data => mmodify (fun sent => sent ++ [(cmd, data)]);
  get_peer_with_hip := fun addr _ =>
    if bool_decide (addr = str "peer") then
      mret (set_pubkey new_multikeys_pub (new_peering 0 (PeeringReference (tag_ipv4 (str "addr") 9042) (str "peer"))))
    else mthrow ex_expected_not_found
|}.

Definition example_rm : c_routing_manager := RoutingManager
  {[ str "far" := RouteSearch (str "far") false 0 5 5 [(RouteReason (str "me") e_search_mode_route_own_packet, RouteReasonDetail 0 3)] ]} ∅.

