(* ===== verification/Peerref.v ===== *)
(** * References to peers, as text

    Models [galaxy42_utils.cpp] (an IPv4 address with its port),
    [c_galaxysrv_peers::parse_peer_reference] of [galaxysrv_peers.cpp]
    ("VIRTUAL@(CABLE)@(CABLE)"), the constructors of [c_ip46_addr] from text
    and [c_tunserver::parse_peer_simplestring].  The address functions of
    boost::asio and of the C library are the fields of [NetLib]. *)
From S2P Require Import Prelude Serialize Multikeys Peering.

Class NetLib := {
  address_v6_from_string : bytes -> option bytes;   (* 16 octets *)
  address_v4_from_string : bytes -> option bytes;   (* 4 octets *)
  is_class_a : bytes -> bool; is_class_b : bytes -> bool; is_class_c : bytes -> bool;
  is_loopback : bytes -> bool; is_unspecified : bytes -> bool; is_multicast : bytes -> bool;
  inet_ntop4 : bytes -> bytes;
  inet_ntop6 : bytes -> bytes;
  inet_pton4 : bytes -> option bytes;
  inet_pton6 : bytes -> option bytes;
  getaddrinfo_is_ipv4 : bytes -> option bool        (* None: not a numeric address *)
}.

(** ** std::string *)

Fixpoint find_from_loop (c : Byte.byte) (i : Z) (s : bytes) : option Z :=
  match s with
  | [] => None
  | x :: s' => if bool_decide (x = c) then Some i else find_from_loop c (i + 1) s'
  end.

(** [s.find(c, pos)] *)
Definition find_from (s : bytes) (c : Byte.byte) (pos : Z) : option Z := find_from_loop c pos (drop (Z.to_nat pos) s).

Definition has_char (s : bytes) (c : Byte.byte) : bool := match find_from s c 0 with Some _ => true | None => false end.

(** [s.substr(pos)] *)
Definition substr_from (s : bytes) (pos : Z) : outcome bytes :=
  othrow_if (zlen s <? pos) ex_out_of_range;; Ret (drop (Z.to_nat pos) s).

Definition isspace (c : Byte.byte) : bool := let v := byte_val c in (v =? 32) || ((9 <=? v) && (v <=? 13)).
Definition isdigit (c : Byte.byte) : bool := (48 <=? byte_val c) && (byte_val c <=? 57).

Fixpoint skip_spaces (s : bytes) : bytes :=
  match s with [] => [] | c :: s' => if isspace c then skip_spaces s' else s end.

(** The leading digits as a number, [None] without any. *)
Fixpoint read_digits (acc : option Z) (s : bytes) : option Z :=
  match s with
  | [] => acc
  | c :: s' => if isdigit c then read_digits (Some (default 0 acc * 10 + (byte_val c - 48))) s' else acc
  end.

(** [std::stoi]: what follows the number is ignored. *)
Definition stoi (s : bytes) : outcome Z :=
  let s := skip_spaces s in
  let value := match s with
    | Byte.x2b :: s' => read_digits None s'
    | Byte.x2d :: s' => option_map Z.opp (read_digits None s')
    | _ => read_digits None s
    end in
  match value with
  | None => Throw ex_invalid_argument
  | Some v => if (v <? - 2 ^ 31) || (2 ^ 31 <=? v) then Throw ex_out_of_range else Ret v
  end.

(** [try { m } catch(std::exception &) { throw e; }] *)
Definition rethrow_as {A} (e : exn) (m : outcome A) : outcome A :=
  match m with Throw _ => Throw e | r => r end.

Section Text.
Context `{!NetLib}.

(** ** tunserver_utils::parse_ip_string *)

Definition parse_ip_string (ip_string : bytes) : outcome (bytes * Z) :=
  rethrow_as ex_invalid_argument (
    othrow_if (zlen ip_string <? (1 + 1) * 4) ex_runtime_error;;
    othrow_if (4 * 4 + 1 + 4 <? zlen ip_string) ex_runtime_error;;
    match find_from ip_string Byte.x3a 0 with
    | None => Throw ex_runtime_error
    | Some pos =>
        let ip := take (Z.to_nat pos) ip_string in
        othrow_if (zlen ip <? (1 + 1) * 4) ex_runtime_error;;
        port ← substr_from ip_string (pos + 1);
        othrow_if (zlen ip <? 1) ex_runtime_error;;
        port_int ← stoi port;
        othrow_if (port_int <=? 0) ex_runtime_error;;
        othrow_if (65535 <? port_int) ex_runtime_error;;
        match address_v4_from_string ip with
        | None => Throw ex_runtime_error
        | Some ip_boost =>
            let is_good_class := is_class_a ip_boost || is_class_b ip_boost || is_class_c ip_boost || is_loopback ip_boost in
            let is_bad_class := is_unspecified ip_boost || is_multicast ip_boost in
            othrow_if (negb (is_good_class && negb is_bad_class)) ex_runtime_error;;
            Ret (ip, port_int)
        end
    end).

(** ** c_ip46_addr from text *)

Definition is_ipv4 (ipstr : bytes) : outcome bool :=
  match getaddrinfo_is_ipv4 ipstr with
  | None => Throw ex_invalid_argument
  | Some b => Ret b
  end.

(** [htons] then [ntohs]: the port modulo 2^16; the address stays zero when
    [inet_pton] refuses the text. *)
Definition create_ipv4 (ipv4_str : bytes) (port : Z) : c_ip46_addr :=
  tag_ipv4 (default (replicate 4 Byte.x00) (inet_pton4 ipv4_str)) (wrap 16 port).
Definition create_ipv6 (ipv6_str : bytes) (port : Z) : c_ip46_addr :=
  tag_ipv6 (default (replicate 16 Byte.x00) (inet_pton6 ipv6_str)) (wrap 16 port).

Definition ip46_of_string (ip_addr : bytes) (port : Z) : outcome c_ip46_addr :=
  v4 ← is_ipv4 ip_addr;
  Ret (if (v4 : bool) then create_ipv4 ip_addr port else create_ipv6 ip_addr port).

(** The constructors of [t_peering_reference]. *)
Definition peering_reference (addr : c_ip46_addr) (peering_hip : bytes) : outcome t_peering_reference :=
  hip ← haship_of_dot address_v6_from_string peering_hip;
  Ret (PeeringReference addr hip).
Definition peering_reference_dot (peering_addr : bytes) (port : Z) (peering_hip : bytes) : outcome t_peering_reference :=
  addr ← ip46_of_string peering_addr port;
  peering_reference addr peering_hip.

(** [c_tunserver::parse_peer_simplestring]: "1.2.3.4:9042-fd42:..." *)
Definition parse_peer_simplestring (simple : bytes) : outcome t_peering_reference :=
  match find_from simple Byte.x2d 0 with
  | None => Throw ex_out_of_range
  | Some pos1 =>
      let part_pip := take (Z.to_nat pos1) simple in
      part_hip ← substr_from simple (pos1 + 1);
      ip_pair ← parse_ip_string part_pip;
      peering_reference_dot ip_pair.1 ip_pair.2 part_hip
  end.
End Text.

(** ** c_galaxysrv_peers::parse_peer_reference *)

Definition separator : Byte.byte := Byte.x40.     (* '@' *)
Definition group_open : Byte.byte := Byte.x28.    (* '(' *)
Definition group_close : Byte.byte := Byte.x29.   (* ')' *)

Definition _check_input (b : bool) : outcome unit := othrow_if (negb b) ex_err_check_input.

Definition reasonable_size (obj : bytes) : outcome unit := _check_input (zlen obj <=? 1000000).

(** [simple.at(i) == c], checked. *)
Definition check_at (simple : bytes) (i : Z) (c : Byte.byte) : outcome unit :=
  x ← at_ simple i; _check_input (bool_decide (x = c)).

(** The loop over the groups, from [posB]; every turn consumes octets, so the
    size of the string is enough fuel. *)
Fixpoint parse_cables (fuel : nat) (simple : bytes) (posB : Z) (ret_cable : list bytes) : outcome (list bytes) :=
  let size := zlen simple in
  let size_before := size - 1 in
  if posB <? size_before then
    match fuel with
    | O => Undef
    | S f =>
        let posX := default size_before (find_from simple group_close posB) in
        let partX := sub simple posB (posX - posB) in
        _check_input (negb (has_char partX group_open));;
        _check_input (negb (has_char partX group_close));;
        _check_input (0 <? zlen partX);;
        let ret_cable := ret_cable ++ [partX] in
        let posB := posX in
        check_at simple posB group_close;;
        let posB := posB + 1 in
        if negb (posB <? size) then Ret ret_cable
        else
          check_at simple posB separator;;
          check_at simple (posB + 1) group_open;;
          parse_cables f simple (posB + 2) ret_cable
    end
  else Ret ret_cable.

Definition parse_peer_reference (simple : bytes) : outcome (list bytes * list bytes) :=
  reasonable_size simple;;
  _check_input (3 <=? zlen simple);;
  match find_from simple separator 0 with
  | None =>
      _check_input (negb (has_char simple group_open));;
      _check_input (negb (has_char simple group_close));;
      _check_input (0 <? zlen simple);;
      Ret ([simple], [])
  | Some pos1 =>
      let part1 := take (Z.to_nat pos1) simple in
      _check_input (negb (has_char part1 group_open));;
      _check_input (negb (has_char part1 group_close));;
      _check_input (0 <? zlen part1);;
      let ret_id := if bool_decide (part1 = str "anyone") then [] else [part1] in
      let size := zlen simple in
      _check_input (pos1 + 2 <? size);;
      check_at simple pos1 separator;;
      check_at simple (pos1 + 1) group_open;;
      ret_cable ← parse_cables (length simple) simple (pos1 + 2) [];
      Ret (ret_id, ret_cable)
  end.

(** ** Facts *)

Lemma find_loop_app c p r i : c ∉ p -> find_from_loop c i (p ++ c :: r) = Some (i + zlen p).
Proof.
  revert i. induction p as [|x p IH]; intros i Hn; cbn.
  - rewrite bool_decide_eq_true_2 by done. by rewrite Z.add_0_r.
  - apply not_elem_of_cons in Hn as [Hx Hn]. rewrite bool_decide_eq_false_2 by congruence.
    rewrite IH by done. f_equal. rewrite zlen_cons. lia.
Qed.

Lemma find_loop_none c s i : c ∉ s -> find_from_loop c i s = None.
Proof.
  revert i. induction s as [|x s IH]; intros i Hn; cbn; [done|].
  apply not_elem_of_cons in Hn as [Hx Hn]. rewrite bool_decide_eq_false_2 by congruence. by apply IH.
Qed.

Lemma find_from_app a c p r : c ∉ p -> find_from (a ++ p ++ c :: r) c (zlen a) = Some (zlen a + zlen p).
Proof. intros Hn. unfold find_from, zlen at 2. rewrite Nat2Z.id, drop_app_length. by apply find_loop_app. Qed.

Lemma find_from_0 c p r : c ∉ p -> find_from (p ++ c :: r) c 0 = Some (zlen p).
Proof. intros Hn. exact (find_from_app [] c p r Hn). Qed.

Lemma has_char_none s c : c ∉ s -> has_char s c = false.
Proof. intros Hn. unfold has_char, find_from. by rewrite find_loop_none. Qed.

Lemma check_at_app a c r : check_at (a ++ c :: r) (zlen a) c = Ret tt.
Proof.
  unfold check_at, at_. rewrite (proj2 (Z.leb_le _ _)) by apply zlen_nonneg.
  unfold zlen. rewrite Nat2Z.id, list_lookup_middle by done. unfold mbind, outcome_mbind. simpl.
  by rewrite bool_decide_eq_true_2.
Qed.

Lemma check_at_app1 a x c r : check_at (a ++ x :: c :: r) (zlen a + 1) c = Ret tt.
Proof.
  replace (a ++ x :: c :: r) with ((a ++ [x]) ++ c :: r) by by rewrite <- app_assoc.
  replace (zlen a + 1) with (zlen (a ++ [x])) by (rewrite zlen_app, zlen_cons, zlen_nil; lia).
  apply check_at_app.
Qed.

(** A reference as text. *)
Definition show_cables (cables : list bytes) : bytes :=
  concat (map (fun c => [separator; group_open] ++ c ++ [group_close]) cables).
Definition show_reference (id : bytes) (cables : list bytes) : bytes := id ++ show_cables cables.

Definition plain (s : bytes) : Prop := (s <> []) /\ (group_open ∉ s) /\ (group_close ∉ s).

Lemma parse_cables_show cables : forall fuel pre c acc, plain c -> Forall plain cables ->
  (length (c ++ (group_close :: show_cables cables)) <= fuel)%nat ->
  parse_cables fuel (pre ++ c ++ (group_close :: show_cables cables)) (zlen pre) acc = Ret (acc ++ c :: cables).
Proof.
  induction cables as [|c2 cables IH]; intros fuel pre c acc (Hne & Ho & Hc) Hcs Hf.
  - pose proof (zlen_pos c Hne). destruct fuel as [|f]; [rewrite length_app in Hf; simpl in Hf; lia|].
    cbn [parse_cables show_cables concat map].
    rewrite !zlen_app, zlen_cons, zlen_nil, (proj2 (Z.ltb_lt _ _)) by lia.
    rewrite find_from_app by done. cbn [from_option id].
    replace (zlen pre + zlen c - zlen pre) with (zlen c) by lia. rewrite sub_app_exact.
    rewrite !has_char_none by done. rewrite (proj2 (Z.ltb_lt 0 _)) by lia.
    replace (pre ++ c ++ [group_close]) with ((pre ++ c) ++ group_close :: []) by by rewrite <- app_assoc.
    rewrite <- (zlen_app pre c), check_at_app. unfold mbind, outcome_mbind. cbn.
    rewrite zlen_app, (proj2 (Z.ltb_ge _ _)) by lia. done.
  - pose proof (zlen_pos c Hne). inversion Hcs as [|?? Hc2 Hcs2]; subst.
    destruct fuel as [|f]; [rewrite length_app in Hf; simpl in Hf; lia|].
    set (rest := c2 ++ group_close :: show_cables cables).
    assert (show_cables (c2 :: cables) = separator :: group_open :: rest) as Es.
    { unfold show_cables, rest. cbn. by rewrite <- app_assoc. }
    rewrite Es in *. cbn [parse_cables].
    rewrite !zlen_app, !zlen_cons. pose proof (zlen_nonneg rest). rewrite (proj2 (Z.ltb_lt _ _)) by lia.
    rewrite find_from_app by done. cbn [from_option id].
    replace (zlen pre + zlen c - zlen pre) with (zlen c) by lia. rewrite sub_app_exact.
    rewrite !has_char_none by done. rewrite (proj2 (Z.ltb_lt 0 _)) by lia.
    assert (pre ++ c ++ group_close :: separator :: group_open :: rest = (pre ++ c) ++ group_close :: separator :: group_open :: rest) as Ea
      by by rewrite <- app_assoc.
    rewrite Ea, <- (zlen_app pre c), check_at_app. unfold mbind, outcome_mbind. cbn [outcome_bind _check_input othrow_if negb].
    rewrite zlen_app, (proj2 (Z.ltb_lt _ _)) by lia. cbn [negb].
    replace ((pre ++ c) ++ group_close :: separator :: group_open :: rest)
      with ((pre ++ c ++ [group_close]) ++ separator :: group_open :: rest) by by rewrite <- !app_assoc.
    replace (zlen pre + zlen c + 1) with (zlen (pre ++ c ++ [group_close])) by (rewrite !zlen_app, zlen_cons, zlen_nil; lia).
    rewrite check_at_app. cbn [outcome_bind]. rewrite check_at_app1. cbn [outcome_bind].
    replace ((pre ++ c ++ [group_close]) ++ separator :: group_open :: rest)
      with ((pre ++ c ++ [group_close; separator; group_open]) ++ rest) by by rewrite <- !app_assoc.
    replace (zlen (pre ++ c ++ [group_close]) + 2) with (zlen (pre ++ c ++ [group_close; separator; group_open]))
      by (rewrite !zlen_app, !zlen_cons, zlen_nil; lia).
    unfold rest. rewrite IH; [by rewrite <- app_assoc|done|done|].
    fold rest. rewrite length_app in Hf. simpl in Hf. lia.
Qed.

Lemma parse_reference_shown id cables :
  plain id -> separator ∉ id -> Forall plain cables ->
  3 <= zlen (show_reference id cables) <= 1000000 ->
  parse_peer_reference (show_reference id cables)
  = Ret (if bool_decide (id = str "anyone") && negb (bool_decide (cables = [])) then [] else [id], cables).
Proof.
  intros Hid Hs Hcs Hz. pose proof Hid as (Hne & Ho & Hc). pose proof (zlen_pos id Hne).
  unfold parse_peer_reference, reasonable_size. rewrite !(proj2 (Z.leb_le _ _)) by lia.
  unfold mbind, outcome_mbind. cbn [_check_input othrow_if negb outcome_bind].
  destruct cables as [|c cables].
  - unfold show_reference, show_cables. cbn [map concat]. rewrite app_nil_r.
    unfold find_from. rewrite find_loop_none by done. rewrite !has_char_none by done.
    rewrite (proj2 (Z.ltb_lt 0 _)) by lia. cbn. by rewrite andb_false_r.
  - inversion Hcs as [|?? Hc1 Hcs1]; subst.
    set (rest := c ++ group_close :: show_cables cables).
    assert (show_reference id (c :: cables) = id ++ separator :: group_open :: rest) as Es.
    { unfold show_reference, show_cables, rest. cbn. by rewrite <- app_assoc. }
    rewrite Es. rewrite find_from_0 by done.
    replace (take (Z.to_nat (zlen id)) (id ++ separator :: group_open :: rest)) with id
      by (unfold zlen; by rewrite Nat2Z.id, take_app_length).
    rewrite !has_char_none by done.
    rewrite (proj2 (Z.ltb_lt 0 _)) by lia. cbn [negb outcome_bind].
    assert (0 < zlen rest) by (unfold rest; rewrite zlen_app, zlen_cons; pose proof (zlen_nonneg c); pose proof (zlen_nonneg (show_cables cables)); lia).
    rewrite (proj2 (Z.ltb_lt (zlen id + 2) _)) by (rewrite zlen_app, !zlen_cons; lia). cbn [negb outcome_bind].
    rewrite check_at_app. cbn [outcome_bind]. rewrite check_at_app1. cbn [outcome_bind].
    replace (id ++ separator :: group_open :: rest) with ((id ++ [separator; group_open]) ++ rest) by by rewrite <- app_assoc.
    replace (zlen id + 2) with (zlen (id ++ [separator; group_open])) by (rewrite zlen_app, !zlen_cons, zlen_nil; lia).
    unfold rest. rewrite parse_cables_show; [|done|done|rewrite !length_app; lia].
    cbn [outcome_bind app]. by rewrite andb_true_r.
Qed.

(** A reference "VIRTUAL@(CABLE)@(CABLE)..." written from a virtual address
    and cables is parsed back into them, "anyone" into no address; the parts
    may contain anything but parentheses (and the address no '@'). *)
Lemma parse_peer_reference_show id cables :
  plain id -> separator ∉ id -> Forall plain cables ->
  3 <= zlen (show_reference id cables) <= 1000000 ->
  parse_peer_reference (show_reference id cables)
  = Ret (if bool_decide (id = str "anyone") && negb (bool_decide (cables = [])) then [] else [id], cables).
Proof. apply parse_reference_shown. Qed.

(** A last group of one octet without its parenthesis is dropped silently. *)
Lemma parse_peer_reference_drops_tail :
  parse_peer_reference (str "fd42::1@(udp:1)@(x") = Ret ([str "fd42::1"], [str "udp:1"]).
Proof. by vm_compute. Qed.
