(* ===== verification/Ntrupp.v ===== *)
(** * NTRU and SIDH through their libraries (crypto/ntrupp, crypto/sidhpp)

    Models [ntrupp.hpp], [ntrupp.cpp] and the generation of SIDH keys in
    [sidhpp.cpp]: the calls of libntru, of the PASS signatures and of the SIDH
    library, with the buffers they write, the codes that are checked and those
    that are not, and the table of random generators.  [Crypto] and [Multikeys]
    see these operations through [CryptoLib]; [wrapped_lib] is that interface
    with the operations of this file.

    The libraries are classes of operations on a state [S], which holds their
    randomness.  A function that writes into a buffer is the contents of the
    buffer afterwards. *)
From S2P Require Import Prelude Serialize Cryptobasic Multikeys Peering Peerref Crypto.

(** libntru: the first call of a pair, without a buffer, gives a size. *)
Class NtruLib (S : Type) := {
  DRBG_HANDLE : Type;
  DRBG_OK : Z;
  NTRU_OK : Z;
  ntru_crypto_drbg_instantiate : Z -> S -> (Z * DRBG_HANDLE) * S;                (* code, handle *)
  ntru_keygen_sizes : DRBG_HANDLE -> S -> (Z * (Z * Z)) * S;                     (* code; public, private *)
  ntru_keygen_keys : DRBG_HANDLE -> Z -> Z -> S -> (Z * (bytes * bytes)) * S;    (* code; public, private *)
  ntru_encrypt_size : DRBG_HANDLE -> bytes -> bytes -> S -> Z * S;               (* public key, cleartext *)
  ntru_encrypt_into : DRBG_HANDLE -> bytes -> bytes -> Z -> S -> bytes * S;
  ntru_decrypt_size : bytes -> bytes -> Z;                                       (* private key, ciphertext *)
  ntru_decrypt_into : bytes -> bytes -> Z -> bytes
}.

(** The PASS signatures ("NTRU sign"): keys of PASS_N integers of 64 bits. *)
Class PassLib (S : Type) := {
  PASS_N : Z;
  HASH_BYTES : Z;
  pass_gen_key : S -> bytes * S;
  pass_gen_pubkey : bytes -> bytes;
  crypto_hash_sha512 : bytes -> bytes;
  pass_sign : bytes -> bytes -> bytes -> S -> (bytes * bytes) * S;               (* hash, key, message: z, hash *)
  pass_verify : bytes -> bytes -> bytes -> bytes -> bool                         (* hash, z, public key, message *)
}.

(** SIDH: whether a curve can be allocated, keys with a status, validation. *)
Class SidhLib (S : Type) := {
  CRYPTO_SUCCESS : Z;
  SIDH_curve_allocate : bool;
  KeyGeneration_A : S -> (Z * (bytes * bytes)) * S;                              (* status; private, public *)
  KeyGeneration_B : S -> (Z * (bytes * bytes)) * S;
  Validate_PKA : bytes -> Z * bool;
  Validate_PKB : bytes -> Z * bool
}.

(** ** The source of entropy *)

Inductive ENTROPY_CMD := INIT | GET_NUM_BYTES_PER_BYTE_OF_ENTROPY | GET_BYTE_OF_ENTROPY | other_cmd.

(** The static stream and the static octet; a stream that failed once reads
    nothing more. *)
Record entropy := Entropy { rand_is_open : bool; rand_failed : bool; random_byte : Byte.byte }.

(** [can_open]: the device can be opened; [next]: what a good stream reads;
    [out]: whether there is a place for the answer.  The result is the return
    value and what was written to [out].  Opening a stream that is open is a
    failure. *)
Definition get_entropy (can_open : bool) (next : option Byte.byte) (cmd : ENTROPY_CMD) (out : bool) : M entropy (Z * option Byte.byte) :=
  e ← mget;
  match cmd with
  | INIT =>
      (if can_open && negb (rand_is_open e) then mput (Entropy true false (random_byte e))
       else mput (Entropy (rand_is_open e) true (random_byte e)));;
      mret (1, None)
  | _ =>
      if negb out then mret (0, None)
      else match cmd with
      | GET_NUM_BYTES_PER_BYTE_OF_ENTROPY => mret (1, Some Byte.x01)
      | GET_BYTE_OF_ENTROPY =>
          if negb (rand_is_open e) then mret (0, None)
          else
            let e' := match (if rand_failed e then None else next) with
                      | Some b => Entropy true false b
                      | None => Entropy true true (random_byte e)
                      end in
            mput e';; mret (1, Some (random_byte e'))
      | _ => mret (0, None)
      end
  end.

(** [random_bytes_sidh]: what [get()] returns at each turn, [None] at the end
    of the file; [None] as a result is CRYPTO_ERROR. *)
Definition random_bytes_sidh (nbytes : Z) (get : Z -> option Byte.byte) : option bytes :=
  if nbytes =? 0 then None else Some (map (fun i => default Byte.xff (get i)) (indices nbytes)).

Section Ntrupp.
Context {S : Type} `{NT : !NtruLib S} `{PL : !PassLib S} `{SL : !SidhLib S}.
(** What [ntt_setup] returns. *)
Context (ntt_setup : Z).

(** The state: the libraries and the table of generators by size. *)
Notation N := (M (S * gmap Z DRBG_HANDLE)).

(** A call of a library. *)
Definition call {X} (f : S -> X * S) : N X := on_fst (mrun (fun s => let '(x, s') := f s in (Ret x, s'))).

Definition NTRU_DRBG_exec_or_throw (errcode : Z) : outcome unit := othrow_if (negb (errcode =? DRBG_OK)) ex_runtime_error.
Definition NTRU_exec_or_throw (errcode : Z) : outcome unit := othrow_if (negb (errcode =? NTRU_OK)) ex_runtime_error.

Definition get_DRBG (size : Z) : N DRBG_HANDLE :=
  drbg_tab ← on_snd mget;
  match drbg_tab !! size with
  | Some found => mret found
  | None =>
      '(errcode, newone) ← call (ntru_crypto_drbg_instantiate size);
      mlift (NTRU_DRBG_exec_or_throw errcode);;
      on_snd (mmodify (fun tab => <[size := newone]> tab));;
      mret newone
  end.

Definition setup_ntt : outcome unit := othrow_if (ntt_setup =? -1) ex_runtime_error.

(** Pairs are (private, public). *)
Definition generate_encrypt_keypair : N (bytes * bytes) :=
  mlift setup_ntt;;
  h ← get_DRBG 128;
  '(code, (public_key_len, private_key_len)) ← call (ntru_keygen_sizes h);
  mlift (NTRU_exec_or_throw code);;
  massert (public_key_len =? 609);;
  massert (private_key_len =? 659);;
  h ← get_DRBG 128;
  '(code, (public_key, private_key)) ← call (ntru_keygen_keys h public_key_len private_key_len);
  mlift (NTRU_exec_or_throw code);;
  mret (private_key, public_key).

Definition pass_size : Z := PASS_N * 8.

Definition generate_sign_keypair : N (bytes * bytes) :=
  mlift setup_ntt;;
  private_key ← call pass_gen_key;
  let public_key := pass_gen_pubkey private_key in
  data ← mlift (gen_str (push_vector_string [str "1"; public_key]));
  mret (private_key, data).

(** The hash is made of [pass_size] octets of the key, whatever its size. *)
Definition ntrupp_sign (msg private_key : bytes) : N bytes :=
  mlift setup_ntt;;
  if zlen private_key <? pass_size then mundef
  else
    let key := take (Z.to_nat pass_size) private_key in
    '(z, hash) ← call (pass_sign (crypto_hash_sha512 key) key msg);
    mret (z ++ hash).

(** [::verify] reads HASH_BYTES octets of the first string and [pass_size] of
    the next two; a std::string has one octet more than its size. *)
Definition ntrupp_verify (sign msg public_key : bytes) : outcome bool :=
  setup_ntt;;
  public_key_vector_data ← parse_with public_key pop_vector_string;
  public_key_data ← at_ public_key_vector_data 1;
  message_hash ← substr_from sign pass_size;
  if (zlen message_hash + 1 <? HASH_BYTES) || (zlen public_key_data + 1 <? pass_size) then Undef
  else Ret (pass_verify (take (Z.to_nat HASH_BYTES) (message_hash ++ [Byte.x00])) (take (Z.to_nat pass_size) sign)
    (take (Z.to_nat pass_size) (public_key_data ++ [Byte.x00])) msg).

Definition uint16_cast (n : Z) : outcome Z := if (0 <=? n) && (n <? 2 ^ 16) then Ret n else Throw ex_bad_numeric_cast.

(** [ntrupp::encrypt]; the codes of both calls are dropped. *)
Definition ntrupp_encrypt (plain pubkey : bytes) : N bytes :=
  drbg ← get_DRBG 128;
  _ ← mlift (uint16_cast (zlen pubkey));
  _ ← mlift (uint16_cast (zlen plain));
  cyphertext_size ← call (ntru_encrypt_size drbg pubkey plain);
  massert (negb (cyphertext_size =? 0) || (zlen plain =? 0));;
  massert (zlen plain <=? cyphertext_size);;
  call (ntru_encrypt_into drbg pubkey plain cyphertext_size).

(** [ntrupp::decrypt]: the result has the size of the first call, whatever the
    second one says the cleartext has. *)
Definition ntrupp_decrypt (cyphertext PRVkey : bytes) : outcome bytes :=
  _ ← uint16_cast (zlen PRVkey);
  _ ← uint16_cast (zlen cyphertext);
  let cleartext_len := ntru_decrypt_size PRVkey cyphertext in
  oassert (negb (cleartext_len =? 0) || (zlen cyphertext =? 0));;
  Ret (ntru_decrypt_into PRVkey cyphertext cleartext_len).

(** [sidhpp::generate_keypair]; what it throws on the way is thrown again as a
    plain std::exception.  The status of [SIDH_curve_initialize] is not looked
    at. *)
Definition check_status (status : Z) : outcome unit := othrow_if (negb (status =? CRYPTO_SUCCESS)) ex_runtime_error.
Definition check_valid (v : Z * bool) : outcome unit :=
  check_status v.1;; othrow_if (negb v.2) ex_runtime_error.

Definition sidh_generate_keypair : N (bytes * bytes) :=
  mcatch (
    mthrow_if (negb SIDH_curve_allocate) ex_runtime_error;;
    '(status, (private_key_a, public_key_a)) ← call KeyGeneration_A;
    mlift (check_status status);;
    '(status, (private_key_b, public_key_b)) ← call KeyGeneration_B;
    mlift (check_status status);;
    mlift (check_valid (Validate_PKA public_key_a));;
    mlift (check_valid (Validate_PKB public_key_b));;
    massert (negb (bool_decide (public_key_a = public_key_b)));;
    massert (negb (bool_decide (private_key_a = private_key_b)));;
    mret (private_key_a ++ private_key_b, public_key_a ++ public_key_b))
  (fun _ => mthrow ex_exception).
End Ntrupp.

(** [CryptoLib] with NTRU and SIDH keys made by this file; the agreement of
    SIDH and libsodium stay those of [lib], which draw from the first part of
    the state. *)
Definition wrapped_lib {S : Type} (lib : CryptoLib S) `{NT : !NtruLib S} `{PL : !PassLib S} `{SL : !SidhLib S} (ntt_setup : Z) :
  CryptoLib (S * gmap Z DRBG_HANDLE) := {|
  Hash1 := Crypto.Hash1;
  key_agreement_locked := Crypto.key_agreement_locked;
  randombytes_locked n := on_fst (Crypto.randombytes_locked n);
  ntru_encrypt := ntrupp_encrypt;
  ntru_decrypt := ntrupp_decrypt;
  SecretAgreement_A := Crypto.SecretAgreement_A;
  SecretAgreement_B := Crypto.SecretAgreement_B;
  make_boxer := Crypto.make_boxer;
  make_unboxer := Crypto.make_unboxer;
  boxer_get_nonce := Crypto.boxer_get_nonce;
  boxer_box := Crypto.boxer_box;
  unboxer_get_nonce := Crypto.unboxer_get_nonce;
  unboxer_unbox := Crypto.unboxer_unbox;
  unboxer_unbox_nonce := Crypto.unboxer_unbox_nonce;
  gen_x25519 := on_fst Crypto.gen_x25519;
  gen_ed25519 := on_fst Crypto.gen_ed25519;
  gen_ntru_encrypt := generate_encrypt_keypair ntt_setup;
  gen_ntru_sign := generate_sign_keypair ntt_setup;
  gen_sidh := sidh_generate_keypair
|}.
