(* ===== verification/NtruppFacts.v ===== *)
(** * What the NTRU and SIDH wrappers promise

    Over libraries with the documented laws [NtruLaws], [PassLaws] and
    [SidhLaws], the operations of [Ntrupp] satisfy the interface that the key
    exchange uses ([wrapped_laws] : [CryptoLaws] of [wrapped_lib]), keys that
    were generated are pairs, and signatures verify.  Then the edges: a random
    generator is made once, cleartexts come back padded, short keys and
    signatures are read outside, and the sources of entropy do not notice that
    they read nothing. *)
From S2P Require Import Prelude Serialize SerializeFacts Cryptobasic Multikeys MultikeysFacts Crypto CryptoFacts Peering Peerref Ntrupp.

(** libntru: a ciphertext fits the size of the first call, the size of a
    cleartext is the most the parameters allow (65 for EES439EP1), and the
    buffer keeps zeros after the cleartext. *)
Class NtruLaws (S : Type) `{!NtruLib S} := {
  ntru_keys : bytes -> bytes -> Prop;   (* private, public *)
  keygen_pair : forall h n k s B b s', ntru_keygen_keys h n k s = ((NTRU_OK, (B, b)), s') -> ntru_keys b B;
  ntru_keys_size : forall b B, ntru_keys b B -> zlen b = 659 /\ zlen B = 609;
  encrypt_size : forall h B m s n s', ntru_encrypt_size h B m s = (n, s') -> 0 <= n < 2 ^ 16;
  encrypt_fills : forall h B m n s c s', ntru_encrypt_into h B m n s = (c, s') -> zlen c = Z.max 0 n;
  decrypt_size : forall b B c, ntru_keys b B -> ntru_decrypt_size b c = 65;
  decrypt_fills : forall h b B m n s1 s2 s3 c, ntru_keys b B -> zlen m <= 65 ->
    ntru_encrypt_size h B m s1 = (n, s2) -> ntru_encrypt_into h B m n s2 = (c, s3) ->
    ntru_decrypt_into b c 65 = m ++ replicate (Z.to_nat (65 - zlen m)) Byte.x00
}.

Class PassLaws (S : Type) `{!PassLib S} := {
  PASS_N_range : 0 < PASS_N <= 769;
  HASH_BYTES_positive : 0 <= HASH_BYTES;
  gen_key_size : forall s k s', pass_gen_key s = (k, s') -> zlen k = PASS_N * 8;
  gen_pubkey_size : forall k, zlen (pass_gen_pubkey k) = PASS_N * 8;
  sign_sizes : forall h k m s z hash s', pass_sign h k m s = ((z, hash), s') -> zlen z = PASS_N * 8 /\ zlen hash = HASH_BYTES;
  sign_verifies : forall k m s z hash s', pass_sign (crypto_hash_sha512 k) k m s = ((z, hash), s') ->
    pass_verify hash z (pass_gen_pubkey k) m = true
}.

(** The halves of a generated key are pairs in the sense of [CryptoLaws]. *)
Class SidhLaws (S : Type) `{!SidhLib S} (lib : CryptoLib S) (laws : CryptoLaws S) := {
  gen_A_pair : forall s p P s', KeyGeneration_A s = ((CRYPTO_SUCCESS, (p, P)), s') -> sidh_a p P;
  gen_B_pair : forall s p P s', KeyGeneration_B s = ((CRYPTO_SUCCESS, (p, P)), s') -> sidh_b p P
}.

Section NtruppFacts.
Context {S : Type} `{NT : !NtruLib S} `{PL : !PassLib S} `{SL : !SidhLib S} (ntt_setup : Z).
Notation St := (S * gmap Z DRBG_HANDLE)%type.

Lemma call_inv {X} (f : S -> X * S) (st : St) x st' : call f st = (Ret x, st') -> f st.1 = (x, st'.1) /\ st'.2 = st.2.
Proof. unfold call, on_fst, mrun. destruct (f st.1) as [y s1] eqn:E. intros [= -> <-]. done. Qed.

(** ** Random generators *)

Lemma get_DRBG_made_once n (st st' : St) h : get_DRBG n st = (Ret h, st') -> get_DRBG n st' = (Ret h, st').
Proof.
  intros H. assert (st'.2 !! n = Some h) as E.
  { unfold get_DRBG in H. apply M_bind_inv in H as (tab & st1 & [= <- <-] & H).
    destruct (st.2 !! n) as [f|] eqn:E; [by injection H as -> <-|].
    apply M_bind_inv in H as ([code new] & st1 & _ & H). apply M_bind_inv in H as (_ & st2 & _ & H).
    apply M_bind_inv in H as (u & st3 & Ht & [= -> Hst]). subst st3.
    apply (f_equal (fun x => x.2.2)) in Ht. cbn in Ht. rewrite <- Ht. by rewrite lookup_insert_eq. }
  unfold get_DRBG, on_snd, mget, mbind, M_mbind. destruct st' as [s tab]. cbn in *. by rewrite E.
Qed.

(** A generator that fails to start is not kept. *)
Lemma get_DRBG_failure n (st st' : St) e : get_DRBG n st = (Throw e, st') -> e = ex_runtime_error /\ st'.2 = st.2 /\ st.2 !! n = None.
Proof.
  destruct st as [s tab]. unfold get_DRBG, call, on_fst, on_snd, mrun, NTRU_DRBG_exec_or_throw. munfold. unfold mbind, M_mbind. cbn.
  destruct (tab !! n) eqn:E; [done|]. cbn; destruct (ntru_crypto_drbg_instantiate n _) as [[code new] s1]; cbn.
  destruct (code =? DRBG_OK); cbn; [done|]. by intros [= <- <-].
Qed.

Section Laws.
Context `{NL : !NtruLaws S}.

(** ** Encryption *)

Lemma keypair_generated (st st' : St) b B : generate_encrypt_keypair ntt_setup st = (Ret (b, B), st') -> ntru_keys b B.
Proof.
  unfold generate_encrypt_keypair. intros H.
  apply M_bind_inv in H as (_ & st1 & _ & H). apply M_bind_inv in H as (h & st2 & _ & H).
  apply M_bind_inv in H as ([code [n k]] & st3 & _ & H). do 3 apply M_bind_inv in H as (_ & ? & _ & H).
  apply M_bind_inv in H as (h' & st4 & _ & H). apply M_bind_inv in H as ([code' [B' b']] & st5 & Hk & H).
  apply M_bind_inv in H as (u & st6 & Hc & [= -> -> <-]). apply call_inv in Hk as [Hk _].
  injection Hc as Hc _. unfold NTRU_exec_or_throw, othrow_if in Hc.
  destruct (code' =? NTRU_OK) eqn:E; [|done]. apply Z.eqb_eq in E as ->. by eapply keygen_pair.
Qed.

Lemma encrypted_fits m B (st st' : St) c : ntrupp_encrypt m B st = (Ret c, st') -> zlen c <= 65535.
Proof.
  unfold ntrupp_encrypt. intros H. apply M_bind_inv in H as (h & st1 & _ & H).
  do 2 apply M_bind_inv in H as (? & ? & _ & H). apply M_bind_inv in H as (n & st2 & Hn & H).
  do 2 apply M_bind_inv in H as (? & ? & _ & H). apply call_inv in Hn as [Hn _]. apply call_inv in H as [H _].
  apply encrypt_size in Hn. apply encrypt_fills in H. lia.
Qed.

(** What comes back has 65 octets: the cleartext and zeros. *)
Lemma decrypted_padded b B m (st st' : St) c : ntru_keys b B -> zlen m <= 65 ->
  ntrupp_encrypt m B st = (Ret c, st') ->
  ntrupp_decrypt c b = Ret (m ++ replicate (Z.to_nat (65 - zlen m)) Byte.x00).
Proof.
  intros Hk Hm H. pose proof (encrypted_fits _ _ _ _ _ H) as Hc. unfold ntrupp_encrypt in H.
  apply M_bind_inv in H as (h & st1 & _ & H). do 2 apply M_bind_inv in H as (? & ? & [= _ <-] & H).
  apply M_bind_inv in H as (n & st2 & Hn & H). do 2 apply M_bind_inv in H as (? & ? & [= _ <-] & H).
  apply call_inv in Hn as [Hn _]. apply call_inv in H as [H _].
  unfold ntrupp_decrypt, uint16_cast. destruct (ntru_keys_size _ _ Hk) as [-> _]. rewrite (decrypt_size _ _ _ Hk).
  pose proof (zlen_nonneg c).
  assert ((0 <=? zlen c) && (zlen c <? 2 ^ 16) = true) as ->
    by (apply andb_true_iff; split; [apply Z.leb_le|apply Z.ltb_lt]; lia).
  cbn. by rewrite (decrypt_fills _ _ _ _ _ _ _ _ _ Hk Hm Hn H).
Qed.
End Laws.

(** ** Signatures *)
Section Signatures.
Context `{PS : !PassLaws S}.

Lemma sign_key_generated (st st' : St) prv pub : generate_sign_keypair ntt_setup st = (Ret (prv, pub), st') ->
  zlen prv = pass_size /\ parse_with pub pop_vector_string = Ret [str "1"; pass_gen_pubkey prv].
Proof.
  unfold generate_sign_keypair. intros H. apply M_bind_inv in H as (_ & st1 & _ & H).
  apply M_bind_inv in H as (k & st2 & Hk & H). apply call_inv in Hk as [Hk _]. apply gen_key_size in Hk.
  apply M_bind_inv in H as (data & st3 & Hd & H). injection H as <- <- _. injection Hd as Hd _.
  split; [done|]. pose proof (gen_pubkey_size k) as Hp. pose proof PASS_N_range.
  set (l := [str "1"; pass_gen_pubkey k]) in *.
  assert (pushes (push_vector_string l) (counted_bytes varstring_bytes l)) as Hpush.
  { apply pushes_counted; [done|]. repeat constructor; apply pushes_varstring; [done|]. rewrite Hp. lia. }
  rewrite (gen_str_pushes _ _ Hpush) in Hd. injection Hd as <-.
  assert (pops pop_vector_string (counted_bytes varstring_bytes l) l) as Hpop.
  { apply pops_counted; [apply varstring_nonempty|done|]. repeat constructor; apply pops_varstring; [done|].
    rewrite Hp. unfold SANE_MAX_SIZE_FOR_STRING. lia. }
  specialize (Hpop [] []). rewrite app_nil_r, zlen_nil in Hpop. cbn [app] in Hpop.
  unfold parse_with, parser_of_string. destruct (counted_bytes varstring_bytes l) eqn:E.
  - by apply counted_bytes_nonempty in E.
  - cbn. by rewrite Hpop.
Qed.

Lemma take_zlen {A} (l r : list A) n : zlen l = n -> take (Z.to_nat n) (l ++ r) = l /\ drop (Z.to_nat n) (l ++ r) = r.
Proof. intros <-. unfold zlen. by rewrite Nat2Z.id, take_app_length, drop_app_length. Qed.

Lemma at_second {A} (x y : A) l : at_ (x :: y :: l) 1 = Ret y.
Proof. done. Qed.

(** A signature made with a generated key verifies. *)
Lemma generated_key_signs (st st1 st2 st3 : St) prv pub msg sig :
  generate_sign_keypair ntt_setup st = (Ret (prv, pub), st1) -> ntrupp_sign ntt_setup msg prv st2 = (Ret sig, st3) ->
  ntrupp_verify ntt_setup sig msg pub = Ret true.
Proof.
  intros Hg. destruct (sign_key_generated _ _ _ _ Hg) as [Hz Hp]. pose proof PASS_N_range. pose proof HASH_BYTES_positive.
  unfold ntrupp_sign. intros H1. apply M_bind_inv in H1 as ([] & st4 & Hs & H1). injection Hs as Hs <-.
  rewrite Hz, Z.ltb_irrefl in H1. assert (take (Z.to_nat pass_size) prv = prv) as Ht.
  { rewrite <- (app_nil_r prv) at 1. by apply take_zlen. }
  rewrite Ht in H1. apply M_bind_inv in H1 as ([z hash] & st5 & Hc & H1). injection H1 as <- _.
  apply call_inv in Hc as [Hc _]. destruct (sign_sizes _ _ _ _ _ _ _ Hc) as [Lz Lh]. apply sign_verifies in Hc.
  destruct (take_zlen z hash _ Lz) as [Tz Dz]. destruct (take_zlen hash [Byte.x00] _ Lh) as [Tk _].
  pose proof (gen_pubkey_size prv) as Lp. destruct (take_zlen (pass_gen_pubkey prv) [Byte.x00] _ Lp) as [Tp _].
  pose proof (zlen_nonneg hash). unfold ntrupp_verify. rewrite Hs, Hp. cbn. unfold substr_from, othrow_if, pass_size in *.
  assert ((zlen (z ++ hash) <? PASS_N * 8) = false) as -> by (apply Z.ltb_ge; rewrite zlen_app; lia). cbn.
  rewrite at_second. cbn. rewrite Dz, Tz, Tk, Tp, Lh, Lp.
  assert ((HASH_BYTES + 1 <? HASH_BYTES) || (PASS_N * 8 + 1 <? PASS_N * 8) = false) as ->
    by (apply orb_false_iff; split; apply Z.ltb_ge; lia). by rewrite Hc.
Qed.

(** A public key or a signature from elsewhere that is short is read outside. *)
Lemma short_signature_outside sig msg pub a key rest : setup_ntt ntt_setup = Ret tt ->
  parse_with pub pop_vector_string = Ret (a :: key :: rest) -> pass_size <= zlen sig ->
  zlen sig + 1 < pass_size + HASH_BYTES \/ zlen key + 1 < pass_size ->
  ntrupp_verify ntt_setup sig msg pub = Undef.
Proof.
  intros Hs Hp Hl Hor. pose proof PASS_N_range. unfold ntrupp_verify. rewrite Hs, Hp. cbn. unfold substr_from, othrow_if.
  assert ((zlen sig <? pass_size) = false) as -> by (by apply Z.ltb_ge). cbn.
  rewrite at_second. cbn.
  assert (zlen (drop (Z.to_nat pass_size) sig) = zlen sig - pass_size) as ->.
  { unfold zlen, pass_size in *. rewrite length_drop. lia. }
  destruct Hor as [Hs1|Hs2].
  - assert ((zlen sig - pass_size + 1 <? HASH_BYTES) = true) as -> by (apply Z.ltb_lt; lia). done.
  - assert ((zlen key + 1 <? pass_size) = true) as -> by (by apply Z.ltb_lt). by rewrite orb_true_r.
Qed.
End Signatures.

(** ** SIDH keys *)

Lemma check_status_ok x (st st' : St) : mlift (check_status x.1) st = (Ret tt, st') -> x = (CRYPTO_SUCCESS, x.2 : bytes * bytes).
Proof.
  destruct x as [status k]. unfold check_status, mlift, othrow_if. cbn.
  destruct (status =? CRYPTO_SUCCESS) eqn:E; [|done]. by apply Z.eqb_eq in E as ->.
Qed.

(** A SIDH key that was generated is a pair, and any failure on the way is a
    plain std::exception. *)
Lemma sidh_generated (lib : CryptoLib S) (laws : CryptoLaws S) `{!SidhLaws S lib laws} (st st' : St) prv pub :
  sidh_generate_keypair st = (Ret (prv, pub), st') -> sidh_pair prv pub.
Proof.
  unfold sidh_generate_keypair, mcatch. intros H.
  match type of H with (match ?m with _ => _ end = _) => destruct m as [[x|e| |] st0] eqn:E; try done end.
  injection H as -> <-. apply M_bind_inv in E as (_ & st1 & _ & E).
  apply M_bind_inv in E as ([sa [pa Pa]] & st2 & Ha & E). apply M_bind_inv in E as ([] & st3 & Hsa & E).
  apply M_bind_inv in E as ([sb [pb Pb]] & st4 & Hb & E). apply M_bind_inv in E as ([] & st5 & Hsb & E).
  do 4 apply M_bind_inv in E as (_ & ? & _ & E). injection E as <- <- _.
  apply call_inv in Ha as [Ha _]. apply call_inv in Hb as [Hb _].
  apply (check_status_ok (sa, (pa, Pa))) in Hsa as [= ->]. apply (check_status_ok (sb, (pb, Pb))) in Hsb as [= ->].
  exists pa, pb, Pa, Pb. split_and!; [done|done|by eapply gen_A_pair|by eapply gen_B_pair].
Qed.

Lemma sidh_failure (st st' : St) e : sidh_generate_keypair st = (Throw e, st') -> e = ex_exception.
Proof.
  unfold sidh_generate_keypair, mcatch. intros H.
  match type of H with (match ?m with _ => _ end = _) => destruct m as [[x|e'| |] st0] eqn:E; try done end.
  by injection H as <-.
Qed.

(** ** The interface of the key exchange *)

(** What [Crypto] assumes of the library holds of these wrappers. *)
Definition wrapped_laws (lib : CryptoLib S) (laws : CryptoLaws S) `{NL : !NtruLaws S} : @CryptoLaws St (wrapped_lib lib ntt_setup).
Proof.
  refine (@Build_CryptoLaws St (wrapped_lib lib ntt_setup) (@Hash1_64 S lib laws) (@x25519_pair S lib laws) ntru_keys
    (@sidh_a S lib laws) (@sidh_b S lib laws) (@sidh_prv_size S lib laws) (@sidh_pub_size S lib laws)
    (@x25519_agree S lib laws) _ _ _ (@sidh_sizes_a S lib laws) (@sidh_sizes_b S lib laws)
    (@sidh_secret_size S lib laws) (@sidh_agree S lib laws)).
  - intros n [s t] b [s' t'] Hn. cbn. unfold on_fst. cbn.
    destruct (Crypto.randombytes_locked n s) as [o s1] eqn:E. intros [= -> <- <-]. by eapply randombytes_size.
  - intros b B m st c st' Hk Hm E. cbn in *. rewrite (decrypted_padded _ _ _ _ _ _ Hk (Z.eq_le_incl _ _ Hm) E), Hm. cbn. by rewrite app_nil_r.
  - intros m B st c st'. apply encrypted_fits.
Defined.
End NtruppFacts.

(** ** Sources of entropy that read nothing *)

(** Opening the open device again fails the stream: every octet after that is
    the last one that was read. *)
Lemma second_INIT_stales e can_open out : rand_is_open e = true ->
  let e' := (get_entropy can_open None INIT out e).2 in
  (get_entropy can_open None INIT out e).1 = Ret (1, None) /\
  forall next, get_entropy can_open next GET_BYTE_OF_ENTROPY true e' = (Ret (1, Some (random_byte e)), e').
Proof. intros Ho. destruct e as [o f b]. cbn in *. subst o. by destruct can_open. Qed.

(** The stream that works gives what the device does. *)
Lemma entropy_byte e can_open b : rand_is_open e = true -> rand_failed e = false ->
  get_entropy can_open (Some b) GET_BYTE_OF_ENTROPY true e = (Ret (1, Some b), Entropy true false b).
Proof. destruct e as [o f b']. cbn. by intros -> ->. Qed.

(** At the end of the file SIDH keys are made of octets 0xff. *)
Lemma random_bytes_sidh_eof n get : 0 < n -> (forall i, get i = None) ->
  random_bytes_sidh n get = Some (replicate (Z.to_nat n) Byte.xff).
Proof.
  intros Hn Hg. unfold random_bytes_sidh. assert ((n =? 0) = false) as -> by (apply Z.eqb_neq; lia). f_equal.
  assert (forall l : list Z, map (fun i => default Byte.xff (get i)) l = replicate (length l) Byte.xff) as H.
  { induction l as [|i l IH]; [done|]. cbn. by rewrite Hg, IH. }
  rewrite H. f_equal. unfold indices. by rewrite length_map, length_seq.
Qed.
