(* ===== verification/Guiorders.v ===== *)
(** * Orders of the graphical interface (src-gui/order, commandsender,
    sendedcommand, rpccounter, commandexecutor)

    The requests the interface writes as JSON, the replies it reads, and what
    it shows.  Every reply is parsed into an object whose members are assigned
    one by one in a [try]: what was assigned before an exception stays.  The
    main window is the list of the calls made to it; the network client is the
    list of the texts it was given.  Texts of Qt are UTF-8. *)
From S2P Require Import Prelude Json Peerref.

(** ** order and the classes derived from it *)

Inductive order_kind :=
  | basicOrder | pingOrder | peerListOrder | getGalaxyOrder | addPeerOrder | banPeerOrder | banAllOrder
  | deletePeerOrder | deleteAllPeersOrder | getClientName | serverMsg | statusOrder | payOrder | setAccountOrder.
#[export] Instance order_kind_eq_dec : EqDecision order_kind.
Proof. solve_decision. Defined.

(** A pointer to the [commandExecutor]. *)
Inductive executor_ptr := ptr_null | ptr_executor | ptr_uninitialised.

(** [m_peer] is the member of the base class, [own_peer] the one
    [deletePeerOrder] declares again; likewise [own_executor] of
    [getClientName], which no constructor initialises. *)
Record order := Order {
  o_kind : order_kind;
  m_cmd : bytes;
  m_msg : bytes;
  m_state : bytes;
  m_id : bytes;
  m_msg_array : list bytes;
  m_re : bytes;
  m_executor : executor_ptr;
  m_peer : bytes;
  own_peer : bytes;
  own_executor : executor_ptr;
  m_format : bytes;
  m_account : bytes;
  m_satoshi : option Z
}.

Definition new_order (k : order_kind) : order :=
  Order k [] [] [] [] [] [] ptr_null [] [] ptr_uninitialised [] [] None.

Definition with_cmd (v : bytes) (o : order) : order :=
  Order (o_kind o) v (m_msg o) (m_state o) (m_id o) (m_msg_array o) (m_re o) (m_executor o) (m_peer o) (own_peer o) (own_executor o) (m_format o) (m_account o) (m_satoshi o).
Definition with_msg (v : bytes) (o : order) : order :=
  Order (o_kind o) (m_cmd o) v (m_state o) (m_id o) (m_msg_array o) (m_re o) (m_executor o) (m_peer o) (own_peer o) (own_executor o) (m_format o) (m_account o) (m_satoshi o).
Definition with_state (v : bytes) (o : order) : order :=
  Order (o_kind o) (m_cmd o) (m_msg o) v (m_id o) (m_msg_array o) (m_re o) (m_executor o) (m_peer o) (own_peer o) (own_executor o) (m_format o) (m_account o) (m_satoshi o).
Definition with_id (v : bytes) (o : order) : order :=
  Order (o_kind o) (m_cmd o) (m_msg o) (m_state o) v (m_msg_array o) (m_re o) (m_executor o) (m_peer o) (own_peer o) (own_executor o) (m_format o) (m_account o) (m_satoshi o).
Definition with_array (v : list bytes) (o : order) : order :=
  Order (o_kind o) (m_cmd o) (m_msg o) (m_state o) (m_id o) v (m_re o) (m_executor o) (m_peer o) (own_peer o) (own_executor o) (m_format o) (m_account o) (m_satoshi o).
Definition with_re (v : bytes) (o : order) : order :=
  Order (o_kind o) (m_cmd o) (m_msg o) (m_state o) (m_id o) (m_msg_array o) v (m_executor o) (m_peer o) (own_peer o) (own_executor o) (m_format o) (m_account o) (m_satoshi o).
Definition with_executor (v : executor_ptr) (o : order) : order :=
  Order (o_kind o) (m_cmd o) (m_msg o) (m_state o) (m_id o) (m_msg_array o) (m_re o) v (m_peer o) (own_peer o) (own_executor o) (m_format o) (m_account o) (m_satoshi o).
Definition with_peer (v : bytes) (o : order) : order :=
  Order (o_kind o) (m_cmd o) (m_msg o) (m_state o) (m_id o) (m_msg_array o) (m_re o) (m_executor o) v (own_peer o) (own_executor o) (m_format o) (m_account o) (m_satoshi o).
Definition with_own_peer (v : bytes) (o : order) : order :=
  Order (o_kind o) (m_cmd o) (m_msg o) (m_state o) (m_id o) (m_msg_array o) (m_re o) (m_executor o) (m_peer o) v (own_executor o) (m_format o) (m_account o) (m_satoshi o).
Definition with_own_executor (v : executor_ptr) (o : order) : order :=
  Order (o_kind o) (m_cmd o) (m_msg o) (m_state o) (m_id o) (m_msg_array o) (m_re o) (m_executor o) (m_peer o) (own_peer o) v (m_format o) (m_account o) (m_satoshi o).
Definition with_format (v : bytes) (o : order) : order :=
  Order (o_kind o) (m_cmd o) (m_msg o) (m_state o) (m_id o) (m_msg_array o) (m_re o) (m_executor o) (m_peer o) (own_peer o) (own_executor o) v (m_account o) (m_satoshi o).
Definition with_account (v : bytes) (o : order) : order :=
  Order (o_kind o) (m_cmd o) (m_msg o) (m_state o) (m_id o) (m_msg_array o) (m_re o) (m_executor o) (m_peer o) (own_peer o) (own_executor o) (m_format o) v (m_satoshi o).
Definition with_satoshi (v : Z) (o : order) : order :=
  Order (o_kind o) (m_cmd o) (m_msg o) (m_state o) (m_id o) (m_msg_array o) (m_re o) (m_executor o) (m_peer o) (own_peer o) (own_executor o) (m_format o) (m_account o) (Some v).

(** What an order needs of [MeshPeer]. *)
Record MeshPeer := Peer { getVip : bytes; getIp : bytes; getAccount : bytes; getToPay : Z }.

(** [order(const RpcId &)] *)
Definition order_of_id (k : order_kind) (id : bytes) : order := with_state (str "ok") (with_id id (new_order k)).

(** The constructors of requests. *)
Definition new_pingOrder (id : bytes) : order :=
  with_msg (str "ping") (with_cmd (str "ping") (order_of_id pingOrder id)).
Definition new_banAllOrder (id : bytes) : order := with_cmd (str "ban_all_peers") (order_of_id banAllOrder id).
Definition new_deleteAllPeersOrder (id : bytes) : order := with_cmd (str "delete_all_peers") (order_of_id deleteAllPeersOrder id).
Definition new_getClientName : order := with_state (str "ok") (with_cmd (str "hello") (new_order getClientName)).
Definition new_statusOrder (id : bytes) : order :=
  with_id id (with_state (str "ok") (with_cmd (str "get_status") (new_order statusOrder))).
Definition new_addPeerOrder (id : bytes) (peer : MeshPeer) : order :=
  with_peer (getVip peer ++ str "@(udp:" ++ getIp peer ++ str ":9042)")
    (with_format (str "1.0") (with_cmd (str "add_peer") (order_of_id addPeerOrder id))).
Definition new_banPeerOrder (id : bytes) (peer : MeshPeer) : order :=
  with_peer (getVip peer) (with_cmd (str "ban_peer") (order_of_id banPeerOrder id)).
Definition new_deletePeerOrder (id : bytes) (peer : MeshPeer) : order :=
  with_id id (with_own_peer (getVip peer) (with_state (str "ok") (with_cmd (str "delete_peer") (new_order deletePeerOrder)))).
Definition new_payOrder (id : bytes) (peer : MeshPeer) (satoshi : Z) : order :=
  with_satoshi (satoshi mod 2 ^ 32) (with_peer (getVip peer) (with_id id (with_cmd (str "pay") (new_order payOrder)))).
Definition new_setAccountOrder (id : bytes) (peer : MeshPeer) : order :=
  with_account (getAccount peer) (with_peer (getVip peer) (with_state (str "ok") (with_id id (with_cmd (str "set_account") (new_order setAccountOrder))))).

Section Orders.
Context `{!JsonLib}.

(** [get_str]: the members of the request. *)
Definition cmd_member (o : order) : bytes * json := (str "cmd", json_of_string (m_cmd o)).
Definition state_member (o : order) : bytes * json := (str "state", json_of_string (m_state o)).
Definition id_member (o : order) : bytes * json := (str "id", json_of_string (m_id o)).
Definition peer_member (o : order) : bytes * json := (str "peer", json_of_string (m_peer o)).

Definition order_members (o : order) : list (bytes * json) := [cmd_member o; (str "msg", json_of_string (m_msg o)); state_member o].
Definition getGalaxyOrder_members (o : order) : list (bytes * json) :=
  [id_member o; cmd_member o; (str "msg", json_of_strings (m_msg_array o)); state_member o; id_member o].
Definition addPeerOrder_members (o : order) : list (bytes * json) :=
  [id_member o; cmd_member o; (str "format", json_of_string (m_format o)); peer_member o; state_member o].
Definition banPeerOrder_members (o : order) : list (bytes * json) := [cmd_member o; peer_member o; state_member o; id_member o].
Definition banAllOrder_members (o : order) : list (bytes * json) := [cmd_member o; state_member o; id_member o].
Definition deletePeerOrder_members (o : order) : list (bytes * json) :=
  [cmd_member o; (str "peer", json_of_string (own_peer o)); state_member o].
Definition deleteAllPeersOrder_members (o : order) : list (bytes * json) := [cmd_member o; state_member o; id_member o].
Definition getClientName_members (o : order) : list (bytes * json) := [cmd_member o; state_member o].
Definition payOrder_members (o : order) (satoshi : Z) : list (bytes * json) :=
  [cmd_member o; state_member o; id_member o; (str "btc", json_of_number satoshi); peer_member o].
Definition statusOrder_members (o : order) : list (bytes * json) := [cmd_member o; state_member o; id_member o].
Definition setAccountOrder_members (o : order) : list (bytes * json) :=
  [cmd_member o; state_member o; id_member o; peer_member o; (str "account", json_of_string (m_account o))].

Definition members_of (o : order) (satoshi : Z) : list (bytes * json) :=
  match o_kind o with
  | getGalaxyOrder => getGalaxyOrder_members o
  | addPeerOrder => addPeerOrder_members o
  | banPeerOrder => banPeerOrder_members o
  | banAllOrder => banAllOrder_members o
  | deletePeerOrder => deletePeerOrder_members o
  | deleteAllPeersOrder => deleteAllPeersOrder_members o
  | getClientName => getClientName_members o
  | payOrder => payOrder_members o satoshi
  | statusOrder => statusOrder_members o
  | setAccountOrder => setAccountOrder_members o
  | basicOrder | pingOrder | peerListOrder | serverMsg => order_members o
  end.

Definition get_str (o : order) : outcome bytes :=
  if bool_decide (o_kind o = serverMsg) then Ret []
  else
  satoshi ← match o_kind o, m_satoshi o with payOrder, None => Undef | _, s => Ret (default 0 s) end;
  j ← json_object (members_of o satoshi);
  Ret (json_dump j).

(** A number as [int32_t]. *)
Definition int32 (n : Z) : Z := (n + 2 ^ 31) mod 2 ^ 32 - 2 ^ 31.

(** [m = j["k"]] for a string member. *)
Definition assign_member (j : json) (k : bytes) (set : bytes -> order -> order) : M order unit :=
  v ← mlift (json_get_string j k); mmodify (set v).

(** [try { ... } catch (std::exception &) { log }] *)
Definition try_log {St} (m : M St unit) : M St unit := mcatch m (fun _ => mret tt).

(** [order(const std::string &)]: the text is parsed outside of the [try]. *)
Definition order_base (json_str : bytes) : M order unit :=
  j ← mlift (json_parse json_str); try_log (assign_member j (str "state") with_state).

Definition parsed (json_str : bytes) (m : json -> M order unit) : M order unit :=
  try_log (j ← mlift (json_parse json_str); m j).

(** The peer of a reply, if there is one. *)
Definition assign_peer (j : json) : M order unit :=
  match json_find j (str "peer") with Some _ => assign_member j (str "peer") with_peer | None => mret tt end.

(** The constructors of replies, on an object whose members have their
    initial values. *)
Definition parse_basicOrder (json_str : bytes) : M order unit :=
  order_base json_str;;
  mcatch (j ← mlift (json_parse json_str); assign_member j (str "cmd") with_cmd;; assign_member j (str "state") with_state)
    (fun _ => mmodify (fun o => with_state (str "err") (with_cmd (str "unknown") o))).
Definition parse_pingOrder (json_str : bytes) : M order unit :=
  order_base json_str;;
  parsed json_str (fun j => assign_member j (str "cmd") with_cmd;; assign_member j (str "msg") with_msg;;
    assign_member j (str "state") with_state;; assign_member j (str "id") with_id).
Definition parse_peerListOrder (json_str : bytes) : M order unit :=
  order_base json_str;;
  parsed json_str (fun j => assign_member j (str "cmd") with_cmd;;
    tmp ← mlift (json_get_strings j (str "msg"));
    assign_member j (str "state") with_state;; assign_member j (str "id") with_id;; mmodify (with_array tmp)).
Definition parse_getGalaxyOrder (json_str : bytes) : M order unit :=
  order_base json_str;;
  j ← mlift (json_parse json_str);
  try_log (assign_member j (str "cmd") with_cmd;; assign_member j (str "msg") with_msg;;
    assign_member j (str "state") with_state;; assign_member j (str "id") with_id).
Definition parse_addPeerOrder (json_str : bytes) : M order unit :=
  order_base json_str;;
  parsed json_str (fun j => mmodify (with_executor ptr_executor);; assign_member j (str "msg") with_msg;;
    assign_member j (str "state") with_state;; assign_member j (str "id") with_id;; assign_member j (str "re") with_re;;
    o ← mget; when (bool_decide (m_state o = str "ok")) (assign_peer j)).
Definition parse_banPeerOrder (json_str : bytes) : M order unit :=
  mmodify (with_executor ptr_executor);;
  parsed json_str (fun j => assign_member j (str "msg") with_msg;; assign_member j (str "state") with_state;;
    o ← mget; when (bool_decide (m_state o = str "ok")) (assign_peer j;; assign_member j (str "re") with_re)).
Definition parse_banAllOrder (json_str : bytes) : M order unit :=
  order_base json_str;;
  parsed json_str (fun j => assign_member j (str "msg") with_msg;; assign_member j (str "state") with_state).
Definition parse_deletePeerOrder (json_str : bytes) : M order unit :=
  parsed json_str (fun j => mmodify (with_executor ptr_executor);; assign_member j (str "msg") with_msg;;
    assign_member j (str "state") with_state;; assign_member j (str "re") with_re).
Definition parse_deleteAllPeersOrder (json_str : bytes) : M order unit :=
  order_base json_str.
Definition parse_getClientName (json_str : bytes) : M order unit :=
  parsed json_str (fun j => assign_member j (str "state") with_state;; assign_member j (str "id") with_id;;
    o ← mget;
    when (bool_decide (m_state o = str "ok")) (assign_member j (str "account_address") with_account);;
    mmodify (with_own_executor ptr_executor)).
Definition parse_serverMsg (json_str : bytes) : M order unit :=
  parsed json_str (fun j => assign_member j (str "state") with_state;; assign_member j (str "msg") with_msg;;
    _ ← mlift (json_get_string j (str "lvl")); mret tt).
Definition parse_statusOrder (json_str : bytes) : M order unit :=
  parsed json_str (fun j => assign_member j (str "state") with_state;;
    btc ← mlift (v ← json_at j (str "btc"); json_number v); mmodify (with_satoshi (int32 btc))).
Definition parse_payOrder (json_str : bytes) : M order unit :=
  mmodify (with_executor ptr_executor);;
  parsed json_str (fun j => assign_member j (str "state") with_state;; assign_member j (str "id") with_id;;
    o ← mget;
    if bool_decide (m_state o = str "error") then assign_member j (str "msg") with_msg;; mmodify (with_satoshi 0)
    else btc ← mlift (v ← json_at j (str "btc"); json_number v); mmodify (with_satoshi (btc mod 2 ^ 32))).
Definition parse_setAccountOrder (json_str : bytes) : M order unit :=
  parsed json_str (fun j => assign_member j (str "state") with_state;; assign_member j (str "account") with_account;; assign_member j (str "id") with_id).

Definition parse_order (k : order_kind) (json_str : bytes) : M order unit :=
  match k with
  | basicOrder => parse_basicOrder json_str
  | pingOrder => parse_pingOrder json_str
  | peerListOrder => parse_peerListOrder json_str
  | getGalaxyOrder => parse_getGalaxyOrder json_str
  | addPeerOrder => parse_addPeerOrder json_str
  | banPeerOrder => parse_banPeerOrder json_str
  | banAllOrder => parse_banAllOrder json_str
  | deletePeerOrder => parse_deletePeerOrder json_str
  | deleteAllPeersOrder => parse_deleteAllPeersOrder json_str
  | getClientName => parse_getClientName json_str
  | serverMsg => parse_serverMsg json_str
  | statusOrder => parse_statusOrder json_str
  | payOrder => parse_payOrder json_str
  | setAccountOrder => parse_setAccountOrder json_str
  end.

(** ** The interface: CommandSender with its counter and its sent orders *)

Inductive window_call :=
  | errorNotification (msg : bytes) | addDebugInfo (msg : bytes) | setDebugInfo (msg : bytes)
  | show_peers (l : list bytes) | onGetMyInvitatiom (msg : bytes)
  | onPeerAdded (peer : bytes) | onPeerBanned (peer : bytes) | onDeletePeer (peer : bytes)
  | setBtc (satoshi : Z) | ErrorOccured | GetSesionId.

Record gui := Gui {
  m_client_name : bytes;
  m_rpc_name : bytes;          (* [RpcCounter::m_name] *)
  m_counter : Z;
  m_orders : gmap bytes order;
  m_wait_name_flag : bool;
  g_sent : list bytes;         (* the texts given to [netClient::send_msg] *)
  g_window : list window_call
}.

Definition with_counter (name : bytes) (c : Z) (g : gui) : gui :=
  Gui (m_client_name g) name c (m_orders g) (m_wait_name_flag g) (g_sent g) (g_window g).
Definition with_orders (l : gmap bytes order) (g : gui) : gui :=
  Gui (m_client_name g) (m_rpc_name g) (m_counter g) l (m_wait_name_flag g) (g_sent g) (g_window g).
Definition with_name (name : bytes) (wait : bool) (g : gui) : gui :=
  Gui name (m_rpc_name g) (m_counter g) (m_orders g) wait (g_sent g) (g_window g).
Definition add_text (d : bytes) (g : gui) : gui :=
  Gui (m_client_name g) (m_rpc_name g) (m_counter g) (m_orders g) (m_wait_name_flag g) (g_sent g ++ [d]) (g_window g).
Definition add_window (w : window_call) (g : gui) : gui :=
  Gui (m_client_name g) (m_rpc_name g) (m_counter g) (m_orders g) (m_wait_name_flag g) (g_sent g) (g_window g ++ [w]).

Definition call_window (w : window_call) : M gui unit := mmodify (add_window w).

(** [RpcCounter] *)
Definition getRpcId : M gui bytes :=
  g ← mget;
  mthrow_if (bool_decide (m_rpc_name g = [])) ex_runtime_error;;
  mput (with_counter (m_rpc_name g) (u64 (m_counter g + 1)) g);;
  mret (m_rpc_name g ++ dec (m_counter g)).
Definition setRpcName (name : bytes) : M gui unit :=
  mmodify (fun g => if bool_decide (m_rpc_name g = name) then g else with_counter name 100 g).

(** [SendedCommands] *)
Definition addOrder (o : order) (rpc_num : bytes) : M gui unit :=
  if bool_decide (rpc_num = []) then mret tt
  else
    g ← mget;
    match m_orders g !! rpc_num with
    | Some _ => mthrow ex_runtime_error
    | None => mput (with_orders (<[rpc_num := o]> (m_orders g)) g)
    end.
Definition getOrder (rpc_num : bytes) : M gui order :=
  g ← mget;
  match m_orders g !! rpc_num with
  | None => mthrow ex_runtime_error
  | Some o => mput (with_orders (delete rpc_num (m_orders g)) g);; mret o
  end.

(** [catch (std::runtime_error &)] *)
Definition catch_runtime (m h : M gui unit) : M gui unit :=
  mcatch m (fun e => if bool_decide (e = ex_runtime_error) then h else mthrow e).

(** [commandExecutor::sendNetRequest] on an open connection that takes the
    text. *)
Definition sendNetRequest (o : order) : M gui unit :=
  catch_runtime (s ← mlift (get_str o); mmodify (add_text s)) (call_window ErrorOccured).

(** [CommandSender::orderType] *)
Inductive orderType :=
  | PING | ADDPEER | DELETEPEER | BANPEER | DELETEALL | BANALL | GETNAME | GET_STATUS | PAY | SET_ACCOUNT.

Definition prepareCommand (type : orderType) : M gui order :=
  g ← mget;
  mthrow_if (match type with GETNAME => false | _ => bool_decide (m_client_name g = []) end) ex_runtime_error;;
  match type with
  | PING => id ← getRpcId; mret (new_pingOrder id)
  | DELETEALL => id ← getRpcId; mret (new_deleteAllPeersOrder id)
  | BANALL => id ← getRpcId; mret (new_banAllOrder id)
  | GETNAME => mret new_getClientName
  | GET_STATUS => id ← getRpcId; mret (new_statusOrder id)
  | _ => mthrow ex_runtime_error
  end.

Definition prepareCommand_peer (type : orderType) (peer : MeshPeer) : M gui order :=
  g ← mget;
  mthrow_if (bool_decide (m_client_name g = [])) ex_runtime_error;;
  match type with
  | ADDPEER => id ← getRpcId; mret (new_addPeerOrder id peer)
  | DELETEPEER => id ← getRpcId; mret (new_deletePeerOrder id peer)
  | BANPEER => id ← getRpcId; mret (new_banPeerOrder id peer)
  | PAY => id ← getRpcId; mret (new_payOrder id peer (getToPay peer))
  | SET_ACCOUNT => id ← getRpcId; mret (new_setAccountOrder id peer)
  | _ => mthrow ex_runtime_error
  end.

Definition send_prepared (prepare : M gui order) : M gui unit :=
  catch_runtime (ord ← prepare; sendNetRequest ord;; addOrder ord (m_id ord)) (mret tt).

Definition sendCommand (type : orderType) : M gui unit :=
  g ← mget;
  mthrow_if (m_wait_name_flag g && match type with GETNAME => false | _ => true end) ex_runtime_error;;
  send_prepared (prepareCommand type).

Definition sendCommand_peer (type : orderType) (peer : MeshPeer) : M gui unit :=
  g ← mget;
  mthrow_if (m_wait_name_flag g) ex_runtime_error;;
  send_prepared (prepareCommand_peer type peer).

(** [startCommunication], called by the constructor. *)
Definition startCommunication : M gui unit :=
  ord ← prepareCommand GETNAME; sendNetRequest ord;; mmodify (fun g => with_name (m_client_name g) true g).
Definition new_gui : gui := Gui [] (str "fla") 100 ∅ false [] [].

Definition onGetName (name : bytes) : M gui unit :=
  mmodify (fun g => with_name name (m_wait_name_flag g) g);;
  setRpcName name;;
  mmodify (fun g => with_name (m_client_name g) false g).

(** [commandExecutor::setSenderRpcName], with a sender attached. *)
Definition setSenderRpcName (name : bytes) : M gui unit :=
  call_window GetSesionId;; onGetName name;; sendCommand GET_STATUS.

(** ** What a reply does *)

Fixpoint is_prefix (p s : bytes) : bool :=
  match p, s with [], _ => true | x :: p, y :: s => bool_decide (x = y) && is_prefix p s | _, [] => false end.
(** [s.find(p) != npos] *)
Fixpoint contains (p s : bytes) : bool :=
  is_prefix p s || match s with [] => false | _ :: s => contains p s end.

Definition getPeerName (o : order) : M gui bytes :=
  if negb (bool_decide (m_peer o = [])) then mret (m_peer o)
  else match m_executor o with
  | ptr_null => mthrow ex_runtime_error
  | ptr_uninitialised => mundef
  | ptr_executor => ord ← getOrder (m_re o); mret (m_peer ord)
  end.

(** [id.split("-").at(0)] *)
Definition before_dash (s : bytes) : bytes :=
  match find_from s Byte.x2d 0 with Some i => take (Z.to_nat i) s | None => s end.

Definition state_ok (o : order) : bool := bool_decide (m_state o = str "ok").

Definition execute_pingOrder (o : order) : M gui unit :=
  if state_ok o then call_window (addDebugInfo (m_msg o)) else call_window (errorNotification (m_msg o)).
Definition execute_peerListOrder (o : order) : M gui unit :=
  if state_ok o then call_window (show_peers (m_msg_array o)) else call_window (errorNotification (m_msg o)).
Definition execute_getGalaxyOrder (o : order) : M gui unit :=
  call_window (onGetMyInvitatiom (m_msg o)).
Definition execute_addPeerOrder (o : order) : M gui unit :=
  if contains (str "error") (m_state o) then call_window (errorNotification (m_msg o))
  else peer ← getPeerName o; call_window (onPeerAdded peer).
Definition execute_banPeerOrder (o : order) : M gui unit :=
  try_log (peer ← getPeerName o; call_window (onPeerBanned peer)).
Definition execute_banAllOrder (o : order) : M gui unit :=
  if contains (str "bad") (m_msg o) then call_window (errorNotification (m_msg o)) else call_window (addDebugInfo (m_msg o)).
Definition execute_deletePeerOrder (o : order) : M gui unit :=
  when (state_ok o) (try_log (peer ← getPeerName o; call_window (onDeletePeer peer))).
Definition execute_deleteAllPeersOrder (o : order) : M gui unit :=
  if contains (str "error:") (m_msg o) then call_window (errorNotification (m_msg o)) else call_window (addDebugInfo (m_msg o)).
Definition execute_getClientName (o : order) : M gui unit :=
  when (state_ok o) (
    match own_executor o with
    | ptr_executor => setSenderRpcName (before_dash (m_id o) ++ str "-cli")
    | _ => mundef
    end).
Definition execute_statusOrder (o : order) : M gui unit :=
  when (state_ok o) (match m_satoshi o with Some s => call_window (setBtc s) | None => mundef end).
Definition execute_payOrder (o : order) : M gui unit :=
  _ ← getPeerName o; when (negb (state_ok o)) (call_window (setDebugInfo (str "can't execute"))).
Definition execute_setAccountOrder (o : order) : M gui unit :=
  _ ← getPeerName o; mret tt.

Definition execute_order (o : order) : M gui unit :=
  match o_kind o with
  | basicOrder | serverMsg => mret tt
  | pingOrder => execute_pingOrder o
  | peerListOrder => execute_peerListOrder o
  | getGalaxyOrder => execute_getGalaxyOrder o
  | addPeerOrder => execute_addPeerOrder o
  | banPeerOrder => execute_banPeerOrder o
  | banAllOrder => execute_banAllOrder o
  | deletePeerOrder => execute_deletePeerOrder o
  | deleteAllPeersOrder => execute_deleteAllPeersOrder o
  | getClientName => execute_getClientName o
  | statusOrder => execute_statusOrder o
  | payOrder => execute_payOrder o
  | setAccountOrder => execute_setAccountOrder o
  end.

(** The order for a command name. *)
Definition kind_of_cmd (cmd : bytes) : option order_kind :=
  let named s := bool_decide (cmd = str s) in
  if named "ping" then Some pingOrder
  else if named "peer_list" then Some peerListOrder
  else if named "add_peer" then Some addPeerOrder
  else if named "delete_peer" then Some deletePeerOrder
  else if named "delete_all_peers" then Some deleteAllPeersOrder
  else if named "ban_peer" then Some banPeerOrder
  else if named "ban_all_peers" then Some banAllOrder
  else if named "get_galaxy_ipv6" then Some basicOrder
  else if named "get_galaxy_new_format_reference" then Some getGalaxyOrder
  else if named "hello" then Some getClientName
  else if named "server_msg" then Some serverMsg
  else if named "get_status" then Some statusOrder
  else if named "pay" then Some payOrder
  else if named "set_account" then Some setAccountOrder
  else None.

(** A reply as an object, or the exception of its constructor. *)
Definition make_order (k : order_kind) (msg : bytes) : outcome order :=
  let '(o, ord) := parse_order k msg (new_order k) in u ← o; let _ : unit := u in Ret ord.

(** [commandExecutor::parseAndExecMsg] *)
Definition parseAndExecMsg (msg : bytes) : M gui unit :=
  inputOrder ← mlift (make_order basicOrder msg);
  match kind_of_cmd (m_cmd inputOrder) with
  | None => mret tt
  | Some k =>
      ord ← mlift (make_order k msg);
      catch_runtime (execute_order ord) (call_window ErrorOccured)
  end.
End Orders.
