(* ===== verification/Tunserver.v ===== *)
(** * The node (c_tunserver of tunserver.cpp)

    The peers and the black list, the tunnels, routing of tunneled data, and
    what the main loop does with one packet from the TUN device or from UDP.
    The state is the routing manager ([m_routing_manager]) paired with the
    rest of the object; [m_udp_out] and [m_tun_out] record what was given to
    the UDP socket and to the TUN device.  [now] is the clock when the event
    is handled.  The remote control thread touches this state under
    [m_peer_etc_mutex]: an operation that takes the mutex once is a computation
    of [M], one that takes it several times is a sequence of [sections]. *)
From S2P Require Import Prelude Sections Serialize Cryptobasic Multikeys Crypto Peering Routing Peerref.

Section Tunserver.
Context {Rng : Type} `{!CryptoLib Rng} `{!NetLib}.
Context (ENABLE_CRYPTO_NTRU ENABLE_CRYPTO_SIDH : bool).
(** [crypto_sign_detached] and its check, those of ntrupp. *)
Context (ed_sign : bytes -> bytes -> outcome bytes) (ntru_sign : bytes -> bytes -> outcome bytes).
Context (ed_verify ntru_verify : bytes -> bytes -> bytes -> bool).
(** A default constructed nonce; the number of octets the TUN device takes. *)
Context (nonce_default : bytes) (write_to_tun : bytes -> Z).

Record tun_node := TunNode {
  m_peer : gmap c_haship_addr c_peering;
  m_peer_black_list : gset c_haship_addr;
  m_my_IDC : c_multikeys_PAIR;
  m_my_IDI_pub : c_multikeys_pub;
  m_IDI_IDC_sig : c_multicryptostrings;
  m_my_hip : c_haship_addr;
  m_tunnel : gmap c_haship_addr c_crypto_tunnel;
  enable_remove : bool;
  is_exiting : bool;
  peer_timeout : Z;
  m_tun_header_offset_ipv6 : Z;
  m_my_prefix : bytes;
  m_unban_if_banned : bool;
  m_udp_out : list (c_ip46_addr * bytes);
  m_tun_out : list bytes;
  m_rng : Rng;
  g_dbg_level : Z                          (* a global: debug output below it is not evaluated *)
}.

Definition with_peers (p : gmap c_haship_addr c_peering) (n : tun_node) : tun_node :=
  TunNode p (m_peer_black_list n) (m_my_IDC n) (m_my_IDI_pub n) (m_IDI_IDC_sig n) (m_my_hip n) (m_tunnel n)
    (enable_remove n) (is_exiting n) (peer_timeout n) (m_tun_header_offset_ipv6 n) (m_my_prefix n)
    (m_unban_if_banned n) (m_udp_out n) (m_tun_out n) (m_rng n) (g_dbg_level n).
Definition with_black_list (b : gset c_haship_addr) (n : tun_node) : tun_node :=
  TunNode (m_peer n) b (m_my_IDC n) (m_my_IDI_pub n) (m_IDI_IDC_sig n) (m_my_hip n) (m_tunnel n)
    (enable_remove n) (is_exiting n) (peer_timeout n) (m_tun_header_offset_ipv6 n) (m_my_prefix n)
    (m_unban_if_banned n) (m_udp_out n) (m_tun_out n) (m_rng n) (g_dbg_level n).
Definition with_identity (idc : c_multikeys_PAIR) (idi : c_multikeys_pub) (sig : c_multicryptostrings)
    (hip : c_haship_addr) (n : tun_node) : tun_node :=
  TunNode (m_peer n) (m_peer_black_list n) idc idi sig hip (m_tunnel n)
    (enable_remove n) (is_exiting n) (peer_timeout n) (m_tun_header_offset_ipv6 n) (m_my_prefix n)
    (m_unban_if_banned n) (m_udp_out n) (m_tun_out n) (m_rng n) (g_dbg_level n).
Definition with_tunnel (t : gmap c_haship_addr c_crypto_tunnel) (n : tun_node) : tun_node :=
  TunNode (m_peer n) (m_peer_black_list n) (m_my_IDC n) (m_my_IDI_pub n) (m_IDI_IDC_sig n) (m_my_hip n) t
    (enable_remove n) (is_exiting n) (peer_timeout n) (m_tun_header_offset_ipv6 n) (m_my_prefix n)
    (m_unban_if_banned n) (m_udp_out n) (m_tun_out n) (m_rng n) (g_dbg_level n).
Definition with_options (remove exiting : bool) (timeout : Z) (prefix : bytes) (n : tun_node) : tun_node :=
  TunNode (m_peer n) (m_peer_black_list n) (m_my_IDC n) (m_my_IDI_pub n) (m_IDI_IDC_sig n) (m_my_hip n) (m_tunnel n)
    remove exiting timeout (m_tun_header_offset_ipv6 n) prefix
    (m_unban_if_banned n) (m_udp_out n) (m_tun_out n) (m_rng n) (g_dbg_level n).
Definition with_udp_out (o : list (c_ip46_addr * bytes)) (n : tun_node) : tun_node :=
  TunNode (m_peer n) (m_peer_black_list n) (m_my_IDC n) (m_my_IDI_pub n) (m_IDI_IDC_sig n) (m_my_hip n) (m_tunnel n)
    (enable_remove n) (is_exiting n) (peer_timeout n) (m_tun_header_offset_ipv6 n) (m_my_prefix n)
    (m_unban_if_banned n) o (m_tun_out n) (m_rng n) (g_dbg_level n).
Definition with_tun_out (o : list bytes) (n : tun_node) : tun_node :=
  TunNode (m_peer n) (m_peer_black_list n) (m_my_IDC n) (m_my_IDI_pub n) (m_IDI_IDC_sig n) (m_my_hip n) (m_tunnel n)
    (enable_remove n) (is_exiting n) (peer_timeout n) (m_tun_header_offset_ipv6 n) (m_my_prefix n)
    (m_unban_if_banned n) (m_udp_out n) o (m_rng n) (g_dbg_level n).
Definition with_rng (r : Rng) (n : tun_node) : tun_node :=
  TunNode (m_peer n) (m_peer_black_list n) (m_my_IDC n) (m_my_IDI_pub n) (m_IDI_IDC_sig n) (m_my_hip n) (m_tunnel n)
    (enable_remove n) (is_exiting n) (peer_timeout n) (m_tun_header_offset_ipv6 n) (m_my_prefix n)
    (m_unban_if_banned n) (m_udp_out n) (m_tun_out n) r (g_dbg_level n).

(** Operations on parts of the node. *)
Definition on_udp {A} (m : M net A) : M tun_node A := fun n =>
  let '(o, out) := m (m_udp_out n) in (o, with_udp_out out n).
Definition on_rng {A} (m : M Rng A) : M tun_node A := fun n =>
  let '(o, r) := m (m_rng n) in (o, with_rng r n).

(** [m.at(i)] being the object of a map: run [m] on the entry [k]. *)
Definition on_peer {A} (k : c_haship_addr) (m : M (c_peering * net) A) : M tun_node A := fun n =>
  match m_peer n !! k with
  | None => (Undef, n)
  | Some p => let '(o, (p', out)) := m (p, m_udp_out n) in
              (o, with_udp_out out (with_peers (<[k := p']> (m_peer n)) n))
  end.

(** Iteration over [m_peer], in the order of the addresses. *)
Definition peers_in_order (n : tun_node) : list (c_haship_addr * c_peering) := map_items string_le (m_peer n).

(** ** The interface c_galaxy_node *)

Definition nodep2p_foreach_cmd_ (cmd : t_proto_cmd) (data : bytes) : M tun_node unit :=
  n ← mget;
  mfor (peers_in_order n) (fun v => on_udp (send_data_udp_cmd cmd data (m_peering_addr v.2))).

Definition get_peer_with_hip_ (addr : c_haship_addr) (require_pubkey : bool) : M tun_node c_peering :=
  n ← mget;
  match m_peer n !! addr with
  | None => mthrow ex_expected_not_found
  | Some peer =>
      mthrow_if (require_pubkey && negb (is_pubkey peer)) ex_expected_not_found_missing_pubkey;;
      mret peer
  end.

#[local] Instance tun_galaxy_node : GalaxyNode tun_node := {|
  nodep2p_foreach_cmd := nodep2p_foreach_cmd_;
  get_peer_with_hip := get_peer_with_hip_
|}.

(** ** Peers and the black list *)

Definition add_peer (now : Z) (peer_ref : t_peering_reference) : M tun_node bool :=
  n ← mget;
  match m_peer n !! haship_addr peer_ref with
  | Some _ => mret false
  | None => mput (with_peers (<[haship_addr peer_ref := new_peering now peer_ref]> (m_peer n)) n);; mret true
  end.

Definition add_peer_to_black_list (hip : c_haship_addr) : M tun_node unit :=
  mmodify (fun n => with_black_list ({[hip]} ∪ m_peer_black_list n) n).

Definition delete_peer (hip : c_haship_addr) : M tun_node bool :=
  n ← mget;
  match m_peer n !! hip with
  | Some _ => mput (with_peers (delete hip (m_peer n)) n);; mret true
  | None => mret false
  end.

Definition delete_peer_from_black_list (hip : c_haship_addr) : M tun_node unit :=
  mmodify (fun n => with_black_list (m_peer_black_list n ∖ {[hip]}) n).

Definition peer_on_black_list (hip : c_haship_addr) : M tun_node bool :=
  n ← mget; mret (bool_decide (hip ∈ m_peer_black_list n)).

(** [catch (const std::exception &) { throw e; }] *)
Definition rethrow {St A} (e : exn) (p : sections St A) : sections St A := s_catch p (fun _ => s_lift (Throw e)).

(** The three operations below take the mutex once for the peers and once more
    for the black list. *)
Definition add_peer_simplestring (now : Z) (simple : bytes) : sections tun_node unit :=
  rethrow ex_invalid_argument (
    peering_ref ← s_lift (parse_peer_simplestring simple);
    _ ← section (add_peer now peering_ref);
    section (delete_peer_from_black_list (haship_addr peering_ref))).

(** The constructor of a reference out of the new format. *)
Definition reference_new_format (simple : bytes) : outcome t_peering_reference :=
  '(ids, cables) ← parse_peer_reference simple;
  _check_input (0 <? zlen ids);;
  _check_input (0 <? zlen cables);;
  cable ← at_ cables 0;
  match find_from cable Byte.x3a 0 with
  | None => Throw ex_err_check_input
  | Some begin =>
      ipv4_with_port ← substr_from cable (begin + 1);
      match find_from ipv4_with_port Byte.x3a 0 with
      | None => Throw ex_err_check_input
      | Some end_ =>
          let ipv4 := take (Z.to_nat end_) ipv4_with_port in
          addr ← ip46_of_string ipv4 9042;
          id ← at_ ids 0;
          peering_reference addr id
      end
  end.

Definition add_peer_simplestring_new_format (now : Z) (simple : bytes) : sections tun_node unit :=
  rethrow ex_err_check_input (
    peering_ref ← s_lift (reference_new_format simple);
    _ ← section (add_peer now peering_ref);
    section (delete_peer_from_black_list (haship_addr peering_ref))).

Definition delete_peer_simplestring (simple : bytes) (is_banned : bool) : sections tun_node bool :=
  rethrow ex_invalid_argument (
    hip ← s_lift (haship_of_dot address_v6_from_string simple);
    peer_deleted ← section (delete_peer hip);
    (if is_banned then section (add_peer_to_black_list hip) else mret tt);;
    mret peer_deleted).

Definition delete_all_peers (is_banned : bool) : M tun_node unit :=
  when is_banned (mmodify (fun n => with_black_list (dom (m_peer n) ∪ m_peer_black_list n) n));;
  mmodify (with_peers ∅).

(** The update of a known peer in [add_peer_append_pubkey]. *)
Definition update_peer (now : Z) (peer_ref : t_peering_reference) (pubkey : c_multikeys_pub) : M (c_peering * net) unit :=
  on_fst (mmodify (update_last_ping_time now));;
  p ← on_fst mget;
  let old_pip := m_peering_addr p in
  let new_pip := peering_addr peer_ref in
  on_fst (mmodify (set_pubkey pubkey));;
  same ← mlift (ip_eq old_pip new_pip);
  when (negb same) (on_fst (mmodify (set_pip new_pip))).

Definition add_peer_append_pubkey (now : Z) (peer_ref : t_peering_reference) (pubkey : c_multikeys_pub) : M tun_node unit :=
  let peer_hip := haship_addr peer_ref in
  let '(o, pubkey) := haship_of_pubkey Hash1 pubkey in
  hip_from_pubkey ← mlift o;
  mthrow_if (negb (bool_decide (hip_from_pubkey = peer_hip))) ex_runtime_error;;
  n ← mget;
  (match m_peer n !! peer_hip with
   | None =>
       when (negb (bool_decide (peer_hip ∈ m_peer_black_list n)))
         (mput (with_peers (<[peer_hip := set_pubkey pubkey (new_peering now peer_ref)]> (m_peer n)) n))
   | Some _ => on_peer peer_hip (update_peer now peer_ref pubkey)
   end);;
  n ← mget;
  (* _dbg2 displays m_peer.at(peer_hip), if it is shown, and rethrows *)
  if 20 <? g_dbg_level n then mret tt
  else match m_peer n !! peer_hip with
  | Some _ => mret tt
  | None => mthrow ex_out_of_range
  end.

Definition add_tunnel_to_pubkey (pubkey : c_multikeys_pub) : M tun_node unit :=
  let '(o, pubkey) := get_ipv6_string_bin Hash1 pubkey in
  bin ← mlift o;
  hip ← mlift (haship_of_bin bin);
  n ← mget;
  match m_tunnel n !! hip with
  | None =>
      ct ← on_rng (new_tunnel ENABLE_CRYPTO_NTRU ENABLE_CRYPTO_SIDH (m_my_IDC n) pubkey (str "Tunnel"));
      mmodify (fun n => with_tunnel (<[hip := ct]> (m_tunnel n)) n)
  | Some _ => mret tt
  end.

(** [find_peer_by_sender_peering_addr]: the key of the peer found. *)
Fixpoint find_peer_loop (l : list (c_haship_addr * c_peering)) (ip : c_ip46_addr) : outcome c_haship_addr :=
  match l with
  | [] => Throw ex_runtime_error
  | (k, p) :: l' =>
      same ← ip_eq (m_peering_addr p) ip;
      if same && (get_assigned_port (m_peering_addr p) =? get_assigned_port ip) then Ret k
      else find_peer_loop l' ip
  end.

Definition find_peer_by_sender_peering_addr (ip : c_ip46_addr) : M tun_node c_haship_addr :=
  n ← mget; mlift (find_peer_loop (peers_in_order n) ip).

Definition enable_remove_peers : M tun_node unit :=
  mmodify (fun n => with_options true (is_exiting n) (peer_timeout n) (m_my_prefix n) n).
Definition set_remove_peer_tometout (timeout_seconds : Z) : M tun_node unit :=
  mmodify (fun n => with_options (enable_remove n) (is_exiting n) timeout_seconds (m_my_prefix n) n).
Definition set_prefix (prefix : bytes) : M tun_node unit :=
  mmodify (fun n => with_options (enable_remove n) (is_exiting n) (peer_timeout n) prefix n).
Definition exit_tunserver : M tun_node unit :=
  mmodify (fun n => with_options (enable_remove n) true (peer_timeout n) (m_my_prefix n) n).

(** [duration_cast<seconds>] of nanoseconds. *)
Definition seconds_since (now last : Z) : Z := Z.quot (now - last) 1000000000.

(** The data of the public "hi". *)
Definition hi_data (n : tun_node) : outcome bytes :=
  idc ← get_serialize_bin_pubkey (m_my_IDC n);
  idi ← serialize_bin (pub_keys (m_my_IDI_pub n));
  sig ← multisign_serialize_bin (m_IDI_IDC_sig n);
  gen_str (push_varstring idc;; push_varstring idi;; push_varstring sig).

Definition peering_ping_all_peers (now : Z) : M tun_node unit :=
  mmodify (fun n =>
    if enable_remove n then
      with_peers (filter (fun kp => ~ peer_timeout n < seconds_since now (m_last_ping_time kp.2)) (m_peer n)) n
    else n);;
  n ← mget;
  mfor (peers_in_order n) (fun v =>
    cmd_data ← mlift (hi_data n);
    on_udp (send_data_udp_cmd e_proto_cmd_public_hi cmd_data (m_peering_addr v.2))).

(** ** The identity of the node *)

(** [configure_mykey] once the key pair [my_IDI] is loaded from the datastore. *)
Definition configure_mykey (my_IDI : c_multikeys_PAIR) : M tun_node unit :=
  n ← mget;
  let idi := MultikeysPub (pub_keys (m_pub my_IDI)) (m_my_prefix n) in
  let '(obin, idi) := get_ipv6_string_bin Hash1 idi in
  IDI_ip_bin ← mlift obin;
  let '(odot, idi) := get_ipv6_string_hexdot Hash1 idi in
  IDI_ip_hexdot ← mlift odot;
  first ← mlift (at_ IDI_ip_bin 0);
  mthrow_if (negb (byte_val first =? 0xFD)) ex_runtime_error;;
  c0 ← mlift (at_ IDI_ip_hexdot 0);
  mthrow_if (negb (bool_decide (c0 = Byte.x66))) ex_runtime_error;;
  c1 ← mlift (at_ IDI_ip_hexdot 1);
  mthrow_if (negb (bool_decide (c1 = Byte.x64))) ex_runtime_error;;
  IDI_hip ← mlift (haship_of_dot address_v6_from_string IDI_ip_hexdot);
  my_IDC ← on_rng (fun rng =>
    let '(o, (rng', p)) := generate_type ENABLE_CRYPTO_NTRU ENABLE_CRYPTO_SIDH gen_x25519 gen_ed25519 gen_ntru_encrypt
      gen_ntru_sign gen_sidh e_crypto_system_type_X25519 1 (rng, new_multikeys_PAIR) in
    (match o with Ret _ => Ret p | Throw e => Throw e | Abort_ => Abort_ | Undef => Undef end, rng'));
  IDC_pub_to_sign ← mlift (serialize_bin (pub_keys (m_pub my_IDC)));
  IDC_IDI_signature ← mlift (multi_sign ENABLE_CRYPTO_NTRU ed_sign ntru_sign (m_PRV my_IDI) IDC_pub_to_sign);
  mlift (multi_sign_verify ENABLE_CRYPTO_NTRU ed_verify ntru_verify IDC_IDI_signature IDC_pub_to_sign (pub_keys idi));;
  mmodify (fun n => with_identity (m_my_IDC n) idi IDC_IDI_signature (m_my_hip n) n);;
  let '(odot, idc_pub) := get_ipv6_string_hexdot Hash1 (m_pub my_IDC) in
  IDC_ip_hexdot ← mlift odot;
  d0 ← mlift (at_ IDC_ip_hexdot 0);
  mthrow_if (negb (bool_decide (d0 = Byte.x66))) ex_runtime_error;;
  d1 ← mlift (at_ IDC_ip_hexdot 1);
  mthrow_if (negb (bool_decide (d1 = Byte.x64))) ex_runtime_error;;
  _ ← mlift (haship_of_dot address_v6_from_string IDC_ip_hexdot);
  mmodify (with_identity (MultikeysPAIR (MultikeysPub (pub_keys idc_pub) (m_my_prefix n)) (m_PRV my_IDC))
    idi IDC_IDI_signature IDI_hip).
End Tunserver.
