(* ===== verification/Tunpackets.v ===== *)
(** * Packets through the node (the main loop of tunserver.cpp)

    Routing of tunneled data, and one turn of [c_tunserver::event_loop]: a
    packet from the TUN device, a datagram from UDP, or the timer that pings
    all peers.  A [continue] of the loop is a handler that ends; an exception
    of a handler is logged and the loop goes on. *)
From S2P Require Import Prelude Serialize Cryptobasic Multikeys Crypto Peering Routing Peerref Tunserver.

(** ** IPv6 packets *)

Section Packets.
Context `{!NetLib}.

Definition parse_tun_ip_src_dst (buff : bytes) (ipv6_offset : Z) : outcome (c_haship_addr * c_haship_addr) :=
  let pos_src := ipv6_offset + header_position_of_src in
  let pos_dst := ipv6_offset + header_position_of_dst in
  othrow_if (zlen buff <? pos_src + 16) ex_runtime_error;;
  othrow_if (zlen buff <? pos_dst + 16) ex_runtime_error;;
  ret_src ← haship_of_dot address_v6_from_string (inet_ntop6 (sub buff pos_src 16));
  ret_dst ← haship_of_dot address_v6_from_string (inet_ntop6 (sub buff pos_dst 16));
  Ret (ret_src, ret_dst).

Definition check_packet_address (address_expected : c_haship_addr) (packet : bytes) (offset : Z) : outcome bool :=
  othrow_if (zlen packet <? 40) ex_invalid_argument;;
  othrow_if (zlen packet - 16 <? offset) ex_invalid_argument;;
  let packet_address := sub packet offset 16 in
  oassert (zlen address_expected =? zlen packet_address);;
  oassert (zlen packet_address =? 16);;
  Ret (bool_decide (address_expected = packet_address)).

Definition check_packet_source_address (address_expected : c_haship_addr) (packet : bytes) : outcome bool :=
  check_packet_address address_expected packet header_position_of_src.
Definition check_packet_destination_address (address_expected : c_haship_addr) (packet : bytes) : outcome bool :=
  check_packet_address address_expected packet header_position_of_dst.

(** A [char] widened to [int]. *)
Definition get_ip_protocol_number (data : bytes) : outcome Z :=
  c ← at_ data header_position_of_ip_protocol_type; Ret (signed_char c).

(** [m_supported_ip_protocols]: TCP, UDP, ICMP, as the constructor sets it. *)
Definition m_supported_ip_protocols : list Z := [6; 17; 58].

Definition check_ip_protocol (data : bytes) : outcome bool :=
  protocol ← get_ip_protocol_number data;
  Ret (bool_decide (protocol ∈ m_supported_ip_protocols)).

(** [s.erase(pos, len)] and [s.insert(pos, t)] *)
Definition string_erase (s : bytes) (pos len : Z) : outcome bytes :=
  othrow_if (zlen s <? pos) ex_out_of_range;;
  Ret (take (Z.to_nat pos) s ++ drop (Z.to_nat (pos + len)) s).
Definition string_insert (s : bytes) (pos : Z) (t : bytes) : outcome bytes :=
  othrow_if (zlen s <? pos) ex_out_of_range;;
  Ret (take (Z.to_nat pos) s ++ t ++ drop (Z.to_nat pos) s).

(** What is sent inside a tunnel for a packet of the TUN device. *)
Definition tun_cleartext (packet : bytes) : outcome bytes :=
  string_erase (drop (Z.to_nat header_position_of_ipv6) packet) header_position_of_dst g_haship_addr_size.

Definition tun_header : bytes := [Byte.x00; Byte.x00; Byte.x86; Byte.xdd].
End Packets.

Section Node.
Context {Rng : Type} `{!CryptoLib Rng} `{!NetLib}.
Context (ENABLE_CRYPTO_NTRU ENABLE_CRYPTO_SIDH : bool).
Context (ed_verify ntru_verify : bytes -> bytes -> bytes -> bool).
Context (nonce_default : bytes) (write_to_tun : bytes -> Z).

Notation node := (@tun_node Rng _).
#[local] Existing Instance tun_galaxy_node.

(** The whole object. *)
Notation T := (M (c_routing_manager * node)).

(** ** Routing of tunneled data *)

(** [route_tun_data_to_its_destination_detail]; [fuel] bounds its recursion,
    which the code bounds by [recurse_level] (see [route_detail_fuel]). *)
Fixpoint route_detail (fuel : nat) (now : Z) (buff : bytes) (src_hip dst_hip next_hip : c_haship_addr)
    (reason : c_route_reason) (recurse_level : Z) (data_route_ttl : Z) (nonce_used : bytes) : T bool :=
  if data_route_ttl <=? 0 then mret false
  else
    n ← on_snd mget;
    if bool_decide (m_peer n = ∅) then mret false
    else match m_peer n !! next_hip with
    | None =>
        if 1 <? recurse_level then mret false
        else
          via ← mcatch (route ← get_route_or_maybe_search now next_hip reason true ttl_max_accepted;
                        mret (Some (ri_nexthop route)))
                       (fun _ => mret None);
          match via with
          | None => mret false
          | Some via_hip =>
              match fuel with
              | O => mundef
              | S f => route_detail f now buff src_hip dst_hip via_hip reason (recurse_level + 1) data_route_ttl nonce_used
              end
          end
    | Some _ =>
        on_snd (on_peer next_hip (send_data_udp now buff src_hip dst_hip data_route_ttl nonce_used));;
        mret true
    end.

(** [route_tun_data_to_its_destination_top] *)
Definition route_top (now : Z) (buff : bytes) (src_hip dst_hip : c_haship_addr)
    (reason : c_route_reason) (data_route_ttl : Z) (nonce_used : bytes) : T bool :=
  if data_route_ttl <=? 0 then mret false
  else mcatch (route_detail 2 now buff src_hip dst_hip dst_hip reason 0 data_route_ttl nonce_used)
              (fun _ => mret true).

Definition own_reason : c_route_reason := RouteReason haship_zero e_search_mode_route_own_packet.

(** [ct.op(...)] on the tunnel to [hip]. *)
Definition on_tunnel {A} (hip : c_haship_addr) (m : M c_crypto_tunnel A) : M node A := fun n =>
  match m_tunnel n !! hip with
  | None => (Undef, n)
  | Some ct => let '(o, ct') := m ct in (o, with_tunnel (<[hip := ct']> (m_tunnel n)) n)
  end.

(** ** A packet from the TUN device *)

Definition handle_tun (now : Z) (packet : bytes) : T unit :=
  n ← on_snd mget;
  let data_route_ttl := 5 in
  '(src_hip, dst_hip) ← mlift (parse_tun_ip_src_dst packet (m_tun_header_offset_ipv6 n));
  galaxy ← mlift (addr_is_galaxy dst_hip);
  if negb galaxy then mret tt
  else match m_tunnel n !! dst_hip with
  | None =>
      _ ← route_top now [] src_hip dst_hip own_reason data_route_ttl nonce_default; mret tt
  | Some _ =>
      massert ((zlen packet <=? 65536) && (header_position_of_ipv6 <=? zlen packet));;
      data_cleartext ← mlift (tun_cleartext packet);
      '(data_encrypted, nonce_used) ← on_snd (on_tunnel dst_hip (box_ab data_cleartext));
      _ ← route_top now data_encrypted src_hip dst_hip own_reason data_route_ttl nonce_used; mret tt
  end.

(** ** Datagrams *)

(** Tunneled data that reached us. *)
Definition handle_for_us (now : Z) (src_hip dst_hip : c_haship_addr) (requested_ttl : Z) (nonce_used blob : bytes) : T unit :=
  n ← on_snd mget;
  match m_tunnel n !! src_hip with
  | None =>
      _ ← route_top now [] dst_hip src_hip own_reason requested_ttl nonce_default; mret tt
  | Some _ =>
      tundata ← on_snd (on_tunnel src_hip (unbox_ab_nonce blob nonce_used));
      supported ← mlift (check_ip_protocol tundata);
      if supported : bool then
        tundata ← mlift (string_insert tundata header_position_of_dst dst_hip);
        source_ok ← mlift (check_packet_source_address src_hip tundata);
        mthrow_if (negb source_ok) ex_runtime_error;;
        let tundata := tun_header ++ tundata in
        on_snd (mmodify (fun n => with_tun_out (m_tun_out n ++ [tundata]) n));;
        mthrow_if (negb (write_to_tun tundata =? zlen tundata)) ex_runtime_error
      else mret tt
  end.

(** The TTL of forwarded data. *)
Definition forward_ttl (requested_ttl : Z) : Z :=
  let data_route_ttl := requested_ttl - 1 in
  if ttl_max_accepted <? data_route_ttl then ttl_max_accepted else data_route_ttl.

Definition sender_limit_points (n : node) (sender : c_haship_addr) : Z :=
  match m_peer n !! sender with Some p => m_limit_points p | None => 0 end.

Definition handle_tunneled_data (now : Z) (sender : c_haship_addr) (buf : bytes) : T unit :=
  '(src_hip, dst_hip, requested_ttl, nonce_used, blob) ← mlift (parse_tunneled (parser_of_buffer buf)).1;
  n ← on_snd mget;
  if bool_decide (dst_hip = m_my_hip n) then
    handle_for_us now src_hip dst_hip requested_ttl nonce_used blob
  else
    let data_route_ttl := forward_ttl requested_ttl in
    if sender_limit_points n sender <? 0 then mret tt
    else
      _ ← route_top now blob src_hip dst_hip (RouteReason src_hip e_search_mode_route_other_packet)
            data_route_ttl nonce_used;
      mret tt.

(** [pubkey.load_from_bin(data); pubkey.set_ipv6_prefix(prefix)] *)
Definition load_pubkey (data prefix : bytes) : outcome c_multikeys_pub :=
  p ← load_pub data; Ret (MultikeysPub (pub_keys p) prefix).

(** The [try] block of the public "hi". *)
Definition accept_hi (now : Z) (sender_pip : c_ip46_addr) (idc idi sig : bytes) : T unit :=
  n ← on_snd mget;
  his_IDI ← mlift (load_pubkey idi (m_my_prefix n));
  his_sig ← mlift (match multisign_load_from_bin sig new_multisign with
                   | (Ret _, k) => Ret k | (Throw e, _) => Throw e | (Abort_, _) => Abort_ | (Undef, _) => Undef end);
  mlift (multi_sign_verify ENABLE_CRYPTO_NTRU ed_verify ntru_verify his_sig idc (pub_keys his_IDI));;
  his_pubkey ← mlift (load_pubkey idi (m_my_prefix n));
  let '(odot, his_pubkey) := get_ipv6_string_hexdot Hash1 his_pubkey in
  dot ← mlift odot;
  his_ref ← mlift (peering_reference sender_pip dot);
  on_snd (add_peer_append_pubkey now his_ref his_pubkey);;
  his_pubkey2 ← mlift (load_pubkey idi (m_my_prefix n));
  on_snd (add_tunnel_to_pubkey ENABLE_CRYPTO_NTRU ENABLE_CRYPTO_SIDH his_pubkey2).

(** Three strings of the "hi", from a parser on the datagram after its header. *)
Definition parse_hi (buf : bytes) : outcome (bytes * bytes * bytes) :=
  ((idc ← pop_varstring; idi ← pop_varstring; sig ← pop_varstring; mret (idc, idi, sig))
    (parser_of_buffer (drop 2 buf))).1.

Definition handle_public_hi (now : Z) (sender_pip : c_ip46_addr) (buf : bytes) : T unit :=
  '(idc, idi, sig) ← mlift (parse_hi buf);
  mcatch (accept_hi now sender_pip idc idi sig)
    (fun e => if bool_decide (e = ex_invalid_argument) then mret tt else mthrow e).

(** The query: [find_first_of(';', offset1)] starts at 2. *)
Definition parse_findhip_query (buf : bytes) : outcome (c_haship_addr * Z) :=
  let cmd_data := drop 2 buf in
  match find_from cmd_data Byte.x3b 2 with
  | None => Throw ex_runtime_error
  | Some pos1 =>
      othrow_if (negb (pos1 =? g_haship_addr_size)) ex_runtime_error;;
      requested_hip ← haship_of_bin (take (Z.to_nat pos1) cmd_data);
      bin_ttl ← substr_from cmd_data (pos1 + 1);
      ttl ← at_ (take 1 bin_ttl) 0;
      Ret (requested_hip, signed_char ttl)
  end.

Definition findhip_reply_data (requested_ttl : Z) (route : c_route_info) (requested_hip : c_haship_addr) : outcome bytes :=
  gen_str (
    push_byte_u (byte_of_Z requested_ttl);;
    push_byte_u Byte.x3b;;
    push_byte_u (byte_of_Z (ri_cost route));;
    push_byte_u Byte.x3b;;
    push_bytes_n g_haship_addr_size requested_hip;;
    push_byte_u Byte.x3b;;
    pk ← mlift (serialize_bin (pub_keys (ri_pubkey route)));
    push_varstring pk;;
    push_byte_u Byte.x3b).

Definition handle_findhip_query (now : Z) (sender_pip : c_ip46_addr) (sender sender_hip : c_haship_addr) (buf : bytes) : T unit :=
  '(requested_hip, requested_ttl) ← mlift (parse_findhip_query buf);
  if requested_ttl <? 1 then mret tt
  else
    mcatch (
      route ← get_route_or_maybe_search now requested_hip (RouteReason sender_hip e_search_mode_help_find) true (requested_ttl - 1);
      data ← mlift (findhip_reply_data requested_ttl route requested_hip);
      n ← on_snd mget;
      match m_peer n !! sender with
      | None => mundef
      | Some p => on_snd (on_udp (send_data_udp_cmd e_proto_cmd_findhip_reply data (m_peering_addr p)))
      end;;
      _ ← on_snd (find_peer_by_sender_peering_addr sender_pip);
      mret tt) (fun _ => mret tt).

(** The reply: TTL; cost; goal; public key. *)
Definition parse_findhip_reply (buf : bytes) : outcome (Z * Z * c_haship_addr * c_multikeys_pub) :=
  ((given_ttl ← pop_byte_u;
    pop_byte_skip Byte.x3b;;
    given_cost ← pop_byte_u;
    pop_byte_skip Byte.x3b;;
    goal ← pop_bytes_n g_haship_addr_size;
    given_goal_hip ← mlift (haship_of_bin goal);
    pop_byte_skip Byte.x3b;;
    pk ← pop_varstring;
    pubkey ← mlift (load_pub pk);
    pop_byte_skip Byte.x3b;;
    mret (byte_val given_ttl, byte_val given_cost, given_goal_hip, pubkey)) (parser_of_buffer (drop 2 buf))).1.

Definition handle_findhip_reply (now : Z) (sender_hip : c_haship_addr) (buf : bytes) : T unit :=
  '(given_ttl, given_cost, given_goal_hip, pubkey) ← mlift (parse_findhip_reply buf);
  if given_ttl <? 1 then mret tt
  else
    n ← on_snd mget;
    let pubkey := MultikeysPub (pub_keys pubkey) (m_my_prefix n) in
    (* computing the address caches the hash in the key *)
    let pubkey_seen := (get_ipv6_string_bin Hash1 pubkey).2 in
    on_snd (add_tunnel_to_pubkey ENABLE_CRYPTO_NTRU ENABLE_CRYPTO_SIDH pubkey);;
    _ ← on_fst (add_route_info_and_return given_goal_hip (new_route_info now sender_hip given_cost pubkey_seen));
    mret tt.

(** The command octet: [int_to_enum] of a [char]. *)
Definition int_to_cmd (c : Byte.byte) : outcome t_proto_cmd := int_to_enum 255 cmd_of_int (signed_char c) false.

(** What a command does; [sender] is the key and the address of the sender, if
    it had to be recognized. *)
Definition handle_cmd (now : Z) (cmd : t_proto_cmd) (sender_pip : c_ip46_addr) (sender sender_hip : c_haship_addr) (buf : bytes) : T unit :=
  match cmd with
  | e_proto_cmd_tunneled_data => handle_tunneled_data now sender buf
  | e_proto_cmd_public_hi => handle_public_hi now sender_pip buf
  | e_proto_cmd_findhip_query => handle_findhip_query now sender_pip sender sender_hip buf
  | e_proto_cmd_findhip_reply => handle_findhip_reply now sender_hip buf
  | _ => mret tt
  end.

(** The sender as a known peer, its read statistics updated. *)
Definition recognize_sender (now : Z) (sender_pip : c_ip46_addr) (size_read : Z) : T (c_haship_addr * c_haship_addr) :=
  k ← on_snd (find_peer_by_sender_peering_addr sender_pip);
  on_snd (on_peer k (on_fst (mmodify (fun p => set_stats (update_read_stats now size_read (m_peering_stats p)) p))));;
  n ← on_snd mget;
  match m_peer n !! k with
  | None => mundef
  | Some p => mret (k, m_haship_addr p)
  end.

Definition handle_udp (now : Z) (sender_pip : c_ip46_addr) (buf : bytes) : T unit :=
  match buf with
  | version :: command :: _ =>
      mthrow_if (current_version <? byte_val version) ex_runtime_error;;
      cmd ← mlift (int_to_cmd command);
      if negb (command_is_valid_from_unknown_peer cmd) then
        '(sender, sender_hip) ← recognize_sender now sender_pip (zlen buf);
        handle_cmd now cmd sender_pip sender sender_hip buf
      else handle_cmd now cmd sender_pip haship_zero haship_zero buf
  | _ => mret tt
  end.

(** ** One turn of the main loop *)

Inductive event :=
  | ev_ping
  | ev_tun (packet : bytes)
  | ev_udp (sender_pip : c_ip46_addr) (buf : bytes).

Definition handle_event (now : Z) (ev : event) : T unit :=
  match ev with
  | ev_ping => on_snd (peering_ping_all_peers now)
  | ev_tun packet => handle_tun now packet
  | ev_udp sender_pip buf => handle_udp now sender_pip buf
  end.

(** [try { ... } catch (std::exception &) { log } catch (...) { log }] *)
Definition event_turn (now : Z) (ev : event) : T unit :=
  mcatch (handle_event now ev) (fun _ => mret tt).

(** Events in the order they are handled, with the clock at each. *)
Fixpoint event_loop (evs : list (Z * event)) : T unit :=
  match evs with
  | [] => mret tt
  | (now, ev) :: evs' => event_turn now ev;; event_loop evs'
  end.
End Node.
