(* ===== verification/Tunrpc.v ===== *)
(** * Remote control of the node (the rpc_ functions of tunserver.cpp)

    The commands that read or change the peers and the black list, as
    [c_rpc_server] calls them, with the members of the JSON request as
    arguments (reading them out of the text is nlohmann::json's work) and the
    members "cmd", "msg" and "state" of the answer as a record.  [input] joins
    them with the events of the main loop: a history of the node is a list of
    inputs.  A command is a sequence of [sections], one for each time the code
    takes [m_peer_etc_mutex]; a history says which events of the main loop are
    handled before each of them.  An event is one step: none changes the peers
    or the black list in more than one section of its own. *)
From S2P Require Import Prelude Sections Serialize Cryptobasic Multikeys Crypto Peering Routing Peerref Tunserver Tunpackets.

(** [ostream << int] *)
Fixpoint dec_loop (fuel : nat) (n : Z) (acc : bytes) : bytes :=
  match fuel with
  | O => acc
  | S f => let acc := byte_of_Z (48 + n mod 10) :: acc in
           if n / 10 =? 0 then acc else dec_loop f (n / 10) acc
  end.
Definition show_int (n : Z) : bytes :=
  if n <? 0 then Byte.x2d :: dec_loop 10 (- n) [] else dec_loop 10 n [].

Record rpc_ret := RpcRet { ret_cmd : bytes; ret_msg : bytes; ret_state : bytes }.

Inductive rpc_call :=
  | call_ping
  | call_add_peer (peer format : bytes)
  | call_delete_peer (peer : bytes)
  | call_delete_all_peers
  | call_ban_peer (peer : bytes)
  | call_ban_all_peers
  | call_hello
  | call_exit.

Section Rpc.
Context {Rng : Type} `{!CryptoLib Rng} `{!NetLib}.
Context (ENABLE_CRYPTO_NTRU ENABLE_CRYPTO_SIDH : bool).
Context (ed_verify ntru_verify : bytes -> bytes -> bytes -> bool).
Context (nonce_default : bytes) (write_to_tun : bytes -> Z).

Notation node := (@tun_node Rng _).

Notation rpc A := (sections node A).

Definition rpc_ping : rpc rpc_ret := mret (RpcRet (str "ping") (str "pong") (str "ok")).
Definition rpc_hello : rpc rpc_ret := mret (RpcRet (str "hello") [] (str "ok")).

(** The lambda of [rpc_add_peer]; [m_unban_if_banned] is set once, before the
    threads start. *)
Definition can_i_add_peer (hip : c_haship_addr) : rpc bool :=
  unban ← section (n ← mget; mret (m_unban_if_banned n));
  if unban : bool then mret true
  else
    is_peer_on_black_list ← section (peer_on_black_list hip);
    if is_peer_on_black_list : bool then mret false else mret false.

(** The address of the peer in one of the two formats. *)
Definition rpc_peer_hip (peer format : bytes) : outcome c_haship_addr :=
  if bool_decide (format = str "0.1") then
    ref ← parse_peer_simplestring peer; Ret (haship_addr ref)
  else if bool_decide (format = str "1.0") then
    match find_from peer Byte.x40 0 with
    | None => Throw ex_invalid_argument
    | Some at_position => haship_of_dot address_v6_from_string (take (Z.to_nat at_position) peer)
    end
  else Throw ex_invalid_argument.

Definition rpc_add_peer (now : Z) (peer format : bytes) : rpc rpc_ret :=
  s_catch (
    hip ← s_lift (rpc_peer_hip peer format);
    ok ← can_i_add_peer hip;
    if ok : bool then
      (if bool_decide (format = str "0.1") then add_peer_simplestring now peer
       else if bool_decide (format = str "1.0") then add_peer_simplestring_new_format now peer
       else mret tt);;
      mret (RpcRet (str "add_peer") (str "ok: Peer added") (str "ok"))
    else mret (RpcRet (str "add_peer") (str "failed: peer is banned and you said to not unban him") (str "blocked")))
  (fun _ => mret (RpcRet (str "add_peer") (str "fail: Bad peer format") (str "error"))).

(** [catch (const std::invalid_argument &)] of the two commands below. *)
Definition catch_invalid {A} (p : rpc A) (k : A) : rpc A :=
  s_catch p (fun e => s_lift (if bool_decide (e = ex_invalid_argument) then Ret k else Throw e)).

Definition rpc_delete_peer (peer : bytes) : rpc rpc_ret :=
  catch_invalid (
    peer_deleted ← delete_peer_simplestring peer false;
    if peer_deleted : bool then mret (RpcRet (str "delete_peer") (str "ok: Peer deleted") (str "ok"))
    else mret (RpcRet (str "delete_peer") (str "ok: Peer not found") (str "nothing_done")))
  (RpcRet (str "delete_peer") (str "fail: Bad peer format") (str "error")).

Definition rpc_delete_all_peers : rpc rpc_ret :=
  _ ← section (delete_all_peers false);
  mret (RpcRet (str "delete_all_peers") (str "ok: All peers deleted") (str "ok")).

(** The test, the removal and the black-listing take the mutex one by one. *)
Definition rpc_ban_peer (peer : bytes) : rpc rpc_ret :=
  hip ← s_lift (haship_of_dot address_v6_from_string peer);
  catch_invalid (
    banned ← section (peer_on_black_list hip);
    if banned : bool then mret (RpcRet (str "ban_peer") (str "nothing done, peer is banned") (str "nothing_done"))
    else
      _ ← delete_peer_simplestring peer true;
      mret (RpcRet (str "ban_peer") (str "ok: Peer banned") (str "ok")))
  (RpcRet (str "ban_peer") (str "fail: Bad peer format") (str "error")).

Definition rpc_ban_all_peers : rpc rpc_ret :=
  _ ← section (delete_all_peers true);
  mret (RpcRet (str "ban_all_peers") (str "ok: All peers banned") (str "ok")).

(** The member "peers" of the answer of [rpc_ban_list]. *)
Definition rpc_ban_list : rpc (list c_haship_addr) :=
  section (n ← mget; mret (merge_sort string_le (elements (m_peer_black_list n)))).

Definition rpc_exit : rpc rpc_ret :=
  _ ← section exit_tunserver; mret (RpcRet (str "exit") [] (str "ok")).

(** The member "inv" of the answer of [rpc_get_galaxy_invitation], from the
    text [get_my_ipv6_nice()] and the port. *)
Definition invitation (my_ipv6_nice : bytes) (ipv4_list : list bytes) (my_port : Z) : bytes :=
  my_ipv6_nice ++ concat (map (fun ipv4 => str "@(udp:" ++ ipv4 ++ str ":" ++ show_int my_port ++ str ")") ipv4_list).

Definition get_my_ipv6_nice (n : node) : outcome bytes := (get_ipv6_string_hexdot Hash1 (m_my_IDI_pub n)).1.

Definition rpc_get_galaxy_invitation (my_port : Z) (ipv4_list : list bytes) : rpc bytes :=
  nice ← section (n ← mget; mlift (get_my_ipv6_nice n));
  mret (invitation nice ipv4_list my_port).

Definition handle_rpc (now : Z) (call : rpc_call) : rpc rpc_ret :=
  match call with
  | call_ping => rpc_ping
  | call_add_peer peer format => rpc_add_peer now peer format
  | call_delete_peer peer => rpc_delete_peer peer
  | call_delete_all_peers => rpc_delete_all_peers
  | call_ban_peer peer => rpc_ban_peer peer
  | call_ban_all_peers => rpc_ban_all_peers
  | call_hello => rpc_hello
  | call_exit => rpc_exit
  end.

(** ** Histories *)

(** Events of the main loop with the clock at each. *)
Notation events := (list (Z * event)).

(** [between]: the events that are handled before each section of the command. *)
Inductive input :=
  | in_event (ev : event)
  | in_rpc (call : rpc_call) (between : list events).

Notation state := (c_routing_manager * node)%type.

(** A command while the main loop goes on. *)
Definition run_rpc {A} (between : list events) (p : rpc A) : M state A :=
  interrupted (map (event_loop ENABLE_CRYPTO_NTRU ENABLE_CRYPTO_SIDH ed_verify ntru_verify nonce_default write_to_tun) between) p.

(** The state after one input; [None] after an abort of the program. *)
Definition input_step (s : state) (i : Z * input) : option state :=
  match i.2 with
  | in_event ev =>
      match event_turn ENABLE_CRYPTO_NTRU ENABLE_CRYPTO_SIDH ed_verify ntru_verify nonce_default write_to_tun i.1 ev s with
      | (Ret _, s') | (Throw _, s') => Some s'
      | _ => None
      end
  | in_rpc call between =>
      match run_rpc between (handle_rpc i.1 call) s with
      | (Ret _, s') | (Throw _, s') => Some s'
      | _ => None
      end
  end.

Fixpoint history (ins : list (Z * input)) (s : state) : option state :=
  match ins with
  | [] => Some s
  | i :: ins' => s' ← input_step s i; history ins' s'
  end.
End Rpc.
