(* ===== verification/Tunjson.v ===== *)
(** * The remote commands as functions on JSON text (tunserver.cpp)

    The constructor of [c_tunserver] registers its commands with
    [c_rpc_server]; each takes the text of the request and returns a JSON
    value.  [Tunrpc] has what they do, this file how they read the request and
    build the answer, and the commands that only read the node. *)
From S2P Require Import Prelude Sections Serialize Hexstr Multikeys Crypto Peering Routing Peerref Tunserver Tunpackets Tunrpc Json Rpcserver.

Section Commands.
Context {Rng : Type} `{!CryptoLib Rng} `{!NetLib} `{!JsonLib}.
(** A default nonce, the port of the node, what the bitcoin client answers,
    and the measured time of [rpc_sending_test] with the speed it computes. *)
Context (nonce_default : bytes) (m_port : Z) (get_balance : Z) (elapsed : Z -> json * json).

Notation node := (@tun_node Rng _).

(** [ostream << c_ip46_addr] *)
Definition show_ip (a : c_ip46_addr) : bytes :=
  match a with
  | tag_none => str "none"
  | tag_ipv4 addr port => inet_ntop4 addr ++ str ":" ++ dec (get_assigned_port a)
  | tag_ipv6 addr port => str "[" ++ inet_ntop6 addr ++ str "]:" ++ dec (get_assigned_port a)
  end.

Definition hex_digit (d : Z) : Byte.byte := byte_of_Z (if d <? 10 then 48 + d else 87 + d).

(** [ostream << std::hex << block] of 16 bits. *)
Fixpoint hex_loop (fuel : nat) (n : Z) (acc : bytes) : bytes :=
  match fuel with
  | O => acc
  | S f => let acc := hex_digit (n mod 16) :: acc in if n / 16 =? 0 then acc else hex_loop f (n / 16) acc
  end.
Definition show_hex (n : Z) : bytes := hex_loop 4 n [].

(** The loop of [rpc_peer_list] over an address, two octets at a time. *)
Fixpoint show_hip_blocks (hip : bytes) : bytes :=
  match hip with
  | hi :: lo :: hip => show_hex ((byte_val hi * 256 + byte_val lo) mod 65536) ++ str ":" ++ show_hip_blocks hip
  | _ => []
  end.

(** One line of the list: the last colon is removed. *)
Definition peer_line (p : c_peering) : bytes := removelast (show_ip (m_peering_addr p) ++ str "-" ++ show_hip_blocks (m_haship_addr p)).

Notation jstr s := (json_of_string (str s)).

(** [ret["cmd"]], [ret["msg"]], [ret["state"]] of a command. *)
Definition ret_json (r : rpc_ret) : outcome json :=
  json_object [(str "cmd", json_of_string (ret_cmd r)); (str "msg", json_of_string (ret_msg r)); (str "state", json_of_string (ret_state r))].
Definition ret_json_short (r : rpc_ret) : outcome json :=
  json_object [(str "cmd", json_of_string (ret_cmd r)); (str "state", json_of_string (ret_state r))].

Notation rpc A := (sections node A).

(** [input["k"].get<std::string>()] of the parsed request. *)
Definition input_string (input_json k : bytes) : rpc bytes :=
  input ← s_lift (json_parse input_json); s_lift (json_get_string input k).

Definition rpc_json_ping (input_json : bytes) : rpc json := r ← rpc_ping; s_lift (ret_json r).

Definition rpc_peer_list (input_json : bytes) : rpc json :=
  refs ← section (n ← mget; mret (map (fun kp => peer_line kp.2) (peers_in_order n)));
  s_lift (json_object [(str "cmd", jstr "peer_list"); (str "peers", json_of_strings refs);
                       (str "msg", jstr "ok:"); (str "state", jstr "ok")]).

(** The datagrams of the test do not touch the peers. *)
Definition rpc_sending_test (now : Z) (input_json : bytes) : rpc json :=
  input ← s_lift (json_parse input_json);
  size ← s_lift (v ← json_at input (str "size"); json_number v);
  count ← s_lift (v ← json_at input (str "count"); json_number v);
  let packet_size := size mod 2 ^ 64 in
  let packet_count := count mod 2 ^ 64 in
  _ ← section (
    n ← mget;
    hip ← mlift (get_hip_as_string (m_my_hip n) true);
    ref ← mlift (peering_reference_dot (str "127.0.0.1") m_port hip);
    let packet := replicate (Z.to_nat packet_size) Byte.x00 in
    mrun (fun n =>
      let '(o, (_, out)) := mfor (replicate (Z.to_nat packet_count) tt)
        (fun _ => send_data_udp now packet (m_my_hip n) (m_my_hip n) 3 nonce_default) (new_peering now ref, m_udp_out n) in
      (o, with_udp_out out n)));
  let '(time_ms, speed_mbps) := elapsed (u64 (packet_size * packet_count)) in
  s_lift (json_object [(str "cmd", jstr "sending_test"); (str "time_ms", time_ms); (str "speed_mbps", speed_mbps);
                       (str "msg", jstr "ok:"); (str "state", jstr "ok")]).

Definition rpc_json_add_peer (now : Z) (input_json : bytes) : rpc json :=
  input ← s_lift (json_parse input_json);
  peer ← s_lift (json_get_string input (str "peer"));
  format ← s_lift (json_get_string input (str "format"));
  r ← rpc_add_peer now peer format;
  s_lift (ret_json r).

Definition rpc_json_delete_peer (input_json : bytes) : rpc json :=
  peer ← input_string input_json (str "peer");
  r ← rpc_delete_peer peer;
  s_lift (ret_json r).

Definition rpc_json_ban_peer (input_json : bytes) : rpc json :=
  peer ← input_string input_json (str "peer");
  r ← rpc_ban_peer peer;
  s_lift (ret_json r).

Definition rpc_get_galaxy_ipv6 (input_json : bytes) : rpc json :=
  nice ← section (n ← mget; mlift (get_my_ipv6_nice n));
  s_lift (json_object [(str "cmd", jstr "get_galaxy_ipv6"); (str "ipv6", json_of_string nice); (str "msg", jstr "ok:"); (str "state", jstr "ok")]).

Definition rpc_json_get_galaxy_invitation (input_json : bytes) : rpc json :=
  input ← s_lift (json_parse input_json);
  ipv4_list ← s_lift (json_get_strings input (str "msg"));
  inv ← rpc_get_galaxy_invitation m_port ipv4_list;
  s_lift (json_object [(str "cmd", jstr "get_galaxy_invitation"); (str "inv", json_of_string inv); (str "msg", jstr "ok:")]).

Definition rpc_get_status (input_json : bytes) : rpc json :=
  s_lift (json_object [(str "cmd", jstr "get_status"); (str "state", jstr "ok"); (str "btc", json_of_number get_balance)]).

(** The constructor: names and functions in the order of registration; each
    reads the clock, its first argument, when it is called. *)
Definition rpc_functions : list (bytes * (Z -> bytes -> rpc json)) := [
  (str "ping", fun _ => rpc_json_ping);
  (str "peer_list", fun _ => rpc_peer_list);
  (str "sending_test", rpc_sending_test);
  (str "add_peer", rpc_json_add_peer);
  (str "delete_peer", fun _ => rpc_json_delete_peer);
  (str "delete_all_peers", fun _ _ => r ← rpc_delete_all_peers; s_lift (ret_json r));
  (str "ban_peer", fun _ => rpc_json_ban_peer);
  (str "ban_all_peers", fun _ _ => r ← rpc_ban_all_peers; s_lift (ret_json r));
  (str "get_galaxy_ipv6", fun _ => rpc_get_galaxy_ipv6);
  (str "get_galaxy_new_format_reference", fun _ => rpc_json_get_galaxy_invitation);
  (str "hello", fun _ _ => r ← rpc_hello; s_lift (ret_json_short r));
  (str "exit", fun _ _ => r ← rpc_exit; s_lift (ret_json_short r));
  (str "get_status", fun _ => rpc_get_status)].

(** ** The program: the main loop and the remote control thread *)

Context (crypto_auth_hmacsha512 : bytes -> bytes -> option bytes).
Context (crypto_auth_hmacsha512_verify : bytes -> bytes -> bytes -> Z).
Context (ENABLE_CRYPTO_NTRU ENABLE_CRYPTO_SIDH : bool).
Context (ed_verify ntru_verify : bytes -> bytes -> bytes -> bool) (write_to_tun : bytes -> Z).

Notation events := (list (Z * event)).

(** The clock and the events that the main loop handles while a command runs,
    before each of its sections; the routing manager and the node. *)
Notation world := ((Z * list events) * (c_routing_manager * node))%type.

Definition on_node (f : Z -> bytes -> rpc json) : bytes -> M world json := fun msg w =>
  let '(o, s) := run_rpc ENABLE_CRYPTO_NTRU ENABLE_CRYPTO_SIDH ed_verify ntru_verify nonce_default write_to_tun w.1.2 (f w.1.1 msg) w.2 in
  (o, (w.1, s)).

(** [m_rpc_server.add_rpc_function] of the constructor. *)
Definition register_rpc : M (c_rpc_server world) unit :=
  mfor rpc_functions (fun nf => add_rpc_function nf.1 (on_node nf.2)).

(** One event of the main loop, or one of the remote control thread with the
    events of the main loop that fall between the sections of the command it
    runs, if it runs one. *)
Inductive happening :=
  | hp_loop (now : Z) (ev : event)
  | hp_rpc (now : Z) (between : list events) (ev : rpc_event).

(** The state after it; [None] after an abort of the program. *)
Definition happen (v : c_rpc_server world) (h : happening) : option (c_rpc_server world) :=
  match h with
  | hp_loop now ev =>
      match event_turn ENABLE_CRYPTO_NTRU ENABLE_CRYPTO_SIDH ed_verify ntru_verify nonce_default write_to_tun now ev (srv_env v).2 with
      | (Ret _, s') => Some (with_env ((now, []), s') v)
      | _ => None
      end
  | hp_rpc now between ev =>
      match rpc_step crypto_auth_hmacsha512 crypto_auth_hmacsha512_verify ev (with_env ((now, between), (srv_env v).2) v) with
      | (Ret _, v') => Some v'
      | _ => None
      end
  end.

Fixpoint program (hs : list happening) (v : c_rpc_server world) : option (c_rpc_server world) :=
  match hs with
  | [] => Some v
  | h :: hs => v' ← happen v h; program hs v'
  end.
End Commands.
