(* ===== verification/Toy.v ===== *)
(** * A concrete node

    Small concrete instances of the parameters (the primitives of
    [CryptoFacts.toy_lib], addresses written as 32 hex digits with colons) and
    small nodes, at which the properties are instantiated. *)
From S2P Require Import Prelude Serialize Hexstr Cryptobasic Multikeys MultikeysFacts Crypto CryptoFacts Peering.
From S2P Require Import Routing Peerref Tunserver Tunpackets Tunrpc.

Definition toy_v6 (s : bytes) : option bytes :=
  match bin_of_hex (filter (fun c => c <> Byte.x3a) s) with
  | Ret b => if zlen b =? 16 then Some b else None
  | _ => None
  end.

Definition toy_net : NetLib := {|
  address_v6_from_string := toy_v6;
  address_v4_from_string := fun s => Some (take 4 s);
  is_class_a := fun _ => true; is_class_b := fun _ => false; is_class_c := fun _ => false;
  is_loopback := fun _ => false; is_unspecified := fun _ => false; is_multicast := fun _ => false;
  inet_ntop4 := fun a => match hex_of_bin a with Ret s => s | _ => [] end;
  inet_ntop6 := fun a => match hex_of_bin a with Ret s => s | _ => [] end;
  inet_pton4 := fun s => Some (take 4 (s ++ replicate 4 Byte.x00));
  inet_pton6 := fun s => Some (take 16 (s ++ replicate 16 Byte.x00));
  getaddrinfo_is_ipv4 := fun _ => Some true
|}.

(** The Ed25519 identity with public key [k]. *)
Definition toy_identity (k : bytes) : c_multikeys_pub :=
  MultikeysPub (Multicryptostrings (<[6%nat := [k]]> (replicate 32 [])) [] e_crypto_use_open) (str "fd42").

Definition toy_sig : c_multicryptostrings :=
  Multicryptostrings (<[6%nat := [str "sig"]]> (replicate 32 [])) [] e_crypto_use_signature.

Definition toy_hip (k : bytes) : c_haship_addr :=
  match (haship_of_pubkey toy_hash (toy_identity k)).1 with Ret h => h | _ => [] end.

(** A node whose identity has public key [k], with the given peers. *)
Definition toy_node (k : bytes) (peers : gmap c_haship_addr c_peering) : @tun_node Z toy_lib :=
  @TunNode Z toy_lib peers ∅ toy_A (toy_identity k) toy_sig (toy_hip k) ∅
    false false 90 4 (str "fd42") true [] [] 7 60.

Definition toy_addr (k : bytes) : c_ip46_addr := tag_ipv4 k 9042.

Definition toy_peer (k : bytes) : c_peering :=
  set_pubkey (toy_identity k) (new_peering 0 (PeeringReference (toy_addr k) (toy_hip k))).

Definition toy_rm : c_routing_manager := RoutingManager ∅ ∅.

Definition some_b {A} (o : option A) (f : A -> bool) : bool := match o with Some a => f a | None => false end.

Lemma some_of {A} (o : option A) f : some_b o f = true -> exists a, o = Some a /\ f a = true.
Proof. destruct o as [a|]; cbn; [|done]. by exists a. Qed.
