(* ===== verification/TunpacketsFacts.v ===== *)
(** * What packets can do to a node

    Theorems about [Tunserver.v] and [Tunpackets.v].  [packet_closed] lists the
    elementary changes the handlers make; a property closed under them is an
    invariant of the main loop.  [emits] describes what an operation sends. *)
From S2P Require Import Prelude Serialize SerializeFacts Hexstr Cryptobasic Multikeys MultikeysFacts Crypto.
From S2P Require Import Peering PeeringFacts Routing RoutingFacts Peerref Tunserver Tunpackets.

Section Facts.
Context {Rng : Type} `{!CryptoLib Rng} `{!NetLib}.
Context (NTRU SIDH : bool).
Context (ed_verify ntru_verify : bytes -> bytes -> bytes -> bool).
Context (nonce_default : bytes) (write_to_tun : bytes -> Z).
#[local] Existing Instance tun_galaxy_node.

Notation node := (@tun_node Rng _).
Notation T := (M (c_routing_manager * node)).

(** ** Invariants of the handlers *)

(** [p'] may replace the peer [p] filed under [k]. *)
Definition same_peer (k : c_haship_addr) (p p' : c_peering) : Prop :=
  m_haship_addr p' = m_haship_addr p /\
  (m_pubkey p' = m_pubkey p \/ exists pk, m_pubkey p' = Some pk /\ (haship_of_pubkey Hash1 pk).1 = Ret k).

Record packet_closed (P : node -> Prop) : Prop := {
  pc_udp n o : P n -> P (with_udp_out o n);
  pc_rng n r : P n -> P (with_rng r n);
  pc_tunnel n t : P n -> P (with_tunnel t n);
  pc_peer n k p p' : m_peer n !! k = Some p -> same_peer k p p' -> P n -> P (with_peers (<[k := p']> (m_peer n)) n);
  pc_new n k p pk : m_peer n !! k = None -> k ∉ m_peer_black_list n -> m_haship_addr p = k ->
    m_pubkey p = Some pk -> (haship_of_pubkey Hash1 pk).1 = Ret k -> P n -> P (with_peers (<[k := p]> (m_peer n)) n);
  pc_drop n m : m ⊆ m_peer n -> P n -> P (with_peers m n)
}.

Section Closed.
Context (P : node -> Prop) (HP : packet_closed P).

Lemma preserves_get : preserves P mget.
Proof. by intros n Hn. Qed.

Lemma preserves_assert {St} (Q : St -> Prop) b : preserves Q (massert b).
Proof. apply preserves_lift. Qed.
Lemma preserves_throw_if {St} (Q : St -> Prop) b e : preserves Q (mthrow_if b e).
Proof. apply preserves_lift. Qed.

Lemma preserves_udp {A} (m : M net A) : preserves P (on_udp m).
Proof. intros n Hn. unfold on_udp. destruct (m (m_udp_out n)) as [o out]. by apply (pc_udp P HP). Qed.

Lemma preserves_rng {A} (m : M Rng A) : preserves P (on_rng m).
Proof. intros n Hn. unfold on_rng. destruct (m (m_rng n)) as [o r]. by apply (pc_rng P HP). Qed.

Lemma preserves_tunnel {A} hip (m : M c_crypto_tunnel A) : preserves P (on_tunnel hip m).
Proof.
  intros n Hn. unfold on_tunnel. destruct (m_tunnel n !! hip) as [ct|]; [|done].
  destruct (m ct) as [o ct']. by apply (pc_tunnel P HP).
Qed.

Lemma preserves_on_peer {A} k (m : M (c_peering * net) A) :
  (forall p out, same_peer k p (m (p, out)).2.1) -> preserves P (on_peer k m).
Proof.
  intros Hm n Hn. unfold on_peer. destruct (m_peer n !! k) as [p|] eqn:E; [|done].
  specialize (Hm p (m_udp_out n)). destruct (m (p, m_udp_out n)) as [o [p' out]].
  apply (pc_udp P HP). by apply (pc_peer P HP _ _ p).
Qed.

Lemma same_peer_refl k p : same_peer k p p.
Proof. split; [done|by left]. Qed.

(** Programs on a peer that keep its identity. *)
Definition keeps_peer {A} (k : c_haship_addr) (m : M (c_peering * net) A) : Prop :=
  forall p0 p out, same_peer k p0 p -> same_peer k p0 (m (p, out)).2.1.

Lemma keeps_bind {A B} k (m : M (c_peering * net) A) (f : A -> M (c_peering * net) B) :
  keeps_peer k m -> (forall a, keeps_peer k (f a)) -> keeps_peer k (m ≫= f).
Proof.
  intros Hm Hf p0 p out Hp. unfold mbind, M_mbind. specialize (Hm p0 p out Hp).
  destruct (m (p, out)) as [[a|e| |] [p1 out1]]; cbn in *; auto. by apply Hf.
Qed.
Lemma keeps_lift {A} k (o : outcome A) : keeps_peer k (mlift o).
Proof. by intros p0 p out Hp. Qed.
Lemma keeps_snd {A} k (m : M net A) : keeps_peer k (on_snd m).
Proof. intros p0 p out Hp. unfold on_snd. cbn. by destruct (m out). Qed.
Lemma keeps_get k : keeps_peer k (on_fst mget).
Proof. by intros p0 p out Hp. Qed.
Lemma keeps_modify k (f : c_peering -> c_peering) :
  (forall p, m_haship_addr (f p) = m_haship_addr p /\ m_pubkey (f p) = m_pubkey p) -> keeps_peer k (on_fst (mmodify f)).
Proof.
  intros Hf p0 p out [H1 H2]. cbn. destruct (Hf p) as [E1 E2]. split; [congruence|]. rewrite E2. exact H2.
Qed.
Lemma keeps_set_pubkey k pk : (haship_of_pubkey Hash1 pk).1 = Ret k -> keeps_peer k (on_fst (mmodify (set_pubkey pk))).
Proof. intros Hk p0 p out [H1 H2]. cbn. split; [done|]. right. by exists pk. Qed.

Lemma keeps_send k now data src dst ttl nonce : keeps_peer k (send_data_udp now data src dst ttl nonce).
Proof.
  apply keeps_bind; [apply keeps_lift|intros d]. apply keeps_bind; [by apply keeps_modify|intros _].
  apply keeps_bind; [apply keeps_get|intros p]. apply keeps_snd.
Qed.

Lemma keeps_update k now ref pk : (haship_of_pubkey Hash1 pk).1 = Ret k -> keeps_peer k (update_peer now ref pk).
Proof.
  intros Hk. apply keeps_bind; [by apply keeps_modify|intros _]. apply keeps_bind; [apply keeps_get|intros p].
  apply keeps_bind; [by apply keeps_set_pubkey|intros _]. apply keeps_bind; [apply keeps_lift|intros b].
  destruct b; [by intros ???|]. by apply keeps_modify.
Qed.

Lemma preserves_keeps {A} k (m : M (c_peering * net) A) : keeps_peer k m -> preserves P (on_peer k m).
Proof. intros Hkp. apply preserves_on_peer. intros p out. apply Hkp, same_peer_refl. Qed.

Lemma preserves_foreach cmd data : preserves P (nodep2p_foreach_cmd_ cmd data).
Proof.
  apply preserves_bind; [apply preserves_get|intros n]. apply preserves_mfor. intros x. apply preserves_udp.
Qed.

Lemma preserves_get_peer addr b : preserves P (get_peer_with_hip_ addr b).
Proof.
  apply preserves_bind; [apply preserves_get|intros n]. destruct (m_peer n !! addr); [|apply preserves_throw].
  apply preserves_bind; [apply preserves_throw_if|intros _; apply preserves_ret].
Qed.

(** ** The same for the whole object *)

Definition PT : c_routing_manager * node -> Prop := fun s => P s.2.

Lemma preserves_on_snd {A} (m : M node A) : preserves P m -> preserves PT (on_snd m).
Proof. intros Hm [r n] Hn. unfold on_snd, PT in *. cbn in *. specialize (Hm n Hn). by destruct (m n). Qed.
Lemma preserves_on_fst {A} (m : M c_routing_manager A) : preserves PT (on_fst m).
Proof. intros [r n] Hn. unfold on_fst, PT in *. cbn in *. by destruct (m r). Qed.

Lemma preserves_route now dst reason b ttl : preserves PT (get_route_or_maybe_search now dst reason b ttl).
Proof.
  unfold get_route_or_maybe_search, direct_route, execute.
  apply preserves_bind; [|intros [route|]; [apply preserves_ret|]].
  - apply preserves_catch; [|intros []; apply preserves_throw || apply preserves_ret].
    apply preserves_bind; [apply preserves_on_snd, preserves_get_peer|intros peer].
    destruct (m_pubkey peer); [|apply preserves_throw].
    apply preserves_bind; [apply preserves_on_fst|intros; apply preserves_ret].
  - apply preserves_bind; [apply preserves_on_fst|intros r]. destruct (m_route_nexthop r !! dst); [apply preserves_ret|].
    destruct (negb b); [apply preserves_throw|]. apply preserves_bind; [|intros _; apply preserves_throw].
    destruct (m_search r !! dst); [apply preserves_on_fst|].
    apply preserves_bind; [apply preserves_on_fst|intros _].
    apply preserves_bind; [apply preserves_assert|intros _].
    apply preserves_bind; [apply preserves_on_snd, preserves_foreach|intros _; apply preserves_on_fst].
Qed.

Lemma preserves_route_detail fuel now buff src dst next reason level ttl nonce :
  preserves PT (route_detail fuel now buff src dst next reason level ttl nonce).
Proof.
  revert next level. induction fuel as [|fuel IH]; intros next level; cbn [route_detail].
  all: destruct (ttl <=? 0); [apply preserves_ret|].
  all: apply preserves_bind; [apply preserves_on_snd, preserves_get|intros n].
  all: case_bool_decide; [apply preserves_ret|].
  all: destruct (m_peer n !! next); [apply preserves_bind; [apply preserves_on_snd, preserves_keeps, keeps_send|intros; apply preserves_ret]|].
  all: destruct (1 <? level); [apply preserves_ret|].
  all: apply preserves_bind; [apply preserves_catch; [apply preserves_bind; [apply preserves_route|intros; apply preserves_ret]|intros; apply preserves_ret]|].
  all: intros [via|]; [|apply preserves_ret].
  - by intros s Hs.
  - apply IH.
Qed.

Lemma preserves_route_top now buff src dst reason ttl nonce : preserves PT (route_top now buff src dst reason ttl nonce).
Proof.
  unfold route_top. destruct (ttl <=? 0); [apply preserves_ret|].
  apply preserves_catch; [apply preserves_route_detail|intros; apply preserves_ret].
Qed.

Lemma preserves_handle_tun now packet : preserves PT (handle_tun nonce_default now packet).
Proof.
  apply preserves_bind; [apply preserves_on_snd, preserves_get|intros n].
  apply preserves_bind; [apply preserves_lift|intros [src dst]]. apply preserves_bind; [apply preserves_lift|intros b].
  destruct (negb b); [apply preserves_ret|]. destruct (m_tunnel n !! dst).
  - apply preserves_bind; [apply preserves_assert|intros _]. apply preserves_bind; [apply preserves_lift|intros clear].
    apply preserves_bind; [apply preserves_on_snd, preserves_tunnel|intros [enc nonce]].
    apply preserves_bind; [apply preserves_route_top|intros; apply preserves_ret].
  - apply preserves_bind; [apply preserves_route_top|intros; apply preserves_ret].
Qed.

(** Computing the address of a key a second time gives the same result. *)
Lemma get_hash_uncached k : m_hash_cached k = [] ->
  get_hash Hash1 k = match fingerprint_serial Hash1 (m_cryptolists_general k) with
    | Ret s => (if bool_decide (Hash1 s = []) then Abort_ else Ret (Hash1 s), set_hash (Hash1 s) k)
    | Throw e => (Throw e, k) | Abort_ => (Abort_, k) | Undef => (Undef, k)
    end.
Proof.
  intros E. unfold get_hash, update_hash. munfold. rewrite E, bool_decide_eq_true_2 by done.
  destruct (fingerprint_serial Hash1 _) as [s|e| |]; cbn; try done. by destruct (bool_decide (Hash1 s = [])).
Qed.

Lemma get_hash_again k : (get_hash Hash1 (get_hash Hash1 k).2).1 = (get_hash Hash1 k).1.
Proof.
  destruct (decide (m_hash_cached k = [])) as [E|E].
  - rewrite (get_hash_uncached k) by done.
    destruct (fingerprint_serial Hash1 (m_cryptolists_general k)) as [s|e| |] eqn:Ef; cbn [fst snd];
      [|by rewrite get_hash_uncached, Ef..].
    case_bool_decide as Es.
    + rewrite get_hash_uncached by done. cbn. by rewrite Ef, bool_decide_eq_true_2.
    + by rewrite get_hash_cached.
  - by rewrite !get_hash_cached by (rewrite ?get_hash_cached; done).
Qed.

Lemma get_hash_lists k : m_ipv6_prefix k = m_ipv6_prefix (on_pub_keys (get_hash Hash1) k).2.
Proof. unfold on_pub_keys. by destruct (get_hash Hash1 (pub_keys k)). Qed.

Lemma haship_of_pubkey_again pk : (haship_of_pubkey Hash1 (haship_of_pubkey Hash1 pk).2).1 = (haship_of_pubkey Hash1 pk).1.
Proof.
  assert ((haship_of_pubkey Hash1 pk).2 = (on_pub_keys (get_hash Hash1) pk).2) as ->.
  { unfold haship_of_pubkey, get_ipv6_string_bin, mbind, M_mbind, mget, mlift, mret, M_mret.
    destruct (on_pub_keys (get_hash Hash1) pk) as [[h|e| |] p]; try done. cbn. by destruct (bin_of_hex (m_ipv6_prefix p)). }
  unfold haship_of_pubkey, get_ipv6_string_bin, on_pub_keys, mbind, M_mbind, mget, mlift, mret, M_mret.
  pose proof (get_hash_again (pub_keys pk)) as Hg.
  destruct (get_hash Hash1 (pub_keys pk)) as [o k]. cbn [fst snd pub_keys m_ipv6_prefix] in *.
  destruct (get_hash Hash1 k) as [o' k']. cbn in Hg. subst o'.
  destruct o as [h|e| |]; try done. cbn [m_ipv6_prefix]. destruct (bin_of_hex (m_ipv6_prefix pk)) as [x|e| |]; done.
Qed.

Lemma preserves_append now ref pk : preserves P (add_peer_append_pubkey now ref pk).
Proof.
  unfold add_peer_append_pubkey. pose proof (haship_of_pubkey_again pk) as Hag.
  destruct (haship_of_pubkey Hash1 pk) as [[hip|e| |] pk']; cbn [snd fst] in Hag; try apply preserves_lift.
  assert (preserves P (mthrow_if (negb (bool_decide (hip = haship_addr ref))) ex_runtime_error)) as Hthrow
    by apply preserves_throw_if.
  intros n Hn. unfold mbind at 1, M_mbind at 1, mlift at 1. unfold mbind at 1, M_mbind at 1.
  unfold mthrow_if, othrow_if, mlift at 1. destruct (bool_decide (hip = haship_addr ref)) eqn:E; cbn [negb]; [|done].
  apply bool_decide_eq_true in E as ->.
  unfold mbind at 1, M_mbind at 1, mget at 1. revert Hn. revert n.
  assert (forall n0, preserves P (if 20 <? g_dbg_level n0 then mret tt
    else match m_peer n0 !! haship_addr ref with Some _ => mret tt | None => mthrow ex_out_of_range end)) as Hend
    by (intros n0; destruct (20 <? g_dbg_level n0), (m_peer n0 !! haship_addr ref); first [apply preserves_ret|apply preserves_throw]).
  intros n Hn. destruct (m_peer n !! haship_addr ref) as [p|] eqn:Ep.
  - refine (preserves_bind P _ _ _ _ n Hn); [by apply preserves_keeps, keeps_update|intros _].
    apply preserves_bind; [apply preserves_get|exact Hend].
  - destruct (bool_decide (haship_addr ref ∈ m_peer_black_list n)) eqn:Eb; cbn [negb when].
    + refine (preserves_bind P _ _ _ _ n Hn); [apply preserves_ret|intros _].
      apply preserves_bind; [apply preserves_get|exact Hend].
    + apply bool_decide_eq_false in Eb.
      refine (preserves_bind P _ _ _ _ (with_peers (<[haship_addr ref:=set_pubkey pk' (new_peering now ref)]> (m_peer n)) n) _);
        [apply preserves_get|exact Hend|by eapply (pc_new P HP)].
Qed.

Lemma preserves_add_tunnel pk : preserves P (add_tunnel_to_pubkey NTRU SIDH pk).
Proof.
  unfold add_tunnel_to_pubkey. destruct (get_ipv6_string_bin Hash1 pk) as [o pk'].
  apply preserves_bind; [apply preserves_lift|intros bin]. apply preserves_bind; [apply preserves_lift|intros hip].
  apply preserves_bind; [apply preserves_get|intros n]. destruct (m_tunnel n !! hip); [apply preserves_ret|].
  apply preserves_bind; [apply preserves_rng|intros ct]. intros m Hm. cbn. by apply (pc_tunnel P HP).
Qed.

Lemma preserves_find ip : preserves P (find_peer_by_sender_peering_addr ip).
Proof. apply preserves_bind; [apply preserves_get|intros n; apply preserves_lift]. Qed.

Lemma preserves_ping now : preserves P (peering_ping_all_peers now).
Proof.
  apply preserves_bind.
  - intros n Hn. cbn. destruct (enable_remove n); [|done]. apply (pc_drop P HP); [apply map_filter_subseteq|done].
  - intros _. apply preserves_bind; [apply preserves_get|intros n]. apply preserves_mfor. intros x.
    apply preserves_bind; [apply preserves_lift|intros d; apply preserves_udp].
Qed.

Lemma preserves_accept_hi now ip idc idi sig : preserves PT (accept_hi NTRU SIDH ed_verify ntru_verify now ip idc idi sig).
Proof.
  unfold accept_hi. apply preserves_bind; [apply preserves_on_snd, preserves_get|intros n].
  apply preserves_bind; [apply preserves_lift|intros idi1]. apply preserves_bind; [apply preserves_lift|intros sig1].
  apply preserves_bind; [apply preserves_lift|intros _]. apply preserves_bind; [apply preserves_lift|intros pk].
  destruct (get_ipv6_string_hexdot Hash1 pk) as [o pk1].
  apply preserves_bind; [apply preserves_lift|intros dot]. apply preserves_bind; [apply preserves_lift|intros ref].
  apply preserves_bind; [apply preserves_on_snd, preserves_append|intros _].
  apply preserves_bind; [apply preserves_lift|intros pk2]. apply preserves_on_snd, preserves_add_tunnel.
Qed.

Lemma preserves_recognize now ip size : preserves PT (recognize_sender now ip size).
Proof.
  apply preserves_bind; [apply preserves_on_snd, preserves_find|intros k].
  apply preserves_bind.
  - apply preserves_on_snd, preserves_keeps. by apply keeps_modify.
  - intros _. apply preserves_bind; [apply preserves_on_snd, preserves_get|intros n].
    destruct (m_peer n !! k); [apply preserves_ret|by intros s Hs].
Qed.

(** Commands but tunneled data. *)
Lemma preserves_cmd now cmd ip sender hip buf : cmd <> e_proto_cmd_tunneled_data ->
  preserves PT (handle_cmd NTRU SIDH ed_verify ntru_verify nonce_default write_to_tun now cmd ip sender hip buf).
Proof.
  intros Hcmd. destruct cmd; try done; try apply preserves_ret; cbn.
  - apply preserves_bind; [apply preserves_lift|intros [[idc idi] sig]]. apply preserves_catch; [apply preserves_accept_hi|].
    intros e. case_bool_decide; [apply preserves_ret|apply preserves_throw].
  - apply preserves_bind; [apply preserves_lift|intros [req ttl]]. destruct (ttl <? 1); [apply preserves_ret|].
    apply preserves_catch; [|intros; apply preserves_ret].
    apply preserves_bind; [apply preserves_route|intros route]. apply preserves_bind; [apply preserves_lift|intros d].
    apply preserves_bind; [apply preserves_on_snd, preserves_get|intros n].
    apply preserves_bind; [destruct (m_peer n !! sender); [apply preserves_on_snd, preserves_udp|by intros s Hs]|intros _].
    apply preserves_bind; [apply preserves_on_snd, preserves_find|intros; apply preserves_ret].
  - apply preserves_bind; [apply preserves_lift|intros [[[ttl cost] goal] pk]]. destruct (ttl <? 1); [apply preserves_ret|].
    apply preserves_bind; [apply preserves_on_snd, preserves_get|intros n].
    apply preserves_bind; [apply preserves_on_snd, preserves_add_tunnel|intros _].
    apply preserves_bind; [apply preserves_on_fst|intros; apply preserves_ret].
Qed.

(** What writing to the TUN device does to the invariant. *)
Hypothesis Htun : forall n o, P n -> P (with_tun_out o n).

Lemma preserves_tunneled now sender buf : preserves PT (handle_tunneled_data nonce_default write_to_tun now sender buf).
Proof.
  apply preserves_bind; [apply preserves_lift|intros [[[[src dst] ttl] nonce] blob]].
  apply preserves_bind; [apply preserves_on_snd, preserves_get|intros n]. case_bool_decide.
  - apply preserves_bind; [apply preserves_on_snd, preserves_get|intros n2]. destruct (m_tunnel n2 !! src).
    + apply preserves_bind; [apply preserves_on_snd, preserves_tunnel|intros clear].
      apply preserves_bind; [apply preserves_lift|intros [|]; [|apply preserves_ret]].
      apply preserves_bind; [apply preserves_lift|intros data]. apply preserves_bind; [apply preserves_lift|intros ok].
      apply preserves_bind; [apply preserves_throw_if|intros _].
      apply preserves_bind; [apply preserves_on_snd; intros m Hm; by apply Htun|intros _; apply preserves_throw_if].
    + apply preserves_bind; [apply preserves_route_top|intros; apply preserves_ret].
  - destruct (sender_limit_points n sender <? 0); [apply preserves_ret|].
    apply preserves_bind; [apply preserves_route_top|intros; apply preserves_ret].
Qed.

Lemma preserves_event now ev :
  preserves PT (event_turn NTRU SIDH ed_verify ntru_verify nonce_default write_to_tun now ev).
Proof.
  apply preserves_catch; [|intros; apply preserves_ret]. destruct ev as [|packet|ip buf]; cbn.
  - apply preserves_on_snd, preserves_ping.
  - apply preserves_handle_tun.
  - destruct buf as [|version [|command buf]]; try apply preserves_ret.
    apply preserves_bind; [apply preserves_throw_if|intros _]. apply preserves_bind; [apply preserves_lift|intros cmd].
    assert (forall sender hip b, preserves PT (handle_cmd NTRU SIDH ed_verify ntru_verify nonce_default write_to_tun now cmd ip sender hip b)) as Hcmd.
    { intros sender hip b. destruct (decide (cmd = e_proto_cmd_tunneled_data)) as [->|Hn]; [apply preserves_tunneled|by apply preserves_cmd]. }
    destruct (negb (command_is_valid_from_unknown_peer cmd)); [|apply Hcmd].
    apply preserves_bind; [apply preserves_recognize|intros [sender hip]; apply Hcmd].
Qed.

Lemma preserves_loop evs :
  preserves PT (event_loop NTRU SIDH ed_verify ntru_verify nonce_default write_to_tun evs).
Proof.
  induction evs as [|[now ev] evs IH]; [apply preserves_ret|]. apply preserves_bind; [apply preserves_event|intros _; apply IH].
Qed.
End Closed.
End Facts.
