(* ===== verification/NodeFacts.v ===== *)
(** * Invariants of the node over its histories

    Theorems about [Tunrpc.v]: what holds of the peers and of the black list
    after any sequence of packets, timer events and remote commands. *)
From S2P Require Import Prelude Sections Serialize Hexstr Cryptobasic Multikeys MultikeysFacts Crypto Peering PeeringFacts.
From S2P Require Import Routing RoutingFacts Peerref Tunserver Tunpackets Tunrpc TunpacketsFacts CryptoFacts.
From S2P Require Import Toy.

Section Facts.
Context {Rng : Type} `{!CryptoLib Rng} `{NL : NetLib}.
Context (NTRU SIDH : bool).
Context (ed_verify ntru_verify : bytes -> bytes -> bytes -> bool).
Context (nonce_default : bytes) (write_to_tun : bytes -> Z).
#[local] Existing Instance tun_galaxy_node.

Notation node := (@tun_node Rng _).
Notation step := (input_step NTRU SIDH ed_verify ntru_verify nonce_default write_to_tun).
Notation hist := (history NTRU SIDH ed_verify ntru_verify nonce_default write_to_tun).

Notation state := (c_routing_manager * node)%type.
Notation loop := (event_loop NTRU SIDH ed_verify ntru_verify nonce_default write_to_tun).
Notation run := (run_rpc NTRU SIDH ed_verify ntru_verify nonce_default write_to_tun).

(** A peer is filed under its address, and its public key, once known, hashes
    to that address. *)
Definition peer_ok (k : c_haship_addr) (p : c_peering) : Prop :=
  m_haship_addr p = k /\ forall pk, m_pubkey p = Some pk -> (haship_of_pubkey Hash1 pk).1 = Ret k.

(** No peer is banned, but for addresses in [X]. *)
Record node_ok_but (X : c_haship_addr -> Prop) (n : node) : Prop := {
  ok_peers : map_Forall peer_ok (m_peer n);
  ok_banned k : is_Some (m_peer n !! k) -> k ∈ m_peer_black_list n -> X k
}.
Definition node_ok : node -> Prop := node_ok_but (fun _ => False).

(** [h] is banned. *)
Definition banned (h : c_haship_addr) (n : node) : Prop := h ∈ m_peer_black_list n /\ m_peer n !! h = None.

Lemma node_ok_weaken (X Y : c_haship_addr -> Prop) n : (forall k, X k -> Y k) -> node_ok_but X n -> node_ok_but Y n.
Proof. intros HXY [H1 H2]. split; [done|]. intros k Hk Hb. by apply HXY, H2. Qed.

(** ** Packets *)

Lemma node_ok_closed X : packet_closed (node_ok_but X).
Proof.
  split; try (intros n x [H1 H2]; by split).
  - intros n k p p' Hp (Hh & Hk) [H1 H2]. split; cbn.
    + apply map_Forall_insert_2; [|done]. destruct (map_Forall_lookup_1 _ _ _ _ H1 Hp) as [Ha Hpk].
      split; [congruence|]. intros pk Epk. destruct Hk as [Hk|(pk' & Hk & Hr)]; [apply Hpk; congruence|congruence].
    + intros k'. rewrite lookup_insert_is_Some'. intros [->|Hk']; apply H2; eauto.
  - intros n k p pk Hp Hb Hh Hk Hr [H1 H2]. split; cbn.
    + apply map_Forall_insert_2; [|done]. split; [done|]. intros pk' E. congruence.
    + intros k'. rewrite lookup_insert_is_Some'. intros [->|Hk']; [done|by apply H2].
  - intros n m Hm [H1 H2]. split; cbn.
    + intros k p Hk. apply (H1 k p). by eapply lookup_weaken.
    + intros k [p Hk]. apply H2. exists p. by eapply lookup_weaken.
Qed.

Lemma banned_closed h : packet_closed (banned h).
Proof.
  split; try (intros n x [H1 H2]; by split).
  - intros n k p p' Hp _ [H1 H2]. split; [done|]. cbn. rewrite lookup_insert_ne; [done|]. congruence.
  - intros n k p pk Hp Hb _ _ _ [H1 H2]. split; [done|]. cbn. rewrite lookup_insert_ne; [done|]. congruence.
  - intros n m Hm [H1 H2]. split; [done|]. cbn. by eapply lookup_weaken_None.
Qed.

(** The main loop between two sections of a command. *)
Lemma loop_quietly P evs : packet_closed P -> (forall n o, P n -> P (with_tun_out o n)) -> quietly P (loop evs).
Proof.
  intros HP Ht w Hw. pose proof (preserves_loop NTRU SIDH ed_verify ntru_verify nonce_default write_to_tun P HP Ht evs w Hw) as Hp.
  assert (forall e, (loop evs w).1 <> Throw e) as Hn.
  { revert w Hw Hp. induction evs as [|[now ev] evs IH]; intros w Hw Hp e; [done|]. cbn [event_loop] in *. rewrite bind_eq in *.
    pose proof (preserves_event NTRU SIDH ed_verify ntru_verify nonce_default write_to_tun P HP Ht now ev w Hw) as Hp1.
    unfold event_turn, mcatch in *. destruct (handle_event _ _ _ _ _ _ now ev w) as [[[]|x| |] w1]; cbn in *; try done; by apply IH. }
  destruct (loop evs w) as [[[]|e| |] w']; try done. by specialize (Hn e).
Qed.

Lemma between_quietly P (between : list (list (Z * event))) : packet_closed P -> (forall n o, P n -> P (with_tun_out o n)) ->
  quietly P (default (mret tt) (head (map loop between))).
Proof. intros HP Ht. destruct between; [apply quietly_ret|by apply loop_quietly]. Qed.

(** ** Remote commands *)

(** What the sections of the commands but add_peer do to the node. *)
Record rpc_closed (P : node -> Prop) : Prop := {
  rc_ban n k : P n -> P (with_black_list ({[k]} ∪ m_peer_black_list n) n);
  rc_delete n k : P n -> P (with_peers (delete k (m_peer n)) n);
  rc_clear n : P n -> P (with_peers ∅ n);
  rc_ban_all n : P n -> P (with_peers ∅ (with_black_list (dom (m_peer n) ∪ m_peer_black_list n) n));
  rc_exit n : P n -> P (exit_tunserver n).2
}.

Lemma keeps_delete P : rpc_closed P -> forall simple ban, upholds P (delete_peer_simplestring simple ban).
Proof.
  intros HP simple ban. apply upholds_catch; [|done]. apply upholds_bind; [apply upholds_lift|intros hip].
  apply upholds_bind.
  - apply upholds_section. intros n Hn. unfold delete_peer, mbind, M_mbind, mget. destruct (m_peer n !! hip); [by apply (rc_delete P HP)|done].
  - intros deleted. apply upholds_bind; [|done]. destruct ban; [|done]. apply upholds_section. intros n Hn. by apply (rc_ban P HP).
Qed.

Lemma keeps_rpc P now call : rpc_closed P -> (forall peer format, call <> call_add_peer peer format) -> upholds P (handle_rpc now call).
Proof.
  intros HP Hc. destruct call as [|peer format|peer| |peer| | |]; cbn [handle_rpc]; try done.
  - by specialize (Hc peer format).
  - apply upholds_catch; [|done]. apply upholds_bind; [by apply keeps_delete|by intros []].
  - apply upholds_bind; [|done]. apply upholds_section. intros n Hn. by apply (rc_clear P HP).
  - apply upholds_bind; [apply upholds_lift|intros hip]. apply upholds_catch; [|done].
    apply upholds_bind; [apply upholds_section; by intros n Hn|]. intros [|]; [done|]. apply upholds_bind; [by apply keeps_delete|done].
  - apply upholds_bind; [|done]. apply upholds_section. intros n Hn. by apply (rc_ban_all P HP).
  - apply upholds_bind; [|done]. apply upholds_section. intros n Hn. by apply (rc_exit P HP).
Qed.

(** Sections that keep a property that packets keep, interrupted anywhere. *)
Lemma keeps_ends {A} P (p : sections node A) : packet_closed P -> (forall n o, P n -> P (with_tun_out o n)) -> upholds P p ->
  forall between (w : state), P w.2 -> ends_in P (run between p w).
Proof.
  intros HP Ht. unfold run_rpc. induction p as [o|X m k IH]; intros Hk between w Hw; [by destruct o|]. destruct Hk as [Hm Hk].
  apply (ends_section P); [by apply between_quietly|done|]. intros r s o s' Hs E.
  specialize (Hm s Hs). rewrite E in Hm. replace (tail (map loop between)) with (map loop (tail between)) by (by destruct between).
  by apply IH.
Qed.

Lemma peers_of_delete n (k : c_haship_addr) : map_Forall peer_ok (m_peer n) -> map_Forall peer_ok (delete k (m_peer n)).
Proof. intros Hm k' p Hp. apply (Hm k' p). by apply lookup_delete_Some in Hp as [_ Hp]. Qed.

(** Anything may be banned while it is a peer when [X] holds of everything. *)
Lemma filed_rpc : rpc_closed (node_ok_but (fun _ => True)).
Proof. split; [intros n k [H1 H2]|intros n k [H1 H2]|intros n [H1 H2]..]; (split; [|done]); cbn; try done. by apply peers_of_delete. Qed.

Lemma banned_rpc h : rpc_closed (banned h).
Proof.
  split; intros n.
  - intros k [H1 H2]. split; cbn; [set_solver|done].
  - intros k [H1 H2]. split; cbn; [done|]. rewrite lookup_delete_None. by right.
  - intros [H1 H2]. by split.
  - intros [H1 H2]. split; cbn; [set_solver|done].
  - intros [H1 H2]. by split.
Qed.

(** ** Commands, with the main loop in between *)

(** Adding: the peer may be both for the while between the two sections. *)
Lemma add_ends X now ref between (w : state) : node_ok_but X w.2 ->
  ends_in (node_ok_but X) (run between (_ ← section (add_peer now ref); section (delete_peer_from_black_list (haship_addr ref))) w).
Proof.
  intros Hw. unfold run_rpc. set (Y := fun k => X k \/ k = haship_addr ref).
  apply (ends_section (node_ok_but X)); [apply between_quietly; [apply node_ok_closed|intros n o [H1 H2]; by split]|done|].
  intros r s o s' [H1 H2] E. assert (exists a, o = Ret a /\ node_ok_but Y s') as (a & -> & Hs').
  { unfold add_peer, mbind, M_mbind, mget in E. destruct (m_peer s !! haship_addr ref) as [p|] eqn:Ep.
    - injection E as <- <-. exists false. split; [done|]. split; [done|]. intros k Hk Hb. left. by apply H2.
    - injection E as <- <-. exists true. split; [done|]. split; cbn.
      + apply map_Forall_insert_2; [|done]. by split.
      + intros k. rewrite lookup_insert_is_Some'. intros [<-|Hk] Hb; [by right|left; by apply H2]. }
  replace (tail (map loop between)) with (map loop (tail between)) by (by destruct between). cbn [sections_mbind].
  apply (ends_section (node_ok_but Y)); [apply between_quietly; [apply node_ok_closed|intros n o' [? ?]; by split]|done|].
  intros r' s1 o' s2 [H3 H4] E2. injection E2 as <- <-. cbn. split; [done|]. cbn. intros k Hk [Hb Hne]%elem_of_difference.
  destruct (H4 k Hk Hb) as [HX|HX]; [done|set_solver].
Qed.

(** What a ban does that nothing interrupts between the removal and the
    black-listing. *)
Definition unbroken (between : list (list (Z * event))) : Prop := between !! 2%nat = None \/ between !! 2%nat = Some [].

Lemma ban_ends X hip text between (w : state) :
  haship_of_dot address_v6_from_string text = Ret hip -> node_ok_but X w.2 -> X hip \/ unbroken between ->
  ends_in (fun n => node_ok_but X n /\ (~ X hip -> banned hip n)) (run between (rpc_ban_peer text) w).
Proof.
  intros Hh Hw Hb. pose proof (node_ok_closed X) as HP. set (Q := fun n => _).
  assert (forall n o, node_ok_but X n -> node_ok_but X (with_tun_out o n)) as Ht by (intros n o [? ?]; by split).
  unfold run_rpc, rpc_ban_peer, catch_invalid. rewrite Hh. apply ends_catch.
  apply (ends_section (node_ok_but X)); [by apply between_quietly|done|].
  intros r s o s' Hs E. injection E as <- <-. case_bool_decide as Hin.
  - split; [done|]. intros HX. split; [done|]. destruct (m_peer s !! hip) eqn:Ep; [|done].
    destruct HX. apply (ok_banned X s Hs); [by eexists|done].
  - apply (ends_then Q _ (fun _ => Ret (RpcRet (str "ban_peer") (str "ok: Peer banned") (str "ok")))).
    unfold delete_peer_simplestring, rethrow. rewrite Hh. apply ends_catch.
    replace (tail (map loop between)) with (map loop (tail between)) by (by destruct between).
    apply (ends_section (node_ok_but X)); [by apply between_quietly|done|].
    intros r1 s1 o1 s2 Hs1 E1.
    assert (exists b, o1 = Ret b /\ s2 = with_peers (delete hip (m_peer s1)) s1) as (b & -> & ->).
    { unfold delete_peer, mbind, M_mbind, mget in E1. destruct (m_peer s1 !! hip) as [p|] eqn:Ep.
      - injection E1 as <- <-. by exists true.
      - injection E1 as <- <-. exists false. split; [done|]. rewrite delete_id by done. by destruct s1. }
    assert (node_ok_but X (with_peers (delete hip (m_peer s1)) s1) /\ m_peer (with_peers (delete hip (m_peer s1)) s1) !! hip = None) as [Hs2 Hn].
    { destruct Hs1 as [H1 H2]. split; [split; cbn; [by apply peers_of_delete|]|apply lookup_delete_eq].
      intros k [p Hp] Hk. apply lookup_delete_Some in Hp as [Hne Hp]. by apply H2; [eexists|]. }
    replace (tail (map loop (tail between))) with (map loop (tail (tail between))) by (by destruct between as [|? []]).
    assert (quietly (fun n : node => n = with_peers (delete hip (m_peer s1)) s1 \/ ~ unbroken between /\ node_ok_but X n) (default (mret tt) (head (map loop (tail (tail between)))))) as Hq.
    { destruct between as [|b0 [|b1 [|b2 between]]]; try apply quietly_ret. cbn. destruct b2 as [|ev evs]; [apply quietly_ret|].
      intros w' Hw'. assert (node_ok_but X w'.2) as Hw2 by (by destruct Hw' as [->|[_ ?]]).
      pose proof (loop_quietly _ (ev :: evs) HP Ht w' Hw2) as Hl. destruct (loop (ev :: evs) w') as [[[]|e| |] w2]; try done.
      right. split; [|done]. by intros [H|H]. }
    apply (ends_section _ _ _ _ _ _ Hq); [by left|].
    intros r2 s3 o2 s4 Hs3 E2. injection E2 as <- <-. cbn.
    assert (node_ok_but X s3 /\ (~ X hip -> m_peer s3 !! hip = None)) as [H3 H4].
    { destruct Hs3 as [->|[Hnb H3]]; [by split|]. split; [done|]. by destruct Hb. }
    destruct H3 as [H5 H6]. split; [split; cbn; [done|]|].
    + intros k Hk [->%elem_of_singleton|Hk']%elem_of_union; [|by apply H6].
      destruct Hb as [HX|Hb]; [done|]. exfalso. destruct Hs3 as [->|[Hnb _]]; [|done]. rewrite Hn in Hk. by destruct Hk.
    + intros HX. split; [by apply elem_of_union_l, elem_of_singleton|]. by apply H4.
Qed.
(** The other commands keep peers and bans apart section by section. *)
Lemma node_ok_rpc X now call : (forall peer format, call <> call_add_peer peer format) -> (forall peer, call <> call_ban_peer peer) ->
  upholds (node_ok_but X) (handle_rpc now call).
Proof.
  intros Ha Hb. destruct call as [|peer format|peer| |peer| | |]; cbn [handle_rpc]; try done.
  - by specialize (Ha peer format).
  - apply upholds_catch; [|done]. apply upholds_bind; [|by intros []]. apply upholds_catch; [|done].
    apply upholds_bind; [done|intros hip]. apply upholds_bind; [|done]. apply upholds_section. intros n [H1 H2].
    unfold delete_peer, mbind, M_mbind, mget. destruct (m_peer n !! hip); [|done]. split; cbn; [by apply peers_of_delete|].
    intros k [p Hp] Hk. apply lookup_delete_Some in Hp as [_ Hp]. by apply H2; [eexists|].
  - apply upholds_bind; [|done]. apply upholds_section. intros n [H1 H2]. split; [done|]. intros k [p Hp] _. done.
  - by specialize (Hb peer).
  - apply upholds_bind; [|done]. apply upholds_section. intros n [H1 H2]. split; [done|]. intros k [p Hp] _. done.
  - apply upholds_bind; [|done]. apply upholds_section. by intros n [H1 H2].
Qed.

(** [call] bans [h], and the main loop handles events between the removal of
    the peer and its black-listing. *)
Definition broken_ban (call : rpc_call) (between : list (list (Z * event))) (h : c_haship_addr) : Prop :=
  exists text, call = call_ban_peer text /\ haship_of_dot address_v6_from_string text = Ret h /\ ~ unbroken between.

Lemma add_text_ends X e now (o : outcome t_peering_reference) between (w : state) : node_ok_but X w.2 ->
  ends_in (node_ok_but X) (run between (rethrow e (ref ← s_lift o; _ ← section (add_peer now ref); section (delete_peer_from_black_list (haship_addr ref)))) w).
Proof. intros Hw. apply ends_catch. destruct o as [ref|x| |]; [by apply add_ends|done..]. Qed.

Lemma rpc_add_ends X now peer format between (w : state) : node_ok_but X w.2 -> ends_in (node_ok_but X) (run between (rpc_add_peer now peer format) w).
Proof.
  intros Hw. assert (forall n o, node_ok_but X n -> node_ok_but X (with_tun_out o n)) as Ht by (intros n o [? ?]; by split).
  unfold run_rpc, rpc_add_peer. apply (ends_catch _ _ (fun _ => Ret (RpcRet (str "add_peer") (str "fail: Bad peer format") (str "error")))).
  destruct (rpc_peer_hip peer format) as [hip|e| |]; [|done..].
  apply (ends_section (node_ok_but X)); [by apply between_quietly; [apply node_ok_closed|]|done|].
  intros r s o s' Hs E. injection E as <- <-. replace (tail (map loop between)) with (map loop (tail between)) by (by destruct between).
  destruct (m_unban_if_banned s).
  - refine (ends_then (node_ok_but X) _ (fun _ => Ret _) _ _ _).
    case_bool_decide; [by apply add_text_ends|]. case_bool_decide; [by apply add_text_ends|done].
  - apply (ends_section (node_ok_but X)); [by apply between_quietly; [apply node_ok_closed|]|done|].
    intros r1 s1 o1 s2 Hs1 E1. injection E1 as <- <-. by destruct (bool_decide (hip ∈ m_peer_black_list s1)).
Qed.

Lemma rpc_ends X now call between (w : state) : node_ok_but X w.2 -> (forall h, broken_ban call between h -> X h) ->
  ends_in (node_ok_but X) (run between (handle_rpc now call) w).
Proof.
  intros Hw HX. assert (forall n o, node_ok_but X n -> node_ok_but X (with_tun_out o n)) as Ht by (intros n o [? ?]; by split).
  assert ((exists peer format, call = call_add_peer peer format) \/ (exists peer, call = call_ban_peer peer) \/
    (forall peer format, call <> call_add_peer peer format) /\ (forall peer, call <> call_ban_peer peer)) as [(peer & format & ->)|[[peer ->]|[Ha Hb]]]
    by (destruct call; eauto; right; right; by split).
  - by apply rpc_add_ends.
  - cbn [handle_rpc]. destruct (haship_of_dot address_v6_from_string peer) as [h|e| |] eqn:Eh.
    2-4: unfold run_rpc, rpc_ban_peer; by rewrite Eh.
    assert (X h \/ unbroken between) as Hu.
    { destruct (between !! 2%nat) as [[|ev evs]|] eqn:E; [right; by right| |right; by left].
      left. apply HX. exists peer. split_and!; [done..|]. intros [H|H]; congruence. }
    pose proof (ban_ends X h peer between w Eh Hw Hu) as H. unfold ends_in in *.
    destruct (run between (rpc_ban_peer peer) w) as [[r|e| |] w']; cbn in *; [apply H..|done|done].
  - apply keeps_ends; [apply node_ok_closed|done| |done]. by apply node_ok_rpc.
Qed.

(** ** Histories *)

Lemma step_ends Q (s s' : state) i : (forall n o, Q n -> Q (with_tun_out o n)) -> packet_closed Q ->
  (forall call between, i.2 = in_rpc call between -> ends_in Q (run between (handle_rpc i.1 call) s)) -> step s i = Some s' -> Q s.2 -> Q s'.2.
Proof.
  intros Ht HP Hr E Hs. destruct i as [now [ev|call between]]; unfold input_step in E; cbn [fst snd] in *.
  - pose proof (preserves_event NTRU SIDH ed_verify ntru_verify nonce_default write_to_tun Q HP Ht now ev s Hs) as Hp.
    destruct (event_turn NTRU SIDH ed_verify ntru_verify nonce_default write_to_tun now ev s) as [[[]|e| |] s2]; by simplify_eq.
  - specialize (Hr call between eq_refl). unfold ends_in in Hr.
    destruct (run between (handle_rpc now call) s) as [[r|e| |] s2]; by simplify_eq.
Qed.

Lemma history_ends Q ins : (forall n o, Q n -> Q (with_tun_out o n)) -> packet_closed Q ->
  (forall now call between, (now, in_rpc call between) ∈ ins -> forall s : state, Q s.2 -> ends_in Q (run between (handle_rpc now call) s)) ->
  forall s s' : state, hist ins s = Some s' -> Q s.2 -> Q s'.2.
Proof.
  intros Ht HP. induction ins as [|i ins IH]; intros Hr s s' E Hs; cbn in E; [by simplify_eq|].
  destruct (step s i) as [s1|] eqn:E1; [|done]. eapply IH; [|done|].
  - intros now call between Hin. apply Hr. by right.
  - eapply (step_ends Q); [done..| |done|done]. intros call between Ei. destruct i as [now x]. cbn in *. subst. apply Hr; [by left|done].
Qed.

Definition is_add_peer (i : input) : bool := match i with in_rpc (call_add_peer _ _) _ => true | _ => false end.

(** ** Properties *)

(** C9: after any history of packets, timers and remote commands, with the main
    loop handling any events between the locked sections of each command,
    every peer is filed under its own address and a known public key hashes to
    the address the peer is filed under; and a peer is on the black list only
    if a command that banned it was interrupted between the removal of the
    peer and its black-listing. *)
Theorem history_keeps_node_ok ins s s' : node_ok s.2 -> hist ins s = Some s' ->
  map_Forall peer_ok (m_peer s'.2) /\
  forall h, is_Some (m_peer s'.2 !! h) -> h ∈ m_peer_black_list s'.2 ->
    exists now call between, (now, in_rpc call between) ∈ ins /\ broken_ban call between h.
Proof.
  intros Hs E. set (X := fun h => exists now call between, (now, in_rpc call between) ∈ ins /\ broken_ban call between h).
  assert (node_ok_but X s'.2) as [H1 H2]; [|by split].
  apply (history_ends (node_ok_but X) ins) with (s := s); [by intros n o [? ?]; split|apply node_ok_closed| |done|].
  - intros now call between Hin w Hw. apply rpc_ends; [done|]. intros h Hb. by exists now, call, between.
  - by apply (node_ok_weaken (fun _ => False)); [intros k []|].
Qed.

End Facts.

(** ** At a concrete node *)

#[local] Existing Instance toy_lib.
#[local] Existing Instance toy_net.

Notation toy_hist := (history true true (fun _ _ _ => true) (fun _ _ _ => true) [] (fun x => zlen x)).
(** The "hi" of the node of identity [k]. *)
Definition toy_hi (k : bytes) : bytes :=
  [Byte.x01; Byte.x03] ++ match hi_data (toy_node k ∅) with Ret d => d | _ => [] end.

Definition toy_dot (k : bytes) : bytes := match hex_of_bin (toy_hip k) with Ret s => s | _ => [] end.

(** B says hi; then it is banned, and says hi again after it was removed and
    before it is on the black list. *)
Definition toy_ban_race : list (list (Z * event)) := [[]; []; [(5, ev_udp (toy_addr (str "B")) (toy_hi (str "B")))]].
Definition toy_ins : list (Z * input) :=
  [(3, in_event (ev_udp (toy_addr (str "B")) (toy_hi (str "B")))); (4, in_rpc (call_ban_peer (toy_dot (str "B"))) toy_ban_race)].

Lemma toy_alone : node_ok (toy_node (str "A") ∅).
Proof. split; [apply map_Forall_empty|]. intros k [p Hk]. discriminate Hk. Qed.

(** A ban that is interrupted does not ban: B is on the black list, and a peer. *)
Lemma ban_loses_race : exists s', toy_hist toy_ins (toy_rm, toy_node (str "A") ∅) = Some s' /\
  is_Some (m_peer s'.2 !! toy_hip (str "B")) /\ toy_hip (str "B") ∈ m_peer_black_list s'.2.
Proof.
  destruct (some_of (toy_hist toy_ins (toy_rm, toy_node (str "A") ∅))
    (fun s' => bool_decide (is_Some (m_peer s'.2 !! toy_hip (str "B")) /\ toy_hip (str "B") ∈ m_peer_black_list s'.2)))
    as (s' & E & Hp); [vm_compute; reflexivity|].
  exists s'. split; [exact E|]. exact (bool_decide_eq_true_1 _ Hp).
Qed.

Lemma history_keeps_node_ok_witness : exists s',
  toy_hist toy_ins (toy_rm, toy_node (str "A") ∅) = Some s' /\ map_Forall peer_ok (m_peer s'.2) /\
  exists now call between, (now, in_rpc call between) ∈ toy_ins /\ broken_ban call between (toy_hip (str "B")).
Proof.
  destruct ban_loses_race as (s' & E & Hp & Hb). exists s'. split; [exact E|].
  destruct (history_keeps_node_ok true true (fun _ _ _ => true) (fun _ _ _ => true) [] (fun x => zlen x) toy_ins (toy_rm, toy_node (str "A") ∅) s' toy_alone E) as [H1 H2].
  split; [exact H1|exact (H2 _ Hp Hb)].
Defined.

Definition toy_two : @tun_node Z toy_lib := toy_node (str "A") {[ toy_hip (str "B") := toy_peer (str "B") ]}.

(** B is banned while its pings arrive before the command and before the
    removal; its hi comes later. *)
Definition toy_ban : M (c_routing_manager * @tun_node Z toy_lib) rpc_ret :=
  run_rpc true true (fun _ _ _ => true) (fun _ _ _ => true) [] (fun x => zlen x)
    [[(2, ev_udp (toy_addr (str "B")) (toy_hi (str "B")))]; [(3, ev_ping)]] (handle_rpc 3 (call_ban_peer (toy_dot (str "B")))).

