(* ===== verification/TunjsonFacts.v ===== *)
(** * Theorems about the remote commands as text, and the program as a whole

    [performs] says what each command, received as text, does to the node and
    answers; the commands registered with the server do just that.  The
    invariant of the node holds while the main loop and the remote control
    thread run, whatever is received by either. *)
From S2P Require Import Prelude Sections Serialize Cryptobasic Multikeys MultikeysFacts Crypto CryptoFacts Peering PeeringFacts.
From S2P Require Import Routing Peerref Tunserver Tunpackets Tunrpc Toy TunpacketsFacts NodeFacts Json Rpcserver RpcserverFacts Tunjson.

Section Facts.
Context {Rng : Type} `{!CryptoLib Rng} `{NL : NetLib} `{JL : JsonLib}.
Context (nonce_default : bytes) (m_port get_balance : Z) (elapsed : Z -> json * json).

Notation node := (@tun_node Rng _).
Notation functions := (rpc_functions (Rng := Rng) nonce_default m_port get_balance elapsed).

(** ** What the functions are

    Reading the request happens outside of the mutex, and so does building the
    answer: in between there is nothing, the sections of a command of [Tunrpc],
    or one section that changes nothing but what was sent. *)
Inductive shape (now : Z) : sections node json -> Prop :=
  | shape_done o : shape now (s_done o)
  | shape_call call (g : rpc_ret -> outcome json) : shape now (r ← handle_rpc now call; s_lift (g r))
  | shape_quiet X (m : M node X) k : (forall n, exists out, (m n).2 = with_udp_out out n) ->
      (forall o, exists o', k o = s_done o') -> shape now (s_section X m k).

Lemma same_out (n : node) : exists out, n = with_udp_out out n.
Proof. exists (m_udp_out n). by destruct n. Qed.

Lemma shape_read now {X} (m : M node X) (g : X -> outcome json) : (forall n, (m n).2 = n) -> shape now (x ← section m; s_lift (g x)).
Proof.
  intros Hm. apply shape_quiet; [intros n; rewrite Hm; apply same_out|]. intros [x|e| |]; by eexists.
Qed.

(** What is read of the request decides the shape. *)
Ltac read_request := match goal with |- context [s_lift ?o] => destruct o as [?|?| |]; [rewrite s_lift_bind|apply shape_done..] end.

Lemma functions_shape name f now msg : (name, f) ∈ functions -> shape now (f now msg).
Proof.
  unfold rpc_functions. rewrite !elem_of_cons. intros [E|[E|[E|[E|[E|[E|[E|[E|[E|[E|[E|[E|[E|E]]]]]]]]]]]]]; [injection E as -> ->..|by apply not_elem_of_nil in E].
  - exact (shape_call now call_ping ret_json).
  - apply (shape_read now _ (fun refs => json_object [_; (_, json_of_strings refs); _; _])). done.
  - unfold rpc_sending_test. do 3 read_request.
    apply shape_quiet.
    + intros n. unfold mbind, M_mbind, mget, mlift. destruct (get_hip_as_string _ _); try apply same_out.
      destruct (peering_reference_dot _ _ _); try apply same_out. unfold mrun. destruct (mfor _ _ _) as [o [p out]]. by exists out.
    + intros [x|e| |]; [destruct (elapsed _)|..]; by eexists.
  - unfold rpc_json_add_peer. do 3 read_request. exact (shape_call now (call_add_peer _ _) ret_json).
  - unfold rpc_json_delete_peer, input_string. do 2 read_request. exact (shape_call now (call_delete_peer _) ret_json).
  - exact (shape_call now call_delete_all_peers ret_json).
  - unfold rpc_json_ban_peer, input_string. do 2 read_request. exact (shape_call now (call_ban_peer _) ret_json).
  - exact (shape_call now call_ban_all_peers ret_json).
  - apply (shape_read now _ (fun nice => json_object [_; (_, json_of_string nice); _; _])).
    intros n. unfold mbind, M_mbind, mget, mlift. by destruct (get_my_ipv6_nice n).
  - unfold rpc_json_get_galaxy_invitation. do 2 read_request.
    apply shape_quiet; [|intros [x|e| |]; by eexists]. intros n. unfold mbind, M_mbind, mget, mlift. destruct (get_my_ipv6_nice n); apply same_out.
  - exact (shape_call now call_hello ret_json_short).
  - exact (shape_call now call_exit ret_json_short).
  - apply shape_done.
Qed.

(** ** The program *)

Context (hmac : bytes -> bytes -> option bytes) (verify : bytes -> bytes -> bytes -> Z).
Context (NTRU SIDH : bool) (ed_verify ntru_verify : bytes -> bytes -> bytes -> bool) (write_to_tun : bytes -> Z).

Notation world := ((Z * list (list (Z * event))) * (c_routing_manager * node))%type.
Notation server := (c_rpc_server world).
Notation run := (program nonce_default hmac verify NTRU SIDH ed_verify ntru_verify write_to_tun).
Notation on_node := (on_node (Rng := Rng) nonce_default NTRU SIDH ed_verify ntru_verify write_to_tun).
Notation start := (register_rpc (Rng := Rng) nonce_default m_port get_balance elapsed NTRU SIDH ed_verify ntru_verify write_to_tun).

(** Only the commands of the node are registered. *)
Definition registered (v : server) : Prop :=
  forall name f, m_rpc_functions_map v !! name = Some f -> exists g, (name, g) ∈ functions /\ f = on_node g.

Lemma register_registered w : registered (start (new_rpc_server w)).2.
Proof.
  unfold register_rpc. set (l := functions). assert (forall nf, nf ∈ l -> nf ∈ functions) as Hl by done.
  assert (registered (new_rpc_server w)) as Hv by (intros name f E; cbn in E; by rewrite lookup_empty in E).
  revert Hv Hl. generalize (new_rpc_server w). generalize l as l'. clear l.
  induction l' as [|[name g] l' IH]; intros v Hv Hl; [done|]. cbn [mfor].
  set (v1 := (add_rpc_function name (on_node g) v).2).
  rewrite (M_bind_ret _ _ _ tt v1) by done. apply IH; [|intros nf Hnf; apply Hl; by right].
  unfold v1, add_rpc_function, mmodify. cbn [snd]. destruct (m_rpc_functions_map v !! name) eqn:E; [done|]. intros name' f. cbn.
  destruct (decide (name' = name)) as [->|Hne].
  - rewrite lookup_insert_eq. intros [= <-]. exists g. split; [|done]. apply Hl. by left.
  - rewrite lookup_insert_ne by done. apply Hv.
Qed.

Lemma register_loop l : NoDup l.*1 -> forall v : server, (forall nf, nf ∈ l -> m_rpc_functions_map v !! nf.1 = None) ->
  let v' := (mfor l (fun nf => add_rpc_function nf.1 (on_node nf.2)) v).2 in
  (forall nf, nf ∈ l -> m_rpc_functions_map v' !! nf.1 = Some (on_node nf.2)) /\
  (forall name, name ∉ l.*1 -> m_rpc_functions_map v' !! name = m_rpc_functions_map v !! name).
Proof.
  induction l as [|[name g] l IH]; intros Hnd v Hv; [by split; [intros nf Hnf%not_elem_of_nil|]|].
  apply NoDup_cons in Hnd as [Hn Hnd]. cbn [mfor fst snd].
  assert (add_rpc_function name (on_node g) v = (Ret tt, with_functions (<[name := on_node g]> (m_rpc_functions_map v)) v)) as E.
  { unfold add_rpc_function, mmodify. pose proof (Hv (name, g) ltac:(by left)) as Hg. cbn in Hg. by rewrite Hg. }
  rewrite (M_bind_ret _ _ _ _ _ E).
  destruct (IH Hnd (with_functions (<[name := on_node g]> (m_rpc_functions_map v)) v)) as [H1 H2].
  { intros nf Hnf. cbn. rewrite lookup_insert_ne; [apply Hv; by right|]. intros ->. by apply Hn, (list_elem_of_fmap_2 fst l nf). }
  split.
  - intros nf [->|Hnf]%elem_of_cons; [|by apply H1]. rewrite H2 by done. cbn. by rewrite lookup_insert_eq.
  - intros name' [Hne Hn']%not_elem_of_cons. rewrite H2 by done. cbn. by rewrite lookup_insert_ne.
Qed.

(** Every command of the node is registered under its name. *)
Lemma register_lookup name f w : (name, f) ∈ functions -> m_rpc_functions_map (start (new_rpc_server w)).2 !! name = Some (on_node f).
Proof.
  intros Hin. assert (NoDup functions.*1) as Hnd.
  { apply (bool_decide_eq_true_1 (NoDup functions.*1)). vm_compute. reflexivity. }
  destruct (register_loop functions Hnd (new_rpc_server w)) as [H _]; [done|]. by apply (H (name, f)).
Qed.

(** ** What a command does

    [performs now n request command answer n']: the command with this name,
    asked for by the parsed [request] of a node in state [n] at the time [now],
    gives [answer] (the JSON value, or the exception that is thrown) and leaves
    [n'], when no other thread runs in between. *)
Definition member (request : json) (k : string) (v : bytes) : Prop := json_get_string request (str k) = Ret v.
Definition unreadable (request : json) (k : string) (e : exn) : Prop := json_get_string request (str k) = Throw e.

(** [{"cmd": .., "msg": .., "state": ..}] *)
Definition says (cmd msg state : string) : outcome json :=
  json_object [(str "cmd", json_of_string (str cmd)); (str "msg", json_of_string (str msg)); (str "state", json_of_string (str state))].
Definition says_short (cmd state : string) : outcome json :=
  json_object [(str "cmd", json_of_string (str cmd)); (str "state", json_of_string (str state))].

(** The reference that a text of the two formats denotes. *)
Inductive denotes : bytes -> bytes -> outcome t_peering_reference -> Prop :=
  | denotes_old peer : denotes peer (str "0.1") (parse_peer_simplestring peer)
  | denotes_new peer : denotes peer (str "1.0") (reference_new_format peer).

(** A new peer, unless one is known; its address is not banned any more. *)
Definition with_added (now : Z) (ref : t_peering_reference) (n : node) : node :=
  with_black_list (m_peer_black_list n ∖ {[haship_addr ref]})
    (with_peers (m_peer n ∪ {[haship_addr ref := new_peering now ref]}) n).
Definition with_removed (hip : c_haship_addr) (n : node) : node := with_peers (delete hip (m_peer n)) n.
Definition with_banned (hips : gset c_haship_addr) (n : node) : node :=
  with_black_list (hips ∪ m_peer_black_list n) n.

Inductive performs (now : Z) (n : node) (request : json) : string -> outcome json -> node -> Prop :=
  | does_ping : performs now n request "ping" (says "ping" "pong" "ok") n
  | does_hello : performs now n request "hello" (says_short "hello" "ok") n
  | does_exit : performs now n request "exit" (says_short "exit" "ok") (with_options (enable_remove n) true (peer_timeout n) (m_my_prefix n) n)
  | does_list : performs now n request "peer_list"
      (json_object [(str "cmd", json_of_string (str "peer_list")); (str "peers", json_of_strings (map (fun kp => peer_line kp.2) (map_items string_le (m_peer n))));
        (str "msg", json_of_string (str "ok:")); (str "state", json_of_string (str "ok"))]) n
  (* add_peer *)
  | adds peer format hip ref : member request "peer" peer -> member request "format" format ->
      rpc_peer_hip peer format = Ret hip -> m_unban_if_banned n = true -> denotes peer format (Ret ref) ->
      performs now n request "add_peer" (says "add_peer" "ok: Peer added" "ok") (with_added now ref n)
  | adds_not peer format hip e : member request "peer" peer -> member request "format" format ->
      rpc_peer_hip peer format = Ret hip -> m_unban_if_banned n = true -> denotes peer format (Throw e) ->
      performs now n request "add_peer" (says "add_peer" "fail: Bad peer format" "error") n
  | adds_blocked peer format hip : member request "peer" peer -> member request "format" format ->
      rpc_peer_hip peer format = Ret hip -> m_unban_if_banned n = false ->
      performs now n request "add_peer" (says "add_peer" "failed: peer is banned and you said to not unban him" "blocked") n
  | adds_bad peer format e : member request "peer" peer -> member request "format" format -> rpc_peer_hip peer format = Throw e ->
      performs now n request "add_peer" (says "add_peer" "fail: Bad peer format" "error") n
  | adds_unread e : unreadable request "peer" e -> performs now n request "add_peer" (Throw e) n
  | adds_unread_format peer e : member request "peer" peer -> unreadable request "format" e -> performs now n request "add_peer" (Throw e) n
  (* delete_peer *)
  | deletes peer hip : member request "peer" peer -> haship_of_dot address_v6_from_string peer = Ret hip -> is_Some (m_peer n !! hip) ->
      performs now n request "delete_peer" (says "delete_peer" "ok: Peer deleted" "ok") (with_removed hip n)
  | deletes_none peer hip : member request "peer" peer -> haship_of_dot address_v6_from_string peer = Ret hip -> m_peer n !! hip = None ->
      performs now n request "delete_peer" (says "delete_peer" "ok: Peer not found" "nothing_done") n
  | deletes_bad peer e : member request "peer" peer -> haship_of_dot address_v6_from_string peer = Throw e ->
      performs now n request "delete_peer" (says "delete_peer" "fail: Bad peer format" "error") n
  | deletes_unread e : unreadable request "peer" e -> performs now n request "delete_peer" (Throw e) n
  | deletes_all : performs now n request "delete_all_peers" (says "delete_all_peers" "ok: All peers deleted" "ok") (with_peers ∅ n)
  (* ban_peer: a text that is no address is not caught *)
  | bans peer hip : member request "peer" peer -> haship_of_dot address_v6_from_string peer = Ret hip -> hip ∉ m_peer_black_list n ->
      performs now n request "ban_peer" (says "ban_peer" "ok: Peer banned" "ok") (with_banned {[hip]} (with_removed hip n))
  | bans_again peer hip : member request "peer" peer -> haship_of_dot address_v6_from_string peer = Ret hip -> hip ∈ m_peer_black_list n ->
      performs now n request "ban_peer" (says "ban_peer" "nothing done, peer is banned" "nothing_done") n
  | bans_bad peer e : member request "peer" peer -> haship_of_dot address_v6_from_string peer = Throw e ->
      performs now n request "ban_peer" (Throw e) n
  | bans_unread e : unreadable request "peer" e -> performs now n request "ban_peer" (Throw e) n
  | bans_all : performs now n request "ban_all_peers" (says "ban_all_peers" "ok: All peers banned" "ok") (with_peers ∅ (with_banned (dom (m_peer n)) n))
  (* what is only read *)
  | tells_ipv6 nice : get_my_ipv6_nice n = Ret nice -> performs now n request "get_galaxy_ipv6"
      (json_object [(str "cmd", json_of_string (str "get_galaxy_ipv6")); (str "ipv6", json_of_string nice);
        (str "msg", json_of_string (str "ok:")); (str "state", json_of_string (str "ok"))]) n
  | tells_invitation ipv4_list nice : json_get_strings request (str "msg") = Ret ipv4_list -> get_my_ipv6_nice n = Ret nice ->
      performs now n request "get_galaxy_new_format_reference"
        (json_object [(str "cmd", json_of_string (str "get_galaxy_invitation")); (str "inv", json_of_string (invitation nice ipv4_list m_port));
          (str "msg", json_of_string (str "ok:"))]) n
  | tells_status : performs now n request "get_status"
      (json_object [(str "cmd", json_of_string (str "get_status")); (str "state", json_of_string (str "ok")); (str "btc", json_of_number get_balance)]) n.

Lemma added_eq now ref (n : node) : (uninterrupted (_ ← section (add_peer now ref); section (delete_peer_from_black_list (haship_addr ref))) n) =
  (Ret tt, with_added now ref n).
Proof.
  assert (m_peer n ∪ {[haship_addr ref := new_peering now ref]} =
    match m_peer n !! haship_addr ref with Some _ => m_peer n | None => <[haship_addr ref := new_peering now ref]> (m_peer n) end) as Hu.
  { destruct (m_peer n !! haship_addr ref) as [p|] eqn:E.
    - apply map_eq. intros k. rewrite lookup_union. destruct (decide (k = haship_addr ref)) as [->|Hne].
      + by rewrite E, lookup_singleton_eq.
      + rewrite lookup_singleton_ne by done. by destruct (m_peer n !! k).
    - rewrite insert_union_singleton_l. apply map_union_comm. by apply map_disjoint_singleton_r. }
  autorewrite with sections. rewrite bind_eq, uninterrupted_section. unfold add_peer, mbind, M_mbind, mget, with_added. rewrite Hu.
  destruct (m_peer n !! haship_addr ref) as [p|]; [|done]. cbn. by destruct n.
Qed.

(** The sections of the commands that take texts, run one after the other. *)
Lemma can_i_add_peer_runs hip (n : node) : uninterrupted (can_i_add_peer hip) n = (Ret (m_unban_if_banned n), n).
Proof.
  unfold can_i_add_peer. rewrite uninterrupted_bind, bind_eq, uninterrupted_section. unfold mbind at 1, M_mbind, mget, mret, M_mret.
  destruct (m_unban_if_banned n); [done|]. rewrite uninterrupted_bind, bind_eq, uninterrupted_section.
  unfold peer_on_black_list, mbind at 1, M_mbind, mget. cbn. by case_bool_decide.
Qed.

Lemma add_text_runs e now (o : outcome t_peering_reference) (n : node) :
  uninterrupted (rethrow e (ref ← s_lift o; _ ← section (add_peer now ref); section (delete_peer_from_black_list (haship_addr ref)))) n =
    match o with
    | Ret ref => (Ret tt, with_added now ref n) | Throw _ => (Throw e, n) | Abort_ => (Abort_, n) | Undef => (Undef, n)
    end.
Proof.
  unfold rethrow. rewrite uninterrupted_catch. unfold mcatch. destruct o as [ref|x| |]; [|done..]. by rewrite s_lift_bind, added_eq.
Qed.

Lemma add_peer_performs now peer format hip (n : node) : rpc_peer_hip peer format = Ret hip -> forall o, denotes peer format o ->
  uninterrupted (rpc_add_peer now peer format) n =
    if m_unban_if_banned n then
      match o with
      | Ret ref => (Ret (RpcRet (str "add_peer") (str "ok: Peer added") (str "ok")), with_added now ref n)
      | Throw _ => (Ret (RpcRet (str "add_peer") (str "fail: Bad peer format") (str "error")), n)
      | Abort_ => (Abort_, n) | Undef => (Undef, n)
      end
    else (Ret (RpcRet (str "add_peer") (str "failed: peer is banned and you said to not unban him") (str "blocked")), n).
Proof.
  intros Hh o Ho. unfold rpc_add_peer. rewrite uninterrupted_catch. unfold mcatch. rewrite Hh, s_lift_bind, uninterrupted_bind, bind_eq, can_i_add_peer_runs.
  destruct (m_unban_if_banned n); [|done]. rewrite uninterrupted_bind, bind_eq.
  assert (uninterrupted (if bool_decide (format = str "0.1") then add_peer_simplestring now peer
       else if bool_decide (format = str "1.0") then add_peer_simplestring_new_format now peer else mret tt) n =
    match o with
    | Ret ref => (Ret tt, with_added now ref n) | Throw _ => (Throw (if bool_decide (format = str "0.1") then ex_invalid_argument else ex_err_check_input), n)
    | Abort_ => (Abort_, n) | Undef => (Undef, n)
    end) as ->; [|by destruct o].
  destruct Ho as [peer|peer]; apply add_text_runs.
Qed.

Lemma delete_peer_runs hip (n : node) :
  delete_peer hip n = (Ret (bool_decide (is_Some (m_peer n !! hip))), with_removed hip n).
Proof.
  unfold delete_peer, with_removed, mbind, M_mbind, mget. case_bool_decide as E.
  - by destruct E as [p ->].
  - apply eq_None_not_Some in E. rewrite E, delete_id by done. by destruct n.
Qed.

Lemma delete_text_runs peer hip banned (n : node) : haship_of_dot address_v6_from_string peer = Ret hip ->
  uninterrupted (delete_peer_simplestring peer banned) n =
    (Ret (bool_decide (is_Some (m_peer n !! hip))), if banned : bool then with_banned {[hip]} (with_removed hip n) else with_removed hip n).
Proof.
  intros Hh. unfold delete_peer_simplestring, rethrow. rewrite Hh, uninterrupted_catch. unfold mcatch. rewrite s_lift_bind, uninterrupted_bind, bind_eq.
  rewrite uninterrupted_section, delete_peer_runs. by destruct banned.
Qed.

Lemma delete_peer_performs peer (n : node) :
  uninterrupted (rpc_delete_peer peer) n =
    match haship_of_dot address_v6_from_string peer with
    | Ret hip => (Ret (if bool_decide (is_Some (m_peer n !! hip)) then RpcRet (str "delete_peer") (str "ok: Peer deleted") (str "ok")
                       else RpcRet (str "delete_peer") (str "ok: Peer not found") (str "nothing_done")), with_removed hip n)
    | Throw _ => (Ret (RpcRet (str "delete_peer") (str "fail: Bad peer format") (str "error")), n)
    | Abort_ => (Abort_, n) | Undef => (Undef, n)
    end.
Proof.
  unfold rpc_delete_peer, catch_invalid. rewrite uninterrupted_catch. unfold mcatch. rewrite uninterrupted_bind, bind_eq.
  destruct (haship_of_dot address_v6_from_string peer) as [hip|e| |] eqn:Hh.
  - rewrite (delete_text_runs peer hip false n Hh). by destruct (bool_decide (is_Some (m_peer n !! hip))).
  - unfold delete_peer_simplestring. rewrite Hh. by vm_compute.
  - unfold delete_peer_simplestring. by rewrite Hh.
  - unfold delete_peer_simplestring. by rewrite Hh.
Qed.

Lemma ban_peer_performs peer hip (n : node) : haship_of_dot address_v6_from_string peer = Ret hip ->
  uninterrupted (rpc_ban_peer peer) n =
    if bool_decide (hip ∈ m_peer_black_list n)
    then (Ret (RpcRet (str "ban_peer") (str "nothing done, peer is banned") (str "nothing_done")), n)
    else (Ret (RpcRet (str "ban_peer") (str "ok: Peer banned") (str "ok")), with_banned {[hip]} (with_removed hip n)).
Proof.
  intros Hh. unfold rpc_ban_peer, catch_invalid. rewrite Hh, s_lift_bind, uninterrupted_catch. unfold mcatch. rewrite uninterrupted_bind, bind_eq.
  rewrite uninterrupted_section. unfold peer_on_black_list, mbind at 1, M_mbind, mget. cbn [mret M_mret]. case_bool_decide; [done|].
  by rewrite uninterrupted_bind, bind_eq, (delete_text_runs peer hip true n Hh).
Qed.

Ltac in_functions := unfold rpc_functions; repeat first [left|right].

Lemma performs_runs name request answer now (n n' : node) msg : json_parse msg = Ret request -> performs now n request name answer n' ->
  exists f, (str name, f) ∈ functions /\ uninterrupted (f now msg) n = (answer, n').
Proof.
  intros Hp H. destruct H; unfold member, unreadable in *; (eexists; split; [in_functions|]); cbn [rpc_json_ping];
    unfold rpc_json_add_peer, rpc_json_delete_peer, rpc_json_ban_peer, rpc_json_get_galaxy_invitation, input_string; rewrite ?Hp, ?s_lift_bind;
    repeat match goal with E : json_get_string _ _ = _ |- _ => rewrite E, ?s_lift_bind; clear E end; try done.
  1-10: rewrite uninterrupted_bind, bind_eq.
  - erewrite add_peer_performs by done. by rewrite H2.
  - erewrite add_peer_performs by done. by rewrite H2.
  - unfold rpc_add_peer. rewrite uninterrupted_catch. unfold mcatch. rewrite H1, s_lift_bind, uninterrupted_bind, bind_eq, can_i_add_peer_runs. by rewrite H2.
  - unfold rpc_add_peer. by rewrite H1.
  - rewrite delete_peer_performs, H0. by rewrite bool_decide_eq_true_2.
  - rewrite delete_peer_performs, H0, bool_decide_eq_false_2 by (rewrite H1; by intros [p Hq]). unfold with_removed. rewrite delete_id by done. by destruct n.
  - by rewrite delete_peer_performs, H0.
  - by rewrite (ban_peer_performs _ hip), bool_decide_eq_false_2.
  - by rewrite (ban_peer_performs _ hip), bool_decide_eq_true_2.
  - unfold rpc_ban_peer. by rewrite H0.
  - unfold rpc_get_galaxy_ipv6. rewrite uninterrupted_bind, bind_eq, uninterrupted_section. unfold mbind at 1, M_mbind, mget. by rewrite H.
  - rewrite H, s_lift_bind. unfold rpc_get_galaxy_invitation. rewrite !uninterrupted_bind, !bind_eq, !uninterrupted_bind, !bind_eq, uninterrupted_section.
    unfold mbind at 1, M_mbind, mget. by rewrite H0.
Qed.


(** [X]: the addresses that may be peers although they are banned. *)
Record program_ok (X : c_haship_addr -> Prop) (v : server) : Prop := {
  prog_node : node_ok_but X (srv_env v).2.2;
  prog_between h : ~ unbroken (srv_env v).1.2 -> X h;
  prog_registered : registered v
}.

Lemma shape_ends X now between (p : sections node json) (w : c_routing_manager * node) : shape now p -> node_ok_but X w.2 ->
  (forall h, ~ unbroken between -> X h) ->
  ends_in (node_ok_but X) (run_rpc NTRU SIDH ed_verify ntru_verify nonce_default write_to_tun between p w).
Proof.
  intros Hp Hw HX. destruct Hp as [o|call g|Y m k Hm Hk].
  - by destruct o.
  - apply ends_then. apply rpc_ends; [done|]. intros h (text & _ & _ & Hb). by apply HX.
  - apply keeps_ends; [apply node_ok_closed|by intros n o [? ?]; split| |done]. split.
    + intros n [H1 H2]. destruct (Hm n) as [out ->]. by split.
    + intros o. by destruct (Hk o) as [o' ->].
Qed.

Lemma call_keeps_program X name msg : settles (program_ok X) (call_function (Env := world) name msg).
Proof.
  intros v [Hn Hb Hr]. unfold call_function, mbind, M_mbind, mget. destruct (m_rpc_functions_map v !! name) as [f|] eqn:Ef; [|done].
  destruct (Hr name f Ef) as (g & Hg & ->). unfold mrun, Tunjson.on_node. destruct (srv_env v) as [[now between] w] eqn:Ee. cbn [fst snd] in *.
  pose proof (shape_ends X now between (g now msg) w (functions_shape name g now msg Hg) Hn Hb) as Hl. unfold ends_in in Hl.
  destruct (run_rpc _ _ _ _ _ _ between (g now msg) w) as [[r|e| |] w']; cbn in *; by try split.
Qed.

Lemma happen_keeps X v h v' : (forall now between ev a, h = hp_rpc now between ev -> ~ unbroken between -> X a) ->
  happen nonce_default hmac verify NTRU SIDH ed_verify ntru_verify write_to_tun v h = Some v' -> program_ok X v -> program_ok X v'.
Proof.
  intros HX E [Hn Hb Hr]. destruct h as [now ev|now between ev]; cbn [happen] in E.
  - assert (forall n o, node_ok_but X n -> node_ok_but X (with_tun_out o n)) as Htun by (intros n o [H1 H2]; by split).
    pose proof (preserves_event NTRU SIDH ed_verify ntru_verify nonce_default write_to_tun _ (node_ok_closed X) Htun now ev (srv_env v).2 Hn) as Hp.
    destruct (event_turn NTRU SIDH ed_verify ntru_verify nonce_default write_to_tun now ev (srv_env v).2) as [[[]|e| |] s']; try done.
    injection E as <-. split; [done| |done]. intros a Ha. destruct Ha. by left.
  - assert (settles (program_ok X) (rpc_step hmac verify ev)) as Hq.
    { apply settles_event; try (intros ? w [? ? ?]; by split); [intros ? ? w [? ? ?]; by split|]. apply call_keeps_program. }
    assert (program_ok X (with_env ((now, between), (srv_env v).2) v)) as Hv.
    { split; [done| |done]. intros a Ha. by eapply HX. }
    specialize (Hq _ Hv). destruct (rpc_step hmac verify ev _) as [[[]|e| |] w]; try done. by injection E as <-.
Qed.

(** C14: the whole program keeps the invariant of the node: with the packets
    and timers of the main loop, with whatever octets, errors and connections
    the remote control thread is given, and with events of the main loop
    between any two locked sections of its commands, every peer is filed under
    its own address, known public keys hash to it, and a peer is on the black
    list only if events were handled before the third section of some command
    (a ban removes the peer in its second section and black-lists it in the
    third). *)
Theorem program_keeps_node_ok hs w v' : node_ok w.2.2 -> unbroken w.1.2 -> run hs (start (new_rpc_server w)).2 = Some v' ->
  map_Forall peer_ok (m_peer (srv_env v').2.2) /\
  forall h, is_Some (m_peer (srv_env v').2.2 !! h) -> h ∈ m_peer_black_list (srv_env v').2.2 ->
    exists now between ev, hp_rpc now between ev ∈ hs /\ ~ unbroken between.
Proof.
  intros Hw Hu E. set (X := fun _ : c_haship_addr => exists now between ev, hp_rpc now between ev ∈ hs /\ ~ unbroken between).
  assert (program_ok X v') as [[H1 H2] _ _]; [|by split].
  assert (program_ok X (start (new_rpc_server w)).2) as Hok.
  { assert (preserves (fun v : server => srv_env v = w) start) as Hp.
    { apply preserves_mfor. intros nf v Hv. unfold add_rpc_function, mmodify. cbn. by destruct (m_rpc_functions_map v !! nf.1). }
    split; [|by rewrite (Hp (new_rpc_server w) eq_refl)|apply register_registered].
    rewrite (Hp (new_rpc_server w) eq_refl). by apply (node_ok_weaken (fun _ => False)); [intros k []|]. }
  assert (forall h now between ev a, h ∈ hs -> h = hp_rpc now between ev -> ~ unbroken between -> X a) as HX
    by (intros h now between ev a Hin -> Hb; by exists now, between, ev).
  clearbody X. clear Hw Hu. revert E Hok. generalize (start (new_rpc_server w)).2. induction hs as [|h hs IH]; intros v E Hv; cbn in E.
  - by injection E as <-.
  - destruct (happen nonce_default hmac verify NTRU SIDH ed_verify ntru_verify write_to_tun v h) as [v1|] eqn:E1; [|done].
    apply (IH ltac:(intros h' now btw ev a Hin; apply HX; by right) v1 E). eapply happen_keeps; [|done|done].
    intros now btw ev a Ha. eapply HX; [by left|done].
Qed.
End Facts.

(** ** A concrete program *)

#[local] Existing Instance toy_lib.
#[local] Existing Instance toy_net.
#[local] Existing Instance toy_json_lib.

Notation toy_functions := (rpc_functions (Rng := Z) [] 9042 0 (fun _ => (json_null, json_null))).
Definition toy_node1 : @tun_node Z toy_lib := toy_node (str "A") {[ toy_hip (str "B") := toy_peer (str "B") ]}.

Notation toy_program := (program (Rng := Z) [] toy_hmac toy_verify true true (fun _ _ _ => true) (fun _ _ _ => true) (fun x => zlen x)).
Notation toy_start := (register_rpc (Rng := Z) [] 9042 0 (fun _ => (json_null, json_null)) true true (fun _ _ _ => true) (fun _ _ _ => true) (fun x => zlen x)).
Definition toy_world : (Z * list (list (Z * event))) * (c_routing_manager * @tun_node Z toy_lib) := ((0, []), (toy_rm, toy_node1)).


(** A hi is received; then a connection asks for the ban of B, and while the
    command runs B says hi between its removal and its black-listing. *)
Definition toy_happenings : list happening :=
  let msg := toy_request "ban_peer" [toy_string (str "peer"); toy_string (toy_dot (str "B"))] in
  [ hp_loop 3 (ev_udp (toy_addr (str "C")) (toy_hi (str "C")));
    hp_rpc 4 [] (ev_accept false);
    hp_rpc 5 [] (ev_complete 1 false 2 (octets_of_size (zlen msg)) []);
    hp_rpc 6 [] (ev_complete 1 false (zlen msg) msg []);
    hp_rpc 7 toy_ban_race (ev_complete 1 false 64 toy_auth []) ].

Lemma program_keeps_node_ok_witness : exists v', toy_program toy_happenings (toy_start (new_rpc_server toy_world)).2 = Some v' /\
  map_Forall peer_ok (m_peer (srv_env v').2.2) /\
  exists now between ev, hp_rpc now between ev ∈ toy_happenings /\ ~ unbroken between.
Proof.
  destruct (some_of (toy_program toy_happenings (toy_start (new_rpc_server toy_world)).2)
    (fun v => bool_decide (is_Some (m_peer (srv_env v).2.2 !! toy_hip (str "B")) /\ toy_hip (str "B") ∈ m_peer_black_list (srv_env v).2.2)))
    as (v' & E & Hp); [vm_compute; reflexivity|].
  destruct (bool_decide_eq_true_1 _ Hp) as [Hi Hb]. exists v'. split; [exact E|].
  assert (node_ok toy_node1) as Hok.
  { split.
    - apply map_Forall_singleton. split; [reflexivity|]. intros pk [= <-]. vm_compute. reflexivity.
    - intros k _ Hk. exact (not_elem_of_empty k Hk). }
  destruct (program_keeps_node_ok [] 9042 0 (fun _ => (json_null, json_null)) toy_hmac toy_verify true true (fun _ _ _ => true) (fun _ _ _ => true)
    (fun x => zlen x) toy_happenings toy_world v' Hok (or_introl eq_refl) E) as [H1 H2].
  split; [exact H1|exact (H2 _ Hi Hb)].
Defined.
