(* ===== verification/GuiordersFacts.v ===== *)
(** * Theorems about the orders of the graphical interface

    Interface, text, remote control server and node together: the request an
    order writes, the answer the node gives to it, and what the interface then
    shows. *)
From Stdlib Require String.
From stdpp Require Import pretty.
From S2P Require Import Prelude Sections Multikeys Crypto Peering Routing Peerref Tunserver Tunpackets Tunrpc Json Rpcserver RpcserverFacts Tunjson Guiorders.
From S2P Require Import Hexstr CryptoFacts Toy TunjsonFacts.

(** ** Texts *)

Definition ascii_only (s : bytes) : bool := forallb (fun c => byte_val c <? 128) s.

Lemma pretty_N_go_ascii x : forall s, ascii_only (String.list_byte_of_string s) = true -> ascii_only (String.list_byte_of_string (pretty_N_go x s)) = true.
Proof.
  induction (N.lt_wf_0 x) as [x _ IH]. intros s Hs. destruct (decide (0 < x)%N) as [Hx|Hx].
  - rewrite pretty_N_go_step by done. apply IH; [by apply N.div_lt|]. unfold ascii_only in *. cbn [String.list_byte_of_string].
    apply andb_true_iff. split; [|exact Hs]. unfold pretty_N_char. by repeat case_match.
  - assert (x = 0%N) as -> by lia. by rewrite pretty_N_go_0.
Qed.

Lemma dec_ascii n : ascii_only (dec n) = true.
Proof.
  assert (forall x : N, ascii_only (String.list_byte_of_string (pretty x)) = true) as Hn.
  { intros x. unfold pretty, pretty_N. case_decide; [done|]. by apply pretty_N_go_ascii. }
  unfold dec. destruct n as [|p|p]; [done|apply (Hn (N.pos p))|].
  change (String.list_byte_of_string (pretty (Z.neg p))) with (Byte.x2d :: String.list_byte_of_string (pretty (N.pos p))). apply (Hn (N.pos p)).
Qed.

Section Facts.
Context `{JL : JsonLib} `{!JsonLaws}.

Lemma text_dec n : text_ok (dec n).
Proof. apply text_ascii, dec_ascii. Qed.
Lemma text_str s : ascii_only (str s) = true -> text_ok (str s).
Proof. apply text_ascii. Qed.
Create HintDb texts discriminated.
#[local] Hint Resolve text_dec text_app json_text_string text_str : texts.
#[local] Hint Extern 1 (ascii_only _ = true) => reflexivity : texts.

Lemma assign_eval j k v set o : json_find j k = Some (json_of_string v) -> assign_member j k set o = (Ret tt, set v o).
Proof. intros E. unfold assign_member, mbind, M_mbind, mlift. by rewrite (json_get_string_find _ _ _ E). Qed.

Lemma assign_missing j k set o : json_is_object j -> json_find j k = None -> exists e, assign_member j k set o = (Throw e, o).
Proof.
  intros Hj E. destruct json_string_null as [e He]. exists e.
  unfold assign_member, json_get_string, mbind, M_mbind, mlift, outcome_mbind. rewrite (json_at_missing _ _ Hj E). cbn. by rewrite He.
Qed.

(** What the answer of the server contains: the members of the command's
    answer and the two numbers of the call. *)
Lemma answer_eval {Env} (fs : gmap bytes (bytes -> M Env json)) id msg j name (f : bytes -> M Env json) env env' r c :
  json_parse msg = Ret j -> json_find j (str "cmd") = Some (json_of_string name) -> fs !! name = Some f ->
  f msg env = (Ret r, env') -> json_is_object r ->
  exists r', answer fs id msg (env, c) = (Ret (json_dump r'), (env', c + 1)) /\ json_is_object r' /\
    (forall k, k <> str "id" -> k <> str "re" -> json_find r' k = json_find r k) /\
    json_find r' (str "id") = Some (json_of_string (dec id ++ str "-srv" ++ dec (c + 1))) /\
    json_find r' (str "re") = (match json_find j (str "id") with Some re => Some re | None => json_find r (str "re") end) /\
    (json_text r -> (forall re, json_find j (str "id") = Some re -> json_text re) -> json_text r').
Proof.
  intros Hp Hc Hf Hr Ho. set (num := json_of_string (dec id ++ str "-srv" ++ dec (c + 1))).
  destruct (json_set_object r (str "id") num Ho) as (r1 & E1 & Ho1).
  assert (text_ok (dec id ++ str "-srv" ++ dec (c + 1))) as Ht by auto with texts.
  assert (forall r', match json_find j (str "id") with Some re => json_set r1 (str "re") re | None => Ret r1 end = Ret r' ->
    answer fs id msg (env, c) = (Ret (json_dump r'), (env', c + 1))) as Ha.
  { intros r' Er'. unfold answer. rewrite Hp, bind_lift. rewrite (json_get_string_find _ _ _ Hc), bind_lift, Hf.
    assert (on_fst (f msg) (env, c) = (Ret r, (env', c))) as Hf' by (unfold on_fst; cbn; by rewrite Hr).
    rewrite (M_bind_ret _ _ _ _ _ Hf'). 
    assert (forall x : Env * Z, on_snd (mmodify (fun c => c + 1)) x = (Ret tt, (x.1, x.2 + 1))) as H1 by done.
    assert (forall x : Env * Z, on_snd mget x = (Ret x.2, x)) as H2 by (by intros []).
    rewrite (M_bind_ret _ _ _ _ _ (H1 (env', c))), (M_bind_ret _ _ _ _ _ (H2 _)). cbn [fst snd]. fold num. rewrite E1, bind_lift, Er', bind_lift. done. }
  assert (json_find r1 (str "id") = Some num) as Hid by (by eapply json_find_set).
  assert (forall k, k <> str "id" -> json_find r1 k = json_find r k) as Hne by (intros k Hk; by eapply json_find_set_ne).
  assert (json_text r -> json_text r1) as Htext by (intros Htx; eapply json_text_set; eauto with texts).
  destruct (json_find j (str "id")) as [re|] eqn:Ere.
  - destruct (json_set_object r1 (str "re") re Ho1) as (r2 & E2 & Ho2). exists r2. split_and!; [by apply Ha|done|..].
    + intros k Hk1 Hk2. rewrite (json_find_set_ne _ _ _ _ k E2) by done. by apply Hne.
    + rewrite (json_find_set_ne _ _ _ _ (str "id") E2); done.
    + by eapply json_find_set.
    + intros Hr1 Hre. eapply json_text_set; eauto with texts.
  - exists r1. split_and!; [by apply Ha|done|by intros; apply Hne|done|by apply Hne|by auto].
Qed.

(** An object that was written, and its text. *)
Lemma written members : NoDup members.*1 -> Forall (fun kv => text_ok kv.1 /\ json_text kv.2) members ->
  exists j, json_object members = Ret j /\ json_is_object j /\ json_text j /\ json_parse (json_dump j) = Ret j /\
    (forall k, k ∉ members.*1 -> json_find j k = None) /\ (forall k v, (k, v) ∈ members -> json_find j k = Some v).
Proof.
  intros Hnd Ht. destruct (json_object_find members Hnd) as (j & E & Ho & Hn & Hf). exists j.
  pose proof (json_object_text members Ht j E). by split_and!; try done; apply json_parse_dump.
Qed.

Ltac distinct_keys := apply (bool_decide_eq_true_1 (NoDup _)); vm_compute; reflexivity.
Ltac texts := repeat (apply Forall_cons; split; [cbn -[str app]; auto 8 with texts|]); by apply Forall_nil.

(** The members [cmd], [msg], [state] of a reply of the node, with the number
    of the call and the number of the request. *)
Definition reply_of (resp cmd msg state id : bytes) (re : option bytes) : Prop :=
  exists j, json_parse resp = Ret j /\ json_is_object j /\
    json_find j (str "cmd") = Some (json_of_string cmd) /\ json_find j (str "msg") = Some (json_of_string msg) /\
    json_find j (str "state") = Some (json_of_string state) /\ json_find j (str "id") = Some (json_of_string id) /\
    json_find j (str "re") = json_of_string <$> re /\ json_find j (str "peer") = None.

(** [basicOrder] of a reply. *)
Lemma order_base_eval resp j state o : json_parse resp = Ret j -> json_find j (str "state") = Some (json_of_string state) ->
  order_base resp o = (Ret tt, with_state state o).
Proof.
  intros Hp Hs. unfold order_base. rewrite Hp, bind_lift. unfold try_log, mcatch. by rewrite (assign_eval _ _ _ _ _ Hs).
Qed.

Lemma basic_eval resp j cmd state : json_parse resp = Ret j ->
  json_find j (str "cmd") = Some (json_of_string cmd) -> json_find j (str "state") = Some (json_of_string state) ->
  exists o, make_order basicOrder resp = Ret o /\ Guiorders.m_cmd o = cmd.
Proof.
  intros Hp Hc Hs. unfold make_order, parse_order, parse_basicOrder.
  set (o := new_order basicOrder). exists (with_state state (with_cmd cmd (with_state state o))).
  rewrite (M_bind_ret _ _ _ _ _ (order_base_eval _ _ _ _ Hp Hs)), Hp.
  unfold mcatch. by rewrite bind_lift, (M_bind_ret _ _ _ _ _ (assign_eval _ _ _ _ _ Hc)), (assign_eval _ _ _ _ _ Hs).
Qed.

Lemma bind_mmodify {St A} (f : St -> St) (g : unit -> M St A) s : (mmodify f ≫= g) s = g tt (f s).
Proof. done. Qed.

(** ** Sending *)

Lemma sent_eval prepare o req (g g1 : gui) : prepare g = (Ret o, g1) -> get_str o = Ret req -> m_id o <> [] ->
  m_orders g1 !! m_id o = None ->
  send_prepared prepare g = (Ret tt, with_orders (<[m_id o := o]> (m_orders g1)) (add_text req g1)).
Proof.
  intros Hp Hr Hid Hn. unfold send_prepared, catch_runtime, mcatch. rewrite (M_bind_ret _ _ _ _ _ Hp).
  rewrite (M_bind_ret _ _ _ tt (add_text req g1)).
  2: { unfold sendNetRequest, catch_runtime, mcatch. by rewrite Hr, bind_lift. }
  unfold addOrder. rewrite bool_decide_eq_false_2 by done. unfold mbind, M_mbind, mget.
  change (m_orders (add_text req g1)) with (m_orders g1). by rewrite Hn.
Qed.

Lemma str_eval o j : o_kind o <> payOrder -> o_kind o <> serverMsg -> json_object (members_of o (default 0 (m_satoshi o))) = Ret j -> get_str o = Ret (json_dump j).
Proof. intros Hk Hs E. unfold get_str. rewrite bool_decide_eq_false_2 by done. destruct (o_kind o); try done; by unfold mbind, outcome_mbind in *; cbn; rewrite E. Qed.

(** The number of the next request. *)
Definition next_id (g : gui) : bytes := m_rpc_name g ++ dec (m_counter g).
Definition counted (g : gui) : gui := with_counter (m_rpc_name g) (u64 (m_counter g + 1)) g.

(** The interface may send: it has its name, and the number is not used. *)
Definition can_send (g : gui) : Prop :=
  m_wait_name_flag g = false /\ m_client_name g <> [] /\ m_rpc_name g <> [] /\ text_ok (m_rpc_name g) /\
  m_orders g !! next_id g = None.

Lemma id_eval (g : gui) : m_rpc_name g <> [] -> getRpcId g = (Ret (next_id g), counted g).
Proof. intros Hn. unfold getRpcId, mbind, M_mbind, mget. by rewrite bool_decide_eq_false_2. Qed.

Lemma peer_command_eval type peer o req (g : gui) : can_send g -> m_id o = next_id g -> get_str o = Ret req ->
  (forall id, id = next_id g -> prepareCommand_peer type peer g = (id ← getRpcId; mret o) g) ->
  sendCommand_peer type peer g = (Ret tt, with_orders (<[next_id g := o]> (m_orders g)) (add_text req (counted g))).
Proof.
  intros (Hw & Hc & Hn & _ & Hf) Hid Hr Hp. unfold sendCommand_peer, mbind at 1, M_mbind at 1, mget. rewrite Hw.
  rewrite (M_bind_ret _ _ _ tt g) by done. rewrite (sent_eval _ o req g (counted g)); rewrite ?Hid; try done.
  - rewrite (Hp _ eq_refl). by rewrite (M_bind_ret _ _ _ _ _ (id_eval g Hn)).
  - unfold next_id. by intros [? _]%app_eq_nil.
Qed.

Lemma next_id_text (g : gui) : can_send g -> text_ok (next_id g).
Proof. intros (_ & _ & _ & Ht & _). unfold next_id. auto with texts. Qed.

(** ** Receiving *)

Ltac assigned := repeat (rewrite bind_lift || (erewrite M_bind_ret by (eapply assign_eval; eassumption)) || (erewrite assign_eval by eassumption)).

Lemma added_order resp msg id re : reply_of resp (str "add_peer") msg (str "ok") id (Some re) ->
  exists o, make_order addPeerOrder resp = Ret o /\ o_kind o = addPeerOrder /\ m_state o = str "ok" /\ m_re o = re /\
    m_executor o = ptr_executor /\ Guiorders.m_peer o = [].
Proof.
  intros (j & Hp & Hj & Hc & Hm & Hs & Hi & Hr & Hn). eexists. split; [|].
  - unfold make_order, parse_order, parse_addPeerOrder.
    rewrite (M_bind_ret _ _ _ _ _ (order_base_eval _ _ _ _ Hp Hs)). unfold parsed, try_log, mcatch. rewrite Hp, bind_lift.
    rewrite bind_mmodify. assigned. unfold mbind, M_mbind, mget. cbn [m_state with_re with_id with_state].
    rewrite bool_decide_eq_true_2 by done. unfold when, assign_peer. rewrite Hn. reflexivity.
  - done.
Qed.

Lemma order_eval re o (g : gui) : m_orders g !! re = Some o -> getOrder re g = (Ret o, with_orders (delete re (m_orders g)) g).
Proof. intros Ho. unfold getOrder, mbind, M_mbind, mget. by rewrite Ho. Qed.

(** A reply to add_peer takes the request it answers from the list of sent
    orders, and its peer is shown. *)
Lemma added_eval resp msg id re o (g : gui) : reply_of resp (str "add_peer") msg (str "ok") id (Some re) ->
  m_orders g !! re = Some o ->
  parseAndExecMsg resp g = (Ret tt, add_window (onPeerAdded (Guiorders.m_peer o)) (with_orders (delete re (m_orders g)) g)).
Proof.
  intros Hrep Ho. destruct (added_order _ _ _ _ Hrep) as (ord & E2 & Hk & Hst & Hre & He & Hpeer).
  destruct Hrep as (j & Hp & Hj & Hc & Hm & Hs & Hi & Hr & Hn). unfold parseAndExecMsg.
  destruct (basic_eval _ _ _ _ Hp Hc Hs) as (o1 & E1 & Ec). rewrite E1, bind_lift, Ec.
  change (kind_of_cmd (str "add_peer")) with (Some addPeerOrder). cbv iota beta. rewrite E2, bind_lift.
  unfold catch_runtime, mcatch, execute_order. rewrite Hk. unfold execute_addPeerOrder. rewrite Hst. change (contains (str "error") (str "ok")) with false. cbv iota.
  unfold getPeerName. rewrite Hpeer, He, Hre. rewrite bool_decide_eq_true_2 by done. cbn [negb].
  rewrite !(M_bind_ret _ _ _ (Guiorders.m_peer o) (with_orders (delete re (m_orders g)) g)); [done|].
  by rewrite (M_bind_ret _ _ _ _ _ (order_eval re o g Ho)).
Qed.

(** A reply to delete_peer without the number of a request shows nothing. *)
Lemma deleted_eval resp msg id (g : gui) : reply_of resp (str "delete_peer") msg (str "ok") id None ->
  m_orders g !! [] = None -> parseAndExecMsg resp g = (Ret tt, g).
Proof.
  intros (j & Hp & Hj & Hc & Hm & Hs & Hi & Hr & Hn) Ho. unfold parseAndExecMsg.
  destruct (basic_eval _ _ _ _ Hp Hc Hs) as (o1 & E1 & Ec). rewrite E1, bind_lift, Ec.
  change (kind_of_cmd (str "delete_peer")) with (Some deletePeerOrder). cbv iota beta.
  assert (exists o, make_order deletePeerOrder resp = Ret o /\ o_kind o = deletePeerOrder /\ m_state o = str "ok" /\ m_re o = [] /\
    m_executor o = ptr_executor /\ Guiorders.m_peer o = []) as (o & E2 & Hk & Hst & Hre & He & Hpeer).
  { eexists. split; [|].
    - unfold make_order, parse_order, parse_deletePeerOrder. unfold parsed, try_log, mcatch. rewrite Hp, bind_lift, bind_mmodify. assigned.
      destruct (assign_missing j (str "re") with_re (with_state (str "ok") (with_msg msg (with_executor ptr_executor (new_order deletePeerOrder)))) Hj Hr) as [e E].
      rewrite E. reflexivity.
    - done. }
  rewrite E2, bind_lift. unfold catch_runtime, mcatch, execute_order. rewrite Hk. unfold execute_deletePeerOrder, state_ok, try_log, mcatch. rewrite Hst.
  rewrite bool_decide_eq_true_2 by done. unfold when, getPeerName. rewrite Hpeer, He, Hre. rewrite bool_decide_eq_true_2 by done.
  cbn [negb]. unfold getOrder. unfold mbind, M_mbind, mget. by rewrite Ho.
Qed.

(** ** With the node *)

Context {Rng : Type} `{!CryptoLib Rng} `{NL : NetLib}.
Context (nonce_default : bytes) (m_port get_balance : Z) (elapsed : Z -> json * json).
Context (NTRU SIDH : bool) (ed_verify ntru_verify : bytes -> bytes -> bytes -> bool) (write_to_tun : bytes -> Z).

Notation node := (@tun_node Rng _).
Notation functions := (rpc_functions (Rng := Rng) nonce_default m_port get_balance elapsed).
Notation commands w := (m_rpc_functions_map (register_rpc (Rng := Rng) nonce_default m_port get_balance elapsed NTRU SIDH ed_verify ntru_verify write_to_tun (new_rpc_server w)).2).
Notation on_node := (on_node (Rng := Rng) nonce_default NTRU SIDH ed_verify ntru_verify write_to_tun).

Definition ret_text (r : rpc_ret) : Prop := text_ok (ret_cmd r) /\ text_ok (ret_msg r) /\ text_ok (ret_state r).

Lemma ret_json_eval r : ret_text r -> exists j, ret_json r = Ret j /\ json_is_object j /\ json_text j /\
  (forall k, k ∉ [str "cmd"; str "msg"; str "state"] -> json_find j k = None) /\
  json_find j (str "cmd") = Some (json_of_string (ret_cmd r)) /\
  json_find j (str "msg") = Some (json_of_string (ret_msg r)) /\
  json_find j (str "state") = Some (json_of_string (ret_state r)).
Proof.
  intros (H1 & H2 & H3).
  set (members := [(str "cmd", json_of_string (ret_cmd r)); (str "msg", json_of_string (ret_msg r)); (str "state", json_of_string (ret_state r))]).
  destruct (written members) as (j & E & Ho & Ht & _ & Hn & Hf).
  - distinct_keys.
  - texts.
  - exists j. split_and!; try done; apply Hf; unfold members; set_solver.
Qed.

(** What the node answers to a request that runs a command of [Tunrpc]. *)
Lemma node_replies name f now rm (n n' : node) req j id c r re w : (name, f) ∈ functions ->
  json_parse req = Ret j -> json_find j (str "cmd") = Some (json_of_string name) ->
  json_find j (str "id") = json_of_string <$> re -> (forall s, re = Some s -> text_ok s) -> ret_text r ->
  (forall jr, ret_json r = Ret jr -> uninterrupted (f now req) n = (Ret jr, n')) ->
  exists resp, answer (commands w) id req (((now, []), (rm, n)), c) = (Ret resp, (((now, []), (rm, n')), c + 1)) /\
    reply_of resp (ret_cmd r) (ret_msg r) (ret_state r) (dec id ++ str "-srv" ++ dec (c + 1)) re.
Proof.
  intros Hin Hp Hc Hid Hre Hr Hf. destruct (ret_json_eval r Hr) as (jr & Ejr & Ho & Ht & Hn & H1 & H2 & H3).
  pose proof (register_lookup nonce_default m_port get_balance elapsed NTRU SIDH ed_verify ntru_verify write_to_tun name f w Hin) as Hl.
  assert (on_node f req ((now, []), (rm, n)) = (Ret jr, ((now, []), (rm, n')))) as Hf' by (unfold Tunjson.on_node, run_rpc; cbn [fst snd map]; by rewrite interrupted_never, (Hf jr Ejr)).
  destruct (answer_eval _ id req j name _ ((now, []), (rm, n)) ((now, []), (rm, n')) jr c Hp Hc Hl Hf' Ho) as (r' & Ea & Ho' & Hk & Hi & Hr' & Ht').
  assert (forall k, k ∉ [str "id"; str "re"] -> json_find r' k = json_find jr k) as Hkeep.
  { intros k [H4 [H5 _]%not_elem_of_cons]%not_elem_of_cons. by apply Hk. }
  exists (json_dump r'). split; [exact Ea|]. exists r'. split; [|split; [exact Ho'|]].
  - apply json_parse_dump, Ht'; [done|]. intros rj Erj. rewrite Hid in Erj. destruct re as [s|]; [|done]. injection Erj as <-.
    by apply json_text_string, Hre.
  - rewrite (Hkeep (str "cmd")), (Hkeep (str "msg")), (Hkeep (str "state")), (Hkeep (str "peer"))
      by (apply (bool_decide_eq_true_1 (_ ∉ _)); vm_compute; reflexivity).
    assert (forall k, bool_decide (k ∉ [str "cmd"; str "msg"; str "state"]) = true -> json_find jr k = None) as Hnone.
    { intros k Hk'. exact (Hn k (bool_decide_eq_true_1 _ Hk')). }
    split; [exact H1|split; [exact H2|split; [exact H3|split; [exact Hi|split]]]]; [|by apply Hnone].
    rewrite Hr', Hid. destruct re; [done|]. by apply Hnone.
Qed.

(** Adding a peer from the interface, if it had its name (which the greeting
    below prevents): the answer of the node to the text it sends makes it show
    the peer and forget the request. *)
Lemma add_peer_shown now rm (n n' : node) w id c peer (g : gui) :
  let peer_ref := getVip peer ++ str "@(udp:" ++ getIp peer ++ str ":9042)" in
  can_send g -> text_ok (getVip peer) -> text_ok (getIp peer) ->
  uninterrupted (rpc_add_peer now peer_ref (str "1.0")) n = (Ret (RpcRet (str "add_peer") (str "ok: Peer added") (str "ok")), n') ->
  exists req g1 resp, sendCommand_peer ADDPEER peer g = (Ret tt, g1) /\ g_sent g1 = g_sent g ++ [req] /\
    answer (commands w) id req (((now, []), (rm, n)), c) = (Ret resp, (((now, []), (rm, n')), c + 1)) /\
    forall g2, m_orders g2 !! next_id g = m_orders g1 !! next_id g ->
      parseAndExecMsg resp g2 = (Ret tt, add_window (onPeerAdded peer_ref) (with_orders (delete (next_id g) (m_orders g2)) g2)).
Proof.
  intros peer_ref Hg Hv Hip Hadd. pose proof (next_id_text g Hg) as Hid.
  set (o := new_addPeerOrder (next_id g) peer).
  destruct (written (members_of o 0)) as (j & E & Ho & Ht & Hp & Hn & Hf); [distinct_keys|texts|].
  - assert (json_find j (str "peer") = Some (json_of_string peer_ref)) as Hjp by (apply Hf; do 3 right; left).
    assert (json_find j (str "format") = Some (json_of_string (str "1.0"))) as Hjf by (apply Hf; do 2 right; left).
    assert (json_find j (str "id") = Some (json_of_string (next_id g))) as Hji by (apply Hf; left).
    assert (json_find j (str "cmd") = Some (json_of_string (str "add_peer"))) as Hjc by (apply Hf; right; left).
    destruct (node_replies (str "add_peer") (rpc_json_add_peer) now rm n n' (json_dump j) j id c
      (RpcRet (str "add_peer") (str "ok: Peer added") (str "ok")) (Some (next_id g)) w) as (resp & Ea & Hrep); try done.
    + unfold rpc_functions. do 3 right. left.
    + by intros s [= <-].
    + unfold ret_text. cbn [ret_cmd ret_msg ret_state]. auto with texts.
    + intros jr Ejr. unfold rpc_json_add_peer. rewrite Hp, s_lift_bind, (json_get_string_find _ _ _ Hjp), s_lift_bind,
        (json_get_string_find _ _ _ Hjf), s_lift_bind, uninterrupted_bind, bind_eq, Hadd. by rewrite Ejr.
    + exists (json_dump j). eexists. exists resp. split; [|split; [|split; [exact Ea|]]].
      * apply (peer_command_eval ADDPEER peer o); [done|done| |].
        { by apply str_eval. }
        { intros i ->. unfold prepareCommand_peer, mbind at 1, M_mbind at 1, mget. rewrite bool_decide_eq_false_2 by apply Hg.
          rewrite (M_bind_ret _ _ _ tt g) by done. by rewrite !(M_bind_ret _ _ _ _ _ (id_eval g ltac:(apply Hg))). }
      * done.
      * intros g2 Hg2. rewrite (added_eval resp (str "ok: Peer added") _ (next_id g) o g2 Hrep); [done|].
        rewrite Hg2. cbn. by rewrite lookup_insert_eq.
Qed.

(** Deleting a peer is never shown: the request does not carry the number
    it is filed under, so the answer of the node carries none, and the
    interface neither shows anything nor forgets the request. *)
Lemma delete_peer_not_shown now rm (n n' : node) w id c peer (g : gui) :
  can_send g -> text_ok (getVip peer) ->
  uninterrupted (rpc_delete_peer (getVip peer)) n = (Ret (RpcRet (str "delete_peer") (str "ok: Peer deleted") (str "ok")), n') ->
  exists req g1 resp, sendCommand_peer DELETEPEER peer g = (Ret tt, g1) /\ g_sent g1 = g_sent g ++ [req] /\
    answer (commands w) id req (((now, []), (rm, n)), c) = (Ret resp, (((now, []), (rm, n')), c + 1)) /\
    forall g2, m_orders g2 !! [] = None -> parseAndExecMsg resp g2 = (Ret tt, g2).
Proof.
  intros Hg Hv Hdel. set (o := new_deletePeerOrder (next_id g) peer).
  destruct (written (members_of o 0)) as (j & E & Ho & Ht & Hp & Hn & Hf); [distinct_keys|texts|].
  assert (json_find j (str "peer") = Some (json_of_string (getVip peer))) as Hjp by (apply Hf; right; left).
  assert (json_find j (str "id") = None) as Hji by (apply Hn, (bool_decide_eq_true_1 (_ ∉ _)); vm_compute; reflexivity).
  assert (json_find j (str "cmd") = Some (json_of_string (str "delete_peer"))) as Hjc by (apply Hf; left).
  destruct (node_replies (str "delete_peer") (fun _ => rpc_json_delete_peer) now rm n n' (json_dump j) j id c
    (RpcRet (str "delete_peer") (str "ok: Peer deleted") (str "ok")) None w) as (resp & Ea & Hrep); try done.
  - unfold rpc_functions. do 4 right. left.
  - unfold ret_text. cbn [ret_cmd ret_msg ret_state]. auto with texts.
  - intros jr Ejr. unfold rpc_json_delete_peer, input_string. rewrite Hp, s_lift_bind, (json_get_string_find _ _ _ Hjp), s_lift_bind.
    rewrite uninterrupted_bind, bind_eq, Hdel. by rewrite Ejr.
  - exists (json_dump j). eexists. exists resp. split; [|split; [|split; [exact Ea|]]].
    + apply (peer_command_eval DELETEPEER peer o); [done|done|by apply str_eval|].
      intros i ->. unfold prepareCommand_peer, mbind at 1, M_mbind at 1, mget. rewrite bool_decide_eq_false_2 by apply Hg.
      rewrite (M_bind_ret _ _ _ tt g) by done. by rewrite !(M_bind_ret _ _ _ _ _ (id_eval g ltac:(apply Hg))).
    + done.
    + intros g2 Hg2. by eapply deleted_eval.
Qed.

Lemma greeted_eval resp j id (g : gui) : json_parse resp = Ret j -> json_is_object j ->
  json_find j (str "cmd") = Some (json_of_string (str "hello")) -> json_find j (str "state") = Some (json_of_string (str "ok")) ->
  json_find j (str "id") = Some (json_of_string id) -> json_find j (str "account_address") = None ->
  parseAndExecMsg resp g = (Undef, g).
Proof.
  intros Hp Hj Hc Hs Hi Ha. unfold parseAndExecMsg. destruct (basic_eval _ _ _ _ Hp Hc Hs) as (o1 & E1 & Ec).
  rewrite E1, bind_lift, Ec. change (kind_of_cmd (str "hello")) with (Some getClientName). cbv iota beta.
  assert (exists o, make_order getClientName resp = Ret o /\ o_kind o = getClientName /\ m_state o = str "ok" /\
    own_executor o = ptr_uninitialised) as (o & E2 & Hk & Hst & He).
  { eexists. split; [|].
    - unfold make_order, parse_order, parse_getClientName. unfold parsed, try_log, mcatch. rewrite Hp, bind_lift. assigned.
      unfold mbind at 1, M_mbind at 1, mget. cbn [m_state with_id with_state]. rewrite bool_decide_eq_true_2 by done. unfold when.
      destruct (assign_missing j (str "account_address") with_account
        (with_id id (with_state (str "ok") (new_order getClientName))) Hj Ha) as [e E].
      rewrite bind_eq, E. reflexivity.
    - done. }
  rewrite E2, bind_lift. unfold catch_runtime, mcatch, execute_order. rewrite Hk. unfold execute_getClientName, state_ok. rewrite Hst, bool_decide_eq_true_2 by done.
  unfold when. by rewrite He.
Qed.

(** C19: the interface does not survive the greeting of the node: the first
    request it sends is "hello", before it has a name; the answer of the node,
    whatever the main loop does meanwhile, has no member "account_address", so
    the pointer through which the reply is executed is read without ever being
    set, whatever the interface has done since. *)
Theorem greeting_is_undefined now between rm (n : node) w id c :
  exists req g1 resp, startCommunication new_gui = (Ret tt, g1) /\ g_sent g1 = [req] /\
    answer (commands w) id req (((now, between), (rm, n)), c) = (Ret resp, (((now, between), (rm, n)), c + 1)) /\
    forall g2, parseAndExecMsg resp g2 = (Undef, g2).
Proof.
  set (o := new_getClientName).
  destruct (written (members_of o 0)) as (j & E & Ho & Ht & Hp & Hn & Hf); [distinct_keys|texts|].
  assert (json_find j (str "cmd") = Some (json_of_string (str "hello"))) as Hjc by (apply Hf; left).
  destruct (written [(str "cmd", json_of_string (str "hello")); (str "state", json_of_string (str "ok"))])
    as (jr & Er & Hor & Htr & _ & Hnr & Hfr); [distinct_keys|texts|].
  assert (forall k, bool_decide (k ∉ [str "cmd"; str "state"]) = true -> json_find jr k = None) as Hnone.
  { intros k Hk'. exact (Hnr k (bool_decide_eq_true_1 _ Hk')). }
  pose proof (register_lookup nonce_default m_port get_balance elapsed NTRU SIDH ed_verify ntru_verify write_to_tun (str "hello")
    (fun _ _ => r ← rpc_hello; s_lift (ret_json_short r)) w) as Hl.
  destruct (answer_eval _ id (json_dump j) j (str "hello") _ ((now, between), (rm, n)) ((now, between), (rm, n)) jr c Hp Hjc (Hl ltac:(do 10 right; left)))
    as (r' & Ea & Ho' & Hk & Hi & _ & Ht').
  - exact (f_equal (fun x => (x, ((now, between), (rm, n)))) Er).
  - done.
  - exists (json_dump j). eexists. exists (json_dump r'). split; [|split; [|split; [exact Ea|]]].
    + unfold startCommunication. rewrite (M_bind_ret _ _ _ o new_gui) by done.
      rewrite (M_bind_ret _ _ _ tt (add_text (json_dump j) new_gui)); [done|].
      unfold sendNetRequest, catch_runtime, mcatch. by rewrite (str_eval o j ltac:(done) ltac:(done) E), bind_lift.
    + done.
    + intros g2. apply (greeted_eval _ r' (dec id ++ str "-srv" ++ dec (c + 1))); [|exact Ho'|..].
      * apply json_parse_dump, Ht'; [done|]. intros re. by rewrite Hn by (apply (bool_decide_eq_true_1 (_ ∉ _)); vm_compute; reflexivity).
      * rewrite Hk by done. apply Hfr. left.
      * rewrite Hk by done. apply Hfr. right; left.
      * exact Hi.
      * rewrite Hk by done. by apply Hnone.
Qed.
End Facts.

(** ** A concrete interface and node *)

#[local] Existing Instance toy_lib.
#[local] Existing Instance toy_net.
#[local] Existing Instance toy_json_lib.

Lemma greeting_is_undefined_witness : exists req g1 resp, startCommunication new_gui = (Ret tt, g1) /\ g_sent g1 = [req] /\
  parseAndExecMsg resp g1 = (Undef, g1).
Proof.
  destruct (@greeting_is_undefined _ toy_json_laws _ _ _ [] 9042 0 (fun _ => (json_null, json_null)) true true (fun _ _ _ => true) (fun _ _ _ => true)
    (fun x => zlen x) 3 [] toy_rm toy_node1 toy_world 1 499) as (req & g1 & resp & H1 & H2 & _ & H3).
  exists req, g1, resp. split; [exact H1|split; [exact H2|exact (H3 g1)]].
Defined.
