(* ===== verification/ForwardFacts.v ===== *)
(** * What a node sends

    Theorems about routing and forwarding ([Tunpackets.v]): a packet makes a
    node send at most one tunneled datagram, or one query per peer, the TTL
    bounds the hops of a datagram, the recursion of the router ends. *)
From S2P Require Import Prelude Serialize SerializeFacts Cryptobasic Multikeys MultikeysFacts Crypto Peering.
From S2P Require Import PeeringFacts Routing RoutingFacts Peerref Tunserver Tunpackets Tunrpc TunpacketsFacts.
From S2P Require Import CryptoFacts Toy.

(** A datagram with a findhip query. *)
Definition is_query (d : c_ip46_addr * bytes) : Prop :=
  exists rest, d.2 = [byte_of_Z current_version; cmd_byte e_proto_cmd_findhip_query] ++ rest.

Section Facts.
Context {Rng : Type} `{!CryptoLib Rng} `{NL : NetLib}.
Context (nonce_default : bytes) (write_to_tun : bytes -> Z).
#[local] Existing Instance tun_galaxy_node.

Notation node := (@tun_node Rng _).
Notation state := (c_routing_manager * node)%type.

(** ** Commands to all peers *)

Lemma send_cmd_cases cmd data dst out : (send_data_udp_cmd cmd data dst out) =
  match dst with
  | tag_none => (Throw ex_runtime_error, out)
  | _ => (Ret tt, out ++ [(dst, [byte_of_Z current_version; cmd_byte cmd] ++ data)])
  end.
Proof. by destruct dst. Qed.

Lemma with_udp_out_same n : with_udp_out (m_udp_out n) n = n.
Proof. by destruct n. Qed.

Lemma mfor_send_cases cmd data (l : list (c_haship_addr * c_peering)) n :
  exists q, (mfor l (fun v => on_udp (send_data_udp_cmd cmd data (m_peering_addr v.2))) n).2
      = with_udp_out (m_udp_out n ++ q) n /\
    Forall (fun d => d.2 = [byte_of_Z current_version; cmd_byte cmd] ++ data) q /\ (length q <= length l)%nat /\
    (mfor l (fun v => on_udp (send_data_udp_cmd cmd data (m_peering_addr v.2))) n).1 <> Undef.
Proof.
  revert n. induction l as [|[k p] l IH]; intros n; cbn [mfor].
  - exists []. rewrite app_nil_r, with_udp_out_same. by split_and!.
  - unfold mbind, M_mbind, on_udp at 1. rewrite send_cmd_cases. cbn [snd].
    destruct (m_peering_addr p) as [|a port|a port]; cbn [fst snd].
    + exists []. rewrite app_nil_r. split_and!; [done|constructor|simpl; lia|done].
    + destruct (IH (with_udp_out (m_udp_out n ++ [(tag_ipv4 a port, [byte_of_Z current_version; cmd_byte cmd] ++ data)]) n)) as (q & E & Hq & Hl & Hu).
      eexists (_ :: q). rewrite E. cbn. rewrite <- app_assoc. split_and!; [done|by constructor|simpl; lia|done].
    + destruct (IH (with_udp_out (m_udp_out n ++ [(tag_ipv6 a port, [byte_of_Z current_version; cmd_byte cmd] ++ data)]) n)) as (q & E & Hq & Hl & Hu).
      eexists (_ :: q). rewrite E. cbn. rewrite <- app_assoc. split_and!; [done|by constructor|simpl; lia|done].
Qed.

Lemma peers_in_order_length (n : node) : length (peers_in_order n) = size (m_peer n).
Proof.
  unfold peers_in_order. rewrite (Permutation_length (map_items_Permutation string_le (m_peer n))).
  by rewrite length_map_to_list.
Qed.

(** What may be sent while looking for a route: at most one query per peer. *)
Definition queries (s s' : state) : Prop := exists q,
  s'.2 = with_udp_out (m_udp_out s.2 ++ q) s.2 /\ Forall is_query q /\ (length q <= size (m_peer s.2))%nat.

Lemma queries_none rm s : queries s (rm, s.2).
Proof. exists []. rewrite app_nil_r, with_udp_out_same. split_and!; [done|constructor|simpl; lia]. Qed.

Lemma queries_refl s : queries s s.
Proof. destruct s as [rm n]. apply (queries_none rm (rm, n)). Qed.

Lemma get_peer_eval addr (n : node) : get_peer_with_hip_ addr false n =
  (match m_peer n !! addr with Some p => Ret p | None => Throw ex_expected_not_found end, n).
Proof. unfold get_peer_with_hip_, mbind, M_mbind, mget. by destruct (m_peer n !! addr). Qed.

(** Looking for a direct peer does not touch the node. *)
Lemma direct_route_pure now dst (s : state) : (direct_route now dst s).2.2 = s.2 /\ (direct_route now dst s).1 <> Undef.
Proof.
  destruct (direct_route now dst s) as [o s'] eqn:E.
  unfold direct_route, mcatch, mbind at 1, M_mbind at 1, on_snd in E.
  change (get_peer_with_hip dst false) with (get_peer_with_hip_ dst false : M node c_peering) in E.
  rewrite get_peer_eval in E. cbn [fst snd]. destruct (m_peer s.2 !! dst) as [peer|]; [|by injection E as <- <-].
  destruct (m_pubkey peer); [|by injection E as <- <-].
  unfold on_fst, add_route_info_and_return, mbind, M_mbind, mget, mput, mret, M_mret in E. cbn [fst snd] in E.
  by destruct (m_route_nexthop s.1 !! dst); injection E as <- <-.
Qed.

Lemma execute_sends now dst rs (s : state) : (execute now dst rs s).1 <> Undef /\ queries s (execute now dst rs s).2.
Proof.
  destruct (execute now dst rs s) as [o s'] eqn:E. cbn [fst snd].
  unfold execute, massert, oassert, mlift, mbind, M_mbind, on_snd in E. cbn [fst snd] in E.
  destruct (_ =? _) in E; [|injection E as <- <-; split; [done|apply queries_refl]].
  set (data := search_query _ _) in E.
  change (nodep2p_foreach_cmd e_proto_cmd_findhip_query data s.2)
    with (mfor (peers_in_order s.2) (fun v => on_udp (send_data_udp_cmd e_proto_cmd_findhip_query data (m_peering_addr v.2))) s.2) in E.
  destruct (mfor_send_cases e_proto_cmd_findhip_query data (peers_in_order s.2) s.2) as (q & E2 & Hq & Hl & Hu).
  rewrite peers_in_order_length in Hl.
  assert (forall rm, queries s (rm, with_udp_out (m_udp_out s.2 ++ q) s.2)) as Hqs.
  { intros rm. exists q. split_and!; [done| |done]. eapply Forall_impl; [exact Hq|]. intros d Hd. by exists data. }
  destruct (mfor _ _ s.2) as [[[]|e| |] n2]; cbn [fst snd on_fst mmodify] in *; subst n2; injection E as <- <-;
    (split; [done|apply Hqs]).
Qed.

(** Looking for a route returns without sending, or sends queries only. *)
Lemma get_route_sends now dst reason ttl (s : state) :
  let r := get_route_or_maybe_search now dst reason true ttl s in
  r.1 <> Undef /\ ((exists route, r.1 = Ret route /\ r.2.2 = s.2) \/ ((forall route, r.1 <> Ret route) /\ queries s r.2)).
Proof.
  intros r. destruct r as [o s'] eqn:E. unfold r in E. clear r. cbn [fst snd].
  unfold get_route_or_maybe_search, mbind at 1, M_mbind at 1 in E.
  destruct (direct_route_pure now dst s) as [Hp Hu].
  assert (forall rm, queries s (rm, s.2)) as Hnone by (intros rm; apply queries_none).
  destruct (direct_route now dst s) as [[[route|]|e| |] [rm n]]; cbn [fst snd] in *; subst n; try done.
  - injection E as <- <-. split; [done|]. left. by exists route.
  - unfold mbind at 1, M_mbind at 1, on_fst at 1, mget in E. cbn [fst snd] in E.
    destruct (m_route_nexthop rm !! dst) as [route|]; [injection E as <- <-; split; [done|left; by exists route]|].
    cbn [negb] in E. unfold mbind at 1, M_mbind at 1 in E. destruct (m_search rm !! dst) as [s0|].
    { cbn in E. injection E as <- <-. split; [done|]. right. split; [done|]. apply Hnone. }
    set (ns := add_request now reason ttl (new_route_search dst ttl)) in E.
    unfold mbind at 1, M_mbind at 1, on_fst at 1, mput in E. cbn [fst snd] in E.
    set (rm2 := set_search _ rm) in E. destruct (execute_sends now dst ns (rm2, s.2)) as [Hu2 Hq].
    destruct (execute now dst ns (rm2, s.2)) as [[[]|e| |] s2]; cbn [fst snd] in *; injection E as <- <-;
      (split; [done|right; by split]).
  - injection E as <- <-. split; [done|]. right. split; [done|]. apply Hnone.
  - injection E as <- <-. split; [done|]. right. split; [done|]. apply Hnone.
Qed.
(** ** Programs that are never stuck *)

Definition defined {St A} (m : M St A) : Prop := forall s, (m s).1 <> Undef.

Lemma defined_bind {St A B} (m : M St A) (f : A -> M St B) : defined m -> (forall a, defined (f a)) -> defined (m ≫= f).
Proof.
  intros Hm Hf s. specialize (Hm s). unfold mbind, M_mbind. destruct (m s) as [[a|e| |] s1]; try done. apply Hf.
Qed.
Lemma defined_modify {St} (f : St -> St) : defined (mmodify f).
Proof. by intros s. Qed.
Lemma defined_lift {St A} (o : outcome A) : o <> Undef -> defined (mlift o : M St A).
Proof. intros Ho s. exact Ho. Qed.
Lemma defined_throw_if {St} b e : defined (mthrow_if b e : M St unit).
Proof. apply defined_lift. by destruct b. Qed.
Lemma defined_assert {St} b : defined (massert b : M St unit).
Proof. apply defined_lift. by destruct b. Qed.

Lemma defined_octets n divider value : defined (push_octets n divider value).
Proof.
  revert divider. induction n as [|n IH]; intros divider; [by intros s|]. cbn [push_octets].
  apply defined_bind; [apply defined_assert|intros _]. apply defined_bind; [apply defined_modify|intros _; apply IH].
Qed.

Lemma defined_integer S value : defined (push_integer_u S value).
Proof. apply defined_bind; [destruct (S =? 8)%nat; apply defined_throw_if|intros _; apply defined_octets]. Qed.

Lemma defined_bytes n data : defined (push_bytes_n n data).
Proof. apply defined_bind; [apply defined_assert|intros _; apply defined_modify]. Qed.

Lemma defined_varstring data : defined (push_varstring data).
Proof.
  apply defined_bind; [|intros _; apply defined_bytes]. unfold push_integer_uvarint.
  repeat case_match; try (apply defined_bind; [apply defined_modify|intros _]); apply defined_integer.
Qed.

Lemma gen_str_defined m : defined m -> gen_str m <> Undef.
Proof. intros Hm. specialize (Hm []). unfold gen_str. by destruct (m []) as [[]?]. Qed.

Lemma tunneled_datagram_defined src dst ttl nonce data : tunneled_datagram src dst ttl nonce data <> Undef.
Proof.
  unfold tunneled_datagram. apply gen_str_defined.
  repeat (apply defined_bind; [apply defined_modify || apply defined_bytes|intros _]). apply defined_varstring.
Qed.

(** ** Sending to a peer *)

Lemma on_peer_send now data src dst ttl nonce k p (n : node) : m_peer n !! k = Some p ->
  exists o p' t, on_peer k (send_data_udp now data src dst ttl nonce) n
      = (o, with_udp_out (m_udp_out n ++ t) (with_peers (<[k := p']> (m_peer n)) n)) /\ o <> Undef /\
    (t = [] \/ exists d, tunneled_datagram src dst ttl nonce data = Ret d /\ t = [(m_peering_addr p, d)]).
Proof.
  intros Hp. unfold on_peer. rewrite Hp. unfold send_data_udp, mbind, M_mbind, mlift.
  pose proof (tunneled_datagram_defined src dst ttl nonce data) as Hd.
  destruct (tunneled_datagram src dst ttl nonce data) as [d|e| |]; try done.
  - cbn. destruct (m_peering_addr p) as [|a port|a port] eqn:Ea; cbn.
    + eexists _, _, []. rewrite app_nil_r. split_and!; [done|done|by left].
    + eexists _, _, _. split_and!; [done|done|right]. eauto.
    + eexists _, _, _. split_and!; [done|done|right]. eauto.
  - eexists _, _, []. rewrite app_nil_r. split_and!; [done|done|by left].
  - eexists _, _, []. rewrite app_nil_r. split_and!; [done|done|by left].
Qed.
(** ** The router *)

Section Route.
Context (now : Z) (buff : bytes) (src_hip dst_hip : c_haship_addr) (reason : c_route_reason) (ttl : Z) (nonce : bytes).

(** What routing may send: nothing, queries, or the data to one peer. *)
Definition routed (s s' : state) : Prop := m_tun_out s'.2 = m_tun_out s.2 /\
  exists out, m_udp_out s'.2 = m_udp_out s.2 ++ out /\
    (out = [] \/ (Forall is_query out /\ (length out <= size (m_peer s.2))%nat) \/
     (0 < ttl /\ exists k p d, m_peer s.2 !! k = Some p /\
        tunneled_datagram src_hip dst_hip ttl nonce buff = Ret d /\ out = [(m_peering_addr p, d)])).

Lemma routed_refl s : routed s s.
Proof. split; [done|]. exists []. rewrite app_nil_r. by split; [|left]. Qed.

Lemma routed_queries s s' : queries s s' -> routed s s'.
Proof. intros (q & E & Hq & Hl). unfold routed. rewrite E. split; [done|]. exists q. split; [done|]. right; left. by split. Qed.

Lemma routed_same s1 s s2 : s1.2 = s.2 -> routed s1 s2 -> routed s s2.
Proof. unfold routed. by intros ->. Qed.

(** Effects and definedness together. *)
Definition routes (s : state) (r : outcome bool * state) (enough_fuel : Prop) : Prop :=
  routed s r.2 /\ (enough_fuel -> r.1 <> Undef).

Lemma route_detail_sends fuel : forall next level s,
  routes s (route_detail fuel now buff src_hip dst_hip next reason level ttl nonce s) (2 <= Z.of_nat fuel + level).
Proof.
  induction fuel as [|fuel IH]; intros next level s; cbn [route_detail].
  all: destruct (ttl <=? 0) eqn:Et; [by split; [apply routed_refl|]|]; zbool.
  all: unfold mbind at 1, M_mbind at 1, on_snd at 1, mget; cbn [fst snd].
  all: rewrite <- surjective_pairing; case_bool_decide; [by split; [apply routed_refl|]|].
  all: destruct (m_peer s.2 !! next) as [p|] eqn:Ep.
  1, 3: unfold mbind, M_mbind, on_snd;
    destruct (on_peer_send now buff src_hip dst_hip ttl nonce next p s.2 Ep) as (o & p' & t & E & Ho & Ht);
    rewrite E; assert (routed s (s.1, with_udp_out (m_udp_out s.2 ++ t) (with_peers (<[next:=p']> (m_peer s.2)) s.2))) as Hr
      by (split; [done|]; exists t; split; [done|]; destruct Ht as [->|(d & Ed & ->)]; [by left|right; right; split; [lia|by exists next, p, d]]);
    by destruct o; split.
  all: destruct (1 <? level) eqn:El; [by split; [apply routed_refl|]|]; zbool.
  all: unfold mbind at 1, M_mbind at 1, mcatch, mbind at 1, M_mbind at 1.
  all: destruct (get_route_sends now next reason ttl_max_accepted s) as [Hu [(route & Er & En)|[Hn Hq]]].
  all: destruct (get_route_or_maybe_search now next reason true ttl_max_accepted s) as [[r|e| |] s1]; cbn [fst snd] in *; try done;
    try (by split; [apply routed_queries|]); try (by destruct (Hn r)).
  - split; [apply (routed_same s1); [done|apply routed_refl]|lia].
  - destruct (IH (ri_nexthop r) (level + 1) s1) as [H1 H2]. split; [by apply (routed_same s1)|]. intros Hf. apply H2. lia.
Qed.

Lemma route_top_sends s :
  routed s (route_top now buff src_hip dst_hip reason ttl nonce s).2 /\
  (route_top now buff src_hip dst_hip reason ttl nonce s).1 <> Undef.
Proof.
  unfold route_top. destruct (ttl <=? 0); [by split; [apply routed_refl|]|]. unfold mcatch.
  destruct (route_detail_sends 2 dst_hip 0 s) as [H1 H2]. specialize (H2 ltac:(lia)).
  by destruct (route_detail 2 now buff src_hip dst_hip dst_hip reason 0 ttl nonce s) as [[]?].
Qed.

Lemma route_detail_fuel f : forall f' next level s, 2 <= Z.of_nat f + level -> 2 <= Z.of_nat f' + level ->
  route_detail f now buff src_hip dst_hip next reason level ttl nonce s
  = route_detail f' now buff src_hip dst_hip next reason level ttl nonce s.
Proof.
  induction f as [|f IH]; intros f' next level s Hf Hf'; destruct f' as [|f']; cbn [route_detail]; try done.
  all: destruct (ttl <=? 0); [done|]; apply M_bind_ext; intros n s1; case_bool_decide; [done|].
  all: destruct (m_peer n !! next); [done|]; destruct (1 <? level) eqn:El; [done|]; zbool; try lia.
  apply M_bind_ext. intros [via|] s2; [|done]. apply IH; lia.
Qed.
End Route.

(** ** Tunneled data of others *)

(** The lengths of what was parsed. *)
Lemma pop_bytes_n_length n p s p' : wf_parser p -> 0 <= n -> pop_bytes_n n p = (Ret s, p') -> zlen s = n /\ wf_parser p'.
Proof.
  intros Hp Hn E. split.
  - destruct p as [d i]. rewrite pop_bytes_n_eval in E by (done || apply Hp).
    unfold wf_parser, m_data_end in Hp. cbn in Hp. revert E. case_bool; [|done]. intros [= <- _]. zbool. apply zlen_sub; lia.
  - change p' with (Ret s, p').2. rewrite <- E. by apply reads_safely_wf; [apply pop_bytes_n_safe|].
Qed.

Lemma wf_after {A} (m : M parser A) p o p' : m p = (o, p') -> reads_safely m -> wf_parser p -> wf_parser p'.
Proof. intros E Hm Hp. change p' with (o, p').2. rewrite <- E. by apply reads_safely_wf. Qed.

Lemma haship_lift {St} a b (s s' : St) : mlift (haship_of_bin a) s = (Ret b, s') -> b = a /\ s' = s.
Proof.
  unfold mlift, haship_of_bin, othrow_if. destruct (negb _); [done|]. by intros [= <- <-].
Qed.

Lemma pop_varstring_length p s p' : wf_parser p -> pop_varstring p = (Ret s, p') -> zlen s <= SANE_MAX_SIZE_FOR_STRING.
Proof.
  intros Hp E. apply M_bind_inv in E as (size & p1 & E1 & E).
  pose proof (wf_after _ _ _ _ E1 pop_integer_uvarint_safe Hp) as Hw.
  assert (0 <= size) as Hs by (eapply pop_integer_uvarint_nonneg; by rewrite E1).
  apply M_bind_inv in E as ([] & p2 & E2 & E). unfold massert, mlift, oassert in E2.
  destruct (size <=? SANE_MAX_SIZE_FOR_STRING) eqn:El; [|done]. zbool. injection E2 as <-.
  apply pop_bytes_n_length in E as [-> _]; done.
Qed.

Lemma parse_tunneled_lengths buf src dst ttl nonce blob :
  (parse_tunneled (parser_of_buffer buf)).1 = Ret (src, dst, ttl, nonce, blob) ->
  zlen src = 16 /\ zlen dst = 16 /\ 0 <= ttl < 256 /\ zlen nonce = 24 /\ zlen blob <= SANE_MAX_SIZE_FOR_STRING.
Proof.
  intros E. destruct (parse_tunneled (parser_of_buffer buf)) as [o pe] eqn:Ep. cbn in E. subst o.
  assert (wf_parser (parser_of_buffer buf)) as Hw by (unfold wf_parser, m_data_end; cbn; pose proof (zlen_nonneg buf); lia).
  unfold parse_tunneled in Ep. revert Hw Ep. generalize (parser_of_buffer buf). intros p0 Hw Ep.
  apply M_bind_inv in Ep as ([] & p1 & E1 & Ep). apply wf_after in E1; [|by apply skip_bytes_n_safe|done].
  apply M_bind_inv in Ep as (src1 & p2 & E2 & Ep). apply pop_bytes_n_length in E2 as [L2 W2]; [|done..].
  apply M_bind_inv in Ep as (src2 & p3 & E3 & Ep). apply haship_lift in E3 as [-> ->].
  apply M_bind_inv in Ep as (dst1 & p4 & E4 & Ep). apply pop_bytes_n_length in E4 as [L4 W4]; [|done..].
  apply M_bind_inv in Ep as (dst2 & p5 & E5 & Ep). apply haship_lift in E5 as [-> ->].
  apply M_bind_inv in Ep as (b & p6 & E6 & Ep). apply wf_after in E6; [|apply pop_byte_u_safe|done].
  apply M_bind_inv in Ep as (nonce1 & p7 & E7 & Ep). apply pop_bytes_n_length in E7 as [L7 W7]; [|done..].
  apply M_bind_inv in Ep as (blob1 & p8 & E8 & Ep). injection Ep as -> -> <- -> -> _.
  split_and!; [done|done|apply byte_val_range..|done|].
  by eapply pop_varstring_length.
Qed.

Lemma forward_ttl_spec ttl : forward_ttl ttl = Z.min 5 (ttl - 1).
Proof. unfold forward_ttl, ttl_max_accepted. case_bool; zbool; lia. Qed.

(** Data for another node: the router does the sending. *)
Lemma forward_routed now sender buf s src dst req nonce blob :
  (parse_tunneled (parser_of_buffer buf)).1 = Ret (src, dst, req, nonce, blob) -> dst <> m_my_hip s.2 ->
  let r := handle_tunneled_data nonce_default write_to_tun now sender buf s in
  r.1 <> Undef /\ routed blob src dst (forward_ttl req) nonce s r.2 /\
  (sender_limit_points s.2 sender < 0 -> r.2 = s).
Proof.
  intros Hp Hd r. destruct s as [rm n]. cbn [snd] in *.
  assert (r = if sender_limit_points n sender <? 0 then (Ret tt, (rm, n)) else
    (_ ← route_top now blob src dst (RouteReason src e_search_mode_route_other_packet) (forward_ttl req) nonce; mret tt) (rm, n)) as ->.
  { unfold r, handle_tunneled_data. unfold mbind at 1, M_mbind at 1, mlift. rewrite Hp.
    unfold mbind at 1, M_mbind at 1, on_snd, mget. cbn [fst snd]. rewrite bool_decide_eq_false_2 by done.
    by destruct (sender_limit_points n sender <? 0). }
  destruct (sender_limit_points n sender <? 0) eqn:El; zbool.
  { split_and!; [done|apply routed_refl|done]. }
  destruct (route_top_sends now blob src dst (RouteReason src e_search_mode_route_other_packet) (forward_ttl req) nonce (rm, n)) as [H1 H2].
  unfold mbind, M_mbind. destruct (route_top _ _ _ _ _ _ _ _) as [[b|e| |] s1]; (split_and!; [done|done|lia]).
Qed.
End Facts.

(** ** Hops *)

Section Hops.
Context {Rng : Type} `{!CryptoLib Rng} `{NL : NetLib}.

(** Some node, handling [d], which is not for it, sends [d'] as tunneled data. *)
Definition forwards (d d' : bytes) : Prop :=
  exists (nonce_default : bytes) (write_to_tun : bytes -> Z) (s : c_routing_manager * @tun_node Rng _) now sender fields out addr,
    (parse_tunneled (parser_of_buffer d)).1 = Ret fields /\ fields.1.1.1.2 <> m_my_hip s.2 /\
    m_udp_out (handle_tunneled_data nonce_default write_to_tun now sender d s).2.2 = m_udp_out s.2 ++ out /\
    (addr, d') ∈ out /\ d' !! 1%nat = Some (cmd_byte e_proto_cmd_tunneled_data).

(** [n] nodes pass on a datagram that starts as [d] and ends as [d']. *)
Inductive forward_chain : nat -> bytes -> bytes -> Prop :=
  | chain_start d : forward_chain 0 d d
  | chain_hop n d d' d2 : forwards d d' -> forward_chain n d' d2 -> forward_chain (S n) d d2.

Lemma forwards_ttl d d' : forwards d d' -> exists src dst req nonce blob,
  (parse_tunneled (parser_of_buffer d)).1 = Ret (src, dst, req, nonce, blob) /\ 0 < forward_ttl req /\
  (parse_tunneled (parser_of_buffer d')).1 = Ret (src, dst, forward_ttl req, nonce, blob).
Proof.
  intros (nd & wt & s & now & sender & [[[[src dst] req] nonce] blob] & out & addr & Hp & Hd & Ho & Hin & Hc). cbn in Hd.
  destruct (forward_routed nd wt now sender d s src dst req nonce blob Hp Hd) as (_ & (_ & out2 & Ho2 & Hr) & _).
  rewrite Ho in Ho2. apply (inj (app (m_udp_out s.2))) in Ho2 as <-.
  exists src, dst, req, nonce, blob. split; [done|].
  destruct Hr as [->|[[Hq _]|(Ht & k & p & d2 & _ & Ed & ->)]].
  - by apply not_elem_of_nil in Hin.
  - rewrite Forall_forall in Hq. destruct (Hq _ Hin) as [rest E]. cbn [snd] in E. subst d'. discriminate Hc.
  - apply list_elem_of_singleton in Hin as [= -> ->]. split; [done|].
    destruct (parse_tunneled_lengths d src dst req nonce blob Hp) as (L1 & L2 & L3 & L4 & L5).
    rewrite tunneled_datagram_eval in Ed by (done || (unfold SANE_MAX_SIZE_FOR_STRING in L5; lia)). injection Ed as <-.
    pose proof (pops_tunneled Byte.x01 Byte.x02 src dst (forward_ttl req) nonce blob L1 L2 L4 L5 [] []) as P.
    cbn [app] in P. rewrite app_nil_r in P. unfold parser_of_buffer. cbn [app].
    rewrite zlen_nil in P. rewrite P. cbn [fst]. rewrite forward_ttl_spec in *. by rewrite Z.mod_small by lia.
Qed.

Lemma forward_chain_ttl n d d' : forward_chain n d d' -> forall src dst req nonce blob,
  (parse_tunneled (parser_of_buffer d)).1 = Ret (src, dst, req, nonce, blob) -> Z.of_nat n <= Z.max 0 (Z.min 5 (req - 1)).
Proof.
  induction 1 as [d|n d d1 d2 Hf Hc IH]; intros src dst req nonce blob Hp; [lia|].
  destruct (forwards_ttl _ _ Hf) as (src1 & dst1 & req1 & nonce1 & blob1 & Hp1 & Ht & Hp2).
  rewrite Hp in Hp1. injection Hp1 as <- <- <- <- <-. specialize (IH _ _ _ _ _ Hp2). rewrite forward_ttl_spec in *. lia.
Qed.
End Hops.

(** ** Properties *)

Section Properties.
Context {Rng : Type} `{!CryptoLib Rng} `{NL : NetLib}.
Context (nonce_default : bytes) (write_to_tun : bytes -> Z).
Notation state := (c_routing_manager * @tun_node Rng _)%type.

(** C8: tunneled data that is not for the node is forwarded without
    amplification: the node sends nothing, or at most one findhip query per
    peer, or exactly one datagram, to one peer, with the same addresses, nonce
    and data and the TTL lowered to min(5, TTL - 1); it sends nothing when
    the TTL was at most 1 or the sender is out of limit points, and never
    writes to the TUN device. *)
Theorem forwarding_bounded now sender buf (s : state) src dst req nonce blob :
  (parse_tunneled (parser_of_buffer buf)).1 = Ret (src, dst, req, nonce, blob) -> dst <> m_my_hip s.2 ->
  let s' := (handle_tunneled_data nonce_default write_to_tun now sender buf s).2 in
  m_tun_out s'.2 = m_tun_out s.2 /\
  exists out, m_udp_out s'.2 = m_udp_out s.2 ++ out /\
    (out = [] \/ (Forall is_query out /\ (length out <= size (m_peer s.2))%nat) \/
     (exists k p d, m_peer s.2 !! k = Some p /\ out = [(m_peering_addr p, d)] /\
        tunneled_datagram src dst (Z.min 5 (req - 1)) nonce blob = Ret d)) /\
    (req <= 1 \/ sender_limit_points s.2 sender < 0 -> out = []).
Proof.
  intros Hp Hd s'. destruct (forward_routed nonce_default write_to_tun now sender buf s src dst req nonce blob Hp Hd)
    as (_ & (Ht & out & Eo & Hr) & Hl). fold s' in Ht, Eo, Hl. split; [done|]. exists out. split; [done|].
  assert (req <= 1 \/ sender_limit_points s.2 sender < 0 -> out = []) as Hnone.
  { intros [Hq|Hq].
    - assert (s' = s \/ s' = s) as [Es|Es]; [|rewrite Es in Eo..].
      + left. unfold s'. destruct s as [rm n]. cbn [snd] in *. unfold handle_tunneled_data.
        unfold mbind at 1, M_mbind at 1, mlift. rewrite Hp.
        unfold mbind at 1, M_mbind at 1, on_snd, mget. cbn [fst snd]. rewrite bool_decide_eq_false_2 by done.
        destruct (sender_limit_points n sender <? 0); [done|]. unfold mbind, M_mbind, route_top.
        by rewrite (proj2 (Z.leb_le (forward_ttl req) 0)) by (rewrite forward_ttl_spec; lia).
      + apply (f_equal length) in Eo. rewrite length_app in Eo. destruct out; [done|simpl in Eo; lia].
      + apply (f_equal length) in Eo. rewrite length_app in Eo. destruct out; [done|simpl in Eo; lia].
    - rewrite (Hl Hq) in Eo. apply (f_equal length) in Eo. rewrite length_app in Eo. destruct out; [done|simpl in Eo; lia]. }
  split; [|done]. destruct Hr as [->|[Hq|(_ & k & p & d & Hk & Ed & ->)]]; [by left|by right; left|].
  right; right. exists k, p, d. by rewrite forward_ttl_spec in Ed.
Qed.

(** C24: whatever nodes it meets and whoever sent it, tunneled data is forwarded
    at most 5 times, and fewer times than the TTL it was sent with. *)
Theorem forward_chain_bounded n (d d' : bytes) : forward_chain (Rng := Rng) n d d' ->
  (n <= 5)%nat /\ forall src dst req nonce blob,
    (parse_tunneled (parser_of_buffer d)).1 = Ret (src, dst, req, nonce, blob) -> Z.of_nat n <= Z.max 0 (req - 1).
Proof.
  intros Hc. split.
  - inversion Hc as [|n1 d0 d1 d2 Hf _]; subst; [lia|].
    destruct (forwards_ttl _ _ Hf) as (src & dst & req & nonce & blob & Hp & _).
    pose proof (forward_chain_ttl _ _ _ Hc _ _ _ _ _ Hp). lia.
  - intros src dst req nonce blob Hp. pose proof (forward_chain_ttl _ _ _ Hc _ _ _ _ _ Hp). lia.
Qed.

(** C29: the router's recursion over next hops ends within two calls of itself,
    whatever the routing tables say (loops included): from the fuel 2 on, more
    fuel changes nothing and the fuel is never used up. *)
Theorem route_recursion_ends k now buff src dst reason ttl nonce (s : state) :
  let run fuel := route_detail fuel now buff src dst dst reason 0 ttl nonce s in
  run (2 + k)%nat = run 2%nat /\ (run (2 + k)%nat).1 <> Undef.
Proof.
  intros run. unfold run. rewrite (route_detail_fuel now buff src dst reason ttl nonce (2 + k) 2 dst 0 s) by lia.
  split; [done|]. apply (route_detail_sends now buff src dst reason ttl nonce 2 dst 0 s). lia.
Qed.
End Properties.

(** ** At concrete nodes *)

#[local] Existing Instance toy_lib.
#[local] Existing Instance toy_net.

Definition toy_data (ttl : Z) : bytes :=
  match tunneled_datagram (toy_hip (str "X")) (toy_hip (str "C")) ttl (replicate 24 Byte.x00) (str "data") with Ret d => d | _ => [] end.

Definition toy_middle : c_routing_manager * @tun_node Z toy_lib := (toy_rm, toy_node (str "A") {[ toy_hip (str "C") := toy_peer (str "C") ]}).

Lemma forwarding_bounded_witness : exists out,
  m_udp_out (handle_tunneled_data [] (fun _ => 0) 5 (toy_hip (str "B")) (toy_data 9) toy_middle).2.2 = out /\
  bool_decide (out = [(toy_addr (str "C"), toy_data 5)]) = true /\ (9 <= 1 -> out = []).
Proof.
  assert ((parse_tunneled (parser_of_buffer (toy_data 9))).1
    = Ret (toy_hip (str "X"), toy_hip (str "C"), 9, replicate 24 Byte.x00, str "data")) as Hp by (vm_compute; reflexivity).
  assert (toy_hip (str "C") <> m_my_hip toy_middle.2) as Hd by (vm_compute; discriminate).
  destruct (forwarding_bounded [] (fun _ => 0) 5 (toy_hip (str "B")) (toy_data 9) toy_middle _ _ _ _ _ Hp Hd)
    as (_ & out & E & _ & Hn).
  exists out. split; [exact E|]. split; [|intros Hq; apply Hn; by left].
  assert (m_udp_out (handle_tunneled_data [] (fun _ => 0) 5 (toy_hip (str "B")) (toy_data 9) toy_middle).2.2
    = [(toy_addr (str "C"), toy_data 5)]) as E2 by (vm_compute; reflexivity).
  rewrite E2 in E. change (m_udp_out toy_middle.2) with (@nil (c_ip46_addr * bytes)) in E. cbn [app] in E. subst out.
  by apply bool_decide_eq_true.
Defined.

Lemma forward_chain_bounded_witness :
  forward_chain (Rng := Z) 1 (toy_data 2) (toy_data 1) /\ Z.of_nat 1 <= Z.max 0 (2 - 1).
Proof.
  assert ((parse_tunneled (parser_of_buffer (toy_data 2))).1
    = Ret (toy_hip (str "X"), toy_hip (str "C"), 2, replicate 24 Byte.x00, str "data")) as Hp by (vm_compute; reflexivity).
  assert (forward_chain (Rng := Z) 1 (toy_data 2) (toy_data 1)) as Hc.
  { eapply chain_hop; [|apply chain_start].
    exists [], (fun _ => 0), toy_middle, 5, (toy_hip (str "B")), (toy_hip (str "X"), toy_hip (str "C"), 2, replicate 24 Byte.x00, str "data"),
      [(toy_addr (str "C"), toy_data 1)], (toy_addr (str "C")).
    split_and!; [exact Hp|vm_compute; discriminate|vm_compute; reflexivity|by left|vm_compute; reflexivity]. }
  split; [exact Hc|]. exact (proj2 (forward_chain_bounded 1 (toy_data 2) (toy_data 1) Hc) _ _ _ _ _ Hp).
Defined.
