(* ===== verification/AuthFacts.v ===== *)
(** * Who can make a node do what

    Theorems about the datagrams of [Tunpackets.v]: senders that are no peers,
    the signed "hi", and what reaches the TUN device. *)
From S2P Require Import Prelude Serialize SerializeFacts Hexstr Cryptobasic Multikeys MultikeysFacts Crypto.
From S2P Require Import Peering PeeringFacts Routing RoutingFacts Peerref Tunserver Tunpackets Tunrpc TunpacketsFacts.
From S2P Require Import ForwardFacts CryptoFacts Toy.

Section Facts.
Context {Rng : Type} `{!CryptoLib Rng} `{NL : NetLib}.
Context (NTRU SIDH : bool).
Context (ed_verify ntru_verify : bytes -> bytes -> bytes -> bool).
Context (nonce_default : bytes) (write_to_tun : bytes -> Z).
#[local] Existing Instance tun_galaxy_node.

Notation node := (@tun_node Rng _).
Notation state := (c_routing_manager * node)%type.
Notation turn := (event_turn NTRU SIDH ed_verify ntru_verify nonce_default write_to_tun).
Notation command := (handle_cmd NTRU SIDH ed_verify ntru_verify nonce_default write_to_tun).

(** ** Recognizing the sender *)

Lemma ip_eq_true a b : ip_eq a b = Ret true -> a = b.
Proof.
  destruct a as [|a p|a p], b as [|b q|b q]; cbn; try done; intros [= E]; apply andb_true_iff in E as [E1 E2];
    apply bool_decide_eq_true in E1; apply Z.eqb_eq in E2; by subst.
Qed.

Lemma ip_eq_result a b : (exists x, ip_eq a b = Ret x) \/ ip_eq a b = Throw ex_invalid_argument.
Proof. destruct a, b; cbn; eauto. Qed.

(** Found: a peer with that address.  Not found: an exception. *)
Lemma find_peer_loop_spec l ip :
  match find_peer_loop l ip with
  | Ret k => exists p, (k, p) ∈ l /\ m_peering_addr p = ip
  | Throw _ => True
  | _ => False
  end.
Proof.
  induction l as [|[k p] l IH]; [done|]. cbn [find_peer_loop].
  destruct (ip_eq_result (m_peering_addr p) ip) as [[x E]|E]; unfold mbind, outcome_mbind; rewrite E; cbn [outcome_bind]; [|done].
  assert (match find_peer_loop l ip with Ret k0 => exists p0, (k0, p0) ∈ (k, p) :: l /\ m_peering_addr p0 = ip
    | Throw _ => True | _ => False end) as Hrest.
  { destruct (find_peer_loop l ip); try done. destruct IH as (p0 & Hin & Ha). exists p0. split; [by right|done]. }
  destruct x; cbn [andb]; [|done]. destruct (_ =? _); [|done]. apply ip_eq_true in E. exists p. split; [by left|done].
Qed.

Lemma peers_in_order_in (n : node) k p : (k, p) ∈ peers_in_order n -> m_peer n !! k = Some p.
Proof.
  unfold peers_in_order. rewrite (map_items_Permutation string_le (m_peer n)). apply elem_of_map_to_list.
Qed.

(** The address of no peer. *)
Definition stranger (n : node) (ip : c_ip46_addr) : Prop := forall k p, m_peer n !! k = Some p -> m_peering_addr p <> ip.

Lemma stranger_not_found n ip : stranger n ip -> exists e, find_peer_by_sender_peering_addr ip n = (Throw e, n).
Proof.
  intros Hs. unfold find_peer_by_sender_peering_addr, mbind, M_mbind, mget, mlift.
  pose proof (find_peer_loop_spec (peers_in_order n) ip) as Hf.
  destruct (find_peer_loop (peers_in_order n) ip) as [k|e| |]; try done; [|by exists e].
  destruct Hf as (p & Hin & Ha). apply peers_in_order_in in Hin. by destruct (Hs k p Hin).
Qed.

(** Recognizing a sender changes the counters of one peer only. *)
Lemma recognize_effect now ip size (s : state) :
  let s' := (recognize_sender now ip size s).2 in
  s'.1 = s.1 /\ m_tun_out s'.2 = m_tun_out s.2 /\ m_tunnel s'.2 = m_tunnel s.2 /\ m_my_hip s'.2 = m_my_hip s.2.
Proof.
  destruct s as [rm n]. destruct (recognize_sender now ip size (rm, n)) as [o s'] eqn:E. cbn [fst snd].
  unfold recognize_sender, mbind at 1, M_mbind at 1, on_snd at 1 in E. cbn [fst snd] in E.
  unfold find_peer_by_sender_peering_addr, mbind at 1, M_mbind at 1, mget at 1, mlift in E.
  destruct (find_peer_loop (peers_in_order n) ip) as [k|e| |]; [|by injection E as <- <-..].
  unfold mbind at 1, M_mbind at 1, on_snd at 1, on_peer in E. cbn [fst snd] in E.
  destruct (m_peer n !! k) as [p|]; [|by injection E as <- <-].
  unfold mbind, M_mbind in E. cbn in E. rewrite lookup_insert_eq in E.
  by injection E as <- <-.
Qed.

(** ** The TUN device *)

(** What a datagram may write: [t], the packet under the header. *)
Record tun_write (n : node) (src : c_haship_addr) (nonce blob t : bytes) : Prop := {
  tw_decrypted : exists ct clear, m_tunnel n !! src = Some ct /\ (unbox_ab_nonce blob nonce ct).1 = Ret clear /\
    string_erase t header_position_of_dst g_haship_addr_size = Ret clear;
  tw_source : sub t header_position_of_src 16 = src;
  tw_destination : sub t header_position_of_dst 16 = m_my_hip n;
  tw_protocol : exists c, t !! 6%nat = Some c /\ signed_char c ∈ m_supported_ip_protocols
}.

Lemma string_insert_spec s pos d t : 0 <= pos -> string_insert s pos d = Ret t ->
  t = take (Z.to_nat pos) s ++ d ++ drop (Z.to_nat pos) s /\ pos <= zlen s.
Proof. intros Hp. unfold string_insert, othrow_if. case_bool; [done|]. intros [= <-]. by zbool. Qed.

Lemma check_protocol_spec s : check_ip_protocol s = Ret true -> exists c, s !! 6%nat = Some c /\ signed_char c ∈ m_supported_ip_protocols.
Proof.
  unfold check_ip_protocol, get_ip_protocol_number, at_, mbind, outcome_mbind.
  change (0 <=? header_position_of_ip_protocol_type) with true.
  change (Z.to_nat header_position_of_ip_protocol_type) with 6%nat.
  destruct (s !! 6%nat) as [c|]; [|done]. cbn [outcome_bind]. intros [= E]. apply bool_decide_eq_true in E. by exists c.
Qed.

Lemma check_source_spec a s : check_packet_source_address a s = Ret true -> sub s header_position_of_src 16 = a.
Proof.
  unfold check_packet_source_address, check_packet_address, othrow_if, oassert, mbind, outcome_mbind.
  repeat (case_bool; cbn [outcome_bind]; try done). intros [= E]. by apply bool_decide_eq_true in E.
Qed.

(** The packet with our address inserted, taken apart again. *)
Lemma inserted_parts clear d t : zlen d = 16 -> string_insert clear header_position_of_dst d = Ret t ->
  sub t header_position_of_dst 16 = d /\ string_erase t header_position_of_dst g_haship_addr_size = Ret clear /\
  t !! 6%nat = clear !! 6%nat.
Proof.
  intros Hd E. apply string_insert_spec in E as [-> Hl]; [|done]. unfold header_position_of_dst, g_haship_addr_size in *.
  change (Z.to_nat 24) with 24%nat.
  assert (zlen (take 24 clear) = 24) as Ht by (unfold zlen in *; rewrite length_take; lia).
  split_and!.
  - rewrite <- Hd, <- Ht at 1. apply sub_app_exact.
  - unfold string_erase, othrow_if. rewrite !zlen_app, Ht, (proj2 (Z.ltb_ge _ 24)) by (pose proof (zlen_nonneg d); pose proof (zlen_nonneg (drop 24 clear)); lia).
    unfold mbind, outcome_mbind. cbn [outcome_bind]. f_equal. change (Z.to_nat (24 + 16)) with (24 + 16)%nat. change (Z.to_nat 24) with 24%nat.
    assert (length (take 24 clear) = 24)%nat as Hn by (unfold zlen in Ht; lia).
    assert (length d = 16)%nat as Hn2 by (unfold zlen in Hd; lia).
    rewrite take_app_le by lia. rewrite (take_ge (take 24 clear)) by lia.
    rewrite <- drop_drop. rewrite <- Hn at 2. rewrite drop_app_length, <- Hn2, drop_app_length. by rewrite take_drop.
  - rewrite lookup_app_l by (unfold zlen in Ht; lia). by rewrite lookup_take_lt by lia.
Qed.

(** What [handle_for_us] writes. *)
Lemma for_us_writes now src dst req nonce blob (s : state) : dst = m_my_hip s.2 -> zlen dst = 16 ->
  let s' := (handle_for_us nonce_default write_to_tun now src dst req nonce blob s).2 in
  m_tun_out s'.2 = m_tun_out s.2 \/
  exists t, m_tun_out s'.2 = m_tun_out s.2 ++ [tun_header ++ t] /\ tun_write s.2 src nonce blob t.
Proof.
  intros Hdst Hlen. destruct s as [rm n]. cbn [fst snd] in *.
  destruct (handle_for_us nonce_default write_to_tun now src dst req nonce blob (rm, n)) as [o s'] eqn:E. cbn [snd].
  unfold handle_for_us, mbind at 1, M_mbind at 1, on_snd at 1, mget in E. cbn [fst snd] in E.
  destruct (m_tunnel n !! src) as [ct|] eqn:Ect.
  2: { left. pose proof (route_top_sends now [] dst src own_reason req nonce_default (rm, n)) as [[Ht _] _].
       unfold mbind, M_mbind in E. destruct (route_top _ _ _ _ _ _ _ _) as [[b|e| |] s1]; by injection E as <- <-. }
  unfold mbind at 1, M_mbind at 1, on_snd at 1, on_tunnel in E. cbn [fst snd] in E. rewrite Ect in E.
  destruct (unbox_ab_nonce blob nonce ct) as [[clear|e| |] ct'] eqn:Eu; try (left; by injection E as <- <-).
  unfold mbind at 1, M_mbind at 1, mlift at 1 in E.
  destruct (check_ip_protocol clear) as [[|]|e| |] eqn:Ep; try (left; by injection E as <- <-).
  unfold mbind at 1, M_mbind at 1, mlift at 1 in E.
  destruct (string_insert clear header_position_of_dst dst) as [t|e| |] eqn:Ei; try (left; by injection E as <- <-).
  unfold mbind at 1, M_mbind at 1, mlift at 1 in E.
  destruct (check_packet_source_address src t) as [[|]|e| |] eqn:Es; try (left; by injection E as <- <-).
  right. exists t. apply inserted_parts in Ei as (H1 & H2 & H3); [|done]. split.
  - unfold mbind, M_mbind, mthrow_if, othrow_if, mlift, on_snd, mmodify in E. cbn in E.
    repeat case_match; injection E as <- <-; done.
  - split; [exists ct, clear; by rewrite Eu|by apply check_source_spec|congruence|].
    rewrite H3. by apply check_protocol_spec.
Qed.

Lemma tunneled_writes now sender buf (s : state) :
  let s' := (handle_tunneled_data nonce_default write_to_tun now sender buf s).2 in
  m_tun_out s'.2 = m_tun_out s.2 \/
  exists src req nonce blob t, (parse_tunneled (parser_of_buffer buf)).1 = Ret (src, m_my_hip s.2, req, nonce, blob) /\
    m_tun_out s'.2 = m_tun_out s.2 ++ [tun_header ++ t] /\ tun_write s.2 src nonce blob t.
Proof.
  intros s'. destruct ((parse_tunneled (parser_of_buffer buf)).1) as [[[[[src dst] req] nonce] blob]|e| |] eqn:Ep.
  2-4: left; unfold s', handle_tunneled_data, mbind at 1, M_mbind at 1, mlift; by rewrite Ep.
  destruct (decide (dst = m_my_hip s.2)) as [Hd|Hd].
  - assert (s' = (handle_for_us nonce_default write_to_tun now src dst req nonce blob s).2) as ->.
    { unfold s', handle_tunneled_data, mbind at 1, M_mbind at 1, mlift. rewrite Ep.
      destruct s as [rm n]. unfold mbind at 1, M_mbind at 1, on_snd, mget. cbn [fst snd] in *. by rewrite bool_decide_eq_true_2. }
    destruct (parse_tunneled_lengths _ _ _ _ _ _ Ep) as (_ & L & _).
    destruct (for_us_writes now src dst req nonce blob s Hd L) as [H1|(t & H1 & H2)]; [by left|right].
    exists src, req, nonce, blob, t. by rewrite <- Hd.
  - left. by destruct (forward_routed nonce_default write_to_tun now sender buf s src dst req nonce blob Ep Hd) as (_ & [H1 _] & _).
Qed.

Lemma tun_out_closed o : packet_closed (fun n : node => m_tun_out n = o).
Proof. by split. Qed.

Lemma turn_state now ev s : (turn now ev s).2 = (handle_event NTRU SIDH ed_verify ntru_verify nonce_default write_to_tun now ev s).2.
Proof. unfold event_turn, mcatch. by destruct (handle_event _ _ _ _ _ _ _ _ s) as [[[]|e| |] s']. Qed.

(** A recognized sender is a peer. *)
Lemma recognize_peer now ip size s k hip s' : recognize_sender now ip size s = (Ret (k, hip), s') ->
  exists p, m_peer s.2 !! k = Some p /\ m_peering_addr p = ip.
Proof.
  destruct s as [rm n]. unfold recognize_sender. intros E. apply M_bind_inv in E as (k1 & s1 & E1 & E).
  unfold on_snd, find_peer_by_sender_peering_addr, mbind, M_mbind, mget, mlift in E1. cbn [fst snd] in E1.
  pose proof (find_peer_loop_spec (peers_in_order n) ip) as Hf.
  destruct (find_peer_loop (peers_in_order n) ip) as [k2|e| |]; try done. injection E1 as <- <-.
  destruct Hf as (p & Hin & Ha). exists p. split; [|done]. apply peers_in_order_in in Hin.
  apply M_bind_inv in E as ([] & s2 & _ & E). apply M_bind_inv in E as (n3 & s3 & _ & E).
  destruct (m_peer n3 !! k2); [|done]. by injection E as <- <- <-.
Qed.

(** The paths of a datagram. *)
Lemma udp_paths now ip buf s :
  let s' := (handle_udp NTRU SIDH ed_verify ntru_verify nonce_default write_to_tun now ip buf s).2 in
  s' = s \/
  exists c cmd, buf !! 1%nat = Some c /\ int_to_cmd c = Ret cmd /\
    ((command_is_valid_from_unknown_peer cmd = true /\ s' = (command now cmd ip haship_zero haship_zero buf s).2) \/
     (command_is_valid_from_unknown_peer cmd = false /\
      let '(o, s1) := recognize_sender now ip (zlen buf) s in
      s' = match o with Ret (k, hip) => (command now cmd ip k hip buf s1).2 | _ => s1 end)).
Proof.
  intros s'. unfold s'. clear s'. destruct (handle_udp _ _ _ _ _ _ _ _ _ s) as [o s'] eqn:E. cbn [snd].
  destruct buf as [|version [|cmd_octet buf]]; [left; by injection E as <- <-..|]. cbn [handle_udp] in E.
  unfold mbind at 1, M_mbind at 1, mthrow_if, othrow_if, mlift at 1 in E.
  destruct (current_version <? byte_val version); [left; by injection E as <- <-|].
  unfold mbind at 1, M_mbind at 1, mlift at 1 in E.
  destruct (int_to_cmd cmd_octet) as [cmd|e| |] eqn:Ec; [|left; by injection E as <- <-..].
  right. exists cmd_octet, cmd. split; [done|]. split; [done|].
  destruct (command_is_valid_from_unknown_peer cmd); cbn [negb] in E; [left; by rewrite E|right]. split; [done|].
  unfold mbind, M_mbind in E. destruct (recognize_sender now ip _ s) as [[[k hip]|e| |] s1]; [by rewrite E|by injection E as <- <-..].
Qed.

(** ** The signed "hi" *)

(** [n'] differs from [n] at most in the peer and the tunnel filed under [k]
    (and in the state of the random generator). *)
Record only_at (k : c_haship_addr) (n n' : node) : Prop := {
  oa_peers k' : k' <> k -> m_peer n' !! k' = m_peer n !! k';
  oa_tunnels k' : k' <> k -> m_tunnel n' !! k' = m_tunnel n !! k';
  oa_out : m_udp_out n' = m_udp_out n /\ m_tun_out n' = m_tun_out n;
  oa_rest : m_peer_black_list n' = m_peer_black_list n /\ m_my_hip n' = m_my_hip n /\ m_my_prefix n' = m_my_prefix n
}.

Lemma only_at_refl k n : only_at k n n.
Proof. by split. Qed.

Lemma only_at_trans k n1 n2 n3 : only_at k n1 n2 -> only_at k n2 n3 -> only_at k n1 n3.
Proof.
  intros [P1 T1 [U1 O1] (B1 & H1 & X1)] [P2 T2 [U2 O2] (B2 & H2 & X2)]. split; [..|split|split_and!]; try congruence.
  - intros k' Hk. by rewrite P2, P1.
  - intros k' Hk. by rewrite T2, T1.
Qed.

Lemma only_at_peer k p (n : node) : only_at k n (with_peers (<[k := p]> (m_peer n)) n).
Proof. split; try done. intros k' Hk. cbn. by rewrite lookup_insert_ne. Qed.

Lemma update_peer_quiet now ref pk p out : (update_peer now ref pk (p, out)).2.2 = out.
Proof.
  unfold update_peer, mbind, M_mbind, on_fst, mmodify, mget, mlift. cbn.
  destruct (ip_eq (m_peering_addr p) (peering_addr ref)) as [[]|e| |]; done.
Qed.

Lemma append_effect now ref pk (n : node) :
  (add_peer_append_pubkey now ref pk n).2 = n \/
  exists k, (haship_of_pubkey Hash1 pk).1 = Ret k /\ only_at k n (add_peer_append_pubkey now ref pk n).2.
Proof.
  destruct (add_peer_append_pubkey now ref pk n) as [o n'] eqn:E. cbn [snd]. unfold add_peer_append_pubkey in E.
  destruct (haship_of_pubkey Hash1 pk) as [[hip|e| |] pk1]; [|left; by injection E as <- <-..].
  unfold mbind at 1, M_mbind at 1, mlift at 1 in E. cbn [fst].
  unfold mbind at 1, M_mbind at 1, mthrow_if, othrow_if, mlift at 1 in E.
  destruct (bool_decide (hip = haship_addr ref)) eqn:Eh; cbn [negb] in E; [|left; by injection E as <- <-].
  apply bool_decide_eq_true in Eh as ->. right. exists (haship_addr ref). split; [done|].
  unfold mbind at 1, M_mbind at 1, mget at 1 in E.
  destruct (m_peer n !! haship_addr ref) as [p|] eqn:Ep.
  - unfold mbind at 1, M_mbind at 1, on_peer in E. rewrite Ep in E.
    pose proof (update_peer_quiet now ref pk1 p (m_udp_out n)) as Hq.
    destruct (update_peer now ref pk1 (p, m_udp_out n)) as [ou [p' out]]. cbn in Hq. subst out.
    assert (only_at (haship_addr ref) n (with_udp_out (m_udp_out n) (with_peers (<[haship_addr ref:=p']> (m_peer n)) n))) as Hoa
      by exact (only_at_peer _ p' n).
    destruct ou as [[]|e| |]; [|by injection E as <- <-..].
    unfold mbind, M_mbind, mget in E. repeat case_match; by injection E as <- <-.
  - unfold mbind at 1, M_mbind at 1 in E. destruct (negb _); cbn [when mput mret M_mret] in E;
      unfold mbind, M_mbind, mget in E; repeat case_match; injection E as <- <-; (apply only_at_peer || apply only_at_refl).
Qed.

(** The address computed by the two constructors. *)
Lemma haship_of_pubkey_bin pk bin : (get_ipv6_string_bin Hash1 pk).1 = Ret bin -> zlen bin = 16 ->
  (haship_of_pubkey Hash1 pk).1 = Ret bin.
Proof.
  intros E Hl. unfold haship_of_pubkey, mbind, M_mbind, mlift.
  destruct (get_ipv6_string_bin Hash1 pk) as [o pk1]. cbn in E. subst o. cbn [fst].
  do 16 (destruct bin as [|? bin]; [discriminate Hl|]). destruct bin; [done|].
  rewrite !zlen_cons in Hl. pose proof (zlen_nonneg bin). lia.
Qed.

Lemma add_tunnel_effect pk (n : node) :
  (add_tunnel_to_pubkey NTRU SIDH pk n).2 = n \/
  exists k, (haship_of_pubkey Hash1 pk).1 = Ret k /\ only_at k n (add_tunnel_to_pubkey NTRU SIDH pk n).2.
Proof.
  destruct (add_tunnel_to_pubkey NTRU SIDH pk n) as [o n'] eqn:E. cbn [snd]. unfold add_tunnel_to_pubkey in E.
  pose proof (haship_of_pubkey_bin pk) as Hbin.
  destruct (get_ipv6_string_bin Hash1 pk) as [[bin|e| |] pk1]; [|left; by injection E as <- <-..]. cbn [fst] in Hbin.
  unfold mbind at 1, M_mbind at 1, mlift at 1 in E. unfold mbind at 1, M_mbind at 1, mlift at 1 in E.
  unfold haship_of_bin, othrow_if in E. destruct (g_haship_addr_size =? zlen bin) eqn:El; cbn [negb mbind outcome_mbind outcome_bind] in E;
    [|left; by injection E as <- <-].
  zbool. right. exists bin. split; [by apply Hbin|].
  unfold mbind at 1, M_mbind at 1, mget at 1 in E. destruct (m_tunnel n !! bin) as [ct|]; [injection E as <- <-; apply only_at_refl|].
  unfold mbind, M_mbind, on_rng, mmodify in E.
  destruct (new_tunnel _ _ _ _ _ (m_rng n)) as [[ct|e| |] r]; injection E as <- <-; try (by split).
  split; try done. intros k' Hk. cbn. by rewrite lookup_insert_ne.
Qed.

(** Writing the address as text only caches the hash. *)
Lemma haship_after_hexdot pk :
  (haship_of_pubkey Hash1 (get_ipv6_string_hexdot Hash1 pk).2).1 = (haship_of_pubkey Hash1 pk).1.
Proof.
  assert ((get_ipv6_string_hexdot Hash1 pk).2 = (haship_of_pubkey Hash1 pk).2) as ->; [|apply haship_of_pubkey_again].
  unfold get_ipv6_string_hexdot, get_ipv6_string_hex, haship_of_pubkey, mbind, M_mbind, mlift, mret, M_mret.
  destruct (get_ipv6_string_bin Hash1 pk) as [[bin|e| |] pk1]; try done. by destruct (hex_of_bin bin).
Qed.

(** What a "hi" proves: the keys [idc] are signed by the identity [idi], whose
    address is [k]. *)
Definition hi_proof (prefix idc idi sig : bytes) (k : c_haship_addr) : Prop :=
  exists his_IDI his_sig, load_pubkey idi prefix = Ret his_IDI /\
    multisign_load_from_bin sig new_multisign = (Ret tt, his_sig) /\
    multi_sign_verify NTRU ed_verify ntru_verify his_sig idc (pub_keys his_IDI) = Ret tt /\
    (haship_of_pubkey Hash1 his_IDI).1 = Ret k.

Lemma accept_effect now ip idc idi sig (s : state) :
  let s' := (accept_hi NTRU SIDH ed_verify ntru_verify now ip idc idi sig s).2 in
  s' = s \/ exists k, hi_proof (m_my_prefix s.2) idc idi sig k /\ s'.1 = s.1 /\ only_at k s.2 s'.2.
Proof.
  destruct s as [rm n]. cbn [snd fst].
  destruct (accept_hi NTRU SIDH ed_verify ntru_verify now ip idc idi sig (rm, n)) as [o s'] eqn:E. cbn [snd].
  unfold accept_hi, mbind at 1, M_mbind at 1, on_snd at 1, mget in E. cbn [fst snd] in E.
  unfold mbind at 1, M_mbind at 1, mlift at 1 in E.
  destruct (load_pubkey idi (m_my_prefix n)) as [his|e| |] eqn:Ei; [|left; by injection E as <- <-..].
  unfold mbind at 1, M_mbind at 1, mlift at 1 in E.
  destruct (multisign_load_from_bin sig new_multisign) as [[[]|e| |] hs] eqn:Es; [|left; by injection E as <- <-..].
  unfold mbind at 1, M_mbind at 1, mlift at 1 in E.
  destruct (multi_sign_verify NTRU ed_verify ntru_verify hs idc (pub_keys his)) as [[]|e| |] eqn:Ev; [|left; by injection E as <- <-..].
  unfold mbind at 1, M_mbind at 1, mlift at 1 in E. pose proof (haship_after_hexdot his) as Hh.
  destruct (get_ipv6_string_hexdot Hash1 his) as [odot his2]. cbn [snd] in Hh.
  unfold mbind at 1, M_mbind at 1, mlift at 1 in E. destruct odot as [dot|e| |]; [|left; by injection E as <- <-..].
  unfold mbind at 1, M_mbind at 1, mlift at 1 in E. destruct (peering_reference ip dot) as [ref|e| |]; [|left; by injection E as <- <-..].
  unfold mbind at 1, M_mbind at 1, on_snd at 1 in E. cbn [fst snd] in E.
  pose proof (append_effect now ref his2 n) as Ha. rewrite Hh in Ha.
  pose proof (add_tunnel_effect his) as Ht.
  assert (forall n1, s' = (rm, n1) -> n1 = n \/ (exists k, (haship_of_pubkey Hash1 his).1 = Ret k /\ only_at k n n1) ->
    s' = (rm, n) \/ exists k, hi_proof (m_my_prefix n) idc idi sig k /\ s'.1 = rm /\ only_at k n s'.2) as Hend.
  { intros n1 -> [->|(k & Hk & Ho)]; [by left|right]. exists k. split; [by exists his, hs|done]. }
  destruct (add_peer_append_pubkey now ref his2 n) as [[[]|e| |] n1]; cbn [snd] in Ha; [|apply (Hend n1); [by injection E as <- <-|done]..].
  unfold mbind, M_mbind, mlift, on_snd in E. cbn [fst snd] in E.
  specialize (Ht n1). destruct (add_tunnel_to_pubkey NTRU SIDH his n1) as [ot n2]. injection E as <- <-. cbn [snd] in Ht.
  apply (Hend n2); [done|]. destruct Ht as [->|(k2 & Hk2 & Ho2)]; [done|right].
  exists k2. split; [done|]. destruct Ha as [->|(k & Hk & Ho)]; [done|].
  assert (k = k2) as -> by congruence. by eapply only_at_trans.
Qed.

(** ** Properties *)

(** C7: the TUN device is only ever written by tunneled data from a known
    peer's address, addressed to this node, for which a tunnel to the claimed
    source exists and whose cryptographic unboxing with that tunnel
    succeeded; the packet is the decrypted text with this node's address put
    back as the destination, its IPv6 source is the claimed source, and its
    protocol is TCP, UDP or ICMPv6.  Nothing else (packets of the device,
    other commands, the timer) writes to it. *)
Theorem tun_writes_authenticated now ev (s : state) :
  let s' := (turn now ev s).2 in
  m_tun_out s'.2 = m_tun_out s.2 \/
  exists ip buf k p src req nonce blob t,
    ev = ev_udp ip buf /\ m_peer s.2 !! k = Some p /\ m_peering_addr p = ip /\
    (parse_tunneled (parser_of_buffer buf)).1 = Ret (src, m_my_hip s.2, req, nonce, blob) /\
    m_tun_out s'.2 = m_tun_out s.2 ++ [tun_header ++ t] /\ tun_write s.2 src nonce blob t.
Proof.
  intros s'. unfold s'. rewrite turn_state. clear s'.
  assert (forall s : state, packet_closed (fun n : node => m_tun_out n = m_tun_out s.2)) as HP by (intros; apply tun_out_closed).
  destruct ev as [|packet|ip buf]; cbn [handle_event].
  - left. by apply (preserves_on_snd _ _ (preserves_ping _ (HP s) now) s).
  - left. by apply (preserves_handle_tun nonce_default _ (HP s) now packet s).
  - pose proof (preserves_cmd NTRU SIDH ed_verify ntru_verify nonce_default write_to_tun) as Hcmd.
    destruct (udp_paths now ip buf s) as [->|(c & cmd & _ & _ & [[Hv ->]|[Hv Hr]])]; [by left| |].
    { left. apply (Hcmd _ (HP s)); [by intros ->|done]. }
    pose proof (recognize_effect now ip (zlen buf) s) as (_ & R2 & R3 & R4).
    pose proof (recognize_peer now ip (zlen buf) s) as Hrec.
    destruct (recognize_sender now ip (zlen buf) s) as [[[k hip]|e| |] s1]; rewrite Hr; cbn [snd] in *; [|by left..].
    destruct (decide (cmd = e_proto_cmd_tunneled_data)) as [->|Hc].
    + cbn [handle_cmd]. destruct (tunneled_writes now k buf s1) as [H1|(src & req & nonce & blob & t & H1 & H2 & H3)].
      { left. congruence. }
      right. destruct (Hrec k hip s1 eq_refl) as (p & Hp & Ha). exists ip, buf, k, p, src, req, nonce, blob, t.
      rewrite <- R2, <- R4. split_and!; try done.
      destruct H3 as [W1 W2 W3 W4]. rewrite R3 in W1. rewrite R4 in W3. by split.
    + left. rewrite <- R2. by apply (Hcmd _ (HP s1)).
Qed.

(** C23: a sender whose address belongs to no peer can make a node do nothing
    at all except by a public "hi": for every other datagram, whatever its
    bytes, the turn of the main loop leaves the whole state (peers, tunnels,
    routes, searches, counters) as it was and sends and writes nothing. *)
Theorem stranger_changes_nothing now ip buf (s : state) :
  stranger s.2 ip -> buf !! 1%nat <> Some (cmd_byte e_proto_cmd_public_hi) ->
  (turn now (ev_udp ip buf) s).2 = s.
Proof.
  intros Hs Hb. rewrite turn_state. cbn [handle_event].
  destruct (udp_paths now ip buf s) as [->|(c & cmd & Hc & Ec & [[Hv ->]|[Hv Hr]])]; [done| |].
  - destruct cmd; try discriminate Hv; try done.
    destruct Hb. rewrite Hc. f_equal. clear -Ec. destruct c; vm_compute in Ec |- *; congruence.
  - destruct (stranger_not_found s.2 ip Hs) as [e E].
    unfold recognize_sender at 1, mbind at 1, M_mbind at 1, on_snd at 1 in Hr. rewrite E in Hr. rewrite Hr. by destruct s.
Qed.

(** C22: a public "hi", from anyone, changes at most one peer and one tunnel,
    those filed under the address its identity key hashes to, and only if the
    keys it offers carry that identity's signature; the black list, other
    peers, tunnels and routes stay as they were, and nothing is sent. *)
Theorem hi_authenticated now ip buf (s : state) :
  buf !! 1%nat = Some (cmd_byte e_proto_cmd_public_hi) ->
  let s' := (turn now (ev_udp ip buf) s).2 in
  s' = s \/ exists idc idi sig k, parse_hi buf = Ret (idc, idi, sig) /\
    hi_proof (m_my_prefix s.2) idc idi sig k /\ s'.1 = s.1 /\ only_at k s.2 s'.2.
Proof.
  intros Hb s'. unfold s'. clear s'. rewrite turn_state. cbn [handle_event].
  destruct (udp_paths now ip buf s) as [->|(c & cmd & Hc & Ec & Hr)]; [by left|].
  assert (c = cmd_byte e_proto_cmd_public_hi) as -> by congruence. vm_compute in Ec. injection Ec as <-.
  destruct Hr as [[_ ->]|[Hv _]]; [|done]. cbn [handle_cmd].
  destruct (handle_public_hi NTRU SIDH ed_verify ntru_verify now ip buf s) as [o s'] eqn:E. cbn [snd].
  unfold handle_public_hi, mbind at 1, M_mbind at 1, mlift at 1 in E.
  destruct (parse_hi buf) as [[[idc idi] sig]|e| |]; [|left; by injection E as <- <-..].
  pose proof (accept_effect now ip idc idi sig s) as Ha. unfold mcatch in E.
  destruct (accept_hi NTRU SIDH ed_verify ntru_verify now ip idc idi sig s) as [oa s1]. cbn [snd] in Ha.
  assert (s' = s1) as -> by (destruct oa as [[]|e| |]; [|case_bool_decide|..]; by injection E as <- <-).
  destruct Ha as [->|(k & Hk)]; [by left|right]. exists idc, idi, sig, k. by split.
Qed.
End Facts.

(** ** At a concrete node *)

#[local] Existing Instance toy_lib.
#[local] Existing Instance toy_net.

Notation toy_turn := (event_turn true true (fun _ _ _ => true) (fun _ _ _ => true) [] (fun x => zlen x)).
Definition toy_lone : c_routing_manager * @tun_node Z toy_lib := (toy_rm, toy_node (str "A") {[ toy_hip (str "B") := toy_peer (str "B") ]}).
Definition toy_hi_data : bytes := match hi_data (toy_node (str "C") ∅) with Ret d => d | _ => [] end.

Lemma toy_stranger : stranger toy_lone.2 (toy_addr (str "C")).
Proof.
  intros k p Hp E. unfold toy_lone in Hp. cbn [snd m_peer toy_node] in Hp.
  apply lookup_singleton_Some in Hp as [_ <-]. discriminate E.
Qed.

Lemma stranger_changes_nothing_witness :
  (toy_turn 3 (ev_udp (toy_addr (str "C")) [Byte.x01; Byte.x02; Byte.x00]) toy_lone).2 = toy_lone.
Proof.
  refine (stranger_changes_nothing true true (fun _ _ _ => true) (fun _ _ _ => true) [] (fun x => zlen x) 3
    (toy_addr (str "C")) [Byte.x01; Byte.x02; Byte.x00] toy_lone toy_stranger _).
  discriminate.
Defined.

Lemma hi_authenticated_witness :
  let s' := (toy_turn 3 (ev_udp (toy_addr (str "C")) ([Byte.x01; Byte.x03] ++ toy_hi_data)) toy_lone).2 in
  bool_decide (is_Some (m_peer s'.2 !! toy_hip (str "C"))) = true /\
  exists idc idi sig k, parse_hi ([Byte.x01; Byte.x03] ++ toy_hi_data) = Ret (idc, idi, sig) /\ only_at k toy_lone.2 s'.2.
Proof.
  intros s'. assert (bool_decide (is_Some (m_peer s'.2 !! toy_hip (str "C"))) = true) as Hb by (vm_compute; reflexivity).
  split; [exact Hb|].
  destruct (hi_authenticated true true (fun _ _ _ => true) (fun _ _ _ => true) [] (fun x => zlen x) 3
    (toy_addr (str "C")) ([Byte.x01; Byte.x03] ++ toy_hi_data) toy_lone eq_refl) as [E|(idc & idi & sig & k & Hp & _ & _ & Ho)].
  - fold s' in E. rewrite E in Hb. vm_compute in Hb. discriminate Hb.
  - exists idc, idi, sig, k. split; [exact Hp|exact Ho].
Defined.
