(* ===== verification/FindFacts.v ===== *)
(** * Searching for addresses on the wire

    Theorems about the findhip messages of [Tunpackets.v] and about
    invitations ([Tunrpc.v]): what one node writes, another reads. *)
From S2P Require Import Prelude Serialize SerializeFacts Cryptobasic Multikeys MultikeysFacts Crypto Peering.
From S2P Require Import PeeringFacts Routing Peerref Tunserver Tunpackets Tunrpc CryptoFacts Toy.

(** ** Queries *)

Lemma drop2 {A} (a b : A) l : drop 2 ([a; b] ++ l) = l.
Proof. done. Qed.

Lemma find_loop_split c p r i : c ∈ p -> exists j, find_from_loop c i (p ++ r) = Some j /\ i <= j < i + zlen p.
Proof.
  revert i. induction p as [|x p IH]; intros i Hin; [by apply not_elem_of_nil in Hin|]. cbn [app find_from_loop].
  rewrite zlen_cons. pose proof (zlen_nonneg p). destruct (bool_decide (x = c)) eqn:E; [exists i; split; [done|lia]|].
  apply bool_decide_eq_false in E. apply elem_of_cons in Hin as [->|Hin]; [done|].
  destruct (IH (i + 1) Hin) as (j & Ej & Hj). exists j. split; [done|lia].
Qed.

(** A findhip query names the address and the TTL it was made of, unless
    the address has the octet 0x3B after its first two: then the search for
    the ';' that ends the address stops inside it, and the receiver refuses
    the query. *)
Lemma findhip_query_roundtrip version command hip ttl junk : zlen hip = 16 ->
  parse_findhip_query ([version; command] ++ search_query hip ttl ++ junk) =
  if bool_decide (Byte.x3b ∈ drop 2 hip) then Throw ex_runtime_error else Ret (hip, signed_char ttl).
Proof.
  intros Hl. unfold parse_findhip_query. rewrite drop2. unfold search_query, find_from.
  change (str ";") with [Byte.x3b]. change (Z.to_nat 2) with 2%nat. rewrite <- !app_assoc.
  assert (length hip = 16)%nat as Hn by (unfold zlen in Hl; lia).
  rewrite drop_app_le by lia.
  assert (zlen (drop 2 hip) = 14) as Hd by (unfold zlen; rewrite length_drop; lia).
  cbn [app]. case_bool_decide as Hin.
  - destruct (find_loop_split Byte.x3b (drop 2 hip) (Byte.x3b :: ttl :: Byte.x3b :: junk) 2 Hin) as (j & -> & Hj).
    unfold othrow_if. rewrite (proj2 (Z.eqb_neq j g_haship_addr_size)) by (unfold g_haship_addr_size; lia). done.
  - rewrite find_loop_app by done. rewrite Hd. change (2 + 14) with 16. change (16 =? g_haship_addr_size) with true.
    unfold othrow_if. cbn [negb mbind outcome_mbind outcome_bind].
    replace (take (Z.to_nat 16) (hip ++ Byte.x3b :: ttl :: Byte.x3b :: junk)) with hip
      by (change (Z.to_nat 16) with 16%nat; by rewrite <- Hn, take_app_length).
    rewrite haship_of_bin_eval by done. cbn [outcome_bind]. unfold substr_from, othrow_if.
    pose proof (zlen_nonneg junk). rewrite (proj2 (Z.ltb_ge _ _)) by (rewrite zlen_app, !zlen_cons; lia).
    unfold mbind, outcome_mbind. cbn [outcome_bind].
    replace (drop (Z.to_nat (16 + 1)) (hip ++ Byte.x3b :: ttl :: Byte.x3b :: junk)) with (ttl :: Byte.x3b :: junk); [done|].
    change (Z.to_nat (16 + 1)) with (16 + 1)%nat. rewrite <- drop_drop, <- Hn, drop_app_length. done.
Qed.

(** ** Replies *)

Lemma pops_byte_skip c : pops (pop_byte_skip c) [c] tt.
Proof.
  unfold pop_byte_skip. change [c] with ([c] ++ [] : bytes). apply (pops_bind _ _ [c] [] c); [apply pops_byte|].
  rewrite decide_True by done. apply pops_ret.
Qed.


(** The receiver of a findhip reply reads the TTL and the cost of the route
    modulo 256 (the sender writes one octet of each), the address asked for
    and the public key of the route, whatever follows the reply. *)
Lemma findhip_reply_roundtrip version command ttl route hip junk :
  zlen hip = 16 -> wf_keys (pub_keys (ri_pubkey route)) -> m_crypto_use (pub_keys (ri_pubkey route)) = e_crypto_use_open ->
  zlen (keys_bytes (pub_keys (ri_pubkey route))) <= SANE_MAX_SIZE_FOR_STRING ->
  exists d, findhip_reply_data ttl route hip = Ret d /\
    parse_findhip_reply ([version; command] ++ d ++ junk)
    = Ret (ttl mod 256, ri_cost route mod 256, hip, MultikeysPub (set_hash [] (pub_keys (ri_pubkey route))) (str "fd42")).
Proof.
  intros Hl Hw Hu Hz. set (pk := pub_keys (ri_pubkey route)) in *.
  exists ([byte_of_Z ttl] ++ [Byte.x3b] ++ [byte_of_Z (ri_cost route)] ++ [Byte.x3b] ++ hip ++ [Byte.x3b] ++ varstring_bytes (keys_bytes pk) ++ [Byte.x3b]).
  split.
  - apply gen_str_pushes.
    do 4 (apply pushes_bind; [apply pushes_append|]). apply pushes_bind; [by apply pushes_bytes_n'|].
    apply pushes_bind; [apply pushes_append|].
    apply (pushes_lift _ _ (keys_bytes pk)); [by apply serialize_bin_eval|].
    apply pushes_bind; [apply pushes_varstring; unfold SANE_MAX_SIZE_FOR_STRING in Hz; lia|apply pushes_append].
  - unfold parse_findhip_reply. rewrite drop2. match goal with |- (?m _).1 = Ret ?x => assert (pops m
      ([byte_of_Z ttl] ++ [Byte.x3b] ++ [byte_of_Z (ri_cost route)] ++ [Byte.x3b] ++ hip ++ [Byte.x3b] ++ varstring_bytes (keys_bytes pk) ++ [Byte.x3b]) x) as Hp end.
    { apply (pops_bind _ _ _ _ (byte_of_Z ttl)); [apply pops_byte|]. apply (pops_bind _ _ _ _ tt); [apply pops_byte_skip|].
      apply (pops_bind _ _ _ _ (byte_of_Z (ri_cost route))); [apply pops_byte|]. apply (pops_bind _ _ _ _ tt); [apply pops_byte_skip|].
      apply (pops_bind _ _ _ _ hip); [by apply pops_bytes_n'|]. apply (pops_bind_0 _ _ _ hip); [by apply pops_lift, haship_of_bin_eval|].
      apply (pops_bind _ _ _ _ tt); [apply pops_byte_skip|]. apply (pops_bind _ _ _ _ (keys_bytes pk)); [by apply pops_varstring|].
      apply (pops_bind_0 _ _ _ (MultikeysPub (set_hash [] pk) (str "fd42"))); [by apply pops_lift, load_pub_keys|].
      rewrite <- (app_nil_r [Byte.x3b]). apply (pops_bind _ _ _ _ tt); [apply pops_byte_skip|].
      rewrite !byte_val_of_Z. apply pops_ret. }
    specialize (Hp [] junk). cbn [app] in Hp |- *. rewrite zlen_nil in Hp. unfold parser_of_buffer.
    rewrite <- !app_assoc in Hp |- *. cbn [app] in Hp |- *. by rewrite Hp.
Qed.

(** ** Invitations *)

Definition is_digit_char (c : Byte.byte) : Prop := 45 <= byte_val c <= 57.

Lemma dec_loop_digits fuel : forall n acc, 0 <= n -> Forall is_digit_char acc -> Forall is_digit_char (dec_loop fuel n acc).
Proof.
  induction fuel as [|fuel IH]; intros n acc Hn Ha; [done|]. cbn [dec_loop].
  assert (Forall is_digit_char (byte_of_Z (48 + n mod 10) :: acc)) as H1.
  { constructor; [|done]. unfold is_digit_char. rewrite byte_val_of_Z. pose proof (Z.mod_pos_bound n 10 ltac:(lia)).
    rewrite Z.mod_small by lia. lia. }
  destruct (n / 10 =? 0); [done|]. apply IH; [apply Z.div_pos; lia|done].
Qed.

Lemma show_int_digits n : Forall is_digit_char (show_int n).
Proof.
  unfold show_int. case_bool; zbool; [constructor; [by vm_compute|]|]; apply dec_loop_digits; (lia || constructor).
Qed.

Lemma not_digit c l : Forall is_digit_char l -> ~ is_digit_char c -> c ∉ l.
Proof. intros Hl Hc Hin. rewrite Forall_forall in Hl. by apply Hc, Hl. Qed.

(** The cable of an invitation. *)
Definition udp_cable (ipv4 : bytes) (port : Z) : bytes := str "udp:" ++ ipv4 ++ str ":" ++ show_int port.

Lemma invitation_shown nice ips port : invitation nice ips port = show_reference nice (map (fun ip => udp_cable ip port) ips).
Proof.
  unfold invitation, show_reference, show_cables, udp_cable. f_equal. rewrite map_map. f_equal. apply map_ext. intros ip.
  change (str "@(udp:") with ([separator; group_open] ++ str "udp:"). change (str ")") with [group_close]. by rewrite <- !app_assoc.
Qed.

Lemma no_paren_digits n : group_open ∉ show_int n /\ group_close ∉ show_int n.
Proof.
  split; apply (not_digit _ _ (show_int_digits n)); unfold is_digit_char.
  - change (byte_val group_open) with 40. lia.
  - change (byte_val group_close) with 41. lia.
Qed.

Lemma udp_cable_plain ip port : group_open ∉ ip -> group_close ∉ ip -> plain (udp_cable ip port).
Proof.
  intros Ho Hc. destruct (no_paren_digits port) as [Hp1 Hp2]. split; [done|]. unfold udp_cable.
  assert (forall c, c ∉ str "udp:" -> c ∉ str ":" -> c ∉ ip -> c ∉ show_int port -> c ∉ (str "udp:" ++ ip ++ str ":" ++ show_int port)) as Hall.
  { intros c H1 H2 H3 H4. rewrite !elem_of_app. tauto. }
  split; apply Hall; try done; apply (bool_decide_unpack _); by vm_compute.
Qed.

Section Invite.
Context `{NL : NetLib}.

(** The port of an invitation is lost: the peer that [add_peer_simplestring_new_format]
    adds for an invitation of [rpc_get_galaxy_invitation] has the first address
    offered and port 9042, whatever port the inviting node listens on. *)
Lemma invitation_loses_port nice ip ips port :
  plain nice -> separator ∉ nice -> nice <> str "anyone" -> Byte.x3a ∉ ip ->
  Forall (fun ip => group_open ∉ ip /\ group_close ∉ ip) (ip :: ips) ->
  3 <= zlen (invitation nice (ip :: ips) port) <= 1000000 ->
  reference_new_format (invitation nice (ip :: ips) port) = (addr ← ip46_of_string ip 9042; peering_reference addr nice).
Proof.
  intros Hn Hs Ha Hc Hips Hz. rewrite invitation_shown in *. unfold reference_new_format.
  rewrite parse_reference_shown; [|done|done| |done].
  2: { apply Forall_map. eapply Forall_impl; [exact Hips|]. intros x [H1 H2]. by apply udp_cable_plain. }
  rewrite bool_decide_eq_false_2 by done. cbn [andb map]. unfold mbind at 1, outcome_mbind at 1. cbn [outcome_bind].
  unfold _check_input, othrow_if. rewrite !(proj2 (Z.ltb_lt 0 _)) by (rewrite zlen_cons; match goal with |- context [zlen ?l] => pose proof (zlen_nonneg l) end; lia).
  cbn [negb mbind outcome_mbind outcome_bind at_]. unfold at_. cbn [outcome_bind lookup list_lookup].
  change (0 <=? 0) with true. cbn [outcome_bind].
  set (rest := ip ++ Byte.x3a :: show_int port).
  assert (udp_cable ip port = str "udp" ++ (Byte.x3a :: rest)) as -> by done.
  change (Z.to_nat 0) with 0%nat. cbn [lookup list_lookup mbind outcome_mbind outcome_bind].
  rewrite (find_from_0 Byte.x3a (str "udp") rest) by (apply (bool_decide_unpack _); by vm_compute).
  assert (substr_from (str "udp" ++ Byte.x3a :: rest) (zlen (str "udp") + 1) = Ret rest) as ->.
  { unfold substr_from, othrow_if. pose proof (zlen_nonneg rest).
    rewrite (proj2 (Z.ltb_ge _ _)) by (rewrite zlen_app, zlen_cons; lia). done. }
  cbn [mbind outcome_mbind outcome_bind]. unfold rest. rewrite (find_from_0 Byte.x3a ip (show_int port)) by done.
  assert (take (Z.to_nat (zlen ip)) (ip ++ Byte.x3a :: show_int port) = ip) as ->
    by (unfold zlen; by rewrite Nat2Z.id, take_app_length).
  done.
Qed.
End Invite.

(** ** At concrete values *)

Definition toy_route : c_route_info := new_route_info 0 (toy_hip (str "B")) 257 (toy_identity (str "C")).

