(* ===== verification/DeliverFacts.v ===== *)
(** * Delivery of packets

    The purpose of the program: a packet of one node's TUN device reaches the
    TUN device of the node it is addressed to, over any chain of forwarding
    nodes, unchanged. *)
From S2P Require Import Prelude Serialize SerializeFacts Hexstr Cryptobasic Multikeys MultikeysFacts Crypto CryptoFacts.
From S2P Require Import Peering PeeringFacts Routing Peerref Tunserver Tunpackets Tunrpc Toy TunpacketsFacts.
From S2P Require Import ForwardFacts AuthFacts.

(** Documented behaviour of libsodium and libc: the nonce of a box has 24
    octets, a box is at most 16 octets longer than the message, and an address
    printed by inet_ntop is read back by boost::asio. *)
Class WireLaws (Rng : Type) `{!CryptoLib Rng} `{NL : NetLib} := {
  nonce_size : forall b, zlen (boxer_get_nonce b) = 24;
  box_size : forall b m, zlen (boxer_box b m).1 <= zlen m + 16;
  ntop_from_string : forall a, zlen a = 16 -> address_v6_from_string (inet_ntop6 a) = Some a
}.

Section Deliver.
Context {Rng : Type} `{!CryptoLib Rng} `{NL : NetLib} `{!BoxLaws Rng} `{!WireLaws Rng}.
Context (NTRU SIDH : bool).
Context (ed_verify ntru_verify : bytes -> bytes -> bytes -> bool).
Context (nonce_default : bytes) (write_to_tun : bytes -> Z).
#[local] Existing Instance tun_galaxy_node.

Notation node := (@tun_node Rng _).
Notation state := (c_routing_manager * node)%type.
Notation turn := (event_turn NTRU SIDH ed_verify ntru_verify nonce_default write_to_tun).

(** A tunnel whose end-to-end stream holds the key [K]. *)
Definition tunnel_keyed (K : bytes) (ct : c_crypto_tunnel) : Prop :=
  exists s, m_stream_crypto_ab ct = Some s /\ keyed K s.

(** An IPv6 packet in its parts, and the frame of the TUN device. *)
Record ipv6_parts (pre hipA hipB payload : bytes) : Prop := {
  ip_pre : zlen pre = 8;
  ip_src : zlen hipA = 16;
  ip_dst : zlen hipB = 16;
  ip_payload : zlen payload <= 65492;
  ip_galaxy : addr_is_galaxy hipB = Ret true;
  ip_protocol : exists c, pre !! 6%nat = Some c /\ signed_char c ∈ m_supported_ip_protocols
}.

Definition ipv6_packet (pre hipA hipB payload : bytes) : bytes := pre ++ hipA ++ hipB ++ payload.

(** ** Boxes *)

Lemma box_ab_keyed K ct msg : tunnel_keyed K ct -> exists c N ct', box_ab msg ct = (Ret (c, N), ct') /\
  zlen N = 24 /\ zlen c <= zlen msg + 16 /\
  forall ct2, tunnel_keyed K ct2 -> (unbox_ab_nonce c N ct2).1 = Ret msg.
Proof.
  intros (s & Es & Hs). destruct (box_keyed K s msg Hs) as (c & N & s' & Eb & _ & Hu).
  unfold box_ab, use_ab. rewrite Es, Eb. exists c, N. eexists. split; [done|].
  assert (zlen N = 24 /\ zlen c <= zlen msg + 16) as [HN Hc].
  { destruct Hs as [(b & Hb & _) _]. unfold box, mget, mput, mret, M_mret, mbind, M_mbind in Eb. rewrite Hb in Eb.
    pose proof (box_size b msg) as Hz. destruct (boxer_box b msg) as [c1 b1]. injection Eb as <- <- _. split; [apply nonce_size|done]. }
  split_and!; [done|done|]. intros ct2 (s2 & Es2 & Hs2). unfold unbox_ab_nonce, use_ab. rewrite Es2.
  destruct (Hu s2 Hs2) as (s2' & -> & _). done.
Qed.

(** A recognized sender leaves the tunnels alone. *)
Lemma udp_known now ip (buf : bytes) k (s : state) : find_peer_loop (peers_in_order s.2) ip = Ret k ->
  exists hip s1, recognize_sender now ip (zlen buf) s = (Ret (k, hip), s1) /\
    m_tunnel s1.2 = m_tunnel s.2 /\ m_my_hip s1.2 = m_my_hip s.2 /\ m_tun_out s1.2 = m_tun_out s.2.
Proof.
  intros Hf. destruct (recognize_effect now ip (zlen buf) s) as (_ & R2 & R3 & R4). destruct s as [rm n]. cbn [snd] in *.
  pose proof (find_peer_loop_spec (peers_in_order n) ip) as Hs. rewrite Hf in Hs.
  destruct Hs as (p & Hin%peers_in_order_in & _).
  destruct (recognize_sender now ip (zlen buf) (rm, n)) as [o s1] eqn:E. cbn [fst snd] in *.
  unfold recognize_sender, mbind at 1, M_mbind at 1, on_snd at 1 in E. cbn [fst snd] in E.
  unfold find_peer_by_sender_peering_addr, mbind at 1, M_mbind at 1, mget at 1, mlift in E. rewrite Hf in E.
  unfold mbind at 1, M_mbind at 1, on_snd at 1, on_peer in E. cbn [fst snd] in E. rewrite Hin in E.
  unfold mbind, M_mbind in E. cbn in E. rewrite lookup_insert_eq in E. injection E as <- <-. by do 2 eexists.
Qed.

(** ** The sending node *)

Section Packet.
Context (pre hipA hipB payload : bytes) (Hparts : ipv6_parts pre hipA hipB payload).

Lemma zlen_packet : zlen (ipv6_packet pre hipA hipB payload) = 40 + zlen payload.
Proof. destruct Hparts. unfold ipv6_packet. rewrite !zlen_app. lia. Qed.

Lemma parse_frame hdr : zlen hdr = 4 -> parse_tun_ip_src_dst (hdr ++ ipv6_packet pre hipA hipB payload) 4 = Ret (hipA, hipB).
Proof.
  intros Hh. destruct Hparts. pose proof (zlen_nonneg payload). unfold parse_tun_ip_src_dst, othrow_if.
  rewrite zlen_app, zlen_packet. unfold header_position_of_src, header_position_of_dst.
  rewrite !(proj2 (Z.ltb_ge _ _)) by lia. unfold mbind, outcome_mbind. cbn [outcome_bind].
  assert (sub (hdr ++ ipv6_packet pre hipA hipB payload) (4 + 8) 16 = hipA) as ->.
  { unfold ipv6_packet. rewrite app_assoc. rewrite <- Hh, <- ip_pre0, <- zlen_app, <- ip_src0. apply sub_app_exact. }
  assert (sub (hdr ++ ipv6_packet pre hipA hipB payload) (4 + 24) 16 = hipB) as ->.
  { unfold ipv6_packet. rewrite (app_assoc pre), (app_assoc hdr).
    replace (4 + 24) with (zlen (hdr ++ pre ++ hipA)) by (rewrite !zlen_app; lia). rewrite <- ip_dst0. apply sub_app_exact. }
  unfold haship_of_dot. rewrite !ntop_from_string by done. rewrite ip_src0, ip_dst0. done.
Qed.

Definition inner : bytes := pre ++ hipA ++ payload.

Lemma cleartext_frame hdr : zlen hdr = 4 -> tun_cleartext (hdr ++ ipv6_packet pre hipA hipB payload) = Ret inner.
Proof.
  intros Hh. destruct Hparts. pose proof (zlen_nonneg payload). unfold tun_cleartext.
  change (Z.to_nat header_position_of_ipv6) with 4%nat. rewrite drop_app_ge by (unfold zlen in Hh; lia).
  replace (4 - length hdr)%nat with 0%nat by (unfold zlen in Hh; lia). rewrite drop_0.
  unfold string_erase, othrow_if. rewrite zlen_packet. unfold header_position_of_dst, g_haship_addr_size.
  rewrite (proj2 (Z.ltb_ge _ _)) by lia. unfold mbind, outcome_mbind. cbn [outcome_bind]. f_equal.
  unfold ipv6_packet, inner. rewrite (app_assoc pre hipA). set (ph := pre ++ hipA).
  assert (length ph = 24%nat) as Hn by (unfold ph, zlen in *; rewrite length_app; lia).
  change (Z.to_nat 24) with 24%nat. change (Z.to_nat (24 + 16)) with (24 + 16)%nat.
  rewrite <- drop_drop, <- Hn, take_app_length, drop_app_length.
  replace (drop 16 (hipB ++ payload)) with payload; [by rewrite app_assoc|].
  rewrite drop_app_ge by (unfold zlen in *; lia). by replace (16 - length hipB)%nat with 0%nat by (unfold zlen in *; lia).
Qed.

Lemma insert_frame : string_insert inner header_position_of_dst hipB = Ret (ipv6_packet pre hipA hipB payload).
Proof.
  destruct Hparts. pose proof (zlen_nonneg payload). unfold string_insert, othrow_if, inner.
  rewrite !zlen_app. unfold header_position_of_dst. rewrite (proj2 (Z.ltb_ge _ _)) by lia.
  unfold mbind, outcome_mbind. cbn [outcome_bind]. f_equal. unfold ipv6_packet. rewrite (app_assoc pre hipA payload).
  set (ph := pre ++ hipA). assert (length ph = 24%nat) as Hn by (unfold ph, zlen in *; rewrite length_app; lia).
  change (Z.to_nat 24) with 24%nat. rewrite <- Hn, take_app_length, drop_app_length. unfold ph. by rewrite <- app_assoc.
Qed.

(** A datagram that carries the boxed packet. *)
Definition carries (K d : bytes) : Prop := exists ttl nonce blob,
  0 <= ttl < 256 /\ zlen nonce = 24 /\ zlen blob <= SANE_MAX_SIZE_FOR_STRING /\
  tunneled_datagram hipA hipB ttl nonce blob = Ret d /\
  forall ct, tunnel_keyed K ct -> (unbox_ab_nonce blob nonce ct).1 = Ret inner.

Lemma sender_carries K hdr (s : state) ct now out addr d :
  zlen hdr = 4 -> m_tun_header_offset_ipv6 s.2 = 4 -> m_tunnel s.2 !! hipB = Some ct -> tunnel_keyed K ct ->
  m_udp_out (turn now (ev_tun (hdr ++ ipv6_packet pre hipA hipB payload)) s).2.2 = m_udp_out s.2 ++ out ->
  (addr, d) ∈ out -> d !! 1%nat = Some (cmd_byte e_proto_cmd_tunneled_data) -> carries K d.
Proof.
  intros Hh Ho Ht Hk Eo Hin Hd. destruct s as [rm n]. cbn [snd] in *. rewrite turn_state in Eo. cbn [handle_event] in Eo.
  destruct Hparts. pose proof (zlen_nonneg payload).
  unfold handle_tun, mbind at 1, M_mbind at 1, on_snd at 1, mget in Eo. cbn [fst snd] in Eo. rewrite Ho in Eo.
  unfold mbind at 1, M_mbind at 1, mlift at 1 in Eo. rewrite parse_frame in Eo by done.
  unfold mbind at 1, M_mbind at 1, mlift at 1 in Eo. rewrite ip_galaxy0 in Eo. cbn [negb] in Eo. rewrite Ht in Eo.
  unfold mbind at 1, M_mbind at 1, massert, oassert, mlift at 1 in Eo.
  rewrite zlen_app, zlen_packet, Hh, !(proj2 (Z.leb_le _ _)) in Eo by (unfold header_position_of_ipv6; lia). cbn [andb] in Eo.
  unfold mbind at 1, M_mbind at 1, mlift at 1 in Eo. rewrite cleartext_frame in Eo by done.
  destruct (box_ab_keyed K ct inner Hk) as (c & N & ct' & Eb & HN & Hc & Hu).
  unfold mbind at 1, M_mbind at 1, on_snd at 1, on_tunnel in Eo. cbn [fst snd] in Eo. rewrite Ht, Eb in Eo.
  set (s1 := (rm, with_tunnel (<[hipB:=ct']> (m_tunnel n)) n)) in Eo.
  destruct (route_top_sends now c hipA hipB own_reason 5 N s1) as [(_ & out2 & Eo2 & Hr) _].
  unfold mbind, M_mbind, mret, M_mret in Eo. destruct (route_top now c hipA hipB own_reason 5 N s1) as [[b|e| |] s2]; cbn [snd] in *;
    rewrite Eo in Eo2; apply (inj (app (m_udp_out n))) in Eo2 as <-.
  all: destruct Hr as [->|[[Hq _]|(_ & k & p & d2 & _ & Ed & ->)]];
    [by apply not_elem_of_nil in Hin| |].
  all: try (rewrite Forall_forall in Hq; destruct (Hq _ Hin) as [rest E]; cbn [snd] in E; subst d; discriminate Hd).
  all: apply list_elem_of_singleton in Hin as [= -> ->]; exists 5, N, c; split_and!; try done.
  all: unfold inner in Hc; rewrite !zlen_app in Hc; unfold SANE_MAX_SIZE_FOR_STRING; lia.
Qed.
Lemma carries_parse K d : carries K d -> exists rest ttl nonce blob,
  d = [Byte.x01; Byte.x02] ++ rest /\ zlen nonce = 24 /\ zlen blob <= SANE_MAX_SIZE_FOR_STRING /\
  (parse_tunneled (parser_of_buffer d)).1 = Ret (hipA, hipB, ttl, nonce, blob) /\
  forall ct, tunnel_keyed K ct -> (unbox_ab_nonce blob nonce ct).1 = Ret inner.
Proof.
  intros (ttl & nonce & blob & Ht & Hn & Hb & Ed & Hu). destruct Hparts.
  rewrite tunneled_datagram_eval in Ed by (done || (unfold SANE_MAX_SIZE_FOR_STRING in Hb; lia)). injection Ed as <-.
  exists (tunneled_body hipA hipB ttl nonce blob), ttl, nonce, blob. split_and!; try done.
  pose proof (pops_tunneled Byte.x01 Byte.x02 hipA hipB ttl nonce blob ltac:(done) ltac:(done) Hn Hb [] []) as P.
  cbn [app] in P. rewrite app_nil_r, zlen_nil in P. unfold parser_of_buffer. cbn [app]. rewrite P. cbn [fst].
  by rewrite Z.mod_small by lia.
Qed.

Lemma carries_forward K d d' : forwards (Rng := Rng) d d' -> carries K d -> carries K d'.
Proof.
  intros (nd & wt & s & now & sender & [[[[src dst] req] nonce] blob] & out & addr & Hp & Hd & Ho & Hin & Hc) Hk. cbn in Hd.
  destruct (carries_parse K d Hk) as (rest & ttl & nonce0 & blob0 & -> & Hn & Hb & Hp0 & Hu).
  rewrite Hp in Hp0. injection Hp0 as -> -> -> -> ->.
  destruct (parse_tunneled_lengths _ _ _ _ _ _ Hp) as (_ & _ & Ht & _ & _).
  destruct (forward_routed nd wt now sender _ s _ _ _ _ _ Hp Hd) as (_ & (_ & out2 & Ho2 & Hr) & _).
  rewrite Ho in Ho2. apply (inj (app (m_udp_out s.2))) in Ho2 as <-.
  destruct Hr as [->|[[Hq _]|(Hpos & k & p & d2 & _ & Ed & ->)]].
  - by apply not_elem_of_nil in Hin.
  - rewrite Forall_forall in Hq. destruct (Hq _ Hin) as [rest2 E]. cbn [snd] in E. subst d'. discriminate Hc.
  - apply list_elem_of_singleton in Hin as [= -> ->]. exists (forward_ttl ttl), nonce0, blob0.
    rewrite forward_ttl_spec in *. split_and!; try done; lia.
Qed.

Lemma carries_chain K n d d' : forward_chain (Rng := Rng) n d d' -> carries K d -> carries K d'.
Proof. induction 1 as [|n d d1 d2 Hf Hc IH]; [done|]. intros Hk. by apply IH, (carries_forward K d). Qed.

(** ** The receiving node *)

Lemma inner_protocol : check_ip_protocol inner = Ret true.
Proof.
  destruct Hparts as [Hz _ _ _ _ (c & Hc & Hin)]. unfold check_ip_protocol, get_ip_protocol_number, at_.
  change (0 <=? header_position_of_ip_protocol_type) with true.
  change (Z.to_nat header_position_of_ip_protocol_type) with 6%nat. unfold inner.
  rewrite lookup_app_l, Hc by (unfold zlen in Hz; lia). unfold mbind, outcome_mbind. cbn [outcome_bind].
  by rewrite bool_decide_eq_true_2.
Qed.

Lemma packet_source : check_packet_source_address hipA (ipv6_packet pre hipA hipB payload) = Ret true.
Proof.
  destruct Hparts. pose proof (zlen_nonneg payload). unfold check_packet_source_address, check_packet_address, othrow_if, oassert.
  rewrite zlen_packet. unfold header_position_of_src. rewrite !(proj2 (Z.ltb_ge _ _)) by lia.
  assert (sub (ipv6_packet pre hipA hipB payload) 8 16 = hipA) as ->.
  { unfold ipv6_packet. rewrite <- ip_pre0, <- ip_src0. apply sub_app_exact. }
  rewrite ip_src0, !Z.eqb_refl. unfold mbind, outcome_mbind. cbn [outcome_bind]. by rewrite bool_decide_eq_true_2.
Qed.

Lemma receiver_writes K d ip k (s : state) ct now :
  carries K d -> m_my_hip s.2 = hipB -> m_tunnel s.2 !! hipA = Some ct -> tunnel_keyed K ct ->
  find_peer_loop (peers_in_order s.2) ip = Ret k ->
  m_tun_out (turn now (ev_udp ip d) s).2.2 = m_tun_out s.2 ++ [tun_header ++ ipv6_packet pre hipA hipB payload].
Proof.
  intros Hk Hme Ht Hct Hf. destruct (carries_parse K d Hk) as (rest & ttl & nonce & blob & -> & Hn & Hb & Hp & Hu).
  rewrite turn_state. cbn [handle_event]. set (buf := [Byte.x01; Byte.x02] ++ rest) in *.
  destruct (udp_known now ip buf k s Hf) as (hip & s1 & Er & Htun & Hmy & Hto).
  assert (handle_udp NTRU SIDH ed_verify ntru_verify nonce_default write_to_tun now ip buf s
    = handle_tunneled_data nonce_default write_to_tun now k buf s1) as ->.
  { unfold buf, handle_udp. cbn [app]. unfold mbind at 1, M_mbind at 1, mthrow_if, othrow_if, mlift at 1.
    change (current_version <? byte_val Byte.x01) with false. unfold mbind at 1, M_mbind at 1, mlift at 1.
    change (int_to_cmd Byte.x02) with (Ret e_proto_cmd_tunneled_data). cbn [negb command_is_valid_from_unknown_peer].
    change (negb (command_is_valid_from_unknown_peer e_proto_cmd_tunneled_data)) with true. cbn match.
    unfold mbind at 1, M_mbind at 1. unfold buf in Er. cbn [app] in Er. by rewrite Er. }
  rewrite <- Hto. clear Er Hf. destruct s1 as [rm1 n1]. cbn [snd fst] in *. rewrite <- Hmy in Hme. rewrite <- Htun in Ht.
  unfold handle_tunneled_data, mbind at 1, M_mbind at 1, mlift at 1. rewrite Hp.
  unfold mbind at 1, M_mbind at 1, on_snd at 1, mget. cbn [fst snd]. rewrite bool_decide_eq_true_2 by done.
  unfold handle_for_us, mbind at 1, M_mbind at 1, on_snd at 1, mget. cbn [fst snd]. rewrite Ht.
  unfold mbind at 1, M_mbind at 1, on_snd at 1, on_tunnel. cbn [fst snd]. rewrite Ht.
  specialize (Hu ct Hct). destruct (unbox_ab_nonce blob nonce ct) as [ou ct']. cbn in Hu. subst ou.
  unfold mbind at 1, M_mbind at 1, mlift at 1. rewrite inner_protocol.
  unfold mbind at 1, M_mbind at 1, mlift at 1. rewrite insert_frame.
  unfold mbind at 1, M_mbind at 1, mlift at 1. rewrite packet_source. cbn [negb].
  unfold mbind, M_mbind, mthrow_if, othrow_if, mlift, on_snd, mmodify. cbn [fst snd]. done.
Qed.
End Packet.

(** ** Properties *)

(** C2: a packet is delivered.  Let node [a] and node [b] have tunnels to each
    other that hold the same key, and let the TUN device of [a] give it, under
    its header of 4 octets, an IPv6 packet from [a]'s address, as [b] knows it,
    to the galaxy address of [b], of TCP, UDP or ICMPv6 and with at most 65492
    octets of payload.  Then any tunneled datagram [a] sends for it, after being
    passed on by any number of forwarding nodes, makes [b] write exactly that
    packet, under the header of the device, to its own TUN device, provided that
    [b] recognises the node it comes from at last as one of its peers; from
    anyone else, and for other protocols, [b] drops it. *)
Theorem packet_delivered K pre hipA hipB payload hdr (a b : state) cta ctb t1 t2 out addr d n d' ip k :
  ipv6_parts pre hipA hipB payload -> zlen hdr = 4 -> m_tun_header_offset_ipv6 a.2 = 4 ->
  m_tunnel a.2 !! hipB = Some cta -> tunnel_keyed K cta ->
  m_udp_out (turn t1 (ev_tun (hdr ++ ipv6_packet pre hipA hipB payload)) a).2.2 = m_udp_out a.2 ++ out ->
  (addr, d) ∈ out -> d !! 1%nat = Some (cmd_byte e_proto_cmd_tunneled_data) ->
  forward_chain (Rng := Rng) n d d' ->
  m_my_hip b.2 = hipB -> m_tunnel b.2 !! hipA = Some ctb -> tunnel_keyed K ctb ->
  find_peer_loop (peers_in_order b.2) ip = Ret k ->
  m_tun_out (turn t2 (ev_udp ip d') b).2.2 = m_tun_out b.2 ++ [tun_header ++ ipv6_packet pre hipA hipB payload].
Proof.
  intros Hparts Hh Ho Ha Hka Eo Hin Hd Hc Hb Hbt Hkb Hf.
  eapply receiver_writes; [done| |exact Hb|exact Hbt|exact Hkb|exact Hf].
  eapply carries_chain; [done|exact Hc|]. by eapply sender_carries.
Qed.
End Deliver.

(** ** Three concrete nodes *)

#[local] Existing Instance toy_lib.
#[local] Existing Instance toy_net.
#[local] Existing Instance toy_boxes.

Lemma filter_hex ds : forallb is_hex_digit ds = true -> filter (fun c => c <> Byte.x3a) ds = ds.
Proof.
  induction ds as [|c ds IH]; [done|]. cbn [forallb]. intros [Hc Hds]%andb_true_iff.
  rewrite filter_cons, decide_True by (intros ->; discriminate Hc). by rewrite IH.
Qed.

#[local, refine] Instance toy_wire : WireLaws Z := {}.
Proof.
  - intros b. reflexivity.
  - intros b m. cbn -[app]. rewrite zlen_app. unfold zlen at 1. rewrite toy_mac_length. lia.
  - intros a Ha. cbn. destruct (hex_of_bin_eval a) as (ds & -> & _ & Hx & Hb); [lia|].
    unfold toy_v6. rewrite filter_hex, bin_of_hex_eval, Hb by done. by rewrite Ha.
Defined.

(** The tunnel between A and B; R forwards between them. *)
Definition toy_ct (odd : bool) : @c_crypto_tunnel Z toy_lib :=
  @Tunnel Z toy_lib odd None (Some (exchanged odd (str "key") (new_stream odd []))) None [].

Definition toy_nodeA : c_routing_manager * @tun_node Z toy_lib :=
  (RoutingManager ∅ {[ toy_hip (str "B") := new_route_info 0 (toy_hip (str "R")) 2 (toy_identity (str "B")) ]},
   with_tunnel {[ toy_hip (str "B") := toy_ct true ]} (toy_node (str "A") {[ toy_hip (str "R") := toy_peer (str "R") ]})).
Definition toy_nodeR : c_routing_manager * @tun_node Z toy_lib :=
  (toy_rm, toy_node (str "R") {[ toy_hip (str "B") := toy_peer (str "B") ]}).
Definition toy_nodeB : c_routing_manager * @tun_node Z toy_lib :=
  (toy_rm, with_tunnel {[ toy_hip (str "A") := toy_ct false ]} (toy_node (str "B") {[ toy_hip (str "R") := toy_peer (str "R") ]})).

Notation toy_turn := (event_turn true true (fun _ _ _ => true) (fun _ _ _ => true) [] (fun x => zlen x)).

(** An IPv6 packet with a UDP payload. *)
Definition toy_pre : bytes := [Byte.x60; Byte.x00; Byte.x00; Byte.x00; Byte.x00; Byte.x05; Byte.x11; Byte.x40].
Definition toy_packet : bytes := ipv6_packet toy_pre (toy_hip (str "A")) (toy_hip (str "B")) (str "hello").

(** The datagram that A sends to R, and the one that R sends to B. *)
Definition last_sent (n : @tun_node Z toy_lib) : bytes := match m_udp_out n with [(_, d)] => d | _ => [] end.
Definition toy_d1 : bytes := last_sent (toy_turn 1 (ev_tun (tun_header ++ toy_packet)) toy_nodeA).2.2.
Definition toy_d2 : bytes := last_sent (handle_tunneled_data [] (fun _ => 0) 2 (toy_hip (str "A")) toy_d1 toy_nodeR).2.2.

Lemma toy_hop : forward_chain (Rng := Z) 1 toy_d1 toy_d2.
Proof.
  assert ((parse_tunneled (parser_of_buffer toy_d1)).1 = Ret (toy_hip (str "A"), toy_hip (str "B"), 5, replicate 24 Byte.x01,
    toy_mac (str "key") ++ toy_pre ++ toy_hip (str "A") ++ str "hello")) as Hp by (vm_compute; reflexivity).
  eapply chain_hop; [|apply chain_start].
  exists [], (fun _ => 0), toy_nodeR, 2, (toy_hip (str "A")). eexists. exists [(toy_addr (str "B"), toy_d2)], (toy_addr (str "B")).
  split_and!; [exact Hp|vm_compute; discriminate|vm_compute; reflexivity|by left|vm_compute; reflexivity].
Qed.

Lemma toy_keyed odd : tunnel_keyed (str "key") (toy_ct odd).
Proof. exists (exchanged odd (str "key") (new_stream odd [])). split; [done|apply exchanged_keyed]. Qed.

Lemma packet_delivered_witness :
  m_tun_out (toy_turn 3 (ev_udp (toy_addr (str "R")) toy_d2) toy_nodeB).2.2 = [] ++ [tun_header ++ toy_packet].
Proof.
  assert (ipv6_parts toy_pre (toy_hip (str "A")) (toy_hip (str "B")) (str "hello")) as Hparts.
  { split; [vm_compute; reflexivity|vm_compute; reflexivity|vm_compute; reflexivity|vm_compute; discriminate|vm_compute; reflexivity|].
    exists Byte.x11. split; [reflexivity|]. apply (bool_decide_unpack _). vm_compute. exact I. }
  refine (packet_delivered true true (fun _ _ _ => true) (fun _ _ _ => true) [] (fun x => zlen x) (str "key")
    toy_pre (toy_hip (str "A")) (toy_hip (str "B")) (str "hello") tun_header toy_nodeA toy_nodeB (toy_ct true) (toy_ct false)
    1 3 [(toy_addr (str "R"), toy_d1)] (toy_addr (str "R")) toy_d1 1 toy_d2 (toy_addr (str "R")) (toy_hip (str "R"))
    Hparts _ _ _ (toy_keyed true) _ _ _ toy_hop _ _ (toy_keyed false) _).
  - reflexivity.
  - reflexivity.
  - apply lookup_singleton_eq.
  - vm_compute. reflexivity.
  - by left.
  - vm_compute. reflexivity.
  - reflexivity.
  - apply lookup_singleton_eq.
  - vm_compute. reflexivity.
Defined.
