(* ===== verification/HiFacts.v ===== *)
(** * The tunnel that a "hi" opens

    What verification lets through as an identity, and the key of every tunnel
    that a public "hi" opens at its receiver. *)
From S2P Require Import Prelude Serialize SerializeFacts Hexstr Cryptobasic Multikeys MultikeysFacts Crypto CryptoFacts.
From S2P Require Import Peering PeeringFacts Routing Peerref Tunserver Tunpackets Tunrpc Toy TunpacketsFacts.
From S2P Require Import ForwardFacts AuthFacts DeliverFacts.

(** ** Keys that were received *)

Notation has_lists k := (length (m_cryptolists_general k) = 32%nat).

(** No keys but those of the two signature systems. *)
Definition signing_only (k : c_multicryptostrings) : Prop :=
  forall e, keys_of k e <> [] -> cryptosystem_sign_allowed e = true.

Lemma keys_of_outside k e : has_lists k -> 32 <= enum_to_int e -> keys_of k e = [].
Proof. intros Hl He. unfold keys_of. by rewrite lookup_ge_None_2 by lia. Qed.

Lemma signature_vec_preserves e ks : enum_to_int e < 32 -> cryptosystem_sign_allowed e = true ->
  preserves (fun s : c_multicryptostrings * parser => has_lists s.1 /\ signing_only s.1) (on_fst (add_signature_vec ks e)).
Proof.
  intros He Ha [k p] [Hl Hs]. unfold on_fst. cbn [fst snd] in *.
  destruct (add_signature_vec_eval e ks He k Hl) as (k3 & -> & Hl3 & Hk3). cbn. split; [done|].
  intros e' He'. rewrite Hk3 in He'. case_bool_decide; [by subst|by apply Hs].
Qed.

Lemma on_snd_preserves {A} (P : c_multicryptostrings -> Prop) (m : M parser A) :
  preserves (fun s : c_multicryptostrings * parser => P s.1) (on_snd m).
Proof. intros [k p] Hk. unfold on_snd. cbn [fst snd]. by destruct (m p). Qed.

Lemma multisign_loaded sig k : multisign_load_from_bin sig new_multisign = (Ret tt, k) -> has_lists k /\ signing_only k.
Proof.
  unfold multisign_load_from_bin. destruct (parser_of_string sig) as [p|e| |]; try done.
  assert (preserves (fun s : c_multicryptostrings * parser => has_lists s.1 /\ signing_only s.1) multisign_load_body) as Hp.
  { pose proof (fun A => @on_snd_preserves A (fun k => has_lists k /\ signing_only k)) as Hsnd.
    unfold multisign_load_body, massert. repeat (apply preserves_bind; [|intros ?]);
      (apply Hsnd || apply preserves_lift || by apply signature_vec_preserves). }
  destruct (multisign_load_body (new_multisign, p)) as [o [k' p']] eqn:E. intros [= -> <-].
  specialize (Hp (new_multisign, p)). rewrite E in Hp. apply Hp. split; [done|].
  intros e He. exfalso. apply He. unfold keys_of, new_multisign, new_multicryptostrings. cbn [m_cryptolists_general].
  unfold default. destruct (_ !! _) eqn:El; [|done]. by apply lookup_replicate in El as [-> _].
Qed.

Lemma load_systems_lists pop n : preserves (fun s : c_multicryptostrings * parser => has_lists s.1) (load_systems pop n).
Proof.
  induction n as [|n IH]; [apply preserves_ret|]. cbn [load_systems].
  pose proof (fun A => @on_snd_preserves A (fun k => has_lists k)) as Hsnd.
  apply preserves_bind; [apply Hsnd|intros id]. apply preserves_bind; [apply preserves_lift|intros sys].
  apply preserves_bind; [apply Hsnd|intros ks]. intros [k p] Hk.
  unfold mbind at 1, M_mbind at 1, on_fst at 1, mget. cbn [fst snd].
  unfold mbind at 1, M_mbind at 1, mlift. destruct (at_ _ _); try done.
  unfold mbind, M_mbind, on_fst, mmodify. cbn [fst snd]. apply IH. cbn. by rewrite length_insert.
Qed.

Lemma load_pubkey_lists data prefix p : load_pubkey data prefix = Ret p -> has_lists (pub_keys p).
Proof.
  unfold load_pubkey, load_pub, on_pub_keys, load_from_bin, load_from_bin_with. intros E.
  destruct (parser_of_string data) as [ps|e| |]; try done. cbn [pub_keys new_multikeys_pub] in E.
  set (k0 := new_multicryptostrings e_crypto_use_open) in E.
  assert (preserves (fun s : c_multicryptostrings * parser => has_lists s.1) (load_body pop_public_keys)) as Hp.
  { pose proof (fun A => @on_snd_preserves A (fun k => has_lists k)) as Hsnd.
    unfold load_body. apply preserves_bind; [apply Hsnd|intros mk]. apply preserves_bind; [apply preserves_lift|intros _].
    apply preserves_bind; [apply Hsnd|intros ver]. apply preserves_bind; [apply Hsnd|intros use].
    apply preserves_bind; [by intros [k p1] Hk|intros k]. apply preserves_bind; [apply preserves_lift|intros _].
    apply preserves_bind; [|intros _; by intros [k1 p1] Hk].
    case_bool_decide; [|apply preserves_throw]. apply preserves_bind; [apply Hsnd|intros sz].
    apply preserves_bind; [apply preserves_lift|intros _]. apply preserves_bind; [apply load_systems_lists|intros _].
    apply preserves_bind; [apply Hsnd|intros p1; apply preserves_lift]. }
  specialize (Hp (k0, ps) eq_refl). destruct (load_body pop_public_keys (k0, ps)) as [[[]|e| |] [k p1]]; try done.
  cbn in E. by injection E as <-.
Qed.

Lemma system_below e : enum_to_int e < 32 -> e ∈ systems_below 32.
Proof. intros He. destruct e; try (apply (bool_decide_unpack _); by vm_compute). Qed.

(** What passes verification holds signing keys only. *)
Lemma verified_signing_only NTRU ed_verify ntru_verify sigs msg pks :
  has_lists sigs -> has_lists pks -> signing_only sigs ->
  multi_sign_verify NTRU ed_verify ntru_verify sigs msg pks = Ret tt -> signing_only pks.
Proof.
  intros Hs Hp Hso E e He. rewrite verify_all_eval in E by done.
  destruct (forallb _ (systems_below 32)) eqn:Ef; [|done]. rewrite forallb_forall in Ef.
  destruct (Z.lt_ge_cases (enum_to_int e) 32) as [Hlt|Hge]; [|by rewrite keys_of_outside in He].
  specialize (Ef e). rewrite <- list_elem_of_In in Ef. specialize (Ef (system_below e Hlt)). unfold system_ok in Ef.
  apply andb_true_iff in Ef as [El _]. zbool. apply Hso. intros Hn. rewrite Hn in El. apply He, zlen_0_nil. done.
Qed.

(** ** The tunnel a "hi" opens *)

Section Hi.
Context {Rng : Type} `{!CryptoLib Rng} `{NL : NetLib} `{!CryptoLaws Rng} `{!BoxLaws Rng}.
Context (NTRU SIDH : bool).
Context (ed_verify ntru_verify : bytes -> bytes -> bytes -> bool).
Context (nonce_default : bytes) (write_to_tun : bytes -> Z).
#[local] Existing Instance tun_galaxy_node.

Notation node := (@tun_node Rng _).
Notation state := (c_routing_manager * node)%type.
Notation turn := (event_turn NTRU SIDH ed_verify ntru_verify nonce_default write_to_tun).

(** The key of an exchange to which no pair of keys contributed: a constant. *)
Definition public_key_of_tunnels : bytes := take 32 (Hash1 return_empty_K).

(** Computing an address leaves the keys alone. *)
Lemma ipv6_bin_lists pk : m_cryptolists_general (pub_keys (get_ipv6_string_bin Hash1 pk).2) = m_cryptolists_general (pub_keys pk).
Proof.
  assert (m_cryptolists_general (pub_keys (on_pub_keys (get_hash Hash1) pk).2) = m_cryptolists_general (pub_keys pk)) as <-.
  { unfold on_pub_keys. destruct (decide (m_hash_cached (pub_keys pk) = [])) as [E|E].
    - rewrite get_hash_uncached by done. by destruct (fingerprint_serial Hash1 _).
    - by rewrite get_hash_cached. }
  unfold get_ipv6_string_bin, mbind, M_mbind, mget, mlift, mret, M_mret.
  destruct (on_pub_keys (get_hash Hash1) pk) as [[h|e| |] p]; try done. by destruct (bin_of_hex (m_ipv6_prefix p)).
Qed.

Lemma keys_of_lists k1 k2 e : m_cryptolists_general k1 = m_cryptolists_general k2 -> keys_of k1 e = keys_of k2 e.
Proof. unfold keys_of. by intros ->. Qed.

(** A tunnel to an identity with signing keys only has the constant key. *)
Lemma signing_tunnel self them name rng ct rng' : wf_pair self -> has_lists (pub_keys them) -> signing_only (pub_keys them) ->
  new_tunnel NTRU SIDH self them name rng = (Ret ct, rng') -> tunnel_keyed public_key_of_tunnels ct.
Proof.
  intros [HP HPRV] HQ Hs E. unfold new_tunnel in E. apply M_bind_inv in E as (s & r1 & E & E2). injection E2 as <- <-.
  unfold on_stream in E. destruct (exchange_start _ _ _ _ _ _) as [[[]|e| |] [r2 s2]] eqn:Ex; try done. injection E as <- <-.
  unfold exchange_start in Ex. apply exchange_inv in Ex as (k & s1 & odd & Ek & _ & ->).
  set (Q := MultikeysPAIR them (m_PRV self)).
  assert (forall sys, 0 < zlen (keys_of (pub_keys (m_pub self)) sys) -> 0 < zlen (keys_of (pub_keys (m_pub Q)) sys) ->
    sys = e_crypto_system_type_Ed25519 \/ sys = e_crypto_system_type_NTRU_sign) as Hno.
  { intros sys _ Hq. pose proof (Hs sys) as Ha. destruct (keys_of (pub_keys (m_pub Q)) sys) eqn:Eq; [done|].
    specialize (Ha ltac:(by unfold Q in Eq; cbn [m_pub] in Eq; intros He; rewrite He in Eq)). destruct sys; try discriminate Ha; auto. }
  destruct (KCT_no_common NTRU SIDH self Q HP HPRV HQ Hno [] rng (new_stream true (name ++ str "-CTab")) ∅ eq_refl eq_refl) as (s' & Ek2).
  unfold Q in Ek2. cbn [m_pub] in Ek2. rewrite Ek2 in Ek. injection Ek as <- <- <-.
  eexists. split; [done|]. apply exchanged_keyed.
Qed.

(** Every tunnel of [n'] is one of [n] or a new one with the constant key. *)
Definition opened_public (n n' : node) : Prop := forall hip ct, m_tunnel n' !! hip = Some ct ->
  m_tunnel n !! hip = Some ct \/ (m_tunnel n !! hip = None /\ tunnel_keyed public_key_of_tunnels ct).

Lemma opened_public_refl (n n' : node) : m_tunnel n' = m_tunnel n -> opened_public n n'.
Proof. intros E hip ct. rewrite E. by left. Qed.

Lemma signing_add_tunnel pk (n : node) : wf_pair (m_my_IDC n) -> has_lists (pub_keys pk) -> signing_only (pub_keys pk) ->
  opened_public n (add_tunnel_to_pubkey NTRU SIDH pk n).2.
Proof.
  intros Hn Hl Hs. unfold add_tunnel_to_pubkey. pose proof (ipv6_bin_lists pk) as Hk.
  destruct (get_ipv6_string_bin Hash1 pk) as [[bin|e| |] pk1]; [|by apply opened_public_refl..]. cbn [snd] in Hk.
  unfold mbind, M_mbind, mlift, mget. destruct (haship_of_bin bin) as [hip|e| |]; [|by apply opened_public_refl..].
  destruct (m_tunnel n !! hip) as [ct|] eqn:Et; [by apply opened_public_refl|]. unfold on_rng.
  destruct (new_tunnel NTRU SIDH (m_my_IDC n) pk1 (str "Tunnel") (m_rng n)) as [[ct|e| |] r] eqn:E; [|by apply opened_public_refl..].
  intros hip' ct' Hct. cbn in Hct. destruct (decide (hip' = hip)) as [->|Hne].
  - rewrite lookup_insert_eq in Hct. injection Hct as <-. right. split; [done|].
    eapply signing_tunnel; [..|exact E]; [done|by rewrite Hk|]. intros e He. apply Hs. by rewrite (keys_of_lists _ _ e Hk) in He.
  - rewrite lookup_insert_ne in Hct by done. by left.
Qed.

Lemma append_keeps_tunnels now ref pk (n : node) :
  let n' := (add_peer_append_pubkey now ref pk n).2 in m_tunnel n' = m_tunnel n /\ m_my_IDC n' = m_my_IDC n.
Proof.
  cbv zeta. destruct (add_peer_append_pubkey now ref pk n) as [o n'] eqn:E. cbn [snd]. unfold add_peer_append_pubkey in E.
  destruct (haship_of_pubkey Hash1 pk) as [[hip|e| |] pk1]; [|by injection E as <- <-..].
  unfold mbind, M_mbind, mthrow_if, othrow_if, mlift, mget, on_peer in E.
  destruct (negb (bool_decide (hip = haship_addr ref))); [by injection E as <- <-|].
  destruct (m_peer n !! haship_addr ref) as [p|] eqn:Ep.
  - rewrite Ep in E. destruct (update_peer now ref pk1 (p, m_udp_out n)) as [[[]|e| |] [p' out]]; repeat case_match; by injection E as <- <-.
  - destruct (negb _); cbn [when mput mret M_mret] in E; repeat case_match; by injection E as <- <-.
Qed.

Lemma accept_opens_public now ip idc idi sig (s : state) : wf_pair (m_my_IDC s.2) ->
  opened_public s.2 (accept_hi NTRU SIDH ed_verify ntru_verify now ip idc idi sig s).2.2.
Proof.
  destruct s as [rm n]. cbn [snd]. intros Hn.
  destruct (accept_hi NTRU SIDH ed_verify ntru_verify now ip idc idi sig (rm, n)) as [o s'] eqn:E. cbn [snd].
  unfold accept_hi, mbind, M_mbind, on_snd, mget, mlift in E. cbn [fst snd] in E.
  destruct (load_pubkey idi (m_my_prefix n)) as [his|e| |] eqn:Ei; [|by injection E as <- <-; apply opened_public_refl..].
  destruct (multisign_load_from_bin sig new_multisign) as [[[]|e| |] hs] eqn:Es; [|by injection E as <- <-; apply opened_public_refl..].
  destruct (multi_sign_verify NTRU ed_verify ntru_verify hs idc (pub_keys his)) as [[]|e| |] eqn:Ev;
    [|by injection E as <- <-; apply opened_public_refl..].
  destruct (get_ipv6_string_hexdot Hash1 his) as [[dot|e| |] his2]; [|by injection E as <- <-; apply opened_public_refl..].
  destruct (peering_reference ip dot) as [ref|e| |]; [|by injection E as <- <-; apply opened_public_refl..].
  pose proof (append_keeps_tunnels now ref his2 n) as [Ht Hi]. cbn [fst snd] in E.
  destruct (add_peer_append_pubkey now ref his2 n) as [[[]|e| |] n1]; cbn [snd] in Ht, Hi;
    [|by injection E as <- <-; apply opened_public_refl..].
  cbn [fst snd] in E. pose proof (load_pubkey_lists _ _ _ Ei) as Hl. destruct (multisign_loaded _ _ Es) as [Hsl Hso].
  pose proof (signing_add_tunnel his n1) as Hadd. rewrite Hi in Hadd.
  specialize (Hadd Hn Hl (verified_signing_only _ _ _ _ _ _ Hsl Hl Hso Ev)).
  destruct (add_tunnel_to_pubkey NTRU SIDH his n1) as [ot n2]. injection E as <- <-. cbn [snd] in *.
  unfold opened_public in *. by rewrite Ht in Hadd.
Qed.

(** A public "hi" only opens tunnels whose end-to-end key is one constant,
    the same on every node of the network and known to anybody: the tunnel is
    made to the long-term identity, which can only hold signing keys, and not
    to the exchange keys the identity signed.  So whoever holds that constant
    reads what such a tunnel boxes. *)
Lemma hi_tunnel_key_public now ip buf (s : state) :
  wf_pair (m_my_IDC s.2) -> buf !! 1%nat = Some (cmd_byte e_proto_cmd_public_hi) ->
  let s' := (turn now (ev_udp ip buf) s).2 in
  forall hip ct, m_tunnel s'.2 !! hip = Some ct -> m_tunnel s.2 !! hip <> Some ct ->
    m_tunnel s.2 !! hip = None /\
    forall msg, exists c N ct', box_ab msg ct = (Ret (c, N), ct') /\
      forall odd name, (unbox_nonce c N true (exchanged odd public_key_of_tunnels (new_stream true name))).1 = Ret msg.
Proof.
  intros Hn Hb s' hip ct Hct Hnew.
  assert (opened_public s.2 s'.2) as Hop.
  { unfold s'. rewrite turn_state. cbn [handle_event]. destruct (udp_paths NTRU SIDH ed_verify ntru_verify nonce_default write_to_tun now ip buf s) as [->|(c & cmd & Hc & Ec & Hr)];
      [by apply opened_public_refl|].
    assert (c = cmd_byte e_proto_cmd_public_hi) as -> by congruence. vm_compute in Ec. injection Ec as <-.
    destruct Hr as [[_ ->]|[Hv _]]; [|done]. cbn [handle_cmd].
    unfold handle_public_hi, mbind, M_mbind, mlift.
    destruct (parse_hi buf) as [[[idc idi] sig]|e| |]; [|by apply opened_public_refl..].
    pose proof (accept_opens_public now ip idc idi sig s Hn) as Ha. unfold mcatch.
    destruct (accept_hi NTRU SIDH ed_verify ntru_verify now ip idc idi sig s) as [oa s1]. cbn [snd] in Ha.
    by destruct oa as [[]|e| |]; [|case_bool_decide|..]. }
  destruct (Hop hip ct Hct) as [H|[Hnone (st & Est & Hk)]]; [done|]. split; [done|]. intros msg.
  destruct (box_keyed _ st msg Hk) as (c & N & st' & Eb & _ & Hu). exists c, N. eexists. split.
  - unfold box_ab, use_ab. by rewrite Est, Eb.
  - intros odd name. destruct (Hu (exchanged odd public_key_of_tunnels (new_stream true name)) (exchanged_keyed _ _ _)) as (x & -> & _). done.
Qed.
End Hi.

(** ** At a concrete node *)

#[local] Existing Instance toy_lib.
#[local] Existing Instance toy_net.
#[local] Existing Instance toy_laws.
#[local] Existing Instance toy_boxes.

