(* ===== verification/MeetFacts.v ===== *)
(** * Two nodes meet

    The public "hi" from both sides: what a configured node sends when it pings
    its peers is accepted by every node with the same prefix that has not
    banned it; the receiver then knows the sender under the address of its
    identity, with its keys and the address it sent from, and has a tunnel to
    it. *)
From S2P Require Import Prelude Serialize SerializeFacts Hexstr Cryptobasic Multikeys MultikeysFacts Crypto CryptoFacts.
From S2P Require Import Peering PeeringFacts Routing Peerref Tunserver Tunpackets Tunrpc Toy TunpacketsFacts.
From S2P Require Import ForwardFacts AuthFacts FindFacts DeliverFacts HiFacts.

(** [boost::asio] reads an address written as eight groups of hex digits. *)
Class HexdotLaw `{NL : NetLib} := hexdot_read : forall a s, zlen a = 16 -> hex_of_bin a = Ret s ->
  address_v6_from_string (hexdot_loop 0 (zlen s) s) = Some a.

(** ** Signatures as text *)

(** A collection that [multisign_serialize_bin] can write. *)
Definition wf_sigs (k : c_multicryptostrings) : Prop :=
  length (m_cryptolists_general k) = 32%nat /\ signing_only k /\
  forall e, ser_valid (keys_of k e).

Definition sigs_bytes (k : c_multicryptostrings) : bytes :=
  [byte_of_Z 6] ++ ser_bytes (keys_of k e_crypto_system_type_Ed25519) ++
  [byte_of_Z (enum_to_int e_crypto_system_type_NTRU_sign)] ++ ser_bytes (keys_of k e_crypto_system_type_NTRU_sign).

Lemma sigs_written k : wf_sigs k -> multisign_serialize_bin k = Ret (sigs_bytes k).
Proof.
  intros (Hl & _ & Hv). apply gen_str_pushes. unfold sigs_bytes.
  apply (pushes_bind _ [byte_of_Z 6]); [apply pushes_append|].
  apply (pushes_lift _ _ (keys_of k e_crypto_system_type_Ed25519)); [by apply get_signature_vec_eval|].
  apply (pushes_bind _ (ser_bytes (keys_of k e_crypto_system_type_Ed25519))); [apply (ser_pushes _ (Hv _))|].
  apply (pushes_bind _ [_]); [apply pushes_append|].
  apply (pushes_lift _ _ (keys_of k e_crypto_system_type_NTRU_sign)); [by apply get_signature_vec_eval|].
  apply (ser_pushes _ (Hv _)).
Qed.

(** What is read back has the same signatures. *)
Lemma sigs_read k : wf_sigs k -> exists k', multisign_load_from_bin (sigs_bytes k) new_multisign = (Ret tt, k') /\
  length (m_cryptolists_general k') = 32%nat /\ signing_only k' /\ forall e, keys_of k' e = keys_of k e.
Proof.
  intros (Hl & Hs & Hv). set (ed := keys_of k e_crypto_system_type_Ed25519). set (ntru := keys_of k e_crypto_system_type_NTRU_sign).
  assert (forall e, keys_of new_multisign e = []) as Hnew.
  { intros e. unfold keys_of, new_multisign, new_multicryptostrings. cbn [m_cryptolists_general].
    unfold default. destruct (_ !! _) eqn:El; [|done]. by apply lookup_replicate in El as [-> _]. }
  destruct (add_signature_vec_eval e_crypto_system_type_Ed25519 ed eq_refl new_multisign eq_refl) as (k1 & E1 & Hl1 & Hk1).
  destruct (add_signature_vec_eval e_crypto_system_type_NTRU_sign ntru eq_refl k1 Hl1) as (k2 & E2 & Hl2 & Hk2).
  assert (forall l : list bytes, ser_valid l -> pops pop_vector_string (ser_bytes l) l) as Hpops.
  { intros l [Hn Hf]. apply (pops_counted pop_varstring varstring_bytes); [apply varstring_nonempty|done|].
    eapply Forall_impl; [exact Hf|]. intros x. apply pops_varstring. }
  exists k2. split.
  - assert (loads multisign_load_body (sigs_bytes k) new_multisign k2 tt) as Hload.
    { unfold multisign_load_body, sigs_bytes. fold ed ntru.
      apply (loads_bind _ _ [byte_of_Z 6] _ _ new_multisign _ (byte_of_Z 6)); [apply loads_snd, pops_byte|].
      apply (loads_bind_0 _ _ _ _ new_multisign _ tt); [by apply loads_lift|].
      apply (loads_bind _ _ (ser_bytes ed) _ _ new_multisign _ ed); [apply loads_snd, Hpops, Hv|].
      apply (loads_bind_0 _ _ _ _ k1 _ tt); [by apply loads_fst|].
      apply (loads_bind _ _ [_] _ _ k1 _ (byte_of_Z (enum_to_int e_crypto_system_type_NTRU_sign))); [apply loads_snd, pops_byte|].
      apply (loads_bind_0 _ _ _ _ k1 _ tt); [by apply loads_lift|].
      rewrite <- (app_nil_r (ser_bytes ntru)).
      apply (loads_bind _ _ (ser_bytes ntru) _ _ k1 _ ntru); [apply loads_snd, Hpops, Hv|]. by apply loads_fst. }
    specialize (Hload [] []). cbn [app] in Hload. rewrite app_nil_r in Hload. unfold multisign_load_from_bin.
    change (parser_of_string (sigs_bytes k)) with (Ret (Parser (sigs_bytes k) 0)). cbv beta iota.
    change (zlen (@nil Byte.byte)) with 0 in Hload. by rewrite Hload.
  - assert (forall e, keys_of k2 e = keys_of k e) as Hk.
    { intros e. rewrite Hk2. case_bool_decide as H2.
      { subst e. rewrite Hk1. rewrite bool_decide_eq_false_2 by done. by rewrite Hnew. }
      rewrite Hk1. case_bool_decide as H1; [by subst e; rewrite Hnew|]. rewrite Hnew.
      destruct (keys_of k e) eqn:Ee; [done|]. exfalso. pose proof (Hs e) as Ha. rewrite Ee in Ha. specialize (Ha ltac:(done)).
      unfold cryptosystem_sign_allowed in Ha. apply orb_true_iff in Ha as [Ha|Ha]; apply bool_decide_eq_true in Ha; congruence. }
    split_and!; [done| |done]. intros e He. apply Hs. by rewrite <- Hk.
Qed.

(** ** The address of an identity, in its two forms *)
Section Meet.
Context {Rng : Type} `{!CryptoLib Rng} `{NL : NetLib} `{!CryptoLaws Rng} `{!BoxLaws Rng} `{!HexdotLaw}.
Context (NTRU SIDH : bool).
Context (ed_verify ntru_verify : bytes -> bytes -> bytes -> bool).
Context (nonce_default : bytes) (write_to_tun : bytes -> Z).
#[local] Existing Instance tun_galaxy_node.

Notation node := (@tun_node Rng _).
Notation state := (c_routing_manager * node)%type.
Notation turn := (event_turn NTRU SIDH ed_verify ntru_verify nonce_default write_to_tun).

(** The address of the identity [pk] is [hip]. *)
Definition address_of (pk : c_multikeys_pub) (hip : c_haship_addr) : Prop :=
  (get_ipv6_string_bin Hash1 pk).1 = Ret hip /\ zlen hip = 16.

Lemma address_dot pk hip ip : address_of pk hip -> exists dot pk',
  get_ipv6_string_hexdot Hash1 pk = (Ret dot, pk') /\ peering_reference ip dot = Ret (PeeringReference ip hip) /\
  (haship_of_pubkey Hash1 pk').1 = Ret hip /\ pk' = (get_ipv6_string_bin Hash1 pk).2.
Proof.
  intros [E Hl]. pose proof (haship_after_hexdot pk) as Hh. rewrite (haship_of_pubkey_bin _ _ E Hl) in Hh.
  unfold get_ipv6_string_hexdot, get_ipv6_string_hex in *. destruct (get_ipv6_string_bin Hash1 pk) as [o pk'] eqn:Eb. cbn in E. subst o.
  destruct (hex_of_bin_eval hip) as (s & Es & _); [by rewrite Hl|].
  assert ((get_ipv6_string_bin Hash1 ≫= (fun as_bin => mlift (hex_of_bin as_bin))) pk = (Ret s, pk')) as E
    by (rewrite (M_bind_ret _ _ _ _ _ Eb); unfold mlift; by rewrite Es).
  rewrite (M_bind_ret _ _ _ _ _ E) in Hh |- *.
  eexists _, pk'. split; [done|]. split; [|done]. unfold peering_reference, haship_of_dot. rewrite (hexdot_read hip s Hl Es).
  cbn. by rewrite Hl.
Qed.

(** ** What the receiver does *)

(** The node may take [hip] as a peer at [ip]: it has not banned it, and an
    address it knows for it can be compared with [ip]. *)
Definition welcomes (n : node) (hip : c_haship_addr) (ip : c_ip46_addr) : Prop :=
  ip <> tag_none /\
  match m_peer n !! hip with
  | Some p => m_peering_addr p <> tag_none
  | None => hip ∉ m_peer_black_list n
  end.

(** The peer as the "hi" leaves it. *)
Definition met (n : node) (hip : c_haship_addr) (ip : c_ip46_addr) (keys : list (list bytes)) : Prop :=
  exists p pk, m_peer n !! hip = Some p /\ m_peering_addr p = ip /\ m_haship_addr p = hip /\ m_pubkey p = Some pk /\
    m_cryptolists_general (pub_keys pk) = keys.

Lemma haship_of_pubkey_lists pk : m_cryptolists_general (pub_keys (haship_of_pubkey Hash1 pk).2) = m_cryptolists_general (pub_keys pk).
Proof.
  rewrite <- (ipv6_bin_lists pk). unfold haship_of_pubkey, mbind, M_mbind, mlift.
  by destruct (get_ipv6_string_bin Hash1 pk) as [[b|e| |] pk'].
Qed.

Lemma update_met now hip ip pk p out : ip <> tag_none -> m_peering_addr p <> tag_none ->
  exists p', update_peer now (PeeringReference ip hip) pk (p, out) = (Ret tt, (p', out)) /\
    m_peering_addr p' = ip /\ m_haship_addr p' = m_haship_addr p /\ m_pubkey p' = Some pk.
Proof.
  intros Hip Hp. unfold update_peer, mbind, M_mbind, on_fst, mmodify, mget, mlift. cbn.
  assert (exists b, ip_eq (m_peering_addr p) ip = Ret b /\ (b = true -> m_peering_addr p = ip)) as (b & -> & Hb).
  { destruct (m_peering_addr p), ip; try done; (eexists; split; [reflexivity|]); try done;
      intros [->%bool_decide_eq_true ->%Z.eqb_eq]%andb_true_iff; done. }
  destruct b; cbn; eexists; (split; [reflexivity|]); cbn; split_and!; try done. by apply Hb.
Qed.

Lemma append_met now hip ip pk (n : node) : (haship_of_pubkey Hash1 pk).1 = Ret hip -> welcomes n hip ip ->
  (forall p, m_peer n !! hip = Some p -> m_haship_addr p = hip) ->
  exists n', add_peer_append_pubkey now (PeeringReference ip hip) pk n = (Ret tt, n') /\
    met n' hip ip (m_cryptolists_general (pub_keys pk)) /\ m_tunnel n' = m_tunnel n /\ m_my_IDC n' = m_my_IDC n /\
    (forall k, k <> hip -> m_peer n' !! k = m_peer n !! k).
Proof.
  intros E [Hip Hw] Hfiled. pose proof (haship_of_pubkey_lists pk) as Hlists. unfold add_peer_append_pubkey. cbn [haship_addr].
  destruct (haship_of_pubkey Hash1 pk) as [o pk1]. cbn [fst snd] in *. subst o.
  rewrite bind_lift, bool_decide_eq_true_2 by done. cbn [negb].
  rewrite (M_bind_ret _ _ n tt n) by done. unfold mbind at 1, M_mbind at 1, mget at 1.
  destruct (m_peer n !! hip) as [p|] eqn:Ep.
  - destruct (update_met now hip ip pk1 p (m_udp_out n) Hip Hw) as (p' & E & H1 & H2 & H3).
    set (n1 := with_udp_out (m_udp_out n) (with_peers (<[hip := p']> (m_peer n)) n)).
    assert (on_peer hip (update_peer now (PeeringReference ip hip) pk1) n = (Ret tt, n1)) as E1 by (unfold on_peer; by rewrite Ep, E).
    exists n1. rewrite (M_bind_ret _ _ _ _ _ E1). unfold mbind, M_mbind, mget.
    assert (m_peer n1 !! hip = Some p') as Hl by (cbn; by rewrite lookup_insert_eq).
    rewrite Hl. split; [by destruct (20 <? g_dbg_level n1)|]. split; [|split_and!; [done..|intros k Hk; cbn; by rewrite lookup_insert_ne]].
    exists p', pk1. split_and!; try done. by rewrite H2, (Hfiled p eq_refl).
  - rewrite bool_decide_eq_false_2 by done. cbn [negb when].
    set (p' := set_pubkey pk1 (new_peering now (PeeringReference ip hip))). set (n1 := with_peers (<[hip := p']> (m_peer n)) n).
    exists n1. rewrite (M_bind_ret _ _ _ tt n1) by done. unfold mbind, M_mbind, mget.
    assert (m_peer n1 !! hip = Some p') as Hl by (cbn; by rewrite lookup_insert_eq).
    rewrite Hl. split; [by destruct (20 <? g_dbg_level n1)|]. split; [|split_and!; [done..|intros k Hk; cbn; by rewrite lookup_insert_ne]].
    by exists p', pk1.
Qed.

Lemma ipv6_bin_hash pk hip : (get_ipv6_string_bin Hash1 pk).1 = Ret hip ->
  exists h, (get_hash Hash1 (pub_keys (get_ipv6_string_bin Hash1 pk).2)).1 = Ret h.
Proof.
  pose proof (get_hash_again (pub_keys pk)) as Hg.
  unfold get_ipv6_string_bin, on_pub_keys, mbind, M_mbind, mget, mlift, mret, M_mret.
  destruct (get_hash Hash1 (pub_keys pk)) as [[h|e| |] k]; try done. cbn in Hg |- *. intros _. exists h.
  by destruct (bin_of_hex (m_ipv6_prefix pk)).
Qed.

(** The exchange with an identity of signing keys only never fails. *)
Lemma signing_exchange self them s rng h h' : wf_pair self -> length (m_cryptolists_general (pub_keys them)) = 32%nat ->
  signing_only (pub_keys them) -> (get_hash Hash1 (pub_keys (m_pub self))).1 = Ret h -> (get_hash Hash1 (pub_keys them)).1 = Ret h' ->
  length (m_cryptolists_count s) = 32%nat -> m_side_initiator s = true ->
  exists rng' s', exchange_start NTRU SIDH self them true (rng, s) = (Ret tt, (rng', s')).
Proof.
  intros [HP HPRV] HQ Hs Hh Hh' Hlen Hside. set (Q := MultikeysPAIR them (m_PRV self)).
  assert (forall sys, 0 < zlen (keys_of (pub_keys (m_pub self)) sys) -> 0 < zlen (keys_of (pub_keys (m_pub Q)) sys) ->
    sys = e_crypto_system_type_Ed25519 \/ sys = e_crypto_system_type_NTRU_sign) as Hno.
  { intros sys _ Hq. pose proof (Hs sys) as Ha. unfold Q in Hq. cbn [m_pub] in Hq.
    destruct (keys_of (pub_keys them) sys) eqn:Eq; [done|]. specialize (Ha ltac:(done)). destruct sys; try discriminate Ha; auto. }
  destruct (KCT_no_common NTRU SIDH self Q HP HPRV HQ Hno [] rng s ∅ Hlen) as (s' & Ek); [by rewrite Hside|].
  exists rng. eexists. unfold exchange_start. eapply exchange_eval; [exact Ek|].
  unfold calculate_nonce_odd, hash_greater. rewrite Hh, Hh'. reflexivity.
Qed.

(** Opening the tunnel succeeds. *)
Lemma tunnel_opens hip pk (n : node) : address_of pk hip -> wf_pair (m_my_IDC n) ->
  (exists h, (get_hash Hash1 (pub_keys (m_pub (m_my_IDC n)))).1 = Ret h) ->
  length (m_cryptolists_general (pub_keys pk)) = 32%nat -> signing_only (pub_keys pk) ->
  exists n', add_tunnel_to_pubkey NTRU SIDH pk n = (Ret tt, n') /\ is_Some (m_tunnel n' !! hip) /\ m_peer n' = m_peer n.
Proof.
  intros [E Hl] Hself [h Hh] Hk Hs. destruct (ipv6_bin_hash pk hip E) as [h' Hh'].
  pose proof (ipv6_bin_lists pk) as Hlists. unfold add_tunnel_to_pubkey.
  destruct (get_ipv6_string_bin Hash1 pk) as [o pk1]. cbn [fst snd] in *. subst o. rewrite bind_lift.
  assert (haship_of_bin hip = Ret hip) as -> by (unfold haship_of_bin; by rewrite Hl). rewrite bind_lift.
  unfold mbind at 1, M_mbind at 1, mget at 1. destruct (m_tunnel n !! hip) as [ct|] eqn:Et; [exists n; by rewrite Et|].
  destruct (signing_exchange (m_my_IDC n) pk1 (new_stream true (str "Tunnel" ++ str "-CTab")) (m_rng n) h h' Hself)
    as (rng' & s' & Ex); [by rewrite Hlists| |done..|].
  { intros e He. apply Hs. by rewrite <- (keys_of_lists _ _ e Hlists). }
  assert (new_tunnel NTRU SIDH (m_my_IDC n) pk1 (str "Tunnel") (m_rng n)
    = (Ret (Tunnel true None (Some s') None (str "Tunnel")), rng')) as Enew.
  { unfold new_tunnel. rewrite (M_bind_ret _ _ _ s' rng'); [done|]. unfold on_stream. by rewrite Ex. }
  eexists. split; [|split].
  - unfold on_rng. rewrite (M_bind_ret _ _ _ (Tunnel true None (Some s') None (str "Tunnel")) (with_rng rng' n)); [reflexivity|].
    by rewrite Enew.
  - cbn. rewrite lookup_insert_eq. by eexists.
  - done.
Qed.

(** ** What the sender sends *)

(** The public parts of a node as they are sent. *)
Definition my_idc (n : node) : c_multicryptostrings := pub_keys (m_pub (m_my_IDC n)).
Definition my_idi (n : node) : c_multicryptostrings := pub_keys (m_my_IDI_pub n).

(** The node is configured: its identity signed its exchange keys, its address
    is that of the identity, and all of it can be written. *)
Record configured (n : node) : Prop := {
  cf_idc : wf_keys (my_idc n);
  cf_idi : wf_keys (my_idi n);
  cf_use : m_crypto_use (my_idi n) = e_crypto_use_open;
  cf_sigs : wf_sigs (m_IDI_IDC_sig n);
  cf_signed : multi_sign_verify NTRU ed_verify ntru_verify (m_IDI_IDC_sig n) (keys_bytes (my_idc n)) (my_idi n) = Ret tt;
  cf_address : address_of (MultikeysPub (set_hash [] (my_idi n)) (m_my_prefix n)) (m_my_hip n);
  cf_sizes : Forall (fun d => zlen d <= SANE_MAX_SIZE_FOR_STRING)
    [keys_bytes (my_idc n); keys_bytes (my_idi n); sigs_bytes (m_IDI_IDC_sig n)]
}.

Definition hi_bytes (n : node) : bytes :=
  varstring_bytes (keys_bytes (my_idc n)) ++ varstring_bytes (keys_bytes (my_idi n)) ++ varstring_bytes (sigs_bytes (m_IDI_IDC_sig n)).

Lemma hi_data_eval n : configured n -> hi_data n = Ret (hi_bytes n).
Proof.
  intros [H1 H2 _ H3 _ _ H4]. unfold hi_data, get_serialize_bin_pubkey. fold (my_idc n) (my_idi n).
  rewrite (serialize_bin_eval _ H1), (serialize_bin_eval _ H2), (sigs_written _ H3).
  apply Forall_cons in H4 as [Ha H4]. apply Forall_cons in H4 as [Hb H4]. apply Forall_cons in H4 as [Hc _].
  unfold SANE_MAX_SIZE_FOR_STRING in *.
  apply gen_str_pushes. apply pushes_bind; [|apply pushes_bind]; apply pushes_varstring; lia.
Qed.

(** The datagram, and the peers it is sent to. *)
Definition hi_datagram (n : node) : bytes := [byte_of_Z current_version; cmd_byte e_proto_cmd_public_hi] ++ hi_bytes n.

Definition kept_peers (now : Z) (n : node) : gmap c_haship_addr c_peering :=
  if enable_remove n then filter (fun kp => ~ peer_timeout n < seconds_since now (m_last_ping_time kp.2)) (m_peer n) else m_peer n.

Lemma ping_eval now (n : node) : configured n -> map_Forall (fun _ p => m_peering_addr p <> tag_none) (m_peer n) ->
  exists n', peering_ping_all_peers now n = (Ret tt, n') /\
    m_udp_out n' = m_udp_out n ++ map (fun kp => (m_peering_addr kp.2, hi_datagram n)) (map_items string_le (kept_peers now n)).
Proof.
  intros Hc Hp. pose proof (hi_data_eval n Hc) as Hd. unfold peering_ping_all_peers.
  set (n1 := if enable_remove n then with_peers (kept_peers now n) n else n).
  rewrite (M_bind_ret _ _ _ tt n1) by (unfold mmodify, n1, kept_peers; by destruct (enable_remove n)).
  unfold mbind at 1, M_mbind at 1, mget at 1.
  assert (hi_data n1 = Ret (hi_bytes n) /\ m_udp_out n1 = m_udp_out n /\ m_peer n1 = kept_peers now n) as (Hd1 & Hu & Hk)
    by (unfold n1, kept_peers; by destruct (enable_remove n)).
  unfold peers_in_order. rewrite Hk, Hd1, <- Hu.
  assert (Forall (fun kp : c_haship_addr * c_peering => m_peering_addr kp.2 <> tag_none) (map_items string_le (kept_peers now n))) as Hall.
  { apply Forall_forall. intros [k p] Hin. assert ((k, p) ∈ map_to_list (kept_peers now n)) as Hin' by (by rewrite map_items_Permutation in Hin).
    apply elem_of_map_to_list in Hin'. unfold kept_peers in Hin'. cbn. apply (Hp k).
    destruct (enable_remove n); [by apply map_lookup_filter_Some in Hin' as [? _]|done]. }
  clearbody n1. clear Hk Hd1 Hu. revert n1. induction Hall as [|[k p] l Hne Hall IH]; intros n1; cbn [mfor].
  - exists n1. by rewrite app_nil_r.
  - rewrite (M_bind_ret _ _ _ tt (with_udp_out (m_udp_out n1 ++ [(m_peering_addr p, hi_datagram n)]) n1)).
    + destruct (IH (with_udp_out (m_udp_out n1 ++ [(m_peering_addr p, hi_datagram n)]) n1)) as (n' & E & Ho).
      exists n'. split; [done|]. rewrite Ho. cbn. by rewrite <- app_assoc.
    + rewrite bind_lift. unfold on_udp, send_data_udp_cmd, send_data_RAW_udp, mmodify, hi_datagram. cbn [snd] in Hne |- *.
      by destruct (m_peering_addr p).
Qed.

(** ** The "hi" is accepted *)

(** Verification looks at the keys only. *)
Lemma verify_same sigs sigs' msg pks pks' :
  has_lists sigs -> has_lists sigs' -> has_lists pks -> has_lists pks' ->
  (forall e, keys_of sigs' e = keys_of sigs e) -> (forall e, keys_of pks' e = keys_of pks e) ->
  multi_sign_verify NTRU ed_verify ntru_verify sigs' msg pks' = multi_sign_verify NTRU ed_verify ntru_verify sigs msg pks.
Proof.
  intros H1 H2 H3 H4 Hs Hp. rewrite !verify_all_eval by done.
  assert (forall e, system_ok NTRU ed_verify ntru_verify sigs' msg pks' e = system_ok NTRU ed_verify ntru_verify sigs msg pks e) as Hok
    by (intros e; unfold system_ok; by rewrite Hs, Hp).
  assert (forall l, forallb (system_ok NTRU ed_verify ntru_verify sigs' msg pks') l = forallb (system_ok NTRU ed_verify ntru_verify sigs msg pks) l)
    as -> by (intros l; induction l as [|e l IH]; [done|]; cbn [forallb]; by rewrite Hok, IH). done.
Qed.

Lemma parse_hi_datagram n : configured n ->
  parse_hi (hi_datagram n) = Ret (keys_bytes (my_idc n), keys_bytes (my_idi n), sigs_bytes (m_IDI_IDC_sig n)).
Proof.
  intros [_ _ _ _ _ _ H4]. apply Forall_cons in H4 as [Ha H4]. apply Forall_cons in H4 as [Hb H4]. apply Forall_cons in H4 as [Hc _].
  unfold parse_hi, hi_datagram, hi_bytes. cbn [app drop]. rewrite drop_0.
  set (A := keys_bytes (my_idc n)) in *. set (B := keys_bytes (my_idi n)) in *. set (C := sigs_bytes (m_IDI_IDC_sig n)) in *.
  assert (pops (idc ← pop_varstring; idi ← pop_varstring; sig ← pop_varstring; mret (idc, idi, sig))
    (varstring_bytes A ++ varstring_bytes B ++ varstring_bytes C ++ []) (A, B, C)) as Hp.
  { apply (pops_bind _ _ _ _ A); [by apply pops_varstring|]. apply (pops_bind _ _ _ _ B); [by apply pops_varstring|].
    apply (pops_bind _ _ _ _ C); [by apply pops_varstring|]. apply pops_ret. }
  specialize (Hp [] []). cbn [app] in Hp. rewrite !app_nil_r, zlen_nil in Hp. unfold parser_of_buffer. by rewrite Hp.
Qed.

(** The receiver takes the identity as it was sent. *)
Lemma load_pubkey_sent k prefix : wf_keys k -> m_crypto_use k = e_crypto_use_open ->
  load_pubkey (keys_bytes k) prefix = Ret (MultikeysPub (set_hash [] k) prefix).
Proof. intros Hw Hu. unfold load_pubkey. by rewrite (load_pub_keys _ Hw Hu). Qed.

(** The node [b] can open a tunnel to an identity of signing keys. *)
Definition can_open (b : node) : Prop :=
  wf_pair (m_my_IDC b) /\ exists h, (get_hash Hash1 (pub_keys (m_pub (m_my_IDC b)))).1 = Ret h.

Definition filed (b : node) : Prop := forall k p, m_peer b !! k = Some p -> m_haship_addr p = k.

Lemma accept_met now ip (a b : node) rm : configured a -> can_open b -> filed b -> m_my_prefix b = m_my_prefix a ->
  welcomes b (m_my_hip a) ip ->
  exists b' : node, accept_hi NTRU SIDH ed_verify ntru_verify now ip (keys_bytes (my_idc a)) (keys_bytes (my_idi a))
      (sigs_bytes (m_IDI_IDC_sig a)) (rm, b) = (Ret tt, (rm, b')) /\
    met b' (m_my_hip a) ip (m_cryptolists_general (my_idi a)) /\ is_Some (m_tunnel b' !! m_my_hip a) /\
    (forall k, k <> m_my_hip a -> m_peer b' !! k = m_peer b !! k).
Proof.
  intros [H1 H2 Hu H3 Hv Haddr H4] [Hpair Hh] Hfiled Hpre Hw. unfold accept_hi.
  assert (forall X (f : _ -> M state X), (on_snd mget ≫= f) (rm, b) = f b (rm, b)) as -> by done.
  rewrite Hpre, (load_pubkey_sent _ _ H2 Hu), bind_lift.
  destruct (sigs_read _ H3) as (k' & -> & Hl' & Hso & Hk'). rewrite bind_lift.
  set (pk := MultikeysPub (set_hash [] (my_idi a)) (m_my_prefix a)) in *. cbn [pub_keys].
  assert (has_lists (m_IDI_IDC_sig a)) as Hl by apply H3. assert (has_lists (my_idi a)) as Hli by apply H2.
  assert (multi_sign_verify NTRU ed_verify ntru_verify k' (keys_bytes (my_idc a)) (pub_keys pk) = Ret tt) as Hv'
    by (rewrite <- Hv; by apply verify_same).
  rewrite Hv', !bind_lift.
  destruct (address_dot pk (m_my_hip a) ip Haddr) as (dot & pk' & -> & Href & Hhip & Hpk'). rewrite bind_lift, Href, bind_lift.
  destruct (append_met now (m_my_hip a) ip pk' b Hhip Hw) as (b1 & E1 & Hmet & Ht1 & Hi1 & Hother); [by intros p; apply Hfiled|].
  assert (on_snd (add_peer_append_pubkey now (PeeringReference ip (m_my_hip a)) pk') (rm, b) = (Ret tt, (rm, b1))) as E1'
    by (unfold on_snd; cbn [fst snd]; by rewrite E1).
  rewrite (M_bind_ret _ _ _ _ _ E1'), bind_lift.
  assert (m_cryptolists_general (pub_keys pk') = m_cryptolists_general (my_idi a)) as Hlists by (rewrite Hpk'; apply ipv6_bin_lists).
  destruct (tunnel_opens (m_my_hip a) pk b1 Haddr) as (b2 & E2 & Htun & Hpeer); [by rewrite Hi1..|done| |].
  { apply (verified_signing_only NTRU ed_verify ntru_verify k' (keys_bytes (my_idc a))); done. }
  exists b2. split; [unfold on_snd; cbn [fst snd]; by rewrite E2|].
  rewrite Hlists in Hmet. unfold met. rewrite Hpeer. by split_and!.
Qed.

(** C3: two nodes meet.  A configured node [a] that pings its peers sends its
    "hi" to each of them, and nothing else; and any node [b] with the same
    prefix that receives this "hi" from the address [ip] and has not banned
    [a] accepts it: it then has [a] among its peers, under the address of
    [a]'s identity, at [ip] and with exactly [a]'s identity keys, and it has a
    tunnel to [a]. *)
Theorem hi_accepted now now' ip (a b : node) rm : configured a -> can_open b -> filed b -> m_my_prefix b = m_my_prefix a ->
  map_Forall (fun _ p => m_peering_addr p <> tag_none) (m_peer a) -> welcomes b (m_my_hip a) ip ->
  (exists a' : node, turn now ev_ping (rm, a) = (Ret tt, (rm, a')) /\
    m_udp_out a' = m_udp_out a ++ map (fun kp => (m_peering_addr kp.2, hi_datagram a)) (map_items string_le (kept_peers now a))) /\
  (exists b' : node, turn now' (ev_udp ip (hi_datagram a)) (rm, b) = (Ret tt, (rm, b')) /\
    met b' (m_my_hip a) ip (m_cryptolists_general (my_idi a)) /\ is_Some (m_tunnel b' !! m_my_hip a)).
Proof.
  intros Ha Hb Hf Hpre Hp Hw. split.
  - destruct (ping_eval now a Ha Hp) as (a' & E & Ho). exists a'. split; [|done].
    unfold event_turn, mcatch. cbn [handle_event]. unfold on_snd. cbn [fst snd]. by rewrite E.
  - destruct (accept_met now' ip a b rm Ha Hb Hf Hpre Hw) as (b' & E & Hm & Ht & _). exists b'. split; [|done].
    unfold event_turn, mcatch. cbn [handle_event].
    assert (handle_udp NTRU SIDH ed_verify ntru_verify nonce_default write_to_tun now' ip (hi_datagram a) (rm, b)
      = handle_public_hi NTRU SIDH ed_verify ntru_verify now' ip (hi_datagram a) (rm, b)) as -> by reflexivity.
    unfold handle_public_hi. rewrite (parse_hi_datagram a Ha), bind_lift. unfold mcatch. by rewrite E.
Qed.
End Meet.

(** ** At concrete nodes *)

#[local] Existing Instance toy_lib.
#[local] Existing Instance toy_net.
#[local] Existing Instance toy_laws.
#[local] Existing Instance toy_boxes.

Lemma hexdot_filtered n ds : forall i, forallb is_hex_digit ds = true -> filter (fun c => c <> Byte.x3a) (hexdot_loop i n ds) = ds.
Proof.
  induction ds as [|c ds IH]; intros i; [done|]. cbn [forallb hexdot_loop]. intros [Hc Hds]%andb_true_iff.
  rewrite filter_cons, decide_True by (intros ->; discriminate Hc). f_equal.
  by destruct (_ && _); cbn [app]; [rewrite filter_cons, decide_False by (intros H; by apply H)|]; apply IH.
Qed.

#[local] Instance toy_hexdot : HexdotLaw.
Proof.
  intros a s Ha E. destruct (hex_of_bin_eval a) as (ds & E' & _ & Hx & Hb); [lia|]. rewrite E in E'. injection E' as ->.
  cbn. unfold toy_v6. by rewrite hexdot_filtered, bin_of_hex_eval, Hb, Ha.
Qed.

Definition meet_A : @tun_node Z toy_lib := toy_node (str "A") {[ toy_hip (str "R") := toy_peer (str "R") ]}.
Definition meet_B : @tun_node Z toy_lib := toy_node (str "B") {[ toy_hip (str "R") := toy_peer (str "R") ]}.

Lemma toy_configured (n : @tun_node Z toy_lib) : n = meet_A \/ n = meet_B ->
  configured true (fun _ _ _ => true) (fun _ _ _ => true) n.
Proof.
  intros [-> | ->]; (split; [apply wf_keysb_ok; vm_compute; reflexivity|apply wf_keysb_ok; vm_compute; reflexivity|reflexivity| | | |]).
  1, 5: (split; [reflexivity|]; split;
    [intros e He; destruct e; try reflexivity; exfalso; by apply He
    |intros e; split; [by destruct e|]; destruct e; repeat constructor; vm_compute; discriminate]).
  1, 4: (vm_compute; reflexivity).
  1, 3: (vm_compute; split; reflexivity).
  all: repeat constructor; vm_compute; discriminate.
Qed.

Lemma hi_accepted_witness :
  exists b' : @tun_node Z toy_lib,
    toy_turn 5 (ev_udp (toy_addr (str "A")) (hi_datagram meet_A)) (toy_rm, meet_B) = (Ret tt, (toy_rm, b')) /\
    met b' (toy_hip (str "A")) (toy_addr (str "A")) (<[6%nat := [str "A"]]> (replicate 32 [])) /\
    is_Some (m_tunnel b' !! toy_hip (str "A")).
Proof.
  refine (proj2 (hi_accepted true true (fun _ _ _ => true) (fun _ _ _ => true) [] (fun x => zlen x) 3 5
    (toy_addr (str "A")) meet_A meet_B toy_rm (toy_configured meet_A (or_introl eq_refl)) _ _ eq_refl _ _)).
  - split; [split; reflexivity|]. eexists. vm_compute. reflexivity.
  - intros k p Hp. unfold meet_B in Hp. cbn [m_peer toy_node] in Hp. apply lookup_singleton_Some in Hp as [<- <-]. reflexivity.
  - intros k p Hp. unfold meet_A in Hp. cbn [m_peer toy_node] in Hp. apply lookup_singleton_Some in Hp as [<- <-]. discriminate.
  - split; [discriminate|]. vm_compute. intros H. discriminate H || apply H.
Defined.
