(* ===== verification/EndtoendFacts.v ===== *)
(** * From strangers to packets

    Two configured nodes that hear each other's public "hi" can send each
    other packets: [MeetFacts], which makes them peers with a tunnel each, the
    key of such tunnels from [HiFacts], and the delivery of [DeliverFacts],
    composed. *)
From S2P Require Import Prelude Serialize SerializeFacts Hexstr Cryptobasic Multikeys MultikeysFacts Crypto CryptoFacts.
From S2P Require Import Peering PeeringFacts Routing Peerref Tunserver Tunpackets Tunrpc Toy TunpacketsFacts.
From S2P Require Import ForwardFacts AuthFacts FindFacts DeliverFacts HiFacts MeetFacts.

Section End.
Context {Rng : Type} `{!CryptoLib Rng} `{NL : NetLib} `{!CryptoLaws Rng} `{!BoxLaws Rng} `{!WireLaws Rng} `{!HexdotLaw}.
Context (NTRU SIDH : bool).
Context (ed_verify ntru_verify : bytes -> bytes -> bytes -> bool).
Context (nonce_default : bytes) (write_to_tun : bytes -> Z).
#[local] Existing Instance tun_galaxy_node.

Notation node := (@tun_node Rng _).
Notation state := (c_routing_manager * node)%type.
Notation turn := (event_turn NTRU SIDH ed_verify ntru_verify nonce_default write_to_tun).
Notation conf := (configured NTRU ed_verify ntru_verify).

(** ** Who a datagram is from *)

(** Every peer has an address it can be sent to. *)
Definition addressed (n : node) : Prop := map_Forall (fun _ p => m_peering_addr p <> tag_none) (m_peer n).

(** The address of a peer is recognized, as that of some peer. *)
Lemma find_peer_found l ip : Forall (fun kp : c_haship_addr * c_peering => m_peering_addr kp.2 <> tag_none) l -> ip <> tag_none ->
  Exists (fun kp => m_peering_addr kp.2 = ip) l -> exists k, find_peer_loop l ip = Ret k.
Proof.
  intros Hl Hip. induction Hl as [|[k p] l Hp Hl IH]; intros He; [by inversion He|]. cbn [find_peer_loop snd] in *.
  assert (exists x, ip_eq (m_peering_addr p) ip = Ret x /\ (m_peering_addr p = ip -> x = true)) as (x & -> & Hx).
  { destruct (m_peering_addr p), ip; try done; eexists; (split; [reflexivity|]); try done;
      intros [= -> ->]; by rewrite bool_decide_eq_true_2, Z.eqb_refl. }
  unfold mbind, outcome_mbind. cbn [outcome_bind]. destruct (x && _) eqn:E; [by eexists|].
  apply Exists_cons in He as [He|He]; [|by apply IH]. cbn [snd] in He. rewrite (Hx He), He, Z.eqb_refl in E. done.
Qed.

Lemma peer_recognized (n : node) k p : addressed n -> m_peer n !! k = Some p ->
  exists k', find_peer_loop (peers_in_order n) (m_peering_addr p) = Ret k'.
Proof.
  intros Ha Hp. apply find_peer_found.
  - apply Forall_forall. intros [j q] Hin%peers_in_order_in. by apply (Ha j).
  - by apply (Ha k).
  - apply Exists_exists. exists (k, p). split; [|done].
    unfold peers_in_order. rewrite (map_items_Permutation string_le (m_peer n)). by apply elem_of_map_to_list.
Qed.

(** ** Sending to a direct peer *)

Lemma peer_send_eval now data src dst ttl nonce k p d (n : node) : m_peer n !! k = Some p -> m_peering_addr p <> tag_none ->
  tunneled_datagram src dst ttl nonce data = Ret d ->
  exists p', on_peer k (send_data_udp now data src dst ttl nonce) n
    = (Ret tt, with_udp_out (m_udp_out n ++ [(m_peering_addr p, d)]) (with_peers (<[k := p']> (m_peer n)) n)).
Proof.
  intros Hp Ha Hd. unfold on_peer. rewrite Hp. unfold send_data_udp, mbind, M_mbind, mlift. rewrite Hd. cbn.
  destruct (m_peering_addr p); [done|by eexists..].
Qed.

Lemma route_direct now data src dst ttl nonce p d (s : state) : m_peer s.2 !! dst = Some p -> m_peering_addr p <> tag_none ->
  0 < ttl -> tunneled_datagram src dst ttl nonce data = Ret d ->
  m_udp_out (route_top now data src dst own_reason ttl nonce s).2.2 = m_udp_out s.2 ++ [(m_peering_addr p, d)].
Proof.
  intros Hp Ha Ht Hd. unfold route_top. rewrite (proj2 (Z.leb_gt ttl 0)) by lia. unfold mcatch. cbn [route_detail].
  rewrite (proj2 (Z.leb_gt ttl 0)) by lia. unfold mbind at 1, M_mbind at 1, on_snd at 1, mget. cbn [fst snd].
  rewrite bool_decide_eq_false_2 by (intros E; by rewrite E, lookup_empty in Hp). rewrite Hp.
  destruct (peer_send_eval now data src dst ttl nonce dst p d s.2 Hp Ha Hd) as (p' & E).
  unfold mbind, M_mbind, on_snd. cbn [fst snd]. by rewrite E.
Qed.

(** A packet from the TUN device for a direct peer is sent to it, once. *)
Lemma tun_sends_direct K pre hipA hipB payload hdr (s : state) ct p now :
  ipv6_parts pre hipA hipB payload -> zlen hdr = 4 -> m_tun_header_offset_ipv6 s.2 = 4 ->
  m_tunnel s.2 !! hipB = Some ct -> tunnel_keyed K ct -> m_peer s.2 !! hipB = Some p -> m_peering_addr p <> tag_none ->
  exists d, m_udp_out (turn now (ev_tun (hdr ++ ipv6_packet pre hipA hipB payload)) s).2.2 = m_udp_out s.2 ++ [(m_peering_addr p, d)] /\
    d !! 1%nat = Some (cmd_byte e_proto_cmd_tunneled_data).
Proof.
  intros Hparts Hh Ho Ht Hk Hp Ha. destruct s as [rm n]. cbn [snd] in *. rewrite turn_state. cbn [handle_event].
  pose proof Hparts as [? ? ? ? Hg ?]. pose proof (zlen_nonneg payload).
  unfold handle_tun, mbind at 1, M_mbind at 1, on_snd at 1, mget. cbn [fst snd]. rewrite Ho.
  rewrite (parse_frame pre hipA hipB payload Hparts hdr Hh), bind_lift, Hg, bind_lift. cbn [negb]. rewrite Ht.
  unfold mbind at 1, M_mbind at 1, massert, oassert, mlift at 1.
  rewrite zlen_app, (zlen_packet pre hipA hipB payload Hparts), Hh, !(proj2 (Z.leb_le _ _)) by (unfold header_position_of_ipv6; lia).
  cbn [andb]. rewrite (cleartext_frame pre hipA hipB payload Hparts hdr Hh), bind_lift.
  destruct (box_ab_keyed K ct (inner pre hipA payload) Hk) as (c & N & ct' & Eb & HN & Hc & _).
  unfold mbind at 1, M_mbind at 1, on_snd at 1, on_tunnel. cbn [fst snd]. rewrite Ht, Eb.
  exists ([Byte.x01; Byte.x02] ++ tunneled_body hipA hipB 5 N c). split; [|reflexivity].
  set (s1 := (rm, with_tunnel (<[hipB:=ct']> (m_tunnel n)) n)).
  assert (tunneled_datagram hipA hipB 5 N c = Ret ([Byte.x01; Byte.x02] ++ tunneled_body hipA hipB 5 N c)) as Hd.
  { apply tunneled_datagram_eval; try done. unfold inner in Hc. rewrite !zlen_app in Hc. lia. }
  pose proof (route_direct now c hipA hipB 5 N p _ s1 Hp Ha ltac:(lia) Hd) as Hr.
  unfold mbind, M_mbind, mret, M_mret. by destruct (route_top now c hipA hipB own_reason 5 N s1) as [[b|e| |] s2].
Qed.

(** ** Hearing a "hi" *)

(** [n'] is [n] after it accepted the "hi" of the address [hip] from [ip]: a
    peer at [ip] and a tunnel with the key such tunnels have; everything else
    that packets need is as it was. *)
Record heard (n n' : node) (hip : c_haship_addr) (ip : c_ip46_addr) : Prop := {
  hd_peer : exists p, m_peer n' !! hip = Some p /\ m_peering_addr p = ip;
  hd_tunnel : exists ct, m_tunnel n' !! hip = Some ct /\ tunnel_keyed public_key_of_tunnels ct;
  hd_others : forall k, k <> hip -> m_peer n' !! k = m_peer n !! k;
  hd_hip : m_my_hip n' = m_my_hip n;
  hd_offset : m_tun_header_offset_ipv6 n' = m_tun_header_offset_ipv6 n
}.

Lemma identity_closed hip offset : packet_closed (fun n : node => m_my_hip n = hip /\ m_tun_header_offset_ipv6 n = offset).
Proof. by split. Qed.

Lemma hears now ip (a b : node) rm : conf a -> can_open b -> filed b -> m_my_prefix b = m_my_prefix a ->
  welcomes b (m_my_hip a) ip -> m_tunnel b !! m_my_hip a = None ->
  exists b' : node, turn now (ev_udp ip (hi_datagram a)) (rm, b) = (Ret tt, (rm, b')) /\ heard b b' (m_my_hip a) ip.
Proof.
  intros Ha Hb Hf Hpre Hw Hnone.
  destruct (accept_met NTRU SIDH ed_verify ntru_verify now ip a b rm Ha Hb Hf Hpre Hw) as (b' & E & (p & pk & Hp & Hip & _) & [ct Hct] & Ho).
  exists b'. split.
  - unfold event_turn, mcatch. cbn [handle_event].
    assert (handle_udp NTRU SIDH ed_verify ntru_verify nonce_default write_to_tun now ip (hi_datagram a) (rm, b)
      = handle_public_hi NTRU SIDH ed_verify ntru_verify now ip (hi_datagram a) (rm, b)) as -> by reflexivity.
    unfold handle_public_hi. rewrite (parse_hi_datagram NTRU ed_verify ntru_verify a Ha), bind_lift. unfold mcatch. by rewrite E.
  - pose proof (accept_opens_public NTRU SIDH ed_verify ntru_verify now ip (keys_bytes (my_idc a)) (keys_bytes (my_idi a))
      (sigs_bytes (m_IDI_IDC_sig a)) (rm, b) (proj1 Hb)) as Hop.
    pose proof (preserves_accept_hi NTRU SIDH ed_verify ntru_verify _ (identity_closed (m_my_hip b) (m_tun_header_offset_ipv6 b)) now ip
      (keys_bytes (my_idc a)) (keys_bytes (my_idi a)) (sigs_bytes (m_IDI_IDC_sig a)) (rm, b) (conj eq_refl eq_refl)) as Hid.
    rewrite E in Hop, Hid. cbn [snd] in Hop, Hid. destruct Hid as [H1 H2]. split; [by exists p| |done..].
    exists ct. split; [done|]. destruct (Hop _ _ Hct) as [Hold|[_ Hk]]; [by rewrite Hnone in Hold|done].
Qed.

Lemma heard_addressed n n' hip ip : heard n n' hip ip -> ip <> tag_none -> addressed n -> addressed n'.
Proof.
  intros [(p & Hp & Hip) _ Ho _ _] Hne Ha k q Hq. destruct (decide (k = hip)) as [->|Hk].
  - rewrite Hp in Hq. injection Hq as <-. by rewrite Hip.
  - apply (Ha k). by rewrite <- Ho.
Qed.

(** ** Properties *)

(** C1: strangers become able to exchange packets by their "hi"s alone.  Let two
    configured nodes with one prefix, each able to open a tunnel, with peers
    filed under their addresses, not have banned each other and have no tunnel
    to each other, and let each receive the other's "hi" from an address that is
    set, the second having only peers with such an address.  Take an IPv6 packet
    from the first's own address to the second's, a galaxy address, of TCP, UDP
    or ICMPv6 (no other protocol gets past the second), with at most 65492
    octets of payload, under the header of 4 octets of the TUN device.  Then,
    when the TUN device of the first gives it that packet next, it sends exactly
    one datagram, to where the second's "hi" came from, and when that datagram
    arrives from where the first's "hi" came from, the second writes the packet,
    unchanged, to its own TUN device. *)
Theorem met_nodes_deliver (a b : node) ra rb ipa ipb t1 t2 t3 t4 pre payload hdr :
  conf a -> conf b -> can_open a -> can_open b -> filed a -> filed b -> addressed b ->
  m_my_prefix a = m_my_prefix b -> welcomes a (m_my_hip b) ipb -> welcomes b (m_my_hip a) ipa ->
  m_tunnel a !! m_my_hip b = None -> m_tunnel b !! m_my_hip a = None ->
  ipv6_parts pre (m_my_hip a) (m_my_hip b) payload -> zlen hdr = 4 -> m_tun_header_offset_ipv6 a = 4 ->
  exists a1 b1 d,
    turn t1 (ev_udp ipb (hi_datagram b)) (ra, a) = (Ret tt, (ra, a1)) /\
    turn t2 (ev_udp ipa (hi_datagram a)) (rb, b) = (Ret tt, (rb, b1)) /\
    m_udp_out (turn t3 (ev_tun (hdr ++ ipv6_packet pre (m_my_hip a) (m_my_hip b) payload)) (ra, a1)).2.2
      = m_udp_out a1 ++ [(ipb, d)] /\
    m_tun_out (turn t4 (ev_udp ipa d) (rb, b1)).2.2
      = m_tun_out b1 ++ [tun_header ++ ipv6_packet pre (m_my_hip a) (m_my_hip b) payload].
Proof.
  intros Ha Hb Oa Ob Fa Fb Ab Hpre Wa Wb Na Nb Hparts Hh Ho.
  destruct (hears t1 ipb b a ra Hb Oa Fa Hpre Wa Na) as (a1 & Ea & Ha1).
  destruct (hears t2 ipa a b rb Ha Ob Fb (eq_sym Hpre) Wb Nb) as (b1 & Eb & Hb1).
  pose proof Ha1 as [(pb & Hpb & Hipb) (cta & Hcta & Hka) _ Hha Hoa].
  pose proof Hb1 as [(pa & Hpa & Hipa) (ctb & Hctb & Hkb) _ Hhb _].
  destruct (tun_sends_direct public_key_of_tunnels pre (m_my_hip a) (m_my_hip b) payload hdr (ra, a1) cta pb t3
    Hparts Hh) as (d & Hd & Hd1); [by cbn [snd]; rewrite Hoa|done..|by rewrite Hipb; apply Wa|].
  rewrite Hipb in Hd. exists a1, b1, d. split_and!; [done..|].
  destruct (peer_recognized b1 (m_my_hip a) pa) as (k & Hk);
    [by apply (heard_addressed b b1 (m_my_hip a) ipa Hb1); [apply Wb|]|done|]. rewrite Hipa in Hk.
  eapply (receiver_writes NTRU SIDH ed_verify ntru_verify nonce_default write_to_tun pre (m_my_hip a) (m_my_hip b) payload Hparts
    public_key_of_tunnels d ipa k (rb, b1) ctb t4); [|done..].
  eapply (sender_carries NTRU SIDH ed_verify ntru_verify nonce_default write_to_tun pre (m_my_hip a) (m_my_hip b) payload Hparts
    public_key_of_tunnels hdr (ra, a1) cta t3 [(ipb, d)] ipb d); [done|by cbn [snd]; rewrite Hoa|done..|by left|done].
Qed.
End End.

(** ** At concrete nodes *)

#[local] Existing Instance toy_lib.
#[local] Existing Instance toy_net.
#[local] Existing Instance toy_laws.
#[local] Existing Instance toy_boxes.
#[local] Existing Instance toy_wire.
#[local] Existing Instance toy_hexdot.

Lemma met_nodes_deliver_witness : exists (a1 b1 : @tun_node Z toy_lib) d,
  (toy_turn 5 (ev_udp (toy_addr (str "B")) (hi_datagram meet_B)) (toy_rm, meet_A)).2 = (toy_rm, a1) /\
  (toy_turn 6 (ev_udp (toy_addr (str "A")) (hi_datagram meet_A)) (toy_rm, meet_B)).2 = (toy_rm, b1) /\
  m_udp_out (toy_turn 7 (ev_tun (tun_header ++ toy_packet)) (toy_rm, a1)).2.2 = m_udp_out a1 ++ [(toy_addr (str "B"), d)] /\
  m_tun_out (toy_turn 8 (ev_udp (toy_addr (str "A")) d) (toy_rm, b1)).2.2 = m_tun_out b1 ++ [tun_header ++ toy_packet].
Proof.
  destruct (met_nodes_deliver true true (fun _ _ _ => true) (fun _ _ _ => true) [] (fun x => zlen x) meet_A meet_B toy_rm toy_rm
    (toy_addr (str "A")) (toy_addr (str "B")) 5 6 7 8 toy_pre (str "hello") tun_header
    (toy_configured meet_A (or_introl eq_refl)) (toy_configured meet_B (or_intror eq_refl)))
    as (a1 & b1 & d & E1 & E2 & E3 & E4).
  - split; [split; reflexivity|]. eexists. vm_compute. reflexivity.
  - split; [split; reflexivity|]. eexists. vm_compute. reflexivity.
  - intros k p Hp. unfold meet_A in Hp. cbn [m_peer toy_node] in Hp. apply lookup_singleton_Some in Hp as [<- <-]. reflexivity.
  - intros k p Hp. unfold meet_B in Hp. cbn [m_peer toy_node] in Hp. apply lookup_singleton_Some in Hp as [<- <-]. reflexivity.
  - intros k p Hp. unfold meet_B in Hp. cbn [m_peer toy_node] in Hp. apply lookup_singleton_Some in Hp as [<- <-]. discriminate.
  - reflexivity.
  - split; [discriminate|]. vm_compute. intros H. discriminate H || apply H.
  - split; [discriminate|]. vm_compute. intros H. discriminate H || apply H.
  - reflexivity.
  - reflexivity.
  - split; [vm_compute; reflexivity|vm_compute; reflexivity|vm_compute; reflexivity|vm_compute; discriminate|vm_compute; reflexivity|].
    exists Byte.x11. split; [reflexivity|]. apply (bool_decide_unpack _). vm_compute. exact I.
  - reflexivity.
  - reflexivity.
  - exists a1, b1, d. split_and!; [by rewrite E1|by rewrite E2|exact E3|exact E4].
Defined.
