(* ===== verification/Datastore.v ===== *)
(** * Files of the user (datastore.cpp, text_ui.cpp)

    Where keys, signatures and the configuration are kept under the home
    directory, and how they are written and read.  The state is the home
    directory set by the program and the disk; boost::filesystem, the C
    library's files and the console are the class [FsLib].

    A path is its text.  Debug output evaluates [canonical] of a path when the
    debug level lets it through, which throws when the path does not exist. *)
From S2P Require Import Prelude.

(** What [boost::filesystem::status] tells of a path. *)
Inductive file_type := file_not_found | regular_file | directory_file | type_unknown.

#[export] Instance file_type_eq_dec : EqDecision file_type.
Proof. solve_decision. Defined.

(** The file system and the console.  [None] is an exception of
    boost::filesystem, for [read_file] and [write_file] a file that cannot be
    opened. *)
Class FsLib (FS : Type) := {
  path_filename : bytes -> bytes;
  path_parent : bytes -> bytes;
  status : FS -> bytes -> option file_type;
  file_size : FS -> bytes -> option Z;
  read_file : FS -> bytes -> option bytes;
  write_file : FS -> bytes -> bytes -> option FS;      (* truncate, then write *)
  open_append : FS -> bytes -> FS;                     (* create when missing, if possible *)
  create_directories : FS -> bytes -> option (bool * FS);
  remove_file : FS -> bytes -> option (bool * FS);
  list_files : FS -> bytes -> option (list bytes);     (* names of all entries below a directory *)
  read_line : FS -> bytes * FS                         (* a line the user types *)
}.

Inductive t_datastore :=
  | e_datastore_galaxy_wallet_PRV | e_datastore_galaxy_pub | e_datastore_galaxy_sig
  | e_datastore_galaxy_instalation_key_conf | e_datastore_local_path.

#[export] Instance t_datastore_eq_dec : EqDecision t_datastore.
Proof. solve_decision. Defined.

Section Datastore.
Context {FS : Type} `{!FsLib FS}.
(** [getenv("HOME")]; the debug level. *)
Context (home_env : option bytes) (g_dbg_level : Z).

Record store := Store { home_dir : bytes; disk : FS }.

Notation D := (M store).

Definition set_home (home : bytes) : D unit := mmodify (fun s => Store home (disk s)).
Definition with_disk (f : FS) (s : store) : store := Store (home_dir s) f.

(** An operation that can throw [filesystem_error]. *)
Definition fs_try {A} (f : FS -> option (A * FS)) : D A := fun s =>
  match f (disk s) with
  | Some (a, f') => (Ret a, with_disk f' s)
  | None => (Throw ex_filesystem_error, s)
  end.

Definition status_of (p : bytes) : D file_type := fs_try (fun f => k ← status f p; Some (k, f)).

(** [canonical] of a path, in a debug line or not. *)
Definition canonical (p : bytes) : D unit :=
  k ← status_of p;
  mthrow_if (bool_decide (k = file_not_found)) ex_filesystem_error.
Definition dbg2_canonical (p : bytes) : D unit := when (g_dbg_level <=? 20) (canonical p).

(** The answers that count as a yes. *)
Definition agrees (answer : bytes) : bool :=
  bool_decide (answer = str "Y") || bool_decide (answer = str "YES") || bool_decide (answer = str "Yes")
  || bool_decide (answer = str "y") || bool_decide (answer = str "yes").

Definition ask_user_forpermission : D bool := fun s =>
  let '(answer, f') := read_line (disk s) in (Ret (agrees answer), with_disk f' s).

(** ** Paths *)

Definition extract_filename (string_path : bytes) : bytes := path_filename string_path.

Definition user_home : D bytes :=
  s ← mget;
  if bool_decide (home_dir s = []) then
    match home_env with
    | None => mthrow ex_runtime_error
    | Some h => mret h
    end
  else mret (home_dir s).

Definition get_parent_path (file_type : t_datastore) (filename : bytes) : D bytes :=
  home ← user_home;
  mret (match file_type with
        | e_datastore_galaxy_wallet_PRV => home ++ str "/.config/antinet/galaxy42/wallet/"
        | e_datastore_galaxy_pub | e_datastore_galaxy_sig => home ++ str "/.config/antinet/galaxy42/public/"
        | e_datastore_galaxy_instalation_key_conf => home ++ str "/.config/antinet/galaxy42/config/"
        | e_datastore_local_path => path_parent filename
        end).

Definition extension (file_type : t_datastore) : bytes :=
  match file_type with
  | e_datastore_galaxy_wallet_PRV => str ".PRV"
  | e_datastore_galaxy_pub => str ".pub"
  | e_datastore_galaxy_sig => str ".sig"
  | e_datastore_galaxy_instalation_key_conf => str ".conf"
  | e_datastore_local_path => []
  end.

(** [full_path += filename] adds no separator. *)
Definition get_full_path (file_type : t_datastore) (filename : bytes) : D bytes :=
  parent ← get_parent_path file_type filename;
  mret ((parent ++ filename) ++ extension file_type).

(** ** Checks and preparation *)

Definition is_file_ok (path : bytes) : D bool :=
  mcatch (
    k ← status_of path;
    match k with
    | regular_file => mret true
    | file_not_found => mthrow ex_expected_not_found
    | _ => mret false
    end)
  (fun e => if bool_decide (e = ex_filesystem_error) then mret false else mthrow e).

Definition create_parent_dir (file : bytes) : D bool :=
  let parent_path := path_parent file in
  if bool_decide (parent_path = []) then mret true
  else
    k ← status_of parent_path;
    if bool_decide (k = file_not_found) then
      success ← fs_try (fun f => create_directories f parent_path);
      mthrow_if (negb success) ex_invalid_argument;;
      mret true
    else mret false.

Definition create_path_for (file_type : t_datastore) (filename : bytes) : D bytes :=
  full_path ← get_full_path file_type filename;
  _ ← create_parent_dir full_path;
  mret full_path.

Definition prepare_path_for_write (file_type : t_datastore) (input_name : bytes) (overwrite : bool) : D bytes :=
  let filename := extract_filename input_name in
  file_with_path ← create_path_for file_type filename;
  mmodify (fun s : store => with_disk (open_append (disk s) file_with_path) s);;
  ok ← is_file_ok file_with_path;
  mthrow_if (negb ok) ex_invalid_argument;;
  ok ← is_file_ok file_with_path;
  (if ok : bool then
     size ← fs_try (fun f => n ← file_size f file_with_path; Some (n, f));
     mthrow_if (negb (size =? 0) && negb overwrite) ex_overwrite_error
   else mret tt);;
  mret file_with_path.

(** ** Saving *)

(** The [try] blocks of the two ways to save. *)
Definition write_string (file_type : t_datastore) (filename data : bytes) (overwrite : bool) : D unit :=
  file_with_path ← prepare_path_for_write file_type filename overwrite;
  (fun s : store => match write_file (disk s) file_with_path data with
            | Some f' => (Ret tt, with_disk f' s)
            | None => (Throw ex_invalid_argument, s)
            end);;
  dbg2_canonical file_with_path.

(** The second file is opened without a check: writing to none is undefined. *)
Definition write_string_mlocked (file_type : t_datastore) (filename data : bytes) (overwrite : bool) : D unit :=
  file_with_path ← prepare_path_for_write file_type filename overwrite;
  mmodify (fun s : store => with_disk (default (disk s) (write_file (disk s) file_with_path [])) s);;
  canonical file_with_path;;
  (fun s : store => match write_file (disk s) file_with_path data with
            | Some f' => (Ret tt, with_disk f' s)
            | None => (Undef, s)
            end);;
  dbg2_canonical file_with_path.

(** Both call themselves again, with [overwrite], when the user agrees; [fuel]
    2 is enough ([save_with_fuel]). *)
Fixpoint save_with (write : t_datastore -> bytes -> bytes -> bool -> D unit) (fuel : nat)
    (file_type : t_datastore) (filename data : bytes) (overwrite : bool) : D unit :=
  match fuel with
  | O => mundef
  | S n =>
      mthrow_if (bool_decide (filename = [])) ex_invalid_argument;;
      mcatch (write file_type filename data overwrite) (fun e =>
        if bool_decide (e = ex_overwrite_error) then
          yes ← ask_user_forpermission;
          if yes : bool then save_with write n file_type filename data true else mret tt
        else mthrow ex_runtime_error)
  end.

Definition save_string := save_with write_string 2.
Definition save_string_mlocked := save_with write_string_mlocked 2.

(** ** Loading *)

(** The handlers of both ways to load. *)
Definition load_handlers {A} (m : D A) : D A :=
  mcatch m (fun e => if bool_decide (e = ex_filesystem_error) then mthrow ex_invalid_argument else mthrow e).

(** A file that cannot be opened is read as empty. *)
Definition load_string (file_type : t_datastore) (filename : bytes) : D bytes :=
  load_handlers (
    file_with_path ← get_full_path file_type filename;
    dbg2_canonical file_with_path;;
    ok ← is_file_ok file_with_path;
    mthrow_if (negb ok) ex_invalid_argument;;
    s ← mget;
    canonical file_with_path;;
    mret (default [] (read_file (disk s) file_with_path))).

Definition load_string_mlocked (file_type : t_datastore) (filename : bytes) : D bytes :=
  load_handlers (
    file_with_path ← get_full_path file_type filename;
    ok ← is_file_ok file_with_path;
    mthrow_if (negb ok) ex_invalid_argument;;
    canonical file_with_path;;
    s ← mget;
    match read_file (disk s) file_with_path with
    | None => mthrow ex_invalid_argument
    | Some content => dbg2_canonical file_with_path;; mret content
    end).

(** ** Other operations *)

Definition remove (p : bytes) : D bool := fs_try (fun f => remove_file f p).
Definition remove_typed (file_type : t_datastore) (p : bytes) : D bool :=
  path_to_remove ← get_full_path file_type p;
  remove path_to_remove.

Definition get_file_list (path : bytes) : D (list bytes) :=
  if bool_decide (path = []) then mret []
  else fs_try (fun f => l ← list_files f path; Some (l, f)).
End Datastore.
Arguments Store {FS} home_dir disk.
Arguments home_dir {FS} s.
Arguments disk {FS} s.
