(* ===== verification/DatastoreFacts.v ===== *)
(** * Theorems about the files of the user

    What is saved is loaded back, nothing else changes, and a file that has
    contents is overwritten only when the caller or the user says so. *)
From S2P Require Import Prelude Datastore.

Section Laws.
Context {FS : Type} `{!FsLib FS}.

(** What can be seen of a file. *)
Definition view (f : FS) (q : bytes) : option file_type * option Z * option bytes := (status f q, file_size f q, read_file f q).

(** A file that is there stays as it is. *)
Definition kept (f f' : FS) (q : bytes) : Prop := status f q = Some regular_file -> view f' q = view f q.

(** How the operations of the disk behave.  [path_id] tells which paths name
    the same file, [console] the lines the user will type, and [creatable] a
    set of files that the program may make and write, together with their
    directories. *)
Class FsLaws := {
  path_id : bytes -> bytes;
  console : FS -> nat -> bytes;
  creatable : FS -> list bytes -> Prop;
  same_file f p q : path_id p = path_id q -> view f p = view f q;
  dirs_keep f p b f' q : create_directories f p = Some (b, f') -> kept f f' q;
  append_keeps f p q : kept f (open_append f p) q;
  write_keeps f p d f' q : write_file f p d = Some f' -> path_id q <> path_id p -> kept f f' q;
  line_keeps f q : kept f (read_line f).2 q;
  line_read f : (read_line f).1 = console f 0;
  line_next f n : console (read_line f).2 n = console f (S n);
  dirs_console f p b f' n : create_directories f p = Some (b, f') -> console f' n = console f n;
  append_console f p n : console (open_append f p) n = console f n;
  write_console f p d f' n : write_file f p d = Some f' -> console f' n = console f n;
  creatable_line f ps : creatable f ps -> creatable (read_line f).2 ps;
  creatable_dirs f ps p : creatable f ps -> p ∈ ps -> path_parent p <> [] ->
    status f (path_parent p) = Some directory_file \/
    (status f (path_parent p) = Some file_not_found /\ exists f', create_directories f (path_parent p) = Some (true, f') /\
      creatable f' ps /\ status f' (path_parent p) = Some directory_file);
  apart_dirs f ps p q b f' : creatable f ps -> p ∈ ps -> q ∈ ps -> create_directories f (path_parent p) = Some (b, f') -> view f' q = view f q;
  apart_append f ps p q : creatable f ps -> p ∈ ps -> q ∈ ps -> path_id q <> path_id p -> view (open_append f p) q = view f q;
  apart_write f ps p q d f' : creatable f ps -> p ∈ ps -> q ∈ ps -> path_id q <> path_id p -> write_file f p d = Some f' -> view f' q = view f q;
  creatable_append f ps p : creatable f ps -> p ∈ ps -> (path_parent p = [] \/ status f (path_parent p) = Some directory_file) ->
    creatable (open_append f p) ps /\
    ((status f p = Some file_not_found /\ view (open_append f p) p = (Some regular_file, Some 0, Some [])) \/
     (status f p = Some regular_file /\ view (open_append f p) p = view f p));
  creatable_size f ps p : creatable f ps -> p ∈ ps -> status f p = Some regular_file ->
    exists d, read_file f p = Some d /\ file_size f p = Some (zlen d);
  creatable_write f ps p d : creatable f ps -> p ∈ ps -> status f p = Some regular_file ->
    exists f', write_file f p d = Some f' /\ creatable f' ps /\ view f' p = (Some regular_file, Some (zlen d), Some d);
  listed f ps dir name : creatable f ps -> dir ++ [Byte.x2f] ++ name ∈ ps -> Byte.x2f ∉ name -> dir <> [] ->
    status f (dir ++ [Byte.x2f] ++ name) = Some regular_file -> exists l, list_files f (dir ++ [Byte.x2f]) = Some l /\ name ∈ l
}.
End Laws.

Lemma kept_trans {FS} `{!FsLib FS} (f1 f2 f3 : FS) q : kept f1 f2 q -> kept f2 f3 q -> kept f1 f3 q.
Proof. intros H1 H2 H. specialize (H1 H). rewrite <- H1. apply H2. unfold view in H1. congruence. Qed.

(** ** Operations that only look *)

Section Facts.
Context {FS : Type} `{!FsLib FS} `{!FsLaws}.
Context (home_env : option bytes) (g_dbg_level : Z).

Notation D := (M (@store FS)).
Notation full_path := (get_full_path home_env).
Notation prepare := (prepare_path_for_write home_env).
Notation save := (save_string home_env g_dbg_level).
Notation save_mlocked := (save_string_mlocked home_env g_dbg_level).
Notation load := (load_string home_env g_dbg_level).
Notation load_mlocked := (load_string_mlocked home_env g_dbg_level).

Lemma bind_nothrow {St A} e (f : unit -> M St A) s : (mthrow_if false e ≫= f) s = f tt s.
Proof. done. Qed.

Lemma status_eval p (s : @store FS) k : status (disk s) p = Some k -> status_of p s = (Ret k, s).
Proof. intros E. unfold status_of, fs_try. rewrite E. by destruct s. Qed.

Lemma canonical_ok p (s : @store FS) : status (disk s) p = Some regular_file -> canonical p s = (Ret tt, s).
Proof. intros E. unfold canonical. by rewrite (M_bind_ret _ _ _ _ _ (status_eval _ _ _ E)). Qed.

Lemma dbg2_ok p (s : @store FS) : status (disk s) p = Some regular_file -> dbg2_canonical g_dbg_level p s = (Ret tt, s).
Proof. intros E. unfold dbg2_canonical. destruct (_ <=? 20); [by apply canonical_ok|done]. Qed.

Lemma is_file_ok_regular p (s : @store FS) : status (disk s) p = Some regular_file -> is_file_ok p s = (Ret true, s).
Proof. intros E. unfold is_file_ok, mcatch. by rewrite (M_bind_ret _ _ _ _ _ (status_eval _ _ _ E)). Qed.

Lemma is_file_ok_missing p (s : @store FS) : status (disk s) p = Some file_not_found -> is_file_ok p s = (Throw ex_expected_not_found, s).
Proof. intros E. unfold is_file_ok, mcatch. by rewrite (M_bind_ret _ _ _ _ _ (status_eval _ _ _ E)). Qed.

(** The path of a file, given the home directory. *)
Definition store_path (home : bytes) (ft : t_datastore) (filename : bytes) : bytes :=
  (match ft with
   | e_datastore_galaxy_wallet_PRV => home ++ str "/.config/antinet/galaxy42/wallet/"
   | e_datastore_galaxy_pub | e_datastore_galaxy_sig => home ++ str "/.config/antinet/galaxy42/public/"
   | e_datastore_galaxy_instalation_key_conf => home ++ str "/.config/antinet/galaxy42/config/"
   | e_datastore_local_path => path_parent filename
   end ++ filename) ++ extension ft.

Definition home_is (home : bytes) (s : @store FS) : Prop :=
  (if bool_decide (home_dir s = []) then home_env else Some (home_dir s)) = Some home.

Lemma full_path_eval home ft filename (s : @store FS) : home_is home s -> full_path ft filename s = (Ret (store_path home ft filename), s).
Proof.
  unfold home_is. intros Hh. unfold get_full_path, get_parent_path.
  assert (user_home home_env s = (Ret home, s)) as E.
  { unfold user_home, mbind, M_mbind, mget. case_bool_decide; [by rewrite Hh|by injection Hh as ->]. }
  unfold mbind at 1, M_mbind at 1. rewrite (M_bind_ret _ _ _ _ _ E). done.
Qed.

(** ** Saving *)

(** The file is prepared: it is there, and it is what it was, or empty. *)
Lemma prepare_eval home ft filename overwrite (s : @store FS) ps :
  home_is home s ->
  let p := store_path home ft (path_filename filename) in
  creatable (disk s) ps -> p ∈ ps ->
  (overwrite = true \/ status (disk s) p <> Some regular_file \/ file_size (disk s) p = Some 0) ->
  exists f', prepare ft filename overwrite s = (Ret p, with_disk f' s) /\ creatable f' ps /\
    status f' p = Some regular_file /\ (forall q, kept (disk s) f' q) /\ (forall n, console f' n = console (disk s) n) /\
    (forall q, q ∈ ps -> path_id q <> path_id p -> view f' q = view (disk s) q).
Proof.
  intros Hh p Hc Hp How. unfold prepare_path_for_write, extract_filename.
  assert (exists f1, create_path_for home_env ft (path_filename filename) s = (Ret p, with_disk f1 s) /\ creatable f1 ps /\
    (path_parent p = [] \/ status f1 (path_parent p) = Some directory_file) /\ (forall q, q ∈ ps -> view f1 q = view (disk s) q) /\
    (forall q, kept (disk s) f1 q) /\ (forall n, console f1 n = console (disk s) n)) as (f1 & E1 & Hc1 & Hd1 & Hv & Hk1 & Hcon1).
  { unfold create_path_for. rewrite (M_bind_ret _ _ _ _ _ (full_path_eval home ft (path_filename filename) s Hh)). fold p.
    unfold create_parent_dir. destruct (decide (path_parent p = [])) as [Ep|Ep].
    - rewrite bool_decide_eq_true_2 by done. exists (disk s). split; [by destruct s|]. split_and!; try done. by left.
    - rewrite bool_decide_eq_false_2 by done. destruct (creatable_dirs _ _ _ Hc Hp Ep) as [Ed|(En & f' & Ed & Hc' & Hs')].
      + unfold mbind at 1, M_mbind at 1. rewrite (M_bind_ret _ _ _ _ _ (status_eval _ _ _ Ed)).
        exists (disk s). split; [by destruct s|]. split_and!; try done. by right.
      + unfold mbind at 1, M_mbind at 1. rewrite (M_bind_ret _ _ _ _ _ (status_eval _ _ _ En)).
        rewrite bool_decide_eq_true_2 by done. exists f'. split; [unfold mbind, M_mbind, fs_try; by rewrite Ed|]. split_and!; try done; [by right| | |].
        * intros q Hq. by apply (apart_dirs _ _ _ _ _ _ Hc Hp Hq Ed).
        * intros q. by apply (dirs_keep _ _ _ _ _ Ed).
        * intros n. by apply (dirs_console _ _ _ _ _ Ed). }
  pose proof (Hv p Hp) as Hv1. rewrite (M_bind_ret _ _ _ _ _ E1). destruct (creatable_append f1 ps p Hc1 Hp Hd1) as [Hc2 H2].
  set (f2 := open_append f1 p) in *. rewrite (M_bind_ret _ _ _ tt (with_disk f2 s)) by done.
  assert (status f2 p = Some regular_file) as Hr2 by (destruct H2 as [[_ H2]|[H2 H3]]; [injection H2 as ? _ _|injection H3 as ? _ _]; congruence).
  rewrite (M_bind_ret _ _ _ _ _ (is_file_ok_regular p (with_disk f2 s) Hr2)). cbn [negb].
  rewrite bind_nothrow. rewrite (M_bind_ret _ _ _ _ _ (is_file_ok_regular p (with_disk f2 s) Hr2)).
  destruct (creatable_size _ _ _ Hc2 Hp Hr2) as (d & Hd & Hsz).
  assert (exists n, file_size f2 p = Some n /\ negb (n =? 0) && negb overwrite = false) as (n & En & Hn).
  { exists (zlen d). split; [done|]. destruct How as [->|[Hne|Hz]]; [by rewrite andb_false_r| |].
    - destruct H2 as [[_ H2]|[H2 _]]; [|exfalso; apply Hne; injection Hv1; congruence].
      injection H2 as _ H2 _. assert (zlen d = 0) as -> by congruence. done.
    - destruct H2 as [[_ H2]|[_ H2]]; injection H2 as _ H2 _; injection Hv1 as _ Hv1 _; assert (zlen d = 0) as -> by congruence; done. }
  unfold mbind at 1, M_mbind at 1. unfold mbind at 1, M_mbind at 1. unfold fs_try at 1. cbn [disk with_disk]. rewrite En. cbn [mbind option_bind].
  rewrite Hn. cbn. exists f2. split; [done|]. split_and!; try done.
  - intros q Hq. specialize (Hk1 q Hq). rewrite <- Hk1. apply append_keeps. unfold view in Hk1. congruence.
  - intros m. rewrite <- Hcon1. apply append_console.
  - intros q Hq Hne. rewrite <- Hv by done. by apply (apart_append _ ps).
Qed.

(** What a save that succeeds leaves. *)
Definition saved (s : @store FS) ps p data (s' : @store FS) : Prop :=
  creatable (disk s') ps /\ view (disk s') p = (Some regular_file, Some (zlen data), Some data) /\
  (forall q, path_id q <> path_id p -> kept (disk s) (disk s') q) /\ (forall n, console (disk s') n = console (disk s) n) /\
  (forall q, q ∈ ps -> path_id q <> path_id p -> view (disk s') q = view (disk s) q) /\ home_dir s' = home_dir s.

Lemma save_string_eval home ft filename data overwrite (s : @store FS) ps :
  home_is home s -> filename <> [] ->
  let p := store_path home ft (path_filename filename) in
  creatable (disk s) ps -> p ∈ ps ->
  (overwrite = true \/ status (disk s) p <> Some regular_file \/ file_size (disk s) p = Some 0) ->
  exists s', save ft filename data overwrite s = (Ret tt, s') /\ saved s ps p data s'.
Proof.
  intros Hh Hne p Hc Hp How.
  destruct (prepare_eval home ft filename overwrite s ps Hh Hc Hp How) as (f1 & E1 & Hc1 & Hr1 & Hk1 & Hcon1 & Ha1). fold p in E1, Hr1.
  destruct (creatable_write f1 ps p data Hc1 Hp Hr1) as (f2 & E2 & Hc2 & Hv2). exists (with_disk f2 s). split.
  - unfold save_string, save_with. rewrite bool_decide_eq_false_2 by done. rewrite bind_nothrow.
    unfold mcatch, write_string. rewrite (M_bind_ret _ _ _ _ _ E1). unfold mbind at 1, M_mbind at 1. cbn [disk with_disk]. rewrite E2.
    rewrite dbg2_ok; [done|]. by injection Hv2.
  - split_and!; try done.
    + intros q Hq. eapply kept_trans; [apply Hk1|]. by apply (write_keeps _ _ _ _ _ E2).
    + intros n. cbn. rewrite <- Hcon1. by apply (write_console _ _ _ _ _ E2).
    + intros q Hq Hqp. rewrite <- Ha1 by done. by apply (apart_write _ _ _ _ _ _ Hc1 Hp Hq Hqp E2).
Qed.

Lemma save_mlocked_eval home ft filename data overwrite (s : @store FS) ps :
  home_is home s -> filename <> [] ->
  let p := store_path home ft (path_filename filename) in
  creatable (disk s) ps -> p ∈ ps ->
  (overwrite = true \/ status (disk s) p <> Some regular_file \/ file_size (disk s) p = Some 0) ->
  exists s', save_mlocked ft filename data overwrite s = (Ret tt, s') /\ saved s ps p data s'.
Proof.
  intros Hh Hne p Hc Hp How.
  destruct (prepare_eval home ft filename overwrite s ps Hh Hc Hp How) as (f1 & E1 & Hc1 & Hr1 & Hk1 & Hcon1 & Ha1). fold p in E1, Hr1.
  destruct (creatable_write f1 ps p [] Hc1 Hp Hr1) as (f2 & E2 & Hc2 & Hv2).
  assert (status f2 p = Some regular_file) as Hr2 by (by injection Hv2).
  destruct (creatable_write f2 ps p data Hc2 Hp Hr2) as (f3 & E3 & Hc3 & Hv3). exists (with_disk f3 s). split.
  - unfold save_string_mlocked, save_with. rewrite bool_decide_eq_false_2 by done. rewrite bind_nothrow.
    unfold mcatch, write_string_mlocked. rewrite (M_bind_ret _ _ _ _ _ E1).
    rewrite (M_bind_ret _ _ _ tt (with_disk f2 s)) by (unfold mmodify; cbn [disk with_disk]; by rewrite E2).
    rewrite (M_bind_ret _ _ _ _ _ (canonical_ok p (with_disk f2 s) Hr2)).
    unfold mbind at 1, M_mbind at 1. cbn [disk with_disk]. rewrite E3.
    rewrite dbg2_ok; [done|]. by injection Hv3.
  - split_and!; try done.
    + intros q Hq. eapply kept_trans; [apply Hk1|]. eapply kept_trans; [by apply (write_keeps _ _ _ _ _ E2)|]. by apply (write_keeps _ _ _ _ _ E3).
    + intros n. cbn. rewrite <- Hcon1, <- (write_console _ _ _ _ n E2). by apply (write_console _ _ _ _ _ E3).
    + intros q Hq Hqp. rewrite <- Ha1, <- (apart_write _ _ _ _ _ _ Hc1 Hp Hq Hqp E2) by done. by apply (apart_write _ _ _ _ _ _ Hc2 Hp Hq Hqp E3).
Qed.

(** ** Loading *)

Lemma load_string_eval home ft filename data (s : @store FS) : home_is home s ->
  view (disk s) (store_path home ft filename) = (Some regular_file, Some (zlen data), Some data) ->
  load ft filename s = (Ret data, s) /\ load_mlocked ft filename s = (Ret data, s).
Proof.
  intros Hh [= Hr Hz Hd]. set (p := store_path home ft filename) in *.
  unfold load_string, load_string_mlocked, load_handlers, mcatch.
  split; rewrite (M_bind_ret _ _ _ _ _ (full_path_eval home ft filename s Hh)); fold p.
  - rewrite (M_bind_ret _ _ _ _ _ (dbg2_ok p s Hr)), (M_bind_ret _ _ _ _ _ (is_file_ok_regular p s Hr)).
    rewrite bind_nothrow. rewrite (M_bind_ret mget _ s s s) by done.
    rewrite (M_bind_ret _ _ _ _ _ (canonical_ok p s Hr)). by rewrite Hd.
  - rewrite (M_bind_ret _ _ _ _ _ (is_file_ok_regular p s Hr)). cbn [negb]. rewrite bind_nothrow.
    rewrite (M_bind_ret _ _ _ _ _ (canonical_ok p s Hr)), (M_bind_ret mget _ s s s) by done. rewrite Hd.
    by rewrite (M_bind_ret _ _ _ _ _ (dbg2_ok p s Hr)).
Qed.

(** What loading a file that is not there throws depends on the debug level. *)
Lemma load_missing home ft filename (s : @store FS) : home_is home s ->
  status (disk s) (store_path home ft filename) = Some file_not_found ->
  load ft filename s = (Throw (if g_dbg_level <=? 20 then ex_invalid_argument else ex_expected_not_found), s).
Proof.
  intros Hh Hs. set (p := store_path home ft filename) in *. unfold load_string, load_handlers, mcatch.
  rewrite (M_bind_ret _ _ _ _ _ (full_path_eval home ft filename s Hh)). fold p. unfold dbg2_canonical. destruct (g_dbg_level <=? 20); cbn [when].
  - assert (canonical p s = (Throw ex_filesystem_error, s)) as E.
    { unfold canonical. by rewrite (M_bind_ret _ _ _ _ _ (status_eval _ _ _ Hs)). }
    unfold mbind, M_mbind. by rewrite E.
  - rewrite (M_bind_ret _ _ _ tt s) by done. unfold mbind at 1, M_mbind at 1. by rewrite (is_file_ok_missing p s Hs).
Qed.

(** ** Theorems *)

(** C35: what is saved under a plain name is loaded back, by both loaders and
    both ways of saving: when the name is not empty and has no directory part
    (its file name is the whole name), the program may create the file at the
    place of its kind, and there is no file there, or an empty one, or
    overwriting is allowed, the call returns, the contents are then the ones
    that were saved, and every other file and the user's answers stay as they
    were.  A name with a directory is not loaded back ([local_path_misplaced]).
    *)
Theorem saved_is_loaded home ft filename data overwrite locked (s : @store FS) ps :
  home_is home s -> filename <> [] -> path_filename filename = filename ->
  let p := store_path home ft filename in
  creatable (disk s) ps -> p ∈ ps ->
  (overwrite = true \/ status (disk s) p <> Some regular_file \/ file_size (disk s) p = Some 0) ->
  exists s', (if locked : bool then save_mlocked else save) ft filename data overwrite s = (Ret tt, s') /\
    load ft filename s' = (Ret data, s') /\ load_mlocked ft filename s' = (Ret data, s') /\ saved s ps p data s'.
Proof.
  intros Hh Hne Hf p Hc Hp How. pose proof (save_string_eval home ft filename data overwrite s ps Hh Hne) as H1.
  pose proof (save_mlocked_eval home ft filename data overwrite s ps Hh Hne) as H2. rewrite Hf in H1, H2.
  assert (forall s', saved s ps p data s' -> load ft filename s' = (Ret data, s') /\ load_mlocked ft filename s' = (Ret data, s')) as Hl.
  { intros s' (_ & Hv & _ & _ & _ & Hd). apply (load_string_eval home); [unfold home_is; by rewrite Hd|done]. }
  destruct locked; [destruct (H2 Hc Hp How) as (s' & E & Hs)|destruct (H1 Hc Hp How) as (s' & E & Hs)];
    exists s'; (split; [done|]); destruct (Hl s' Hs); by split_and!.
Qed.

(** How boost splits a path. *)
Class PathLaws := {
  parent_of : forall dir name, dir <> [] -> last dir <> Some Byte.x2f -> name <> [] -> Byte.x2f ∉ name ->
    path_parent (dir ++ [Byte.x2f] ++ name) = dir;
  filename_of : forall dir name, dir <> [] -> last dir <> Some Byte.x2f -> name <> [] -> Byte.x2f ∉ name ->
    path_filename (dir ++ [Byte.x2f] ++ name) = name;
  filename_plain : forall name, Byte.x2f ∉ name -> path_filename name = name;
  parent_plain : forall name, Byte.x2f ∉ name -> path_parent name = []
}.

(** Files given by a path of their own are misplaced: saving to "dir/name"
    writes "name" in the working directory, and loading "dir/name" reads the
    path "dirdir/name". *)
Lemma local_path_misplaced `{!PathLaws} home dir name data (s : @store FS) :
  home_is home s -> dir <> [] -> last dir <> Some Byte.x2f -> name <> [] -> Byte.x2f ∉ name -> creatable (disk s) [name] ->
  let path := dir ++ [Byte.x2f] ++ name in
  (exists s', save e_datastore_local_path path data true s = (Ret tt, s') /\ saved s [name] name data s') /\
  full_path e_datastore_local_path path s = (Ret (dir ++ path), s).
Proof.
  intros Hh Hd Hl Hn Hs Hc path. split.
  - pose proof (save_string_eval home e_datastore_local_path path data true s [name] Hh) as Hsv. unfold path in Hsv.
    rewrite (filename_of dir name) in Hsv by done. unfold store_path in Hsv. rewrite (parent_plain name) in Hsv by done. cbn [extension] in Hsv.
    rewrite app_nil_r in Hsv. apply Hsv; [by destruct dir|done|by apply list_elem_of_singleton|by left].
  - rewrite (full_path_eval home) by done. unfold store_path, path. rewrite (parent_of dir name) by done. by rewrite app_nil_r.
Qed.
End Facts.

(** ** A disk in memory *)

(** The last '/' splits a path. *)
Fixpoint split_last (p : bytes) : option (bytes * bytes) :=
  match p with
  | [] => None
  | c :: p' =>
      match split_last p' with
      | Some (d, n) => Some (c :: d, n)
      | None => if bool_decide (c = Byte.x2f) then Some ([], p') else None
      end
  end.

Record toy_disk := ToyDisk { td_files : gmap bytes bytes; td_dirs : gset bytes; td_lines : list bytes }.

Definition toy_status (f : toy_disk) (p : bytes) : file_type :=
  if bool_decide (p ∈ td_dirs f) then directory_file
  else match td_files f !! p with Some _ => regular_file | None => file_not_found end.

#[export] Instance toy_fs : FsLib toy_disk := {|
  path_filename := fun p => match split_last p with Some (_, n) => n | None => p end;
  path_parent := fun p => match split_last p with Some (d, _) => d | None => [] end;
  status := fun f p => Some (toy_status f p);
  file_size := fun f p => option_map zlen (td_files f !! p);
  read_file := fun f p => td_files f !! p;
  write_file := fun f p d => if bool_decide (p ∈ td_dirs f) then None else Some (ToyDisk (<[p := d]> (td_files f)) (td_dirs f) (td_lines f));
  open_append := fun f p => if bool_decide (p ∈ td_dirs f) || bool_decide (is_Some (td_files f !! p)) then f
                            else ToyDisk (<[p := []]> (td_files f)) (td_dirs f) (td_lines f);
  create_directories := fun f p => if bool_decide (p ∈ td_dirs f) then Some (false, f)
                                   else match td_files f !! p with
                                        | Some _ => None
                                        | None => Some (true, ToyDisk (td_files f) ({[p]} ∪ td_dirs f) (td_lines f)) end;
  remove_file := fun f p => Some (bool_decide (is_Some (td_files f !! p)), ToyDisk (delete p (td_files f)) (td_dirs f) (td_lines f));
  list_files := fun f p => match split_last p with
    | Some (d, []) =>
        let names := omap (fun kv => match split_last kv.1 with
          | Some (d', n) => if bool_decide (d' = d) then Some n else None | None => None end) (map_to_list (td_files f)) in
        if bool_decide (d ∈ td_dirs f) || negb (bool_decide (names = [])) then Some names else None
    | _ => None
    end;
  read_line := fun f => (default [] (head (td_lines f)), ToyDisk (td_files f) (td_dirs f) (tail (td_lines f)))
|}.

Definition toy_creatable (f : toy_disk) (ps : list bytes) : Prop :=
  forall p, p ∈ ps -> (p ∉ td_dirs f) /\ (td_files f !! path_parent p = None) /\ (path_parent p ∉ ps).

Lemma split_last_plain name : Byte.x2f ∉ name -> split_last name = None.
Proof.
  intros Hn. induction name as [|c name IH]; [done|]. cbn [split_last].
  rewrite IH by (intros H; apply Hn; by right). rewrite bool_decide_eq_false_2; [done|]. intros ->. apply Hn. by left.
Qed.

Lemma split_last_app dir name : Byte.x2f ∉ name -> split_last (dir ++ [Byte.x2f] ++ name) = Some (dir, name).
Proof.
  intros Hn. induction dir as [|c dir IH]; cbn [app split_last].
  - by rewrite split_last_plain.
  - cbn [app] in IH. by rewrite IH.
Qed.

#[export, refine] Instance toy_fs_laws : FsLaws := {|
  path_id := fun p => p; console := fun f n => default [] (td_lines f !! n); creatable := toy_creatable |}.
Proof.
  - by intros f p q ->.
  - intros f p b f' q E. cbn in E. case_bool_decide; [by injection E as <- <-|]. destruct (td_files f !! p) eqn:Ep; [done|].
    injection E as <- <-. unfold kept, view. cbn. intros [= Hs]. unfold toy_status in *. cbn. repeat case_bool_decide; try done.
    destruct (decide (q = p)) as [->|Hne]; [by rewrite Ep in Hs|]. exfalso. set_solver.
  - intros f p q. unfold kept, view. cbn. intros [= Hs]. destruct (_ || _) eqn:Eo; [done|].
    apply orb_false_iff in Eo as [_ Eo%bool_decide_eq_false]. unfold toy_status in *. cbn.
    case_bool_decide; [done|]. destruct (decide (q = p)) as [->|Hne]; [|by rewrite lookup_insert_ne].
    exfalso. apply Eo. destruct (td_files f !! p); [by eexists|done].
  - intros f p d f' q E Hne. cbn in E. case_bool_decide; [done|]. injection E as <-. intros _. unfold view. cbn. unfold toy_status. cbn.
    by rewrite lookup_insert_ne.
  - by intros f q.
  - intros [fs ds ls]. cbn. by destruct ls.
  - intros [fs ds ls] n. cbn. by destruct ls; destruct n.
  - intros f p b f' n E. cbn in E. repeat case_match; by simplify_eq.
  - intros f p n. cbn. by destruct (_ || _).
  - intros f p d f' n E. cbn in E. case_match; by simplify_eq.
  - by intros f ps.
  - intros f ps p Hc Hp Hne. destruct (Hc p Hp) as (H1 & H2 & H3). cbn -[path_parent]. unfold toy_status.
    destruct (decide (path_parent p ∈ td_dirs f)) as [Hd|Hd]; [left; by rewrite bool_decide_eq_true_2|right].
    rewrite bool_decide_eq_false_2, H2 by done. split; [done|]. eexists. split; [done|]. split_and!.
    + intros q Hq. destruct (Hc q Hq) as (G1 & G2 & G3). cbn -[path_parent]. split_and!; try done. set_solver.
    + unfold toy_status. cbn -[path_parent]. by rewrite bool_decide_eq_true_2 by set_solver.
  - intros f ps p q b f' Hc Hp Hq E. destruct (Hc q Hq) as (_ & _ & H3), (Hc p Hp) as (_ & _ & H4). cbn -[path_parent] in E.
    case_bool_decide; [by injection E as <- <-|]. destruct (td_files f !! path_parent p); [done|]. injection E as <- <-.
    unfold view. cbn -[path_parent]. unfold toy_status. cbn -[path_parent].
    assert (q <> path_parent p) by (intros ->; by apply H4).
    destruct (decide (q ∈ td_dirs f)) as [Hin|Hin]; [rewrite !bool_decide_eq_true_2 by set_solver|rewrite !bool_decide_eq_false_2 by set_solver]; done.
  - intros f ps p q _ _ _ Hne. unfold view. cbn. destruct (_ || _); [done|]. unfold toy_status. cbn. by rewrite lookup_insert_ne.
  - intros f ps p q d f' _ _ _ Hne E. cbn in E. case_bool_decide; [done|]. injection E as <-. unfold view. cbn. unfold toy_status. cbn.
    by rewrite lookup_insert_ne.
  - intros f ps p Hc Hp _. destruct (Hc p Hp) as (H1 & H2 & H3). cbn -[path_parent]. rewrite (bool_decide_eq_false_2 _ H1). cbn [orb].
    unfold view. cbn -[path_parent]. unfold toy_status. rewrite (bool_decide_eq_false_2 _ H1).
    destruct (td_files f !! p) as [d|] eqn:Ep; cbn -[path_parent].
    + rewrite (bool_decide_eq_false_2 _ H1), Ep. split; [done|]. by right.
    + rewrite (bool_decide_eq_false_2 _ H1), lookup_insert_eq. split; [|by left].
      intros q Hq. destruct (Hc q Hq) as (G1 & G2 & G3). cbn -[path_parent]. split_and!; try done.
      rewrite lookup_insert_ne; [done|]. intros E. apply G3. by rewrite <- E.
  - intros f ps p Hc Hp. cbn. unfold toy_status. intros [= Hs]. case_bool_decide; [done|].
    destruct (td_files f !! p) as [d|]; [|done]. by exists d.
  - intros f ps p d Hc Hp _. destruct (Hc p Hp) as (H1 & _ & _). cbn -[path_parent]. rewrite (bool_decide_eq_false_2 _ H1).
    eexists. split; [done|]. split.
    + intros q Hq. destruct (Hc q Hq) as (G1 & G2 & G3). cbn -[path_parent]. split_and!; try done.
      rewrite lookup_insert_ne; [done|]. intros E. apply G3. by rewrite <- E.
    + unfold view. cbn. unfold toy_status. cbn. by rewrite (bool_decide_eq_false_2 _ H1), lookup_insert_eq.
  - intros f ps dir name _ _ Hn Hd. cbn -[app]. unfold toy_status. intros [= Hs].
    assert (split_last (dir ++ [Byte.x2f]) = Some (dir, [])) as -> by apply (split_last_app dir []), not_elem_of_nil.
    set (names := omap _ _). assert (name ∈ names) as Hin.
    { unfold names. apply list_elem_of_omap. case_bool_decide; [done|]. destruct (td_files f !! _) as [d|] eqn:E; [|done].
      exists (dir ++ [Byte.x2f] ++ name, d). split; [by apply elem_of_map_to_list|]. cbn -[app]. rewrite split_last_app by done.
      by rewrite bool_decide_eq_true_2. }
    exists names. split; [|done]. rewrite (bool_decide_eq_false_2 (names = [])); [by rewrite orb_true_r|].
    intros E. rewrite E in Hin. by apply elem_of_nil in Hin.
Defined.

#[export] Instance toy_paths : PathLaws.
Proof.
  split.
  - intros dir name _ _ _ Hn. cbn -[app]. by rewrite split_last_app.
  - intros dir name _ _ _ Hn. cbn -[app]. by rewrite split_last_app.
  - intros name Hn. cbn. by rewrite split_last_plain.
  - intros name Hn. cbn. by rewrite split_last_plain.
Qed.

Definition toy_alone : @store toy_disk := Store (str "/home/u") (ToyDisk ∅ ∅ []).

Lemma toy_alone_creatable p : bool_decide (p <> path_parent p) = true -> toy_creatable (disk toy_alone) [p].
Proof.
  intros Hp q Hq. apply list_elem_of_singleton in Hq as ->. split_and!; [apply not_elem_of_empty|apply lookup_empty|].
  rewrite list_elem_of_singleton. intros E. apply bool_decide_eq_true in Hp. by apply Hp.
Qed.

Lemma saved_is_loaded_witness :
  exists s' : @store toy_disk, save_string None 60 e_datastore_galaxy_pub (str "bob") (str "key of bob") false toy_alone = (Ret tt, s') /\
    load_string None 60 e_datastore_galaxy_pub (str "bob") s' = (Ret (str "key of bob"), s').
Proof.
  destruct (saved_is_loaded None 60 (str "/home/u") e_datastore_galaxy_pub (str "bob") (str "key of bob") false false toy_alone
    [store_path (str "/home/u") e_datastore_galaxy_pub (str "bob")]) as (s' & E & El & _).
  - reflexivity.
  - discriminate.
  - vm_compute. reflexivity.
  - apply toy_alone_creatable. vm_compute. reflexivity.
  - left.
  - right. left. vm_compute. discriminate.
  - exists s'. split; [exact E|exact El].
Defined.
