(* ===== verification/Keystore.v ===== *)
(** * Keys on disk and the preparation of the server

    Saving and loading key collections ([multikeys.tpl.hpp], [multikeys.cpp]),
    making keys ([generate_crypto.cpp], the key actions of [tunserver.cpp]),
    and [c_the_program_tunserver::main_execution] up to the main loop: the
    options, the identity, the prefix and the peers given on the command
    line.  The state is the store of [Datastore] with the node. *)
From S2P Require Import Prelude Sections Serialize Cryptobasic Multikeys Crypto Peering Peerref Tunserver Datastore.

(** ** Text *)

(** [s.find(sub)] *)
Fixpoint find_sub (s sub : bytes) : option nat :=
  if bool_decide (take (length sub) s = sub) then Some O
  else match s with
       | [] => None
       | _ :: s' => option_map S (find_sub s' sub)
       end.

(** [key_name.substr(0, key_name.find(".PRV"))] *)
Definition actual_key (key_name : bytes) : bytes :=
  match find_sub key_name (str ".PRV") with Some pos => take pos key_name | None => key_name end.

Fixpoint span_word (s : bytes) : bytes * bytes :=
  match s with
  | [] => ([], [])
  | c :: s' => if isspace c then ([], s) else let '(w, r) := span_word s' in (c :: w, r)
  end.

(** [iss >> str]: the variable keeps its value when nothing is left. *)
Definition read_word (iss old : bytes) : bytes * bytes :=
  match skip_spaces iss with
  | [] => (old, [])
  | s => span_word s
  end.

(** One argument of --key-type, "type:xNUMBER". *)
Definition parse_key_type (argument : bytes) : outcome (t_crypto_system_type * Z) :=
  let argument := map (fun c => if bool_decide (c = Byte.x3a) then Byte.x20 else c) argument in
  let '(w, iss) := read_word argument [] in
  type ← t_crypto_system_type_from_string w;
  let '(w, _) := read_word iss w in
  oassert (match w with c :: _ => bool_decide (c = Byte.x78) | [] => false end);;
  number_of_keys ← stoi (drop 1 w);
  Ret (type, number_of_keys).

(** The prefix of --set-prefix, with the length of the mask. *)
Definition parse_prefix (arg : bytes) : outcome (bytes * Z) :=
  _check_input (zlen arg =? 4);;
  let ret := map tolower arg in
  c0 ← at_ ret 0; _check_input (bool_decide (c0 = Byte.x66));;
  c1 ← at_ ret 1; _check_input (bool_decide (c1 = Byte.x64));;
  c2 ← at_ ret 2; _check_input (bool_decide (c2 = Byte.x34));;
  c3 ← at_ ret 3;
  if bool_decide (c3 = Byte.x32) then Ret (ret, 16)
  else if bool_decide (c3 = Byte.x33) then Ret (ret, 16)
  else Throw ex_invalid_argument.

Section Keystore.
Context {Rng FS : Type} `{!CryptoLib Rng} `{!NetLib} `{!FsLib FS}.
Context (ENABLE_CRYPTO_NTRU ENABLE_CRYPTO_SIDH : bool).
Context (ed_sign : bytes -> bytes -> outcome bytes) (ntru_sign : bytes -> bytes -> outcome bytes).
Context (ed_verify ntru_verify : bytes -> bytes -> bytes -> bool).
Context (home_env : option bytes).

Notation D := (M (@store FS)).
Notation node := (@tun_node Rng _).
Notation W := (M (@store FS * node)).

(** ** Collections of keys as files *)

(** The virtual functions: a signature has a format of its own, private keys
    are read into locked strings. *)
Definition object_serialize_bin (k : c_multicryptostrings) : outcome bytes :=
  if bool_decide (m_crypto_use k = e_crypto_use_signature) then multisign_serialize_bin k else serialize_bin k.
Definition object_load_from_bin (data : bytes) : M c_multicryptostrings unit := fun k =>
  match m_crypto_use k with
  | e_crypto_use_signature => multisign_load_from_bin data k
  | e_crypto_use_secret => load_from_bin_PRV data k
  | _ => load_from_bin data k
  end.

(** The case of a signature has no [break]. *)
Definition datastore_save (dbg : Z) (k : c_multicryptostrings) (fname : bytes) (overwrite : bool) : D unit :=
  serialized_data ← mlift (object_serialize_bin k);
  match m_crypto_use k with
  | e_crypto_use_open => save_string home_env dbg e_datastore_galaxy_pub fname serialized_data overwrite
  | e_crypto_use_signature =>
      save_string home_env dbg e_datastore_galaxy_sig fname serialized_data overwrite;;
      save_string_mlocked home_env dbg e_datastore_galaxy_wallet_PRV fname serialized_data overwrite
  | e_crypto_use_secret => save_string_mlocked home_env dbg e_datastore_galaxy_wallet_PRV fname serialized_data overwrite
  | e_crypto_use_fingerprint => mthrow ex_runtime_error
  end.

(** The last line is debug output, which serializes again. *)
Definition datastore_load (dbg : Z) (fname : bytes) : M (@store FS * c_multicryptostrings) unit :=
  k ← on_snd mget;
  data ← on_fst (match m_crypto_use k with
                 | e_crypto_use_open => load_string home_env dbg e_datastore_galaxy_pub fname
                 | e_crypto_use_secret => load_string_mlocked home_env dbg e_datastore_galaxy_wallet_PRV fname
                 | e_crypto_use_signature => load_string home_env dbg e_datastore_galaxy_sig fname
                 | e_crypto_use_fingerprint => mthrow ex_runtime_error
                 end);
  on_snd clear;;
  on_snd (object_load_from_bin data);;
  k ← on_snd mget;
  when (dbg <=? 40) (_ ← mlift (object_serialize_bin k); mret tt).

Definition datastore_save_PRV_and_pub (dbg : Z) (p : c_multikeys_PAIR) (fname_base : bytes) : D unit :=
  datastore_save dbg (m_PRV p) fname_base false;;
  datastore_save dbg (pub_keys (m_pub p)) fname_base false.
Definition datastore_save_pub (dbg : Z) (p : c_multikeys_PAIR) (fname_base : bytes) : D unit :=
  datastore_save dbg (pub_keys (m_pub p)) fname_base false.

(** A part of a pair of keys, with the store. *)
Definition on_PRV_stored {A} (m : M (@store FS * c_multicryptostrings) A) : M (@store FS * c_multikeys_PAIR) A := fun '(st, p) =>
  let '(o, (st', k)) := m (st, m_PRV p) in (o, (st', MultikeysPAIR (m_pub p) k)).
Definition on_pub_stored {A} (m : M (@store FS * c_multicryptostrings) A) : M (@store FS * c_multikeys_PAIR) A := fun '(st, p) =>
  let '(o, (st', k)) := m (st, pub_keys (m_pub p)) in
  (o, (st', MultikeysPAIR (MultikeysPub k (m_ipv6_prefix (m_pub p))) (m_PRV p))).

Definition datastore_load_PRV_and_pub (dbg : Z) (fname_base : bytes) : M (@store FS * c_multikeys_PAIR) unit :=
  on_PRV_stored (datastore_load dbg fname_base);;
  on_pub_stored (datastore_load dbg fname_base).

(** ** Making keys *)

(** A pair of keys of the given types, made in this order. *)
Definition new_keypair (keys : list (t_crypto_system_type * Z)) : M (Rng * @store FS) c_multikeys_PAIR := fun s =>
  let '(o, (rng, p)) := mfor keys (fun type_and_count =>
    generate_type ENABLE_CRYPTO_NTRU ENABLE_CRYPTO_SIDH gen_x25519 gen_ed25519 gen_ntru_encrypt gen_ntru_sign gen_sidh
      type_and_count.1 type_and_count.2) (s.1, new_multikeys_PAIR) in
  (match o with Ret _ => Ret p | Throw e => Throw e | Abort_ => Abort_ | Undef => Undef end, (rng, s.2)).

Definition create_keys (dbg : Z) (filename : bytes) (keys : list (t_crypto_system_type * Z)) (default_location : bool) : M (Rng * @store FS) unit :=
  keypair ← new_keypair keys;
  if negb default_location then
    data ← mlift (serialize_bin (pub_keys (m_pub keypair)));
    on_snd (save_string home_env dbg e_datastore_local_path (filename ++ str ".pub") data true);;
    data_PRV ← mlift (serialize_bin (m_PRV keypair));
    on_snd (save_string_mlocked home_env dbg e_datastore_local_path (filename ++ str ".PRV") data_PRV true)
  else on_snd (datastore_save_PRV_and_pub dbg keypair filename).

Inductive e_crypto_strength := strength_lowest | strength_fast | strength_normal | strength_high | strength_highest.

(** No case has a [break]: what follows in the source is made too. *)
Definition sign_keys (strength : e_crypto_strength) : list (t_crypto_system_type * Z) :=
  (match strength with
   | strength_highest => [(e_crypto_system_type_Ed25519, 1); (e_crypto_system_type_SIDH, 1); (e_crypto_system_type_NTRU_sign, 1)]
   | _ => [] end) ++
  (match strength with strength_highest | strength_high => [(e_crypto_system_type_SIDH, 1)] | _ => [] end) ++
  (match strength with strength_lowest => [] | _ => [(e_crypto_system_type_NTRU_sign, 1)] end) ++
  [(e_crypto_system_type_Ed25519, 1)].
Definition exchange_keys (strength : e_crypto_strength) : list (t_crypto_system_type * Z) :=
  (match strength with
   | strength_highest => [(e_crypto_system_type_X25519, 1); (e_crypto_system_type_SIDH, 1); (e_crypto_system_type_NTRU_EES439EP1, 1)]
   | _ => [] end) ++
  (match strength with strength_highest | strength_high => [(e_crypto_system_type_SIDH, 1)] | _ => [] end) ++
  (match strength with strength_lowest => [] | _ => [(e_crypto_system_type_NTRU_EES439EP1, 1)] end) ++
  [(e_crypto_system_type_X25519, 1)].

Definition crypto_sign (dbg : Z) (filename : bytes) (strength : e_crypto_strength) : M (Rng * @store FS) unit :=
  keypair ← new_keypair (sign_keys strength);
  on_snd (datastore_save_PRV_and_pub dbg keypair filename).
Definition crypto_exchange (dbg : Z) (filename : bytes) (strength : e_crypto_strength) : M (Rng * @store FS) unit :=
  keypair ← new_keypair (exchange_keys strength);
  on_snd (datastore_save_PRV_and_pub dbg keypair filename).

(** ** Actions of the server *)

(** An action that makes keys, with the node's source of randomness. *)
Definition with_keys_of {A} (m : M (Rng * @store FS) A) : W A := fun '(st, n) =>
  let '(o, (rng, st')) := m (m_rng n, st) in (o, (st', with_rng rng n)).

(** A key that is not in the list is reported, and set all the same. *)
Definition program_action_set_IDI (dbg : Z) (keyname : bytes) : D unit :=
  keys_path ← get_parent_path home_env e_datastore_galaxy_wallet_PRV [];
  keys ← get_file_list keys_path;
  let found := existsb (fun key_name => bool_decide (keyname = actual_key key_name)) keys in
  when (negb found) (mret tt);;
  save_string home_env dbg e_datastore_galaxy_instalation_key_conf (str "IDI") keyname true.

Definition program_action_gen_key_simple : W bytes :=
  n ← on_snd mget;
  type ← mlift (t_crypto_system_type_from_string (str "ed25519"));
  with_keys_of (create_keys (g_dbg_level n) (str "IDI") [(type, 1)] true);;
  mret (str "IDI").

(** The options --key-type, --new-key and --new-key-file. *)
Definition program_action_gen_key (key_type : option (list bytes)) (new_key new_key_file : option bytes) : W unit :=
  n ← on_snd mget;
  match key_type with
  | None => mthrow ex_invalid_argument
  | Some arguments =>
      keys ← mfold (fun acc argument => k ← mlift (parse_key_type argument); mret (acc ++ [k])) [] arguments;
      match new_key, new_key_file with
      | Some output_file, _ => with_keys_of (create_keys (g_dbg_level n) output_file keys true)
      | None, Some output_file => with_keys_of (create_keys (g_dbg_level n) output_file keys false)
      | None, None => mthrow ex_invalid_argument
      end
  end.

(** [configure_mykey]: the pair named by the configuration is loaded. *)
Definition configure_mykey_stored : W unit :=
  n ← on_snd mget;
  IDI_name ← mcatch (on_fst (load_string home_env (g_dbg_level n) e_datastore_galaxy_instalation_key_conf (str "IDI")))
    (fun e => if bool_decide (e = ex_invalid_argument) then mthrow ex_runtime_error else mthrow e);
  my_IDI ← (fun w : @store FS * node =>
    let '(o, (st, p)) := datastore_load_PRV_and_pub (g_dbg_level n) IDI_name (w.1, new_multikeys_PAIR) in
    (match o with Ret _ => Ret p | Throw e => Throw e | Abort_ => Abort_ | Undef => Undef end, (st, w.2)));
  on_snd (configure_mykey ENABLE_CRYPTO_NTRU ENABLE_CRYPTO_SIDH ed_sign ntru_sign ed_verify ntru_verify my_IDI).

(** ** main_execution *)

(** The options read on the way to the main loop. *)
Record options := Options {
  opt_debug : bool;                     (* --debug or --d *)
  opt_dlevel : Z;
  opt_quiet : bool;                     (* --quiet or --q *)
  opt_info : bool;
  opt_list_my_keys : bool;
  opt_gen_key_simple : bool;
  opt_my_key : option bytes;
  opt_remove_peers : bool;
  opt_remove_peers_timeout : Z;
  opt_set_prefix : bytes;
  opt_peer : list bytes
}.

Definition with_dbg_level (level : Z) (n : node) : node :=
  TunNode (m_peer n) (m_peer_black_list n) (m_my_IDC n) (m_my_IDI_pub n) (m_IDI_IDC_sig n) (m_my_hip n) (m_tunnel n)
    (enable_remove n) (is_exiting n) (peer_timeout n) (m_tun_header_offset_ipv6 n) (m_my_prefix n)
    (m_unban_if_banned n) (m_udp_out n) (m_tun_out n) (m_rng n) level.

(** [g_dbg_level_set]: -1 leaves the level. *)
Definition g_dbg_level_set (level : Z) : M node unit :=
  mmodify (fun n => if level =? -1 then n else with_dbg_level level n).

Definition set_debug_level (o : options) : M node unit :=
  g_dbg_level_set 60;;
  when (opt_debug o) (g_dbg_level_set 10);;
  when (negb (opt_dlevel o =? -1)) (g_dbg_level_set (opt_dlevel o));;
  when (opt_quiet o) (g_dbg_level_set 200).

(** The lines --list-my-keys shows. *)
Definition list_my_keys (dbg : Z) : D (list bytes) :=
  keys_path ← get_parent_path home_env e_datastore_galaxy_wallet_PRV [];
  keys ← get_file_list keys_path;
  IDI_key ← mcatch (load_string home_env dbg e_datastore_galaxy_instalation_key_conf (str "IDI"))
    (fun e => if bool_decide (e = ex_invalid_argument) then mret [] else mthrow e);
  mret (map (fun key_name => actual_key key_name ++ if bool_decide (IDI_key = actual_key key_name) then str " * IDI" else []) keys).

(** The public keys --info shows. *)
Definition load_info (dbg : Z) (name : bytes) : D unit := fun st =>
  let '(o, (st', _)) := datastore_load dbg name (st, new_multicryptostrings e_crypto_use_open) in (o, st').

(** Whether there is a configured identity; if there are keys and the
    configuration is there but no file, the key "IDI" is set. *)
Definition have_keys_configured (dbg : Z) : D bool :=
  mcatch (
    keys_path ← get_parent_path home_env e_datastore_galaxy_wallet_PRV [];
    keys ← get_file_list keys_path;
    let have_keys := 0 <? zlen keys in
    conf_IDI ← get_full_path home_env e_datastore_galaxy_instalation_key_conf (str "IDI");
    conf_IDI_ok ← is_file_ok conf_IDI;
    if have_keys then
      when (negb conf_IDI_ok) (program_action_set_IDI dbg (str "IDI"));;
      mret true
    else mret false)
  (fun _ => mret false).

Definition step_make_default_keys : W unit :=
  IDI_name ← program_action_gen_key_simple;
  n ← on_snd mget;
  on_fst (program_action_set_IDI (g_dbg_level n) IDI_name);;
  configure_mykey_stored.

(** The identity of the server: loaded, or made. *)
Definition configure_identity (set_prefix_option : bytes) : W unit :=
  n ← on_snd mget;
  have ← on_fst (have_keys_configured (g_dbg_level n));
  '(ipv6_prefix, _) ← mlift (parse_prefix set_prefix_option);
  on_snd (set_prefix ipv6_prefix);;
  if have : bool then
    ok ← mcatch (configure_mykey_stored;; mret true) (fun _ => mret false);
    mthrow_if (negb ok) ex_exception_error_exit
  else mcatch step_make_default_keys (fun _ => mthrow ex_exception_error_exit).

(** Everything before the main loop: [Some code] ends the program with that
    code, [None] goes on to the main loop.  The branch of --gen-key is not here:
    the option is tested but never declared, so it cannot be given; nor are the
    options of the preview level (signing, verifying, the configuration file),
    which are compiled out. *)
Definition main_execution (now : Z) (o : options) : W (option Z) :=
  mcatch (
    on_snd (set_debug_level o);;
    n ← on_snd mget;
    if opt_info o then
      match opt_my_key o with
      | None => mret (Some 1)
      | Some name =>
          on_fst (load_info (g_dbg_level n) name);;
          mret (Some 0)
      end
    else if opt_list_my_keys o then
      _ ← on_fst (list_my_keys (g_dbg_level n));
      mret (Some 0)
    else if opt_gen_key_simple o then
      _ ← program_action_gen_key_simple;
      mret (Some 0)
    else
      when (opt_remove_peers o) (on_snd enable_remove_peers);;
      on_snd (set_remove_peer_tometout (opt_remove_peers_timeout o));;
      configure_identity (opt_set_prefix o);;
      mcatch (mfor (opt_peer o) (fun peer_ref => on_snd (uninterrupted (add_peer_simplestring now peer_ref))))
        (fun _ => mthrow ex_exception_error_exit);;
      mret None)
  (fun e => if bool_decide (e = ex_exception_error_exit) then mret (Some 1) else mthrow e).
End Keystore.
