(* ===== verification/KeystoreFacts.v ===== *)
(** * Theorems about the keys on disk and the preparation of the server

    No start of the program loses a key file without the user's consent; what
    the first start makes; what happens to keys without a configuration. *)
From S2P Require Import Prelude Serialize Cryptobasic Multikeys MultikeysFacts Crypto CryptoFacts Peering Peerref Tunserver.
From S2P Require Import Datastore DatastoreFacts Keystore Toy.

(** ** No file is lost *)

Section Safety.
Context {Rng FS : Type} `{!CryptoLib Rng} `{NL : NetLib} `{!FsLib FS} `{FL : !FsLaws} `{PL : !PathLaws}.
Context (NTRU SIDH : bool).
Context (ed_sign : bytes -> bytes -> outcome bytes) (ntru_sign : bytes -> bytes -> outcome bytes).
Context (ed_verify ntru_verify : bytes -> bytes -> bytes -> bool).
Context (home_env : option bytes).

Notation D := (M (@store FS)).
Notation node := (@tun_node Rng _).
Notation main := (main_execution NTRU SIDH ed_sign ntru_sign ed_verify ntru_verify home_env).

(** The state at the start. *)
Variable s0 : @store FS.

(** A file with contents that is not the configuration, which the program
    overwrites. *)
Definition guarded (q : bytes) : Prop :=
  status (disk s0) q = Some regular_file /\ file_size (disk s0) q <> Some 0 /\
  forall home, home_is home_env home s0 ->
    path_id q <> path_id (store_path home e_datastore_galaxy_instalation_key_conf (str "IDI")).

(** The user agrees to nothing, and the guarded files are as they were. *)
Definition intact (s : @store FS) : Prop :=
  home_dir s = home_dir s0 /\ (forall n, agrees (console (disk s) n) = false) /\
  forall q, guarded q -> view (disk s) q = view (disk s0) q.

Lemma intact_disk (s : @store FS) f' : intact s -> (forall n, agrees (console f' n) = false) ->
  (forall q, guarded q -> kept (disk s) f' q) -> intact (with_disk f' s).
Proof.
  intros (H1 & H2 & H3) Hn Hk. split_and!; [done|done|]. intros q Hq. cbn. rewrite <- H3 by done. apply Hk; [done|].
  specialize (H3 q Hq). destruct Hq as [Hr _]. unfold view in H3. congruence.
Qed.

Definition readonly {A} (m : D A) : Prop := forall s, (m s).2 = s.
Lemma readonly_intact {A} (m : D A) : readonly m -> preserves intact m.
Proof. intros Hm s Hs. by rewrite Hm. Qed.

Lemma readonly_bind {A B} (m : D A) (f : A -> D B) : readonly m -> (forall a, readonly (f a)) -> readonly (m ≫= f).
Proof.
  intros Hm Hf s. unfold mbind, M_mbind. specialize (Hm s). destruct (m s) as [[a|e| |] s1]; cbn in *; subst; [apply Hf|done..].
Qed.
Lemma readonly_lift {A} (o : outcome A) : readonly (mlift o).
Proof. by intros s. Qed.
Lemma readonly_ret {A} (a : A) : readonly (mret a).
Proof. by intros s. Qed.
Lemma readonly_catch {A} (m : D A) h : readonly m -> (forall e, readonly (h e)) -> readonly (mcatch m h).
Proof. intros Hm Hh s. unfold mcatch. specialize (Hm s). destruct (m s) as [[a|e| |] s1]; cbn in *; subst; try done. apply Hh. Qed.
Lemma readonly_try {A} (f : FS -> option (A * FS)) : (forall d a d', f d = Some (a, d') -> d' = d) -> readonly (fs_try f).
Proof. intros Hf [h d]. unfold fs_try. cbn. destruct (f d) as [[a d']|] eqn:E; [|done]. by rewrite (Hf _ _ _ E). Qed.

Lemma readonly_status p : readonly (status_of p).
Proof. apply readonly_try. intros d a d' E. destruct (status d p); cbn in E; congruence. Qed.
Lemma readonly_canonical p : readonly (canonical p).
Proof. apply readonly_bind; [apply readonly_status|intros k; apply readonly_lift]. Qed.
Lemma readonly_dbg2 dbg p : readonly (dbg2_canonical dbg p).
Proof. unfold dbg2_canonical. destruct (_ <=? 20); [apply readonly_canonical|apply readonly_ret]. Qed.
Lemma readonly_is_file_ok p : readonly (is_file_ok p).
Proof.
  apply readonly_catch.
  - apply readonly_bind; [apply readonly_status|]. intros []; (apply readonly_ret || by intros s).
  - intros e. case_bool_decide; by intros s.
Qed.
Lemma readonly_home : readonly (user_home home_env).
Proof. intros s. unfold user_home, mbind, M_mbind, mget. case_bool_decide; [by destruct home_env|done]. Qed.
Lemma readonly_parent_path ft fn : readonly (get_parent_path home_env ft fn).
Proof. apply readonly_bind; [apply readonly_home|intros h; apply readonly_ret]. Qed.
Lemma readonly_full_path ft fn : readonly (get_full_path home_env ft fn).
Proof. apply readonly_bind; [apply readonly_parent_path|intros h; apply readonly_ret]. Qed.
Lemma readonly_list p : readonly (get_file_list p).
Proof.
  unfold get_file_list. case_bool_decide; [apply readonly_ret|]. apply readonly_try.
  intros d a d' E. destruct (list_files d p); cbn in E; congruence.
Qed.
Lemma readonly_load dbg ft fn : readonly (load_string home_env dbg ft fn).
Proof.
  apply readonly_catch; [|intros e; case_bool_decide; by intros s].
  apply readonly_bind; [apply readonly_full_path|intros p]. apply readonly_bind; [apply readonly_dbg2|intros _].
  apply readonly_bind; [apply readonly_is_file_ok|intros ok]. apply readonly_bind; [apply readonly_lift|intros _].
  apply readonly_bind; [by intros s|intros s]. apply readonly_bind; [apply readonly_canonical|intros _]. apply readonly_ret.
Qed.
Lemma readonly_load_mlocked dbg ft fn : readonly (load_string_mlocked home_env dbg ft fn).
Proof.
  apply readonly_catch; [|intros e; case_bool_decide; by intros s].
  apply readonly_bind; [apply readonly_full_path|intros p].
  apply readonly_bind; [apply readonly_is_file_ok|intros ok]. apply readonly_bind; [apply readonly_lift|intros _].
  apply readonly_bind; [apply readonly_canonical|intros _]. apply readonly_bind; [by intros s|intros s].
  destruct (read_file _ _); [|by intros s1]. apply readonly_bind; [apply readonly_dbg2|intros _]. apply readonly_ret.
Qed.

Lemma fs_try_intact {A} (f : FS -> option (A * FS)) :
  (forall d a d' q, f d = Some (a, d') -> kept d d' q) -> (forall d a d' n, f d = Some (a, d') -> console d' n = console d n) ->
  preserves intact (fs_try f).
Proof.
  intros Hk Hc s Hs. unfold fs_try. destruct (f (disk s)) as [[a d']|] eqn:E; [|done]. cbn. apply intact_disk; [done| |].
  - intros n. rewrite (Hc _ _ _ _ E). by apply Hs.
  - intros q _. by apply (Hk _ _ _ _ E).
Qed.

Lemma parent_dir_intact p : preserves intact (create_parent_dir p).
Proof.
  unfold create_parent_dir. case_bool_decide; [apply preserves_ret|].
  apply preserves_bind; [apply readonly_intact, readonly_status|intros k]. case_bool_decide; [|apply preserves_ret].
  apply preserves_bind; [|intros b; apply preserves_bind; [apply preserves_lift|intros _; apply preserves_ret]].
  apply fs_try_intact; intros d b d' q E; [by apply (dirs_keep _ _ _ _ _ E)|by apply (dirs_console _ _ _ _ _ E)].
Qed.

(** Where a prepared file is, and what it holds. *)
Lemma prepare_intact ft fn overwrite s : intact s ->
  let '(o, s') := prepare_path_for_write home_env ft fn overwrite s in
  intact s' /\ forall p, o = Ret p ->
    (exists home, home_is home_env home s0 /\ p = store_path home ft (path_filename fn)) /\
    (file_size (disk s') p = Some 0 \/ overwrite = true).
Proof.
  intros Hs. unfold prepare_path_for_write, create_path_for, extract_filename.
  assert (forall home, home_is home_env home s <-> home_is home_env home s0) as Hhome
    by (intros home; unfold home_is; by rewrite (proj1 Hs)).
  destruct (get_full_path home_env ft (path_filename fn) s) as [[p|e| |] s1] eqn:Ep;
    pose proof (readonly_full_path ft (path_filename fn) s) as Hro; rewrite Ep in Hro; cbn in Hro; subst s1;
    unfold mbind at 1, M_mbind at 1; unfold mbind at 1, M_mbind at 1; rewrite Ep; [|done..].
  assert (exists home, home_is home_env home s0 /\ p = store_path home ft (path_filename fn)) as Hp.
  { unfold get_full_path, get_parent_path in Ep. apply M_bind_inv in Ep as (pp & s1 & Ep & E2).
    apply M_bind_inv in Ep as (h & s2 & Eh & E3). injection E3 as <- ->. injection E2 as <- <-.
    exists h. split; [|done]. apply Hhome. unfold home_is. unfold user_home, mbind, M_mbind, mget in Eh.
    case_bool_decide; [destruct home_env as [h'|]; [|done]|]; injection Eh as <-; done. }
  pose proof (parent_dir_intact p s Hs) as H1. unfold mbind at 1, M_mbind at 1.
  destruct (create_parent_dir p s) as [[b|e| |] s1]; cbn [mret M_mret snd] in *; [|done..].
  rewrite (M_bind_ret _ _ _ tt (with_disk (open_append (disk s1) p) s1)) by done.
  set (s2 := with_disk (open_append (disk s1) p) s1).
  assert (intact s2) as H2.
  { apply intact_disk; [done| |]; [intros n; rewrite append_console; by apply H1|intros q _; apply append_keeps]. }
  pose proof (readonly_is_file_ok p s2) as Hok. unfold mbind at 1, M_mbind at 1.
  destruct (is_file_ok p s2) as [[ok|e| |] s3] eqn:Eok; cbn in Hok; subst s3; [|done..].
  unfold mbind at 1, M_mbind at 1, mthrow_if at 1, othrow_if. destruct ok; cbn [negb mlift]; [|done].
  unfold mbind at 1, M_mbind at 1. rewrite Eok. unfold mbind at 1, M_mbind at 1. unfold mbind at 1, M_mbind at 1.
  unfold fs_try. destruct (file_size (disk s2) p) as [n|] eqn:En; cbn; [|done].
  assert (with_disk (open_append (disk s1) p) s2 = s2) as -> by done.
  unfold mthrow_if, othrow_if, mlift. destruct (negb (n =? 0) && negb overwrite) eqn:Eb; cbn; [done|].
  split; [done|]. intros p' [= <-]. split; [done|]. apply andb_false_iff in Eb as [Eb|Eb].
  - left. change (file_size (disk s2) p = Some 0). rewrite En. apply negb_false_iff, Z.eqb_eq in Eb. by subst n.
  - right. by apply negb_false_iff in Eb.
Qed.

(** A prepared file is none of those that are kept. *)
Lemma prepared_free p s overwrite ft fn : intact s ->
  (exists home, home_is home_env home s0 /\ p = store_path home ft (path_filename fn)) ->
  (file_size (disk s) p = Some 0 \/ overwrite = true) ->
  (overwrite = false \/ (ft = e_datastore_galaxy_instalation_key_conf /\ path_filename fn = str "IDI")) ->
  forall q, guarded q -> path_id q <> path_id p.
Proof.
  intros Hs (home & Hh & Hp) Hz How q Hq Eq. destruct Hz as [Hz| ->].
  - pose proof (same_file (disk s) q p Eq) as Hv. pose proof (proj2 (proj2 Hs) q Hq) as Hv0. destruct Hq as (_ & Hq & _).
    apply Hq. unfold view in *. congruence.
  - destruct How as [?|[-> Hfn]]; [done|]. rewrite Hfn in Hp. subst p. by apply (proj2 (proj2 Hq) home Hh).
Qed.

Lemma write_intact p d f' s : intact s -> (forall q, guarded q -> path_id q <> path_id p) ->
  write_file (disk s) p d = Some f' -> intact (with_disk f' s).
Proof.
  intros Hs Hp E. apply intact_disk; [done| |].
  - intros n. rewrite (write_console _ _ _ _ _ E). by apply Hs.
  - intros q Hq. apply (write_keeps _ _ _ _ _ E). by apply Hp.
Qed.

(** The two ways to write a file. *)
Definition careful (write : t_datastore -> bytes -> bytes -> bool -> D unit) : Prop := forall ft fn d overwrite,
  (overwrite = false \/ (ft = e_datastore_galaxy_instalation_key_conf /\ path_filename fn = str "IDI")) ->
  preserves intact (write ft fn d overwrite).

Lemma write_string_careful dbg : careful (write_string home_env dbg).
Proof.
  intros ft fn d overwrite How s Hs. unfold write_string, mbind at 1, M_mbind at 1.
  pose proof (prepare_intact ft fn overwrite s Hs) as Hp. destruct (prepare_path_for_write home_env ft fn overwrite s) as [[p|e| |] s1]; [|by apply Hp..].
  destruct Hp as [H1 Hp]. destruct (Hp p eq_refl) as [Hpath Hz]. pose proof (prepared_free p s1 overwrite ft fn H1 Hpath Hz How) as Hfree.
  unfold mbind, M_mbind. destruct (write_file (disk s1) p d) as [f'|] eqn:E; [|done].
  rewrite readonly_dbg2. by apply (write_intact p d).
Qed.

Lemma write_string_mlocked_careful dbg : careful (write_string_mlocked home_env dbg).
Proof.
  intros ft fn d overwrite How s Hs. unfold write_string_mlocked, mbind at 1, M_mbind at 1.
  pose proof (prepare_intact ft fn overwrite s Hs) as Hp. destruct (prepare_path_for_write home_env ft fn overwrite s) as [[p|e| |] s1]; [|by apply Hp..].
  destruct Hp as [H1 Hp]. destruct (Hp p eq_refl) as [Hpath Hz]. pose proof (prepared_free p s1 overwrite ft fn H1 Hpath Hz How) as Hfree.
  rewrite (M_bind_ret _ _ _ tt (with_disk (default (disk s1) (write_file (disk s1) p [])) s1)) by done.
  assert (intact (with_disk (default (disk s1) (write_file (disk s1) p [])) s1)) as H2.
  { destruct (write_file (disk s1) p []) as [f'|] eqn:E; cbn [default]; [by apply (write_intact p [])|by destruct s1]. }
  set (s2 := with_disk _ s1) in *. revert H2. generalize s2. clear s2. apply preserves_bind; [apply readonly_intact, readonly_canonical|].
  intros _. apply preserves_bind; [|intros _; apply readonly_intact, readonly_dbg2].
  intros s2 H2. destruct (write_file (disk s2) p d) as [f'|] eqn:E; [|done]. by apply (write_intact p d).
Qed.

(** Without the user's consent nothing is overwritten. *)
Lemma save_intact write ft fn d overwrite : careful write ->
  (overwrite = false \/ (ft = e_datastore_galaxy_instalation_key_conf /\ path_filename fn = str "IDI")) ->
  preserves intact (save_with write 2 ft fn d overwrite).
Proof.
  intros Hw How. cbn [save_with]. apply preserves_bind; [apply preserves_lift|intros _].
  apply preserves_catch; [by apply Hw|intros e]. case_bool_decide; [|apply preserves_throw].
  intros s Hs. unfold mbind, M_mbind, ask_user_forpermission. pose proof (line_read (disk s)) as Hl.
  assert (intact (with_disk (read_line (disk s)).2 s)) as Hi.
  { apply intact_disk; [done| |]; [intros n; rewrite line_next; by apply Hs|intros q _; apply line_keeps]. }
  destruct (read_line (disk s)) as [answer f']. cbn in *. rewrite Hl, (proj1 (proj2 Hs) 0%nat). done.
Qed.

Lemma save_keys_intact dbg k fname : preserves intact (datastore_save home_env dbg k fname false).
Proof.
  unfold datastore_save, save_string, save_string_mlocked. pose proof (write_string_careful dbg). pose proof (write_string_mlocked_careful dbg).
  apply preserves_bind; [apply preserves_lift|intros data].
  destruct (m_crypto_use k); try apply preserves_throw; try (apply save_intact; [done|by left]).
  apply preserves_bind; [|intros _]; (apply save_intact; [done|by left]).
Qed.

Lemma set_IDI_intact dbg keyname : preserves intact (program_action_set_IDI home_env dbg keyname).
Proof.
  unfold program_action_set_IDI. apply preserves_bind; [apply readonly_intact, readonly_parent_path|intros p].
  apply preserves_bind; [apply readonly_intact, readonly_list|intros keys].
  apply preserves_bind; [apply preserves_when, preserves_ret|intros _].
  apply save_intact; [apply write_string_careful|]. right. split; [done|]. apply filename_plain.
  apply (bool_decide_unpack _). vm_compute. exact I.
Qed.

(** ** The actions of the server *)

Definition safe {A} (m : M (@store FS * node) A) : Prop := preserves (fun w => intact w.1) m.

Lemma safe_fst {A} (m : D A) : preserves intact m -> safe (on_fst m).
Proof. intros Hm [st n] Hs. unfold on_fst. specialize (Hm st Hs). cbn. by destruct (m st). Qed.
Lemma safe_snd {A} (m : M node A) : safe (on_snd m).
Proof. intros [st n] Hs. unfold on_snd. cbn. by destruct (m n). Qed.

Lemma create_keys_safe dbg filename keys : safe (with_keys_of (create_keys NTRU SIDH home_env dbg filename keys true)).
Proof.
  intros [st n] Hs. unfold with_keys_of, create_keys, mbind, M_mbind, new_keypair. cbn [fst snd].
  match goal with |- context [mfor keys ?f ?x] => destruct (mfor keys f x) as [[[]|e| |] [rng p]] end; cbn; try done.
  unfold datastore_save_PRV_and_pub, on_snd. cbn.
  assert (preserves intact (datastore_save home_env dbg (m_PRV p) filename false;; datastore_save home_env dbg (pub_keys (m_pub p)) filename false)) as Hp
    by (apply preserves_bind; [|intros _]; apply save_keys_intact).
  specialize (Hp st Hs). match goal with |- context [mbind ?f ?m st] => by destruct (mbind f m st) as [o st'] end.
Qed.

Lemma gen_key_simple_safe : safe (program_action_gen_key_simple NTRU SIDH home_env).
Proof.
  unfold program_action_gen_key_simple. apply preserves_bind; [apply safe_snd|intros n].
  apply preserves_bind; [apply preserves_lift|intros t]. apply preserves_bind; [apply create_keys_safe|intros _]. apply preserves_ret.
Qed.

Lemma load_readonly dbg fname k : forall st, (datastore_load home_env dbg fname (st, k)).2.1 = st.
Proof.
  intros st. assert (forall A (m : M (@store FS * c_multicryptostrings) A), preserves (fun w => w.1 = st) m -> (m (st, k)).2.1 = st) as Hred
    by (intros A m Hm; by apply Hm).
  apply Hred. unfold datastore_load.
  assert (forall A (m : M c_multicryptostrings A), preserves (fun w : @store FS * c_multicryptostrings => w.1 = st) (on_snd m)) as Hsnd.
  { intros A m [s1 k1] Hs. unfold on_snd. cbn. by destruct (m k1). }
  apply preserves_bind; [apply Hsnd|intros k1]. apply preserves_bind.
  - assert (forall A (m : D A), readonly m -> preserves (fun w : @store FS * c_multicryptostrings => w.1 = st) (on_fst m)) as Hfst.
    { intros A m Hm [s1 k2] Hs. unfold on_fst. specialize (Hm s1). cbn in *. destruct (m s1). cbn in *. by subst. }
    apply Hfst. destruct (m_crypto_use k1); try apply readonly_load; try apply readonly_load_mlocked. by intros s.
  - intros data. apply preserves_bind; [apply Hsnd|intros _]. apply preserves_bind; [apply Hsnd|intros _].
    apply preserves_bind; [apply Hsnd|intros k2]. apply preserves_when. apply preserves_bind; [apply preserves_lift|intros _; apply preserves_ret].
Qed.

Lemma load_pair_readonly dbg fname p st : (datastore_load_PRV_and_pub home_env dbg fname (st, p)).2.1 = st.
Proof.
  unfold datastore_load_PRV_and_pub, mbind, M_mbind, on_PRV_stored, on_pub_stored.
  pose proof (load_readonly dbg fname (m_PRV p) st) as H1. destruct (datastore_load home_env dbg fname (st, m_PRV p)) as [[[]|e| |] [st1 k1]];
    cbn [fst snd] in *; subst; try done. cbn [m_pub].
  pose proof (load_readonly dbg fname (pub_keys (m_pub p)) st) as H2. by destruct (datastore_load home_env dbg fname (st, pub_keys (m_pub p))) as [o [st2 k2]].
Qed.

Lemma configure_mykey_safe : safe (configure_mykey_stored NTRU SIDH ed_sign ntru_sign ed_verify ntru_verify home_env).
Proof.
  unfold configure_mykey_stored. apply preserves_bind; [apply safe_snd|intros n]. apply preserves_bind.
  - apply preserves_catch; [apply safe_fst, readonly_intact, readonly_load|]. intros e. case_bool_decide; apply preserves_throw.
  - intros name. apply preserves_bind; [|intros p; apply safe_snd]. intros [st n'] Hs. cbn [fst snd] in *.
    pose proof (load_pair_readonly (g_dbg_level n) name new_multikeys_PAIR st) as Hr.
    destruct (datastore_load_PRV_and_pub _ _ _ _) as [o [st' p]]. cbn in *. by subst.
Qed.

Lemma have_keys_safe dbg : preserves intact (have_keys_configured home_env dbg).
Proof.
  apply preserves_catch; [|intros _; apply preserves_ret].
  apply preserves_bind; [apply readonly_intact, readonly_parent_path|intros p].
  apply preserves_bind; [apply readonly_intact, readonly_list|intros keys].
  apply preserves_bind; [apply readonly_intact, readonly_full_path|intros conf].
  apply preserves_bind; [apply readonly_intact, readonly_is_file_ok|intros ok].
  destruct (0 <? zlen keys); [|apply preserves_ret]. apply preserves_bind; [apply preserves_when, set_IDI_intact|intros _; apply preserves_ret].
Qed.

Lemma identity_safe prefix : safe (configure_identity NTRU SIDH ed_sign ntru_sign ed_verify ntru_verify home_env prefix).
Proof.
  unfold configure_identity. apply preserves_bind; [apply safe_snd|intros n]. apply preserves_bind; [apply safe_fst, have_keys_safe|intros have].
  apply preserves_bind; [apply preserves_lift|intros [p len]]. apply preserves_bind; [apply safe_snd|intros _]. destruct have.
  - apply preserves_bind; [|intros ok; apply preserves_lift].
    apply preserves_catch; [|intros e; apply preserves_ret]. apply preserves_bind; [apply configure_mykey_safe|intros _; apply preserves_ret].
  - apply preserves_catch; [|intros e; apply preserves_throw]. unfold step_make_default_keys.
    apply preserves_bind; [apply gen_key_simple_safe|intros name]. apply preserves_bind; [apply safe_snd|intros n1].
    apply preserves_bind; [apply safe_fst, set_IDI_intact|intros _]. apply configure_mykey_safe.
Qed.

Lemma main_safe now o : safe (main now o).
Proof.
  unfold main_execution. apply preserves_catch; [|intros e; case_bool_decide; [apply preserves_ret|apply preserves_throw]].
  apply preserves_bind; [apply safe_snd|intros _]. apply preserves_bind; [apply safe_snd|intros n].
  destruct (opt_info o).
  { destruct (opt_my_key o) as [name|]; [|apply preserves_ret]. apply preserves_bind; [|intros _; apply preserves_ret].
    apply safe_fst. apply readonly_intact. intros st. unfold load_info.
    pose proof (load_readonly (g_dbg_level n) name (new_multicryptostrings e_crypto_use_open) st) as Hr.
    by destruct (datastore_load _ _ _ _) as [r [st' k]]. }
  destruct (opt_list_my_keys o).
  { apply preserves_bind; [|intros _; apply preserves_ret]. apply safe_fst, readonly_intact.
    apply readonly_bind; [apply readonly_parent_path|intros p]. apply readonly_bind; [apply readonly_list|intros keys].
    apply readonly_bind; [|intros k; apply readonly_ret]. apply readonly_catch; [apply readonly_load|]. intros e. case_bool_decide; by intros s. }
  destruct (opt_gen_key_simple o).
  { apply preserves_bind; [apply gen_key_simple_safe|intros _; apply preserves_ret]. }
  apply preserves_bind; [apply preserves_when, safe_snd|intros _]. apply preserves_bind; [apply safe_snd|intros _].
  apply preserves_bind; [apply identity_safe|intros _]. apply preserves_bind; [|intros _; apply preserves_ret].
  apply preserves_catch; [|intros e; apply preserves_throw]. apply preserves_mfor. intros x. apply safe_snd.
Qed.
End Safety.

(** ** Theorems *)

Section Theorems.
Context {Rng FS : Type} `{!CryptoLib Rng} `{NL : NetLib} `{!FsLib FS} `{FL : !FsLaws} `{PL : !PathLaws}.
Context (NTRU SIDH : bool).
Context (ed_sign : bytes -> bytes -> outcome bytes) (ntru_sign : bytes -> bytes -> outcome bytes).
Context (ed_verify ntru_verify : bytes -> bytes -> bytes -> bool).
Context (home_env : option bytes).

Notation node := (@tun_node Rng _).
Notation main := (main_execution NTRU SIDH ed_sign ntru_sign ed_verify ntru_verify home_env).
Notation configure := (configure_mykey_stored NTRU SIDH ed_sign ntru_sign ed_verify ntru_verify home_env).
Notation make_keys := (step_make_default_keys NTRU SIDH ed_sign ntru_sign ed_verify ntru_verify home_env).
Notation identity := (configure_identity NTRU SIDH ed_sign ntru_sign ed_verify ntru_verify home_env).
Notation conf_path home := (store_path home e_datastore_galaxy_instalation_key_conf (str "IDI")).

(** C10: no start of the program, with whatever options, loses a file without
    the user's consent: when the user agrees to none of the questions, every
    file that has contents is afterwards as it was, whatever happens, except
    for the file that names the identity. *)
Theorem start_loses_no_file now (o : options) (s : @store FS) (n : node) :
  (forall i, agrees (console (disk s) i) = false) ->
  let s' := (main now o (s, n)).2.1 in
  forall q, status (disk s) q = Some regular_file -> file_size (disk s) q <> Some 0 ->
    (forall home, home_is home_env home s -> path_id q <> path_id (conf_path home)) ->
    view (disk s') q = view (disk s) q.
Proof.
  intros Hno s' q Hr Hz Hc.
  assert (intact home_env s s) as Hi by (split_and!; done).
  pose proof (main_safe NTRU SIDH ed_sign ntru_sign ed_verify ntru_verify home_env s now o (s, n) Hi) as (_ & _ & H).
  by apply H.
Qed.

(** A collection with one key of a system. *)
Definition one_key (use : t_crypto_use) (key : bytes) : c_multicryptostrings :=
  Multicryptostrings (<[6%nat := [key]]> (replicate 32 [])) [] use.

Lemma one_key_wf use key : zlen key <= SANE_MAX_SIZE_FOR_STRING -> wf_keys (one_key use key).
Proof.
  intros Hk. split; [done|]. intros i keys Hi Hne. unfold one_key in Hi. cbn [m_cryptolists_general] in Hi.
  destruct (decide (i = 6%nat)) as [->|H6].
  - rewrite list_lookup_insert_eq in Hi by (rewrite length_replicate; lia). injection Hi as <-.
    split_and!; [by eexists; vm_compute|done|by repeat constructor].
  - rewrite list_lookup_insert_ne in Hi by done. by apply lookup_replicate in Hi as [-> _].
Qed.

(** The keys of an identity: one Ed25519 pair. *)
Definition ed25519_pair (prv pub : bytes) : c_multikeys_PAIR :=
  MultikeysPAIR (MultikeysPub (one_key e_crypto_use_open pub) (str "fd42")) (one_key e_crypto_use_secret prv).

Lemma add_to_new prv pub :
  add_public_and_PRIVATE e_crypto_system_type_Ed25519 pub prv new_multikeys_PAIR = (Ret tt, ed25519_pair prv pub).
Proof. vm_compute. reflexivity. Qed.

Lemma generate_one prv pub rng rng' : gen_ed25519 rng = (Ret (prv, pub), rng') -> zlen pub <= SANE_MAX_SIZE_FOR_STRING ->
  generate_type NTRU SIDH gen_x25519 gen_ed25519 gen_ntru_encrypt gen_ntru_sign gen_sidh e_crypto_system_type_Ed25519 1
    (rng, new_multikeys_PAIR) = (Ret tt, (rng', ed25519_pair prv pub)).
Proof.
  intros Hg Hp. unfold generate_type. rewrite (proj2 (Z.eqb_neq 1 0)) by lia. cbn [generate_loop Z.to_nat Pos.to_nat Pos.iter_op].
  assert (generate_loop gen_ed25519 e_crypto_system_type_Ed25519 1 (rng, new_multikeys_PAIR) = (Ret tt, (rng', ed25519_pair prv pub))) as E.
  { cbn [generate_loop]. rewrite (M_bind_ret _ _ _ (prv, pub) (rng', new_multikeys_PAIR)) by (unfold on_fst; cbn [fst snd]; by rewrite Hg).
    cbn [fst snd]. rewrite (M_bind_ret _ _ _ tt (rng', ed25519_pair prv pub)); [done|]. unfold on_snd. cbn [fst snd]. by rewrite add_to_new. }
  rewrite (M_bind_ret _ _ _ _ _ E).
  rewrite (M_bind_ret _ _ _ tt (rng', ed25519_pair prv pub)) by done.
  rewrite (M_bind_ret mget _ _ (rng', ed25519_pair prv pub) (rng', ed25519_pair prv pub)) by done. cbn [snd].
  pose proof (serialize_bin_eval _ (one_key_wf e_crypto_use_open pub Hp)) as Es. unfold ed25519_pair at 1. cbn [m_pub pub_keys].
  by rewrite Es.
Qed.

Lemma new_ed25519_pair prv pub rng rng' (st : @store FS) : gen_ed25519 rng = (Ret (prv, pub), rng') ->
  zlen pub <= SANE_MAX_SIZE_FOR_STRING ->
  new_keypair NTRU SIDH [(e_crypto_system_type_Ed25519, 1)] (rng, st) = (Ret (ed25519_pair prv pub), (rng', st)).
Proof.
  intros Hg Hp. unfold new_keypair. cbn [mfor fst snd]. unfold mbind, M_mbind.
  by rewrite (generate_one prv pub rng rng' Hg Hp).
Qed.

Lemma saved_path home ft fn : path_filename fn = fn -> store_path home ft (path_filename fn) = store_path home ft fn.
Proof. by intros ->. Qed.

Lemma plain_IDI : path_filename (str "IDI") = str "IDI".
Proof. apply filename_plain, (bool_decide_unpack _). vm_compute. exact I. Qed.

(** Where the keys and the configuration of the identity are. *)
Notation wallet_path home := (store_path home e_datastore_galaxy_wallet_PRV (str "IDI")).
Notation public_path home := (store_path home e_datastore_galaxy_pub (str "IDI")).
Definition identity_paths (home : bytes) : list bytes := [wallet_path home; public_path home; conf_path home].

Definition free (f : FS) (p : bytes) : Prop := status f p <> Some regular_file \/ file_size f p = Some 0.

Lemma free_view f f' p : view f' p = view f p -> free f p -> free f' p.
Proof. unfold view, free. intros [= -> -> _]. done. Qed.

(** Saving one collection. *)
Lemma save_one_key home dbg use ft key (s : @store FS) ps :
  (use = e_crypto_use_secret /\ ft = e_datastore_galaxy_wallet_PRV) \/ (use = e_crypto_use_open /\ ft = e_datastore_galaxy_pub) ->
  let p := store_path home ft (str "IDI") in
  home_is home_env home s -> zlen key <= SANE_MAX_SIZE_FOR_STRING -> creatable (disk s) ps -> p ∈ ps -> free (disk s) p ->
  exists s', datastore_save home_env dbg (one_key use key) (str "IDI") false s = (Ret tt, s') /\ saved s ps p (keys_bytes (one_key use key)) s'.
Proof.
  intros Huse p Hh Hk Hc Hp Hf. unfold datastore_save.
  assert (object_serialize_bin (one_key use key) = Ret (keys_bytes (one_key use key))) as ->.
  { unfold object_serialize_bin. rewrite bool_decide_eq_false_2 by (destruct Huse as [[-> _]|[-> _]]; done). by apply serialize_bin_eval, one_key_wf. }
  rewrite bind_lift. cbn [m_crypto_use one_key].
  assert (false = true \/ status (disk s) p <> Some regular_file \/ file_size (disk s) p = Some 0) as Hor by (right; exact Hf).
  destruct Huse as [[-> ->]|[-> ->]]; subst p.
  - pose proof (save_mlocked_eval home_env dbg home e_datastore_galaxy_wallet_PRV (str "IDI") (keys_bytes (one_key e_crypto_use_secret key)) false s ps Hh) as Hsv.
    rewrite plain_IDI in Hsv. by apply Hsv.
  - pose proof (save_string_eval home_env dbg home e_datastore_galaxy_pub (str "IDI") (keys_bytes (one_key e_crypto_use_open key)) false s ps Hh) as Hsv.
    rewrite plain_IDI in Hsv. by apply Hsv.
Qed.

Lemma wallet_dir_eval home (s : @store FS) : home_is home_env home s ->
  get_parent_path home_env e_datastore_galaxy_wallet_PRV [] s = (Ret (home ++ str "/.config/antinet/galaxy42/wallet/"), s).
Proof.
  intros Hh. unfold get_parent_path. rewrite (M_bind_ret _ _ s home s); [done|].
  unfold user_home, mbind, M_mbind, mget. unfold home_is in Hh. case_bool_decide; [by rewrite Hh|by injection Hh as ->].
Qed.

Lemma wallet_list_eval home keys (s : @store FS) : home <> [] ->
  list_files (disk s) (home ++ str "/.config/antinet/galaxy42/wallet/") = Some keys ->
  get_file_list (home ++ str "/.config/antinet/galaxy42/wallet/") s = (Ret keys, s).
Proof.
  intros Hne Hl. unfold get_file_list. rewrite bool_decide_eq_false_2 by (by destruct home). unfold fs_try. rewrite Hl. by destruct s.
Qed.

(** Naming the identity: the key is set whether or not it is in the list. *)
Lemma set_IDI_any home dbg keyname keys (s : @store FS) ps : home_is home_env home s -> home <> [] ->
  list_files (disk s) (home ++ str "/.config/antinet/galaxy42/wallet/") = Some keys ->
  creatable (disk s) ps -> conf_path home ∈ ps ->
  exists s', program_action_set_IDI home_env dbg keyname s = (Ret tt, s') /\ saved s ps (conf_path home) keyname s'.
Proof.
  intros Hh Hne Hl Hc Hp. unfold program_action_set_IDI.
  rewrite (M_bind_ret _ _ _ _ _ (wallet_dir_eval home s Hh)), (M_bind_ret _ _ _ _ _ (wallet_list_eval home keys s Hne Hl)).
  rewrite (M_bind_ret _ _ s tt s) by (by destruct (negb _)).
  pose proof (save_string_eval home_env dbg home e_datastore_galaxy_instalation_key_conf (str "IDI") keyname true s ps Hh) as Hsv.
  rewrite plain_IDI in Hsv. apply Hsv; [done|done|done|by left].
Qed.

(** The wallet can be listed once it holds the identity. *)
Lemma wallet_listed home (s : @store FS) : home <> [] -> creatable (disk s) (identity_paths home) ->
  status (disk s) (wallet_path home) = Some regular_file ->
  exists keys, list_files (disk s) (home ++ str "/.config/antinet/galaxy42/wallet/") = Some keys.
Proof.
  intros Hne Hc Hw. set (dir := home ++ str "/.config/antinet/galaxy42/wallet").
  assert (wallet_path home = dir ++ [Byte.x2f] ++ str "IDI.PRV") as Ew by (unfold store_path, dir; rewrite <- !app_assoc; reflexivity).
  destruct (listed (disk s) (identity_paths home) dir (str "IDI.PRV") Hc) as (keys & El & _).
  - rewrite <- Ew. left.
  - apply (bool_decide_unpack _). vm_compute. exact I.
  - unfold dir. by destruct home.
  - by rewrite <- Ew.
  - exists keys. rewrite <- El. unfold dir. rewrite <- app_assoc. reflexivity.
Qed.

(** C11: the first start makes an identity: with no key files of that name, one
    Ed25519 pair is drawn, its private and public collections become the
    contents of wallet/IDI.PRV and public/IDI.pub, the configuration names
    "IDI", no other file changes, and the rest of the step is the
    configuration with the identity just stored. *)
Theorem first_start_makes_identity home (s : @store FS) (n : node) prv pub rng' :
  home_is home_env home s -> home <> [] -> gen_ed25519 (m_rng n) = (Ret (prv, pub), rng') ->
  zlen prv <= SANE_MAX_SIZE_FOR_STRING -> zlen pub <= SANE_MAX_SIZE_FOR_STRING ->
  creatable (disk s) (identity_paths home) -> NoDup (map path_id (identity_paths home)) ->
  free (disk s) (wallet_path home) -> free (disk s) (public_path home) ->
  exists s', make_keys (s, n) = configure (s', with_rng rng' n) /\
    read_file (disk s') (wallet_path home) = Some (keys_bytes (one_key e_crypto_use_secret prv)) /\
    read_file (disk s') (public_path home) = Some (keys_bytes (one_key e_crypto_use_open pub)) /\
    load_string home_env (g_dbg_level n) e_datastore_galaxy_instalation_key_conf (str "IDI") s' = (Ret (str "IDI"), s') /\
    forall q, path_id q ∉ map path_id (identity_paths home) -> kept (disk s) (disk s') q.
Proof.
  intros Hh Hne Hg Hprv Hpub Hc Hnd Hw Hp. set (dbg := g_dbg_level n). set (ps := identity_paths home) in *.
  apply NoDup_cons in Hnd as [Hn1 Hnd]. apply NoDup_cons in Hnd as [Hn2 _].
  destruct (save_one_key home dbg e_crypto_use_secret e_datastore_galaxy_wallet_PRV prv s ps) as (s1 & E1 & Hc1 & Hv1 & Hk1 & _ & Ha1 & Hd1); [by left|done..|by left|done|].
  assert (home_is home_env home s1) as Hh1 by (unfold home_is; by rewrite Hd1).
  destruct (save_one_key home dbg e_crypto_use_open e_datastore_galaxy_pub pub s1 ps) as (s2 & E2 & Hc2 & Hv2 & Hk2 & _ & Ha2 & Hd2); [by right|done|done|done|by right; left| |].
  { apply (free_view (disk s)); [|done]. apply Ha1; [by right; left|]. intros E. apply Hn1. cbn [map]. apply list_elem_of_In. left. exact E. }
  assert (home_is home_env home s2) as Hh2 by (unfold home_is; by rewrite Hd2).
  assert (view (disk s2) (wallet_path home) = view (disk s1) (wallet_path home)) as Hw2.
  { apply Ha2; [by left|]. intros E. apply Hn1. apply list_elem_of_In. left. symmetry. exact E. }
  destruct (wallet_listed home s2 Hne Hc2) as (keys & Hl); [rewrite Hv1 in Hw2; by injection Hw2|].
  destruct (set_IDI_any home dbg (str "IDI") keys s2 ps Hh2 Hne Hl Hc2) as (s3 & E3 & Hc3 & Hv3 & Hk3 & _ & Ha3 & Hd3); [do 2 right; left|].
  exists s3. split_and!.
  - unfold step_make_default_keys, program_action_gen_key_simple.
    assert (with_keys_of (create_keys NTRU SIDH home_env dbg (str "IDI") [(e_crypto_system_type_Ed25519, 1)] true) (s, n)
      = (Ret tt, (s2, with_rng rng' n))) as E.
    { unfold with_keys_of, create_keys. rewrite (M_bind_ret _ _ _ _ _ (new_ed25519_pair prv pub (m_rng n) rng' s Hg Hpub)). cbn [negb].
      unfold on_snd. cbn [fst snd]. unfold datastore_save_PRV_and_pub. cbn [m_PRV m_pub pub_keys ed25519_pair].
      rewrite (M_bind_ret _ _ _ _ _ E1). by rewrite E2. }
    change (t_crypto_system_type_from_string (str "ed25519")) with (Ret e_crypto_system_type_Ed25519).
    unfold mbind at 1, M_mbind at 1. rewrite (M_bind_ret (on_snd mget) _ _ n (s, n)) by done. rewrite bind_lift. fold dbg.
    rewrite (M_bind_ret _ _ _ _ _ E). cbn [mret M_mret].
    rewrite (M_bind_ret (on_snd mget) _ _ (with_rng rng' n) (s2, with_rng rng' n)) by done.
    rewrite (M_bind_ret _ _ _ tt (s3, with_rng rng' n)); [done|]. unfold on_fst. cbn [fst snd g_dbg_level with_rng]. fold dbg. by rewrite E3.
  - assert (view (disk s3) (wallet_path home) = view (disk s2) (wallet_path home)) as Hw3.
    { apply Ha3; [by left|]. intros E. apply Hn1. rewrite E. by right; left. }
    rewrite Hw2, Hv1 in Hw3. by injection Hw3.
  - assert (view (disk s3) (public_path home) = view (disk s2) (public_path home)) as Hp3.
    { apply Ha3; [by right; left|]. intros E. apply Hn2. rewrite E. by left. }
    rewrite Hv2 in Hp3. by injection Hp3.
  - apply (load_string_eval home_env dbg home); [unfold home_is; by rewrite Hd3|done].
  - intros q Hq. apply not_elem_of_cons in Hq as [Q1 Hq]. apply not_elem_of_cons in Hq as [Q2 Hq]. apply not_elem_of_cons in Hq as [Q3 _].
    eapply kept_trans; [by apply Hk1|]. eapply kept_trans; [by apply Hk2|]. by apply Hk3.
Qed.

(** Keys without a configuration are not taken up: the repair in the code
    is not reached when the file that names the identity is missing, because
    the test of the file throws; the program goes on to make new keys, whatever
    keys there are. *)
Lemma keys_without_configuration home prefix p len (s : @store FS) (n : node) keys :
  home_is home_env home s -> home <> [] -> parse_prefix prefix = Ret (p, len) ->
  list_files (disk s) (home ++ str "/.config/antinet/galaxy42/wallet/") = Some keys -> keys <> [] ->
  status (disk s) (conf_path home) = Some file_not_found ->
  identity prefix (s, n) =
    mcatch make_keys (fun _ => mthrow ex_exception_error_exit) (s, (set_prefix p n).2).
Proof.
  intros Hh Hne Hp Hl Hk Hc. unfold configure_identity.
  rewrite (M_bind_ret (on_snd mget) _ _ n (s, n)) by done.
  assert (have_keys_configured home_env (g_dbg_level n) s = (Ret false, s)) as E.
  { unfold have_keys_configured, mcatch.
    rewrite (M_bind_ret _ _ _ _ _ (wallet_dir_eval home s Hh)), (M_bind_ret _ _ _ _ _ (wallet_list_eval home keys s Hne Hl)).
    rewrite (M_bind_ret _ _ _ _ _ (full_path_eval home_env home e_datastore_galaxy_instalation_key_conf (str "IDI") s Hh)).
    unfold mbind, M_mbind. by rewrite (is_file_ok_missing _ s Hc). }
  rewrite (M_bind_ret _ _ _ false (s, n)) by (unfold on_fst; cbn [fst snd]; by rewrite E).
  rewrite Hp, bind_lift. by rewrite (M_bind_ret _ _ _ tt (s, (set_prefix p n).2)).
Qed.
End Theorems.

(** The number of keys left out is read from the name of the type. *)
Lemma key_type_without_number : parse_key_type (str "x25519") = Ret (e_crypto_system_type_X25519, 25519).
Proof. vm_compute. reflexivity. Qed.

(** ** At a disk in memory *)

#[local] Existing Instance toy_lib.
#[local] Existing Instance toy_net.

Definition toy_home : bytes := str "/home/u".
Definition toy_wallet : bytes := str "/home/u/.config/antinet/galaxy42/wallet/IDI.PRV".
Definition toy_store (files : list (bytes * bytes)) : @store toy_disk :=
  Store toy_home (ToyDisk (list_to_map files) ∅ []).
Definition toy_options : options := Options false (-1) false false false false None false 30 (str "fd42") [].

Lemma toy_refuses files i : agrees (console (disk (toy_store files)) i) = false.
Proof. by destruct i. Qed.

Lemma start_loses_no_file_witness :
  let s := toy_store [(toy_wallet, str "my old key")] in
  view (disk (main_execution true true (fun _ _ => Ret []) (fun _ _ => Ret []) (fun _ _ _ => true) (fun _ _ _ => true) None 3 toy_options
    (s, toy_node (str "A") ∅)).2.1) toy_wallet = (Some regular_file, Some 10, Some (str "my old key")).
Proof.
  intros s. refine (eq_trans (start_loses_no_file true true (fun _ _ => Ret []) (fun _ _ => Ret []) (fun _ _ _ => true) (fun _ _ _ => true) None 3
    toy_options s (toy_node (str "A") ∅) (toy_refuses _) toy_wallet eq_refl _ _) _).
  - vm_compute. discriminate.
  - intros home Hh. injection Hh as <-. vm_compute. discriminate.
  - vm_compute. reflexivity.
Defined.

Lemma first_start_makes_identity_witness :
  exists s' : @store toy_disk, read_file (disk s') toy_wallet = Some (keys_bytes (one_key e_crypto_use_secret (replicate 32 Byte.x07))) /\
    (step_make_default_keys true true (fun _ _ => Ret []) (fun _ _ => Ret []) (fun _ _ _ => true) (fun _ _ _ => true) None)
      (toy_store [], toy_node (str "A") ∅) =
    configure_mykey_stored true true (fun _ _ => Ret []) (fun _ _ => Ret []) (fun _ _ _ => true) (fun _ _ _ => true) None
      (s', with_rng 8 (toy_node (str "A") ∅)).
Proof.
  destruct (first_start_makes_identity true true (fun _ _ => Ret []) (fun _ _ => Ret []) (fun _ _ _ => true) (fun _ _ _ => true) None
    toy_home (toy_store []) (toy_node (str "A") ∅) (replicate 32 Byte.x07) (replicate 32 Byte.x07) 8) as (s' & E & Hw & _).
  - reflexivity.
  - discriminate.
  - reflexivity.
  - vm_compute. discriminate.
  - vm_compute. discriminate.
  - intros p Hp. repeat (apply elem_of_cons in Hp as [->|Hp]; [apply (bool_decide_unpack _); vm_compute; exact I|]). by apply elem_of_nil in Hp.
  - apply (bool_decide_unpack _). vm_compute. exact I.
  - left. vm_compute. discriminate.
  - left. vm_compute. discriminate.
  - exists s'. split; [exact Hw|exact E].
Defined.

