(* ===== verification/Tab.v ===== *)
(** * Bounded containers: tables, views, buffers

    Models [stdplus/tab.hpp] (checked copies between containers, views), the
    ranges of [stdplus/misc.hpp], [stdplus/arrayvector.hpp], [netbuf.cpp] and
    the welds of [galaxysrv_engine.cpp].  Memory is flat: an address holds an
    element, an address that holds none is not the program's; a container of
    contiguous elements is its first address and its size.  Allocation
    ([new], [delete]) is tracked by the set of live blocks. *)
From S2P Require Import Prelude Eint.

Definition size_t : int_type := Int_type 64 false.

(** ** Memory, containers, iterators *)

Notation memory A := (gmap Z A).

(** std::vector, std::array, std::basic_string or [container_view]. *)
Record linear := Linear { c_begin : Z; c_size : Z }.
Definition c_end (c : linear) : Z := c_begin c + c_size c.

(** [container.begin() + n]: iterators stay within the container. *)
Definition iter_plus (c : linear) (n : Z) : outcome Z :=
  if (0 <=? n) && (n <=? c_size c) then Ret (c_begin c + n) else Undef.

Section Memory.
Context {A : Type}.

Definition read_mem (p : Z) : M (memory A) A :=
  m ← mget; match m !! p with Some v => mret v | None => mundef end.
Definition write_mem (p : Z) (v : A) : M (memory A) unit :=
  m ← mget; match m !! p with Some _ => mput (<[p := v]> m) | None => mundef end.

(** [std::copy(first, first + n, d_first)] *)
Fixpoint std_copy (n : nat) (first d_first : Z) : M (memory A) unit :=
  match n with
  | O => mret tt
  | S n' => v ← read_mem first; write_mem d_first v;; std_copy n' (first + 1) (d_first + 1)
  end.

(** ** stdplus/misc.hpp: ranges *)

Definition iterator_less (iter1 iter2 : Z) : bool := iter1 <? iter2.
Definition iterator_less_equal (iter1 iter2 : Z) : bool := iter1 <=? iter2.
Definition iterator_greater (iter1 iter2 : Z) : bool := iter2 <? iter1.
Definition iterator_greater_equal (iter1 iter2 : Z) : bool := iter2 <=? iter1.

Definition test_ranges_overlap_inclusive_noempty (start1 last1 start2 last2 : Z) : outcome bool :=
  oassert (iterator_less_equal start1 last1);;
  oassert (iterator_less_equal start2 last2);;
  Ret (iterator_less_equal start1 last2 && iterator_less_equal start2 last1).

Definition check_input (b : bool) : outcome unit := othrow_if (negb b) ex_err_check_input.

Definition copy_iter_and_check_no_overlap (first last d_first size : Z) : M (memory A) unit :=
  mlift (oassert (iterator_less_equal first last);;
         oassert (0 <? size);;
         overlap ← test_ranges_overlap_inclusive_noempty first last d_first (d_first + size - 1);
         check_input (negb overlap));;
  std_copy (Z.to_nat (last + 1 - first)) first d_first.

(** ** stdplus/tab.hpp: copies *)

(** The result is the iterator into the destination. *)
Definition copy_safe_apart (n : Z) (tab_src tab_dst : linear) (offset_src offset_dst : Z) : M (memory A) Z :=
  if n <? 1 then mret (c_begin tab_dst)
  else
    src_rb ← mlift (iter_plus tab_src offset_src);
    mlift (check_input (offset_src <? c_size tab_src);;
           check_input (n <=? c_size tab_src - offset_src));;
    src_rl ← mlift (iter_plus tab_src (offset_src + n - 1));
    mlift (oassert (src_rl <=? c_end tab_src));;
    dst_rb ← mlift (iter_plus tab_dst offset_dst);
    mlift (check_input (offset_dst <? c_size tab_dst);;
           check_input (n <=? c_size tab_dst - offset_dst));;
    dst_rl ← mlift (iter_plus tab_dst (offset_dst + n - 1));
    mlift (oassert (dst_rl <=? c_end tab_dst));;
    overlap ← mlift (test_ranges_overlap_inclusive_noempty src_rb src_rl dst_rb dst_rl);
    mlift (check_input (negb overlap));;
    copy_iter_and_check_no_overlap src_rb src_rl dst_rb n;;
    mret dst_rb.

Definition container_get_or_default (tab : linear) (ix : Z) (def : A) : M (memory A) A :=
  if c_size tab <=? ix then mret def else read_mem (c_begin tab + ix).

(** ** Views *)

(** [tab_view] and [tab_range]: a null pointer for an empty container. *)
Record tab_view := TabView { v_begin : option Z; v_size : Z }.

Definition throw_if_less_init_list (a b : Z) : outcome unit := othrow_if (a <? b) ex_invalid_argument.

Definition tab_view_iters (begin_ end_ : Z) : outcome tab_view :=
  othrow_if (end_ <? begin_) ex_invalid_argument;;
  Ret (TabView (Some begin_) (end_ - begin_)).

Definition tab_view_pointer (begin_ : option Z) (size : Z) : tab_view := TabView begin_ size.

Definition tab_view_all (obj : linear) : tab_view :=
  TabView (if c_size obj =? 0 then None else Some (c_begin obj)) (c_size obj).

(** [&obj.at(ix)] *)
Definition address_at (obj : linear) (ix : Z) : outcome Z :=
  othrow_if (c_size obj <=? ix) ex_out_of_range;; Ret (c_begin obj + ix).

Definition tab_view_part (obj : linear) (begin_ end_ : Z) : outcome tab_view :=
  throw_if_less_init_list end_ begin_;;
  m_begin ← address_at obj begin_;
  m_end ← address_at obj (wrap 64 (end_ - 1));
  Ret (TabView (Some m_begin) (end_ - begin_)).

Definition view_at (t : tab_view) (ix : Z) : M (memory A) A :=
  mlift (othrow_if (v_size t <=? ix) ex_out_of_range);;
  match v_begin t with Some p => read_mem (p + ix) | None => mundef end.

Definition range_set (t : tab_view) (ix : Z) (v : A) : M (memory A) unit :=
  mlift (othrow_if (v_size t <=? ix) ex_out_of_range);;
  match v_begin t with Some p => write_mem (p + ix) v | None => mundef end.
End Memory.

(** ** stdplus/arrayvector.hpp *)

Module arrayvector.
(** [m_current_size] is indeterminate ([None]) until it is written. *)
Record t (A : Type) := ArrayVector { m_current_size : option Z; m_array : list A }.
Arguments ArrayVector {A} _ _.
Arguments m_current_size {A} _.
Arguments m_array {A} _.

Section Ops.
Context {A : Type} (TMax : Z).

(** The implicit constructor: the elements are value-initialised by their own
    constructors, the size is left alone. *)
Definition create (elements : list A) : t A := ArrayVector None elements.

Definition size : M (t A) Z :=
  v ← mget; match m_current_size v with Some n => mret n | None => mundef end.
Definition max_size : Z := TMax.
Definition capacity : Z := TMax.

Definition assert_access (ix : Z) : M (t A) unit :=
  n ← size; mthrow_if (n <=? ix) ex_out_of_range.

(** [m_array[ix]], unchecked. *)
Definition at_ (ix : Z) : M (t A) A :=
  assert_access ix;; v ← mget;
  match m_array v !! Z.to_nat ix with Some x => mret x | None => mundef end.

(** A full container: a message is written to a stream, and nothing is thrown. *)
Definition push_back (val : A) : M (t A) unit :=
  n ← size; v ← mget;
  if n <? zlen (m_array v)
  then mput (ArrayVector (Some (wrap 64 (n + 1))) (<[Z.to_nat n := val]> (m_array v)))
  else mundef.

Definition pop_back : M (t A) unit :=
  n ← size; v ← mget;
  mput (ArrayVector (Some (wrap 64 (n - 1))) (m_array v)).
End Ops.
End arrayvector.

(** ** netbuf.cpp *)

(** The live blocks of the heap, by address. *)
Notation heap := (gset Z).

(** A pointer and a size: of a chunk, or of the buffer that owns the block. *)
Record c_netchunk := NetChunk { chunk_data : option Z; chunk_size : Z }.
Record c_netbuf := NetBuf { buf_data : option Z; buf_size : Z }.

Definition netchunk_move (rhs : c_netchunk) : c_netchunk * c_netchunk := (rhs, NetChunk None 0).
Definition netchunk_to_tab_view (c : c_netchunk) : tab_view := tab_view_pointer (chunk_data c) (chunk_size c).
Definition shrink_to (c : c_netchunk) (smaller_size : Z) : outcome c_netchunk :=
  othrow_if (negb (smaller_size <=? chunk_size c)) ex_err_check_prog;;
  Ret (NetChunk (chunk_data c) smaller_size).

(** [delete[] p] *)
Definition delete_block (p : Z) : M heap unit :=
  h ← mget; if bool_decide (p ∈ h) then mput (h ∖ {[p]}) else mundef.

Definition netbuf_clear (b : c_netbuf) : M heap c_netbuf :=
  match buf_data b with Some p => delete_block p | None => mret tt end;;
  mret (NetBuf None 0).

(** [alloc]: the address [new] returns, [None] when it throws. *)
Definition netbuf_create (alloc : option Z) (size : Z) : M heap c_netbuf :=
  mcatch (match alloc with
          | Some p => mmodify (fun h => {[p]} ∪ h);; mret (NetBuf (Some p) size)
          | None => mthrow ex_bad_alloc
          end)
         (fun e => netbuf_clear (NetBuf None 0);; mthrow e).

(** The destructor. *)
Definition netbuf_delete (b : c_netbuf) : M heap unit := netbuf_clear b;; mret tt.

(** The move constructor: the new buffer and what is left of [brother]. *)
Definition netbuf_move (brother : c_netbuf) : c_netbuf * c_netbuf := (brother, NetBuf None 0).

(** [b = std::move(brother)], the two being different objects: the block of [b]
    is not freed. *)
Definition netbuf_move_assign (b brother : c_netbuf) : M heap (c_netbuf * c_netbuf) :=
  mret (NetBuf (buf_data brother) (buf_size brother), NetBuf None 0).

Definition netbuf_at (b : c_netbuf) (ix : Z) : outcome Z :=
  check_input (ix <? buf_size b);;
  match buf_data b with Some p => Ret (p + ix) | None => Undef end.

Definition netbuf_to_tab_view (b : c_netbuf) : tab_view := tab_view_pointer (buf_data b) (buf_size b).

Definition get_chunk (b : c_netbuf) (offset size : Z) : outcome c_netchunk :=
  last ← eint_plus size_t offset size;
  oassert (last <=? buf_size b);;
  match buf_data b with
  | Some p => Ret (NetChunk (Some (p + offset)) size)
  | None => if offset =? 0 then Ret (NetChunk None size) else Undef
  end.

(** ** galaxysrv_engine.cpp: welds *)

Record c_weld := Weld { m_empty : bool; m_buf : c_netbuf; m_bufWrite : Z; m_bufRead : Z }.

Definition weld_clear (w : c_weld) : c_weld := Weld true (m_buf w) 0 0.
Definition weld_create (alloc : option Z) (memsize : Z) : M heap c_weld :=
  b ← netbuf_create alloc memsize;
  mret (weld_clear (Weld true b 0 0)).
Definition get_free_size (w : c_weld) : outcome Z := eint_minus size_t (buf_size (m_buf w)) (m_bufWrite w).
Definition adjust_bufWrite (w : c_weld) (new_bufWrite : Z) : outcome c_weld :=
  othrow_if (negb (new_bufWrite <=? buf_size (m_buf w))) ex_err_check_prog;;
  Ret (Weld (m_empty w) (m_buf w) new_bufWrite (m_bufRead w)).
