(* ===== verification/TabFacts.v ===== *)
(** * Bounded containers: theorems

    The checked copy does what it says on every branch, views refuse what is
    outside them, welds never hand out memory beyond their buffer; and where
    [arrayvector] and [c_netbuf] differ from their documentation. *)
From Stdlib Require Import ZifyBool.
From S2P Require Import Prelude Eint Tab.

(** ** Memory and std::copy *)

Section Memory.
Context {A : Type}.
Implicit Types m : memory A.

(** Every address of the [n] from [p] holds an element. *)
Definition holds m (p n : Z) : Prop := forall x, p <= x < p + n -> is_Some (m !! x).

(** [m'] is [m] with the [n] elements from [s] copied to [d]. *)
Definition copied m m' (s d n : Z) : Prop :=
  forall x, m' !! x = (if (d <=? x) && (x <? d + n) then m !! (s + (x - d)) else m !! x).

Definition apart (s d n : Z) : bool := (s + n <=? d) || (d + n <=? s).

Lemma copied_0 m s d : copied m m s d 0.
Proof. intros x. by destruct (Z.leb_spec d x), (Z.ltb_spec x (d + 0)); try done; lia. Qed.

Lemma std_copy_apart (n : nat) : forall (s d : Z) m,
  holds m s (Z.of_nat n) -> holds m d (Z.of_nat n) -> apart s d (Z.of_nat n) = true ->
  exists m', std_copy n s d m = (Ret tt, m') /\ copied m m' s d (Z.of_nat n).
Proof.
  induction n as [|n IH]; intros s d m Hs Hd Ha.
  - exists m. split; [done|apply copied_0].
  - destruct (Hs s ltac:(lia)) as [v Ev]. destruct (Hd d ltac:(lia)) as [w Ew].
    unfold apart in *.
    destruct (IH (s + 1) (d + 1) (<[d := v]> m)) as (m' & E & C).
    + intros x Hx. rewrite lookup_insert_is_Some. destruct (decide (d = x)); [by left|right; split; [done|apply Hs; lia]].
    + intros x Hx. rewrite lookup_insert_is_Some. destruct (decide (d = x)); [by left|right; split; [done|apply Hd; lia]].
    + lia.
    + exists m'. split.
      * cbn [std_copy]. rewrite bind_eq. unfold read_mem. rewrite bind_eq. cbn [mget]. rewrite Ev. cbn [mret M_mret].
        rewrite bind_eq. unfold write_mem. rewrite bind_eq. cbn [mget]. by rewrite Ew.
      * intros x. rewrite (C x). pose proof (Z.leb_spec (d + 1) x). pose proof (Z.ltb_spec x (d + 1 + Z.of_nat n)).
        destruct (Z.leb_spec d x), (Z.ltb_spec x (d + Z.of_nat (S n))); cbn [andb].
        -- destruct (decide (x = d)) as [->|Hne].
           ++ rewrite (proj2 (Z.leb_gt (d + 1) d)) by lia. cbn. rewrite lookup_insert_eq, Z.sub_diag, Z.add_0_r. done.
           ++ rewrite (proj2 (Z.leb_le (d + 1) x)), (proj2 (Z.ltb_lt x _)) by lia. cbn.
              rewrite lookup_insert_ne by lia. f_equal. lia.
        -- rewrite (proj2 (Z.ltb_ge x (d + 1 + Z.of_nat n))) by lia. rewrite andb_false_r. by rewrite lookup_insert_ne by lia.
        -- rewrite (proj2 (Z.leb_gt (d + 1) x)) by lia. cbn. by rewrite lookup_insert_ne by lia.
        -- rewrite (proj2 (Z.leb_gt (d + 1) x)) by lia. cbn. by rewrite lookup_insert_ne by lia.
Qed.

Lemma iter_plus_ok c k : 0 <= k <= c_size c -> iter_plus c k = Ret (c_begin c + k).
Proof. intros Hk. unfold iter_plus. by rewrite !(proj2 (Z.leb_le _ _)) by lia. Qed.

Lemma overlap_apart s d n : 1 <= n ->
  test_ranges_overlap_inclusive_noempty s (s + n - 1) d (d + n - 1) = Ret (negb (apart s d n)).
Proof.
  intros Hn. unfold test_ranges_overlap_inclusive_noempty, iterator_less_equal, apart, oassert.
  rewrite (proj2 (Z.leb_le s (s + n - 1))), (proj2 (Z.leb_le d (d + n - 1))) by lia. cbn. f_equal.
  destruct (Z.leb_spec s (d + n - 1)), (Z.leb_spec d (s + n - 1)), (Z.leb_spec (s + n) d), (Z.leb_spec (d + n) s); try done; lia.
Qed.

Lemma bind_checks {St B} a b (f : unit -> M St B) s :
  (mlift (check_input a;; check_input b) ≫= f) s = if a && b then f tt s else (Throw ex_err_check_input, s).
Proof. by destruct a, b. Qed.

Lemma in_container c k n : 1 <= n -> 0 <= k <= c_size c ->
  (k <? c_size c) && (n <=? c_size c - k) = (k + n <=? c_size c).
Proof. lia. Qed.

Lemma copy_iter_apart s d n m : 1 <= n -> apart s d n = true ->
  copy_iter_and_check_no_overlap s (s + n - 1) d n m = std_copy (A:=A) (Z.to_nat n) s d m.
Proof.
  intros Hn Ha. unfold copy_iter_and_check_no_overlap, iterator_less_equal.
  rewrite (proj2 (Z.leb_le s (s + n - 1))), (proj2 (Z.ltb_lt 0 n)), overlap_apart, Ha by lia. cbn.
  by replace (s + n - 1 + 1 - s) with n by lia.
Qed.

Lemma copy_apart_or_throw n src dst os od m :
  1 <= n -> 0 <= os <= c_size src -> 0 <= od <= c_size dst ->
  holds m (c_begin src) (c_size src) -> holds m (c_begin dst) (c_size dst) ->
  let s := c_begin src + os in
  let d := c_begin dst + od in
  if (os + n <=? c_size src) && (od + n <=? c_size dst) && apart s d n
  then exists m', copy_safe_apart n src dst os od m = (Ret d, m') /\ copied m m' s d n
  else copy_safe_apart n src dst os od m = (Throw ex_err_check_input, m).
Proof.
  intros Hn Hos Hod Hs Hd s d. unfold copy_safe_apart. rewrite (proj2 (Z.ltb_ge n 1)) by lia.
  rewrite (iter_plus_ok src os), bind_lift, bind_checks, in_container by done.
  destruct (Z.leb_spec (os + n) (c_size src)) as [Hsn|Hsn]; [cbn [andb]|done].
  rewrite (iter_plus_ok src (os + n - 1)), bind_lift by lia.
  rewrite (proj2 (Z.leb_le (c_begin src + (os + n - 1)) (c_end src))) by (unfold c_end; lia).
  cbn [oassert]. rewrite bind_lift.
  rewrite (iter_plus_ok dst od), bind_lift, bind_checks, in_container by done.
  destruct (Z.leb_spec (od + n) (c_size dst)) as [Hdn|Hdn]; [cbn [andb]|done].
  rewrite (iter_plus_ok dst (od + n - 1)), bind_lift by lia.
  rewrite (proj2 (Z.leb_le (c_begin dst + (od + n - 1)) (c_end dst))) by (unfold c_end; lia).
  cbn [oassert]. rewrite bind_lift.
  rewrite !Z.add_sub_assoc, !Z.add_assoc. fold s d. rewrite overlap_apart, bind_lift, negb_involutive by done.
  destruct (apart s d n) eqn:Ha; [|done]. cbn [check_input negb othrow_if]. rewrite bind_lift.
  destruct (std_copy_apart (Z.to_nat n) s d m) as (m' & E & C); rewrite ?Z2Nat.id by lia; [..|done|].
  - intros x Hx. apply Hs. unfold s in *. lia.
  - intros x Hx. apply Hd. unfold d in *. lia.
  - exists m'. rewrite Z2Nat.id in C by lia. split; [|done].
    rewrite bind_eq, copy_iter_apart, E by done. done.
Qed.
(** An offset beyond the end forms an iterator beyond the container before the
    offset is checked. *)
Lemma copy_safe_apart_offset n src dst os od m :
  1 <= n -> c_size src < os -> copy_safe_apart n src dst os od m = (Undef, m).
Proof.
  intros Hn Ho. unfold copy_safe_apart. rewrite (proj2 (Z.ltb_ge n 1)) by lia.
  unfold iter_plus. rewrite (proj2 (Z.leb_gt os _)) by lia. by rewrite andb_false_r.
Qed.

Lemma copy_source_checked n src dst os od m :
  1 <= n -> 0 <= os <= c_size src -> c_size src < os + n -> copy_safe_apart n src dst os od m = (Throw ex_err_check_input, m).
Proof.
  intros Hn Hos Hr. unfold copy_safe_apart. rewrite (proj2 (Z.ltb_ge n 1)) by lia.
  rewrite (iter_plus_ok src os), bind_lift, bind_checks, in_container by done. by rewrite (proj2 (Z.leb_gt _ _)) by lia.
Qed.

Lemma copy_destination_offset n src dst os od m :
  1 <= n -> 0 <= os -> os + n <= c_size src -> c_size dst < od -> copy_safe_apart n src dst os od m = (Undef, m).
Proof.
  intros Hn Hos Hr Hd. unfold copy_safe_apart. rewrite (proj2 (Z.ltb_ge n 1)) by lia.
  rewrite (iter_plus_ok src os), bind_lift, bind_checks, in_container by lia. rewrite (proj2 (Z.leb_le _ _)) by lia.
  rewrite (iter_plus_ok src (os + n - 1)), bind_lift by lia.
  rewrite (proj2 (Z.leb_le (c_begin src + (os + n - 1)) (c_end src))) by (unfold c_end; lia).
  cbn [oassert]. rewrite bind_lift. unfold iter_plus. rewrite (proj2 (Z.leb_gt od _)) by lia. by rewrite andb_false_r.
Qed.

(** C34: [copy_safe_apart], for every size and all offsets.  It copies the range
    it is given, and nothing else changes, exactly when the size is at least
    one, both ranges lie in their containers and they do not overlap.  For a
    size of zero it returns the beginning of the destination.  Otherwise it
    throws and memory is untouched, but for an offset beyond the end of its
    container (of the destination, when the range of the source is right): an
    iterator beyond the end is formed before the offset is checked, which is
    undefined. *)
Theorem copy_safe_apart_spec n src dst os od m :
  0 <= os -> 0 <= od -> holds m (c_begin src) (c_size src) -> holds m (c_begin dst) (c_size dst) ->
  let s := c_begin src + os in
  let d := c_begin dst + od in
  let x := copy_safe_apart n src dst os od m in
  if n <? 1 then x = (Ret (c_begin dst), m)
  else if c_size src <? os then x = (Undef, m)
  else if c_size src <? os + n then x = (Throw ex_err_check_input, m)
  else if c_size dst <? od then x = (Undef, m)
  else if (od + n <=? c_size dst) && apart s d n then exists m', x = (Ret d, m') /\ copied m m' s d n
  else x = (Throw ex_err_check_input, m).
Proof.
  intros Hos Hod Hs Hd s d x. unfold x. destruct (Z.ltb_spec n 1) as [Hn|Hn].
  { unfold copy_safe_apart. by rewrite (proj2 (Z.ltb_lt n 1)). }
  destruct (Z.ltb_spec (c_size src) os) as [Ho|Ho]; [by apply copy_safe_apart_offset|].
  destruct (Z.ltb_spec (c_size dst) od) as [Hp|Hp].
  - destruct (Z.ltb_spec (c_size src) (os + n)) as [Hr|Hr].
    + by apply copy_source_checked.
    + by apply copy_destination_offset.
  - pose proof (copy_apart_or_throw n src dst os od m Hn ltac:(lia) ltac:(lia) Hs Hd) as H. fold s d in H.
    rewrite Z.ltb_antisym. destruct (os + n <=? c_size src); [exact H|exact H].
Qed.
End Memory.

(** Two containers of one memory: a copy into the other, and into itself. *)
Definition demo_memory : memory Z := list_to_map (zip (map Z.of_nat (seq 100 8)) [1; 2; 3; 4; 5; 6; 7; 8]).

Lemma copy_safe_apart_spec_witness :
  (exists m', copy_safe_apart 3 (Linear 100 4) (Linear 104 4) 1 0 demo_memory = (Ret 104, m')
              /\ copied demo_memory m' 101 104 3)
  /\ copy_safe_apart 3 (Linear 100 8) (Linear 100 8) 0 2 demo_memory = (Throw ex_err_check_input, demo_memory).
Proof.
  split.
  - refine (copy_safe_apart_spec 3 (Linear 100 4) (Linear 104 4) 1 0 demo_memory _ _ _ _); try (cbn; lia).
    + intros x Hx. cbn in Hx. assert (x = 100 \/ x = 101 \/ x = 102 \/ x = 103) as [-> | [-> | [-> | ->]]] by lia; vm_compute; eexists; reflexivity.
    + intros x Hx. cbn in Hx. assert (x = 104 \/ x = 105 \/ x = 106 \/ x = 107) as [-> | [-> | [-> | ->]]] by lia; vm_compute; eexists; reflexivity.
  - vm_compute. reflexivity.
Defined.

(** ** Views *)

(** The constructor of a part accepts a part that is not empty; an empty one
    only where an element follows and one precedes it. *)
Lemma tab_view_part_spec obj b e : 0 <= c_size obj < 2 ^ 63 -> 0 <= b < 2 ^ 63 -> 0 <= e < 2 ^ 63 ->
  tab_view_part obj b e =
    if e <? b then Throw ex_invalid_argument
    else if (b <? c_size obj) && (1 <=? e) && (e <=? c_size obj) then Ret (TabView (Some (c_begin obj + b)) (e - b))
    else Throw ex_out_of_range.
Proof.
  intros Hs Hb He. unfold tab_view_part, throw_if_less_init_list, address_at.
  destruct (Z.ltb_spec e b); [done|]. cbn [othrow_if].
  destruct (Z.leb_spec (c_size obj) b) as [H1|H1]; cbn.
  { by rewrite (proj2 (Z.ltb_ge b _)) by lia. }
  rewrite (proj2 (Z.ltb_lt b _)) by lia. cbn [andb].
  destruct (Z.leb_spec 1 e) as [H2|H2]; cbn [andb].
  - unfold wrap. rewrite Z.mod_small by lia. destruct (Z.leb_spec e (c_size obj)).
    + by rewrite (proj2 (Z.leb_gt _ (e - 1))) by lia.
    + by rewrite (proj2 (Z.leb_le _ (e - 1))) by lia.
  - assert (e = 0) as -> by lia. replace (wrap 64 (0 - 1)) with (2 ^ 64 - 1) by done.
    by rewrite (proj2 (Z.leb_le _ (2 ^ 64 - 1))) by lia.
Qed.

(** A view of a part reads the elements of the part and nothing else. *)
Lemma view_at_part {A} obj b e t ix (m : memory A) : 0 <= c_size obj < 2 ^ 63 -> 0 <= b < 2 ^ 63 -> 0 <= e < 2 ^ 63 ->
  0 <= ix -> tab_view_part obj b e = Ret t -> holds m (c_begin obj) (c_size obj) ->
  exists o, view_at t ix m = (o, m) /\
    match o with Ret v => ix < e - b /\ m !! (c_begin obj + b + ix) = Some v
               | Throw x => x = ex_out_of_range /\ e - b <= ix | _ => False end.
Proof.
  intros Hs Hb He Hix. rewrite tab_view_part_spec by done.
  destruct (Z.ltb_spec e b); [done|]. destruct ((b <? c_size obj) && (1 <=? e) && (e <=? c_size obj)) eqn:Ek; [|done].
  intros [= <-] Hm. unfold view_at. cbn [v_size v_begin]. destruct (Z.leb_spec (e - b) ix); cbn [othrow_if].
  - rewrite bind_throw. exists (Throw ex_out_of_range). done.
  - rewrite bind_lift. destruct (Hm (c_begin obj + b + ix) ltac:(lia)) as [v Ev].
    exists (Ret v). unfold read_mem. rewrite bind_eq. cbn [mget]. rewrite Ev. done.
Qed.

(** ** arrayvector *)

Section ArrayVector.
Context {A : Type}.
Implicit Types v : arrayvector.t A.

(** The elements of an arrayvector that has a size. *)
Definition elements (n : Z) v : list A := take (Z.to_nat n) (arrayvector.m_array v).
Definition av_ok (n : Z) v : Prop := arrayvector.m_current_size v = Some n /\ 0 <= n <= zlen (arrayvector.m_array v) /\ zlen (arrayvector.m_array v) < 2 ^ 63.

(** Until its size is written, which nothing does, it cannot be used. *)
Lemma new_arrayvector_undefined (els : list A) x ix :
  arrayvector.push_back x (arrayvector.create els) = (Undef, arrayvector.create els)
  /\ arrayvector.pop_back (arrayvector.create els) = (Undef, arrayvector.create els)
  /\ arrayvector.size (arrayvector.create els) = (Undef, arrayvector.create els)
  /\ arrayvector.at_ ix (arrayvector.create els) = (Undef, arrayvector.create els).
Proof. done. Qed.

Lemma push_back_room n v x : av_ok n v -> n < zlen (arrayvector.m_array v) ->
  exists v', arrayvector.push_back x v = (Ret tt, v') /\ av_ok (n + 1) v' /\ elements (n + 1) v' = elements n v ++ [x].
Proof.
  intros [En Hn] Hr. unfold arrayvector.push_back, arrayvector.size.
  rewrite !bind_eq. cbn [mget]. rewrite En. cbn [mret M_mret]. rewrite bind_eq. cbn [mget].
  rewrite (proj2 (Z.ltb_lt n _)) by done. eexists. split; [done|]. unfold wrap. rewrite Z.mod_small by lia.
  unfold av_ok, elements. cbn. unfold zlen in *. rewrite length_insert. split; [split; [done|lia]|].
  replace (Z.to_nat (n + 1)) with (S (Z.to_nat n)) by lia.
  rewrite (take_S_r _ _ x); [|apply list_lookup_insert_eq; lia]. by rewrite take_insert_ge by lia.
Qed.

(** Full: documented to throw, it writes behind the array. *)
Lemma push_back_full n v x : av_ok n v -> n = zlen (arrayvector.m_array v) -> arrayvector.push_back x v = (Undef, v).
Proof.
  intros [En Hn] Hr. unfold arrayvector.push_back, arrayvector.size.
  rewrite !bind_eq. cbn [mget]. rewrite En. cbn [mret M_mret]. rewrite bind_eq. cbn [mget].
  by rewrite (proj2 (Z.ltb_ge n _)) by lia.
Qed.

(** Empty: documented to throw, its size becomes the greatest there is, and
    every access passes the check of its index. *)
Lemma pop_back_empty v ix : av_ok 0 v -> zlen (arrayvector.m_array v) <= ix < 2 ^ 64 - 1 ->
  exists v', arrayvector.pop_back v = (Ret tt, v') /\ arrayvector.m_current_size v' = Some (2 ^ 64 - 1)
  /\ arrayvector.at_ ix v' = (Undef, v').
Proof.
  intros [En Hn] Hix. unfold arrayvector.pop_back, arrayvector.size at 1.
  rewrite !bind_eq. cbn [mget]. rewrite En. cbn [mret M_mret]. rewrite bind_eq. cbn [mget].
  change (wrap 64 (0 - 1)) with (2 ^ 64 - 1). eexists. split; [done|]. split; [done|].
  unfold arrayvector.at_, arrayvector.assert_access, arrayvector.size, mthrow_if.
  rewrite !bind_eq. cbn [mget arrayvector.m_current_size mret M_mret arrayvector.m_array].
  rewrite (proj2 (Z.leb_gt (2 ^ 64 - 1) ix)) by lia. cbn [othrow_if mlift]. rewrite bind_eq. cbn [mget arrayvector.m_array].
  rewrite lookup_ge_None_2; [done|]. unfold zlen in *. lia.
Qed.

Lemma pop_back_last n v : av_ok n v -> 0 < n ->
  exists v', arrayvector.pop_back v = (Ret tt, v') /\ av_ok (n - 1) v' /\ elements (n - 1) v' = take (Z.to_nat (n - 1)) (elements n v).
Proof.
  intros [En Hn] Hp. unfold arrayvector.pop_back, arrayvector.size.
  rewrite !bind_eq. cbn [mget]. rewrite En. cbn [mret M_mret]. rewrite bind_eq. cbn [mget].
  eexists. split; [done|]. unfold wrap. rewrite Z.mod_small by lia. unfold av_ok, elements. cbn.
  split; [split; [done|lia]|]. rewrite take_take. f_equal. lia.
Qed.
End ArrayVector.

(** ** Buffers *)

(** A buffer whose block is live. *)
Definition netbuf_ok (h : heap) (b : c_netbuf) : Prop :=
  match buf_data b with Some p => p ∈ h /\ 0 <= buf_size b < 2 ^ 64 | None => buf_size b = 0 end.

(** A moved buffer leaves the other empty, and only one of them frees it. *)
Lemma netbuf_move_ok h b : netbuf_ok h b -> netbuf_ok h (netbuf_move b).1 /\ netbuf_ok h (netbuf_move b).2
  /\ netbuf_delete (netbuf_move b).2 h = (Ret tt, h).
Proof. done. Qed.

(** Assigning to a buffer that has a block forgets that block: it stays live
    and no buffer can free it. *)
Lemma netbuf_move_assign_leaks h p q n k : p ∈ h -> q ∈ h -> p <> q ->
  exists b b' h', netbuf_move_assign (NetBuf (Some p) n) (NetBuf (Some q) k) h = (Ret (b, b'), h')
  /\ p ∈ ((netbuf_delete b';; netbuf_delete b) h').2.
Proof.
  intros Hp Hq Hne. eexists _, _, _. split; [done|]. unfold netbuf_delete, netbuf_clear, delete_block, mbind, M_mbind.
  cbn. rewrite bool_decide_eq_true_2 by done. cbn. set_solver.
Qed.

Lemma netbuf_delete_frees h b p : buf_data b = Some p -> p ∈ h -> netbuf_delete b h = (Ret tt, h ∖ {[p]}).
Proof.
  intros E Hp. unfold netbuf_delete, netbuf_clear, delete_block, mbind, M_mbind. rewrite E. cbn.
  by rewrite bool_decide_eq_true_2.
Qed.

Lemma eint_plus_fits a b : 0 <= a -> 0 <= b -> a + b < 2 ^ 64 -> eint_plus size_t a b = Ret (a + b).
Proof.
  intros Ha Hb Hs. rewrite eint_plus_correct by first [done | apply in_type_iff; unfold t_min, t_max; cbn; lia].
  rewrite (proj2 (in_type_iff _ _)); [done|]. unfold t_min, t_max; cbn; lia.
Qed.

Lemma eint_plus_overflows a b : 0 <= a < 2 ^ 64 -> 0 <= b < 2 ^ 64 -> 2 ^ 64 <= a + b ->
  eint_plus size_t a b = Throw ex_range_error.
Proof.
  intros Ha Hb Hs. rewrite eint_plus_correct by first [done | apply in_type_iff; unfold t_min, t_max; cbn; lia].
  destruct (in_type size_t (a + b)) eqn:E; [|done]. apply in_type_iff in E. unfold t_min, t_max in E; cbn in E; lia.
Qed.

(** ** Welds *)

Definition weld_ok (h : heap) (w : c_weld) : Prop :=
  netbuf_ok h (m_buf w) /\ is_Some (buf_data (m_buf w)) /\ 0 <= m_bufWrite w <= buf_size (m_buf w).

Lemma free_size w h : weld_ok h w -> get_free_size w = Ret (buf_size (m_buf w) - m_bufWrite w).
Proof.
  intros (Hb & [p Ep] & Hw). unfold netbuf_ok in Hb. rewrite Ep in Hb. destruct Hb as [_ Hs].
  unfold get_free_size. rewrite eint_minus_correct by first [done | apply in_type_iff; unfold t_min, t_max; cbn; lia].
  rewrite (proj2 (in_type_iff _ _)); [done|]. unfold t_min, t_max; cbn; lia.
Qed.

Lemma weld_create_ok h p memsize : 0 <= memsize < 2 ^ 64 ->
  exists w h', weld_create (Some p) memsize h = (Ret w, h') /\ weld_ok h' w /\ get_free_size w = Ret memsize.
Proof.
  intros Hm. eexists _, _. split; [done|].
  assert (weld_ok ({[p]} ∪ h) (weld_clear (Weld true (NetBuf (Some p) memsize) 0 0))) as Hok.
  { unfold weld_ok, netbuf_ok. cbn. split; [split; [by apply elem_of_union_l, elem_of_singleton|lia]|]. split; [eauto|lia]. }
  split; [done|]. rewrite (free_size _ _ Hok). cbn. f_equal. lia.
Qed.

(** What a weld hands out for one read lies in its buffer behind
    everything written before, and shrinking it to the octets read and moving
    the write position keeps the weld well-formed; a read that does not fit
    is refused. *)
Lemma weld_hands_out_own_memory h w p packet_max k :
  weld_ok h w -> buf_data (m_buf w) = Some p -> 0 <= k <= packet_max -> packet_max < 2 ^ 64 ->
  if packet_max <=? buf_size (m_buf w) - m_bufWrite w then
    exists c c' w', get_chunk (m_buf w) (m_bufWrite w) packet_max = Ret c
      /\ chunk_data c = Some (p + m_bufWrite w) /\ m_bufWrite w + chunk_size c <= buf_size (m_buf w)
      /\ shrink_to c k = Ret c' /\ chunk_data c' = chunk_data c /\ chunk_size c' = k
      /\ (last ← eint_plus size_t (m_bufWrite w) k; adjust_bufWrite w last) = Ret w'
      /\ weld_ok h w' /\ m_buf w' = m_buf w /\ m_bufWrite w' = m_bufWrite w + k
  else get_free_size w = Ret (buf_size (m_buf w) - m_bufWrite w)
       /\ (get_chunk (m_buf w) (m_bufWrite w) packet_max = Abort_
           \/ get_chunk (m_buf w) (m_bufWrite w) packet_max = Throw ex_range_error).
Proof.
  intros Hok Ep Hk Hpm. pose proof Hok as (Hb & Hd & Hw). pose proof Hb as Hn. unfold netbuf_ok in Hn. rewrite Ep in Hn.
  destruct Hn as [_ Hs]. destruct (Z.leb_spec packet_max (buf_size (m_buf w) - m_bufWrite w)) as [Hf|Hf].
  - exists (NetChunk (Some (p + m_bufWrite w)) packet_max), (NetChunk (Some (p + m_bufWrite w)) k),
      (Weld (m_empty w) (m_buf w) (m_bufWrite w + k) (m_bufRead w)).
    unfold get_chunk, shrink_to, adjust_bufWrite. rewrite !eint_plus_fits by lia. cbn.
    rewrite Ep, (proj2 (Z.leb_le (_ + packet_max) _)), (proj2 (Z.leb_le k _)), (proj2 (Z.leb_le (_ + k) _)) by lia.
    repeat split; try done; cbn; lia.
  - split; [by apply (free_size w h)|]. unfold get_chunk.
    destruct (Z.ltb_spec (m_bufWrite w + packet_max) (2 ^ 64)).
    + left. rewrite eint_plus_fits by lia. cbn. by rewrite (proj2 (Z.leb_gt _ _)) by lia.
    + right. by rewrite eint_plus_overflows by lia.
Qed.

