(* ===== verification/Ndp.v ===== *)
(** * Neighbour discovery for the Windows TAP device

    Models [c_ndp.cpp], [c_ndp.hpp] (recognising neighbour solicitations,
    building advertisements, their checksum, in the deprecated version and in
    the one that fills a static template) and the header sizes of [ipv6.cpp].
    Octets are in the memory of [Tab]; the two versions of the checksum share
    their body and differ in how they read: through a checked view, or through
    a bare pointer. *)
From S2P Require Import Prelude Tab.

Notation octet_memory := (memory Byte.byte).

(** ** Checksum *)

(** [htonl] of a 32-bit value. *)
Definition swap32 (v : Z) : Z :=
  (v mod 256) * 2 ^ 24 + ((v / 2 ^ 8) mod 256) * 2 ^ 16 + ((v / 2 ^ 16) mod 256) * 2 ^ 8 + (v / 2 ^ 24) mod 256.
Definition htonl (little_edian : bool) (v : Z) : Z := if little_edian then swap32 v else v.

Section Checksum.
Context {St : Type}.

(** [result += at(i); result += at(i + 1) << 8], for [n] values of [i]. *)
Fixpoint add_words (at_ : Z -> M St Byte.byte) (n : nat) (i result : Z) : M St Z :=
  match n with
  | O => mret result
  | S n' =>
      lo ← at_ i;
      hi ← at_ (i + 1);
      add_words at_ n' (i + 2) (u64 (u64 (result + byte_val lo) + Z.shiftl (byte_val hi) 8))
  end.

(** [while (result >> 16) result = (result >> 16) + (result & 0xFFFF)]: a
    64-bit value is folded after five turns. *)
Fixpoint fold16 (fuel : nat) (result : Z) : outcome Z :=
  match fuel with
  | O => Undef
  | S f => if Z.shiftr result 16 =? 0 then Ret result else fold16 f (u64 (Z.shiftr result 16 + Z.land result 0xFFFF))
  end.

End Checksum.

(** The version on views: [length] is a uint16_t, [next_hvalue] a uint32_t. *)
Definition checksum_ipv6_packet (little_edian : bool) (source_destination_addr header_with_content : tab_view)
    (next_hvalue : Z) : M octet_memory Z :=
  let length := wrap 16 (v_size header_with_content) in
  mlift (oassert (0 <? length));;
  let next_hvalue := if little_edian then htonl little_edian next_hvalue else next_hvalue in
  result ← add_words (view_at source_destination_addr) 16 0 0;
  result ← add_words (view_at header_with_content) (Z.to_nat ((length + 1) / 2)) 0 result;
  result ← (if Z.odd length
            then last ← view_at header_with_content (length - 1);
                 mret (u64 (result + (if little_edian then Z.shiftl (byte_val last) 8 else byte_val last)))
            else mret result);
  let length_bigendian := if little_edian then htonl little_edian length else length in
  let result := u64 (result + (Z.shiftr length_bigendian 16 + Z.land length_bigendian 0xFFFF)) in
  let result := u64 (result + (Z.shiftr next_hvalue 16 + Z.land next_hvalue 0xFFFF)) in
  result ← mlift (fold16 6 result);
  mret (wrap 16 (Z.lnot result)).

(** The deprecated version, on pointers into an array: the state is the array. *)
Definition array_at (base : Z) (i : Z) : M bytes Byte.byte :=
  a ← mget; match a !! Z.to_nat (base + i) with Some b => mret b | None => mundef end.
Definition checksum_ipv6_packet_old (little_edian : bool) (source_destination_addr header_with_content : Z)
    (length next_hvalue : Z) : M bytes Z :=
  mlift (oassert (0 <? length));;
  let next_hvalue := if little_edian then htonl little_edian next_hvalue else next_hvalue in
  result ← add_words (array_at source_destination_addr) 16 0 0;
  result ← add_words (array_at header_with_content) (Z.to_nat ((length + 1) / 2)) 0 result;
  result ← (if Z.odd length
            then last ← array_at header_with_content (length - 1);
                 mret (u64 (result + (if little_edian then Z.shiftl (byte_val last) 8 else byte_val last)))
            else mret result);
  let length_bigendian := if little_edian then htonl little_edian length else length in
  let result := u64 (result + (Z.shiftr length_bigendian 16 + Z.land length_bigendian 0xFFFF)) in
  let result := u64 (result + (Z.shiftr next_hvalue 16 + Z.land next_hvalue 0xFFFF)) in
  result ← mlift (fold16 6 result);
  mret (wrap 16 (Z.lnot result)).

(** ** Solicitations *)

(** [offset_icmpv6_type] *)
Definition icmpv6_type_offset : Z := 14 + 40 + 0.

(** [data] points to [size] octets. *)
Definition is_packet_neighbor_solicitation (data : Z) (size : Z) : M octet_memory bool :=
  if size <=? icmpv6_type_offset then mret false
  else packet_type ← read_mem (data + icmpv6_type_offset); mret (byte_val packet_type =? 135).

(** The deprecated version: the array has 9000 octets. *)
Definition is_packet_neighbor_solicitation_old (packet_data : bytes) : outcome bool :=
  match packet_data !! 54%nat with Some b => Ret (byte_val b =? 135) | None => Undef end.

(** ** Advertisements *)

Definition octets (l : list Z) : bytes := map byte_of_Z l.

(** The static array of the class when the program starts. *)
Definition m_generate_neighbor_advertisement_packet : bytes :=
  octets [0; 0; 0; 0; 0; 0] ++ octets [0xFC; 0; 0; 0; 0; 0] ++ octets [0x86; 0xDD]
  ++ octets [0x60; 0; 0; 0] ++ octets [0; 0x28] ++ octets [0x3A] ++ octets [0xFF]
  ++ replicate 16 Byte.x00 ++ replicate 16 Byte.x00
  ++ octets [0x88; 0; 0; 0] ++ octets [0xE0; 0; 0; 0] ++ replicate 16 Byte.x00
  ++ octets [2; 1] ++ octets [0xFC; 0; 0; 0; 0; 0] ++ octets [1; 1] ++ replicate 6 Byte.x00.

(** The [n] octets of an array from [i]; the arrays of this file hold them. *)
Definition array_sub (a : bytes) (i n : Z) : outcome bytes :=
  if (0 <=? i) && (i + n <=? zlen a) then Ret (sub a i n) else Undef.

(** The deprecated version writes the packet from its first octet to its last. *)
Definition generate_neighbor_advertisement (little_edian : bool) (neighbor_solicitation_packet : bytes) : outcome bytes :=
  input_src_mac_address ← array_sub neighbor_solicitation_packet 6 6;
  input_icmp_target_address ← array_sub neighbor_solicitation_packet (54 + 8) 16;
  input_source_ipv6_address ← array_sub neighbor_solicitation_packet 22 16;
  let return_packet :=
    input_src_mac_address ++ octets [0xFC; 0; 0; 0; 0; 0] ++ octets [0x86; 0xDD]
    ++ octets [0x60; 0; 0; 0] ++ octets [0; 0x28] ++ octets [0x3A] ++ octets [0xFF]
    ++ input_icmp_target_address ++ input_source_ipv6_address
    ++ octets [136; 0] ++ octets [0; 0] ++ octets [0xE0; 0; 0; 0] ++ input_icmp_target_address
    ++ octets [2; 1] ++ octets [0xFC; 0; 0; 0; 0; 0] ++ octets [1; 1] ++ input_src_mac_address in
  let '(c, _) := checksum_ipv6_packet_old little_edian 22 54 40 58 return_packet in
  checksum ← c;
  (* the bytes of the uint16_t in memory *)
  let '(first, second) := if little_edian then (Z.land checksum 0xFF, Z.shiftr checksum 8)
                          else (Z.shiftr checksum 8, Z.land checksum 0xFF) in
  Ret (<[57%nat := byte_of_Z second]> (<[56%nat := byte_of_Z first]> return_packet)).

Section New.
Context (little_edian : bool) (packet : linear).  (* the static array, 94 octets *)

(** [array.at(ix) = v] *)
Definition set_at (ix : Z) (v : Z) : M octet_memory unit :=
  p ← mlift (address_at packet ix); write_mem p (byte_of_Z v).

(** A copy of the array, returned by value. *)
Fixpoint read_array (n : nat) (p : Z) : M octet_memory bytes :=
  match n with O => mret [] | S n' => b ← read_mem p; r ← read_array n' (p + 1); mret (b :: r) end.

Definition generate_neighbor_advertisement_new (mac_address_container packet_neighbor_solicitation_container : linear)
    : M octet_memory bytes :=
  copy_safe_apart 6 mac_address_container packet 0 0;;
  copy_safe_apart 16 packet_neighbor_solicitation_container packet 62 22;;
  copy_safe_apart 16 packet_neighbor_solicitation_container packet 22 38;;
  copy_safe_apart 16 packet_neighbor_solicitation_container packet 62 62;;
  copy_safe_apart 6 mac_address_container packet 0 88;;
  set_at 56 0;;
  set_at 57 0;;
  source_destination_addr ← mlift (tab_view_part packet 22 (22 + 32));
  header_with_content ← mlift (tab_view_part packet 54 (54 + 40));
  checksum ← checksum_ipv6_packet little_edian source_destination_addr header_with_content 58;
  set_at 56 (Z.land checksum 0xFF);;
  set_at 57 (Z.shiftr checksum 8);;
  read_array 94 (c_begin packet).
End New.

(** ** ipv6.cpp *)

Definition ipv6_size_payload_from_header (tab : tab_view) : M octet_memory Z :=
  v_high ← view_at tab 4;
  v_low ← view_at tab 5;
  mret (wrap 32 (byte_val v_low + Z.shiftl (byte_val v_high) 8)).
Definition ipv6_size_entireip_from_header (tab : tab_view) : M octet_memory Z :=
  p ← ipv6_size_payload_from_header tab; mret (wrap 32 (p + 40)).
