(* ===== verification/NdpFacts.v ===== *)
(** * Neighbour discovery: theorems

    The checksum of an advertisement is the one a receiver expects (the
    one's-complement sum of RFC 1071, over octets in network order, though the
    code adds little-endian words), and the new generator writes what the
    deprecated one wrote. *)
From Stdlib Require Import ZifyBool.
From S2P Require Import Prelude Tab TabFacts Ndp.

(** The range of every octet of the goal. *)
Ltac octet_ranges := repeat match goal with |- context [byte_val ?x] =>
  assert_fails (assert (0 <= byte_val x < 256) by assumption); pose proof (byte_val_range x) end.

(** ** Sums of words *)

Fixpoint words_le (l : bytes) : Z :=
  match l with a :: b :: l' => byte_val a + 256 * byte_val b + words_le l' | [a] => byte_val a | [] => 0 end.
Fixpoint words_be (l : bytes) : Z :=
  match l with a :: b :: l' => 256 * byte_val a + byte_val b + words_be l' | [a] => 256 * byte_val a | [] => 0 end.

Lemma pair_ind (P : bytes -> Prop) : P [] -> (forall a, P [a]) -> (forall a b l, P l -> P (a :: b :: l)) -> forall l, P l.
Proof.
  intros H0 H1 H2. fix IH 1. intros [|a [|b l]]; [done|apply H1|]. apply H2, IH.
Qed.

Lemma words_le_bounds l : 0 <= words_le l <= 32768 * (zlen l + 1).
Proof.
  induction l as [|a|a b l IH] using pair_ind; unfold zlen in *; cbn [words_le length];
    octet_ranges; lia.
Qed.

Lemma words_le_app l k : Nat.Even (length l) -> words_le (l ++ k) = words_le l + words_le k.
Proof.
  induction l as [|a|a b l IH] using pair_ind; intros He; cbn [words_le app].
  - lia.
  - destruct He as [n He]. cbn in He. lia.
  - rewrite IH; [lia|]. destruct He as [n He]. exists (pred n). cbn in He. lia.
Qed.

(** Swapping the octets of every word multiplies the sum by 256, modulo 65535. *)
Lemma words_be_le l : (words_be l) mod 65535 = (256 * words_le l) mod 65535.
Proof.
  induction l as [|a|a b l IH] using pair_ind; cbn [words_le words_be]; [done| |].
  - done.
  - replace (256 * (byte_val a + 256 * byte_val b + words_le l))
      with (256 * byte_val a + byte_val b + 256 * words_le l + byte_val b * 65535) by lia.
    rewrite Z.mod_add by lia. rewrite (Z.add_mod _ (words_be l)), (Z.add_mod _ (256 * words_le l)) by lia. by rewrite IH.
Qed.

Lemma words_le_256 l : words_le l <= 256 * words_be l.
Proof. induction l as [|a|a b l IH] using pair_ind; cbn [words_le words_be]; octet_ranges; lia. Qed.

(** One's-complement addition, as a receiver does it: the carry comes back. *)
Definition oc_add (a b : Z) : Z := if 65535 <? a + b then a + b - 65535 else a + b.
Fixpoint oc_sum (acc : Z) (l : bytes) : Z :=
  match l with
  | a :: b :: l' => oc_sum (oc_add acc (256 * byte_val a + byte_val b)) l'
  | [a] => oc_add acc (256 * byte_val a)
  | [] => acc
  end.

(** The representative of a sum in 1 .. 65535. *)
Definition folded (r : Z) : Z := if r =? 0 then 0 else (r - 1) mod 65535 + 1.

Lemma oc_add_folded a b : 0 <= a -> 0 <= b <= 65535 -> oc_add (folded a) b = folded (a + b).
Proof.
  intros Ha Hb. unfold oc_add, folded. pose proof (Z.mod_pos_bound (a - 1) 65535 ltac:(lia)).
  pose proof (Z.div_mod (a - 1) 65535 ltac:(lia)).
  destruct (Z.eqb_spec a 0), (Z.eqb_spec (a + b) 0).
  - case_match; lia.
  - subst. rewrite Z.mod_small by lia. case_match; lia.
  - lia.
  - destruct (Z.ltb_spec 65535 ((a - 1) mod 65535 + 1 + b)).
    + rewrite <- (Z.mod_unique_pos (a + b - 1) 65535 ((a - 1) / 65535 + 1) ((a - 1) mod 65535 + b - 65535)); lia.
    + rewrite <- (Z.mod_unique_pos (a + b - 1) 65535 ((a - 1) / 65535) ((a - 1) mod 65535 + b)); lia.
Qed.

Lemma words_be_nonneg l : 0 <= words_be l.
Proof.
  induction l as [|a|a b l IH] using pair_ind; cbn [words_be];
    octet_ranges; lia.
Qed.

Lemma oc_sum_folded l : forall acc, 0 <= acc -> oc_sum (folded acc) l = folded (acc + words_be l).
Proof.
  induction l as [|a|a b l IH] using pair_ind; intros acc Ha; cbn [oc_sum words_be].
  - f_equal. lia.
  - pose proof (byte_val_range a). apply oc_add_folded; lia.
  - pose proof (byte_val_range a). pose proof (byte_val_range b). rewrite oc_add_folded by lia. rewrite IH by lia. f_equal. lia.
Qed.

(** ** The loops *)

Lemma fold16_folded fuel : forall r, 0 <= r < 2 ^ 64 -> (r < 2 ^ 16 \/ (r <= 2 ^ 16 /\ (1 < fuel)%nat) \/ (r < 2 ^ 17 /\ (2 < fuel)%nat)
    \/ (r < 2 ^ 32 + 2 ^ 16 /\ (3 < fuel)%nat) \/ (r < 2 ^ 48 + 2 ^ 16 /\ (4 < fuel)%nat) \/ (5 < fuel)%nat) -> (0 < fuel)%nat ->
  fold16 fuel r = Ret (folded r).
Proof.
  induction fuel as [|f IH]; intros r Hr Hb Hf; [lia|]. cbn [fold16].
  rewrite Z.shiftr_div_pow2 by lia. change 0xFFFF with (Z.ones 16). rewrite Z.land_ones by lia.
  pose proof (Z.div_mod r (2 ^ 16) ltac:(lia)). pose proof (Z.mod_pos_bound r (2 ^ 16) ltac:(lia)).
  pose proof (Z.div_pos r (2 ^ 16) ltac:(lia) ltac:(lia)).
  destruct (Z.eqb_spec (r / 2 ^ 16) 0) as [E|E].
  - f_equal. unfold folded. destruct (Z.eqb_spec r 0); [done|]. rewrite Z.mod_small; lia.
  - rewrite u64_small by lia. rewrite IH; [|lia|lia|lia].
    f_equal. unfold folded. destruct (Z.eqb_spec (r / 2 ^ 16 + r mod 2 ^ 16) 0); [lia|]. destruct (Z.eqb_spec r 0); [lia|].
    f_equal. replace (r - 1) with (r / 2 ^ 16 + r mod 2 ^ 16 - 1 + (r / 2 ^ 16) * 65535) by lia. by rewrite Z.mod_add by lia.
Qed.

(** [at_] reads the octets of [l] and changes nothing. *)
Definition reads {St} (at_ : Z -> M St Byte.byte) (s : St) (l : bytes) : Prop :=
  forall i b, l !! i = Some b -> at_ (Z.of_nat i) s = (Ret b, s).

Lemma add_words_reads {St} (at_ : Z -> M St Byte.byte) s l n : reads at_ s l -> forall i r,
  (i + 2 * n <= length l)%nat -> 0 <= r -> r + 65536 * Z.of_nat n < 2 ^ 64 ->
  add_words at_ n (Z.of_nat i) r s = (Ret (r + words_le (take (2 * n) (drop i l))), s).
Proof.
  intros Hr. induction n as [|n IH]; intros i r Hl H0 Hb.
  - change (2 * 0)%nat with 0%nat. cbn [add_words take words_le]. by rewrite Z.add_0_r.
  - destruct (lookup_lt_is_Some_2 l i ltac:(lia)) as [a Ea]. destruct (lookup_lt_is_Some_2 l (S i) ltac:(lia)) as [b Eb].
    cbn [add_words]. rewrite bind_eq, (Hr i a Ea). rewrite bind_eq.
    replace (Z.of_nat i + 1) with (Z.of_nat (S i)) by lia. rewrite (Hr _ b Eb). cbn beta iota.
    rewrite (drop_S _ _ _ Ea), (drop_S _ _ _ Eb). replace (2 * S n)%nat with (S (S (2 * n))) by lia. cbn [take words_le].
    pose proof (byte_val_range a). pose proof (byte_val_range b).
    rewrite Z.shiftl_mul_pow2 by lia. rewrite (u64_small (r + byte_val a)), u64_small by lia.
    replace (Z.of_nat i + 2) with (Z.of_nat (S (S i))) by lia. rewrite IH by lia. do 2 f_equal. lia.
Qed.

Definition be32 (v : Z) : bytes := [byte_of_Z (v / 2 ^ 24); byte_of_Z (v / 2 ^ 16); byte_of_Z (v / 2 ^ 8); byte_of_Z v].

Lemma swap32_words v : 0 <= v < 2 ^ 32 -> Z.shiftr (swap32 v) 16 + Z.land (swap32 v) 0xFFFF = words_le (be32 v).
Proof.
  intros Hv. rewrite Z.shiftr_div_pow2 by lia. change 0xFFFF with (Z.ones 16). rewrite Z.land_ones by lia.
  cbn [be32 words_le]. rewrite !byte_val_of_Z. unfold swap32.
  set (b0 := v mod 256). set (b1 := (v / 2 ^ 8) mod 256). set (b2 := (v / 2 ^ 16) mod 256). set (b3 := (v / 2 ^ 24) mod 256).
  assert (0 <= b0 < 256 /\ 0 <= b1 < 256 /\ 0 <= b2 < 256 /\ 0 <= b3 < 256) as Hbs
    by (repeat split; apply Z.mod_pos_bound; lia).
  set (w := b0 * 2 ^ 24 + b1 * 2 ^ 16 + b2 * 2 ^ 8 + b3).
  rewrite <- (Z.div_unique_pos w (2 ^ 16) (256 * b0 + b1) (256 * b2 + b3)) by (unfold w; lia).
  rewrite <- (Z.mod_unique_pos w (2 ^ 16) (256 * b0 + b1) (256 * b2 + b3)) by (unfold w; lia). lia.
Qed.

(** What the checksum covers: the addresses, the content, the length and the
    next header of the pseudo header. *)
Definition covered (sd hc : bytes) (next_hvalue : Z) : bytes := sd ++ be32 (zlen hc) ++ be32 next_hvalue ++ hc.

Lemma be32_words v : 0 <= words_le (be32 v) <= 32768 * 5.
Proof. exact (words_le_bounds (be32 v)). Qed.

Lemma even_length_be32 v : Nat.Even (length (be32 v)).
Proof. by exists 2%nat. Qed.

(** On any way of reading: the checksum of an even number of octets. *)
(** The two checksum functions are written out one by one; they differ in how
    they read an octet. *)
Definition checksum_body {St} (little_edian : bool) (source_destination_addr header_with_content : Z -> M St Byte.byte)
    (length next_hvalue : Z) : M St Z :=
  mlift (oassert (0 <? length));;
  let next_hvalue := if little_edian then htonl little_edian next_hvalue else next_hvalue in
  result ← add_words source_destination_addr 16 0 0;
  result ← add_words header_with_content (Z.to_nat ((length + 1) / 2)) 0 result;
  result ← (if Z.odd length
            then last ← header_with_content (length - 1);
                 mret (u64 (result + (if little_edian then Z.shiftl (byte_val last) 8 else byte_val last)))
            else mret result);
  let length_bigendian := if little_edian then htonl little_edian length else length in
  let result := u64 (result + (Z.shiftr length_bigendian 16 + Z.land length_bigendian 0xFFFF)) in
  let result := u64 (result + (Z.shiftr next_hvalue 16 + Z.land next_hvalue 0xFFFF)) in
  result ← mlift (fold16 6 result);
  mret (wrap 16 (Z.lnot result)).

Lemma checksum_view_body le sd hc nh :
  checksum_ipv6_packet le sd hc nh = checksum_body le (view_at sd) (view_at hc) (wrap 16 (v_size hc)) nh.
Proof. done. Qed.
Lemma checksum_array_body le sd hc len nh :
  checksum_ipv6_packet_old le sd hc len nh = checksum_body le (array_at sd) (array_at hc) len nh.
Proof. done. Qed.

Lemma checksum_body_even {St} (sd_at hc_at : Z -> M St Byte.byte) s sd hc nh :
  reads sd_at s sd -> reads hc_at s hc -> length sd = 32%nat -> Nat.Even (length hc) -> 0 < zlen hc < 65536 -> 0 < nh < 2 ^ 32 ->
  exists c, checksum_body true sd_at hc_at (zlen hc) nh s = (Ret c, s)
    /\ c = 65535 - folded (words_le (covered sd hc nh)) /\ 0 <= c <= 65535.
Proof.
  intros Hsd Hhc Lsd Ehc Lhc Hnh. destruct Ehc as [k Ek]. assert (zlen hc = 2 * Z.of_nat k) as Zk by (unfold zlen; lia).
  exists (65535 - folded (words_le (covered sd hc nh))).
  assert (words_le (covered sd hc nh) = words_le sd + words_le (be32 (zlen hc)) + words_le (be32 nh) + words_le hc) as Ec.
  { unfold covered. rewrite !words_le_app; [lia|apply even_length_be32..|exists 16%nat; lia]. }
  pose proof (words_le_bounds sd) as B1. pose proof (words_le_bounds hc) as B2. pose proof (be32_words (zlen hc)) as B3.
  pose proof (be32_words nh) as B4. unfold zlen in B1. rewrite Lsd in B1.
  pose proof (Z.mod_pos_bound (words_le (covered sd hc nh) - 1) 65535 ltac:(lia)).
  split; [|split; [done|unfold folded; case_match; lia]].
  unfold checksum_body. rewrite (proj2 (Z.ltb_lt 0 _)) by lia. cbn [oassert]. rewrite bind_lift.
  rewrite bind_eq. pose proof (add_words_reads sd_at s sd 16 Hsd 0 0 ltac:(rewrite Lsd; lia) ltac:(lia) ltac:(lia)) as Ea.
  change (Z.of_nat 0) with 0 in Ea. rewrite Ea.
  rewrite take_ge by (rewrite drop_0; lia). rewrite drop_0, Z.add_0_l.
  rewrite bind_eq. replace (Z.to_nat ((zlen hc + 1) / 2)) with k
    by (replace (zlen hc + 1) with (1 + Z.of_nat k * 2) by lia; rewrite Z.div_add by lia; change (1 / 2) with 0; lia).
  pose proof (add_words_reads hc_at s hc k Hhc 0 (words_le sd) ltac:(lia) ltac:(lia) ltac:(lia)) as Eb.
  change (Z.of_nat 0) with 0 in Eb. rewrite Eb. rewrite take_ge by (rewrite drop_0; lia). rewrite drop_0.
  replace (Z.odd (zlen hc)) with false by (rewrite Zk, Z.odd_mul; done).
  unfold htonl. rewrite !swap32_words by lia. rewrite bind_eq. cbn [mret M_mret].
  rewrite (u64_small (_ + _ + words_le (be32 (zlen hc)))), u64_small by lia.
  replace (words_le sd + words_le hc + words_le (be32 (zlen hc)) + words_le (be32 nh)) with (words_le (covered sd hc nh)) by lia.
  rewrite fold16_folded by lia. rewrite bind_lift. unfold mret, M_mret. do 2 f_equal.
  unfold Z.lnot, wrap. unfold folded in *. case_match; [done|].
  symmetry. apply (Z.mod_unique_pos _ _ (-1)); lia.
Qed.

(** Written back in the code's byte order, the checksum makes the sum of all
    words a multiple of 65535. *)
Lemma checksum_completes sd pre hc nh c : Nat.Even (length sd) -> Nat.Even (length pre) -> 0 < nh < 2 ^ 32 ->
  c = 65535 - folded (words_le (covered sd (pre ++ [Byte.x00; Byte.x00] ++ hc) nh)) -> 0 <= c <= 65535 ->
  oc_sum 0 (covered sd (pre ++ [byte_of_Z (Z.land c 0xFF); byte_of_Z (Z.shiftr c 8)] ++ hc) nh) = 65535.
Proof.
  intros Esd Epre Hnh Hc Hcr.
  set (x := byte_of_Z (Z.land c 0xFF)). set (y := byte_of_Z (Z.shiftr c 8)).
  assert (byte_val x + 256 * byte_val y = c) as Exy.
  { unfold x, y. rewrite !byte_val_of_Z. change 0xFF with (Z.ones 8). rewrite Z.land_ones, Z.shiftr_div_pow2 by lia.
    rewrite (Z.mod_small (c mod 2 ^ 8)) by (pose proof (Z.mod_pos_bound c (2 ^ 8)); lia).
    pose proof (Z.div_mod c (2 ^ 8) ltac:(lia)). pose proof (Z.mod_pos_bound c (2 ^ 8) ltac:(lia)).
    rewrite (Z.mod_small (c / 2 ^ 8)); [lia|]. split; [apply Z.div_pos; lia|]. apply Z.div_lt_upper_bound; lia. }
  set (w0 := words_le (covered sd (pre ++ [Byte.x00; Byte.x00] ++ hc) nh)) in *.
  assert (words_le (covered sd (pre ++ [x; y] ++ hc) nh) = w0 + c) as Ew.
  { unfold w0, covered. replace (zlen (pre ++ [Byte.x00; Byte.x00] ++ hc)) with (zlen (pre ++ [x; y] ++ hc)) by (rewrite !zlen_app; done).
    rewrite !words_le_app by first [done | apply even_length_be32 | by exists 1%nat]. cbn [words_le]. change (byte_val Byte.x00) with 0. lia. }
  set (all := covered sd (pre ++ [x; y] ++ hc) nh) in *.
  pose proof (words_be_le all) as Em. rewrite Ew in Em. pose proof (words_be_nonneg all) as Hn.
  pose proof (words_le_bounds (covered sd (pre ++ [Byte.x00; Byte.x00] ++ hc) nh)) as [Hw0 _]. fold w0 in Hw0.
  assert (exists k, w0 + c = 65535 * k) as [k Ek].
  { subst c. unfold folded. destruct (Z.eqb_spec w0 0) as [->|]; [by exists 1|].
    pose proof (Z.div_mod (w0 - 1) 65535 ltac:(lia)). exists ((w0 - 1) / 65535 + 1). lia. }
  rewrite Ek in Em. replace (256 * (65535 * k)) with (0 + (256 * k) * 65535) in Em by lia. rewrite Z.mod_add in Em by lia.
  change (oc_sum 0 all) with (oc_sum (folded 0) all). rewrite oc_sum_folded, Z.add_0_l by lia. unfold folded.
  assert (0 < words_be all) as Hpos.
  { pose proof (words_le_256 all) as H256. rewrite Ew in H256. subst c. unfold folded in *. case_match; lia. }
  destruct (Z.eqb_spec (words_be all) 0); [lia|].
  change (0 mod 65535) with 0 in Em. pose proof (Z.div_mod (words_be all) 65535 ltac:(lia)).
  rewrite <- (Z.mod_unique_pos (words_be all - 1) 65535 (words_be all / 65535 - 1) 65534); lia.
Qed.

(** ** Blocks of memory *)

Definition block (m : octet_memory) (p : Z) (l : bytes) : Prop :=
  forall i b, l !! i = Some b -> m !! (p + Z.of_nat i) = Some b.

(** [l] with [x] written at [od]. *)
Definition patch (l : bytes) (od : Z) (x : bytes) : bytes :=
  take (Z.to_nat od) l ++ x ++ drop (Z.to_nat od + length x) l.

(** Nothing outside the container changed. *)
Definition same_outside (c : linear) (m m' : octet_memory) : Prop :=
  forall x, (x < c_begin c \/ c_end c <= x) -> m' !! x = m !! x.

Definition containers_apart (a b : linear) : Prop := c_end a <= c_begin b \/ c_end b <= c_begin a.

Lemma same_outside_trans c m1 m2 m3 : same_outside c m1 m2 -> same_outside c m2 m3 -> same_outside c m1 m3.
Proof. intros H1 H2 x Hx. by rewrite H2, H1. Qed.

Lemma block_holds m p l : block m p l -> holds m p (zlen l).
Proof.
  intros Hb x Hx. destruct (lookup_lt_is_Some_2 l (Z.to_nat (x - p))) as [b E]; [unfold zlen in Hx; lia|].
  exists b. specialize (Hb _ _ E). by replace (p + Z.of_nat (Z.to_nat (x - p))) with x in Hb by lia.
Qed.

Lemma block_outside c m m' a l : c_size a = zlen l -> containers_apart a c -> same_outside c m m' ->
  block m (c_begin a) l -> block m' (c_begin a) l.
Proof.
  intros Hs Ha Ho Hb i b E. rewrite Ho; [by apply Hb|]. pose proof (lookup_lt_Some _ _ _ E). unfold containers_apart, c_end, zlen in *. lia.
Qed.

Lemma patch_mid a b c x : length b = length x -> patch (a ++ b ++ c) (zlen a) x = a ++ x ++ c.
Proof.
  intros Hl. unfold patch, zlen. rewrite Nat2Z.id, take_app_length. do 2 f_equal.
  rewrite drop_app, drop_ge, app_nil_l by lia. replace (length a + length x - length a)%nat with (length b) by lia. by rewrite drop_app_length.
Qed.

Lemma length_patch l od x : 0 <= od -> od + zlen x <= zlen l -> length (patch l od x) = length l.
Proof. unfold patch, zlen. intros. rewrite !length_app, length_take, length_drop. lia. Qed.

Lemma lookup_patch l od x i : 0 <= od -> od + zlen x <= zlen l ->
  patch l od x !! i = if (od <=? Z.of_nat i) && (Z.of_nat i <? od + zlen x) then x !! Z.to_nat (Z.of_nat i - od) else l !! i.
Proof.
  intros H0 H1. unfold patch. unfold zlen in *.
  assert (length (take (Z.to_nat od) l) = Z.to_nat od) as Et by (rewrite length_take; lia).
  destruct (Z.leb_spec od (Z.of_nat i)); cbn [andb].
  - rewrite lookup_app_r by lia. rewrite Et. destruct (Z.ltb_spec (Z.of_nat i) (od + Z.of_nat (length x))).
    + rewrite lookup_app_l by lia. f_equal. lia.
    + rewrite lookup_app_r by lia. rewrite lookup_drop. f_equal. lia.
  - rewrite lookup_app_l by lia. rewrite lookup_take_lt by lia. done.
Qed.

(** A copy between containers that are apart. *)
Lemma copy_into n src dst os od m k l : 1 <= n -> 0 <= os -> 0 <= od ->
  c_size src = zlen k -> c_size dst = zlen l -> os + n <= zlen k -> od + n <= zlen l ->
  containers_apart src dst -> block m (c_begin src) k -> block m (c_begin dst) l ->
  exists m', copy_safe_apart n src dst os od m = (Ret (c_begin dst + od), m')
    /\ block m' (c_begin dst) (patch l od (sub k os n)) /\ same_outside dst m m'.
Proof.
  intros Hn Hos Hod Hk Hl Hsn Hdn Ha Bk Bl.
  pose proof (copy_apart_or_throw n src dst os od m Hn ltac:(lia) ltac:(lia)) as E.
  rewrite Hk, Hl in E. specialize (E (block_holds _ _ _ Bk) (block_holds _ _ _ Bl)). cbn zeta in E.
  replace (_ && _ && _) with true in E; cycle 1.
  { unfold apart, containers_apart, c_end in *. lia. }
  destruct E as (m' & E & C). exists m'. split; [done|]. split.
  - intros i b Hi. pose proof (zlen_sub k os n ltac:(lia) ltac:(lia) ltac:(lia)) as Hz.
    rewrite lookup_patch in Hi by lia. rewrite Hz in Hi. rewrite (C (c_begin dst + Z.of_nat i)).
    destruct (Z.leb_spec od (Z.of_nat i)), (Z.ltb_spec (Z.of_nat i) (od + n)); cbn [andb] in Hi.
    + rewrite (proj2 (Z.leb_le _ _)), (proj2 (Z.ltb_lt _ _)) by lia. cbn [andb].
      unfold sub in Hi. rewrite lookup_take_lt, lookup_drop in Hi by lia.
      replace (c_begin src + os + (c_begin dst + Z.of_nat i - (c_begin dst + od)))
        with (c_begin src + Z.of_nat (Z.to_nat os + Z.to_nat (Z.of_nat i - od))) by lia. by apply Bk.
    + rewrite (proj2 (Z.ltb_ge (c_begin dst + Z.of_nat i) _)) by lia. rewrite andb_false_r. by apply Bl.
    + rewrite (proj2 (Z.leb_gt _ (c_begin dst + Z.of_nat i))) by lia. by apply Bl.
    + rewrite (proj2 (Z.leb_gt _ (c_begin dst + Z.of_nat i))) by lia. by apply Bl.
  - intros x Hx. rewrite (C x). unfold c_end in Hx.
    replace ((c_begin dst + od <=? x) && (x <? c_begin dst + od + n)) with false; [done|]. unfold zlen in *. lia.
Qed.

Lemma set_at_block c ix v m l : 0 <= ix < zlen l -> c_size c = zlen l -> block m (c_begin c) l ->
  exists m', set_at c ix v m = (Ret tt, m') /\ block m' (c_begin c) (patch l ix [byte_of_Z v]) /\ same_outside c m m'.
Proof.
  intros Hi Hc Bl. unfold set_at, address_at. rewrite (proj2 (Z.leb_gt _ ix)) by lia.
  destruct (block_holds _ _ _ Bl (c_begin c + ix) ltac:(lia)) as [w Ew].
  eexists. split; [by unfold write_mem, mbind, M_mbind; cbn; rewrite Ew|]. split.
  - intros i b Hb. rewrite lookup_patch in Hb by (change (zlen [byte_of_Z v]) with 1; lia). change (zlen [byte_of_Z v]) with 1 in Hb.
    destruct (decide (Z.of_nat i = ix)) as [E|Hne].
    + replace ((ix <=? Z.of_nat i) && (Z.of_nat i <? ix + 1)) with true in Hb by lia.
      replace (Z.of_nat i - ix) with 0 in Hb by lia. injection Hb as <-. by rewrite E, lookup_insert_eq.
    + replace ((ix <=? Z.of_nat i) && (Z.of_nat i <? ix + 1)) with false in Hb by lia. rewrite lookup_insert_ne by lia. by apply Bl.
  - intros x Hx. unfold c_end in Hx. by rewrite lookup_insert_ne by lia.
Qed.

Lemma read_array_block n : forall p m l, length l = n -> block m p l -> read_array n p m = (Ret l, m).
Proof.
  induction n as [|n IH]; intros p m l Hl Bl; destruct l as [|b l]; try done. cbn [read_array].
  unfold read_mem. rewrite !bind_eq. cbn. pose proof (Bl 0%nat b eq_refl) as E. rewrite Z.add_0_r in E. rewrite E. cbn.
  rewrite bind_eq, (IH (p + 1) m l); [done|by injection Hl|].
  intros i c Hc. replace (p + 1 + Z.of_nat i) with (p + Z.of_nat (S i)) by lia. by apply Bl.
Qed.

Lemma block_part m p a b c : block m p (a ++ b ++ c) -> block m (p + zlen a) b.
Proof.
  intros Hb i x Hi. pose proof (lookup_lt_Some _ _ _ Hi). unfold zlen.
  rewrite <- Z.add_assoc, <- Nat2Z.inj_add. apply Hb. rewrite lookup_app_r by lia. by rewrite Nat.add_sub', lookup_app_l.
Qed.

Lemma view_reads m p l : block m p l -> reads (view_at (TabView (Some p) (zlen l))) m l.
Proof.
  intros Bl i b Hi. pose proof (lookup_lt_Some _ _ _ Hi). unfold view_at. cbn [v_size v_begin].
  rewrite (proj2 (Z.leb_gt _ _)) by (unfold zlen; lia). cbn [othrow_if]. rewrite bind_lift. unfold read_mem. rewrite bind_eq. cbn.
  by rewrite (Bl i b Hi).
Qed.

Lemma array_reads a l b : reads (array_at (zlen a)) (a ++ l ++ b) l.
Proof.
  intros i x Hi. pose proof (lookup_lt_Some _ _ _ Hi). unfold array_at, zlen. rewrite bind_eq. cbn.
  replace (Z.to_nat (Z.of_nat (length a) + Z.of_nat i)) with (length a + i)%nat by lia.
  rewrite lookup_app_r, Nat.add_sub', lookup_app_l by lia. by rewrite Hi.
Qed.

(** ** Advertisements *)

(** An advertisement by its fields: destination MAC, IPv6 source and
    destination, checksum, target, link-layer address. *)
Definition h_eth : bytes :=
  octets [0xFC; 0; 0; 0; 0; 0] ++ octets [0x86; 0xDD] ++ octets [0x60; 0; 0; 0] ++ octets [0; 0x28] ++ octets [0x3A] ++ octets [0xFF].
Definition h_flags : bytes := octets [0xE0; 0; 0; 0].
Definition h_options : bytes := octets [2; 1] ++ octets [0xFC; 0; 0; 0; 0; 0] ++ octets [1; 1].
Definition adv (mac src dst ck tgt mac2 : bytes) : bytes :=
  mac ++ h_eth ++ src ++ dst ++ octets [136; 0] ++ ck ++ h_flags ++ tgt ++ h_options ++ mac2.

Definition zero2 : bytes := [Byte.x00; Byte.x00].

(** The ICMPv6 part. *)
Definition adv_icmp (ck tgt mac2 : bytes) : bytes := octets [136; 0] ++ ck ++ h_flags ++ tgt ++ h_options ++ mac2.

(** The value the checksum must have, and its two octets. *)
Definition adv_sum (src dst tgt mac2 : bytes) : Z :=
  65535 - folded (words_le (covered (src ++ dst) (adv_icmp zero2 tgt mac2) 58)).
Definition sum_octets (c : Z) : bytes := [byte_of_Z (Z.land c 0xFF); byte_of_Z (Z.shiftr c 8)].

(** What both generators make of a MAC, a target and a solicitor. *)
Definition advertisement (mac target solicitor : bytes) : bytes :=
  adv mac target solicitor (sum_octets (adv_sum target solicitor target mac)) target mac.

Lemma adv_icmp_zlen ck tgt mac2 : length ck = 2%nat -> length tgt = 16%nat -> length mac2 = 6%nat -> zlen (adv_icmp ck tgt mac2) = 40.
Proof. intros. unfold adv_icmp, zlen. rewrite !length_app. cbn. lia. Qed.

Lemma zlen_22 mac : length mac = 6%nat -> zlen (mac ++ h_eth) = 22.
Proof. intros. unfold zlen. rewrite length_app. cbn. lia. Qed.
Lemma zlen_54 mac src dst : length mac = 6%nat -> length src = 16%nat -> length dst = 16%nat -> zlen (mac ++ h_eth ++ src ++ dst) = 54.
Proof. intros. unfold zlen. rewrite !length_app. cbn. lia. Qed.

Section Fields.
Context (mac src dst ck tgt mac2 : bytes).
Context (Lmac : length mac = 6%nat) (Lsrc : length src = 16%nat) (Ldst : length dst = 16%nat)
  (Lck : length ck = 2%nat) (Ltgt : length tgt = 16%nat) (Lmac2 : length mac2 = 6%nat).

Lemma adv_length : length (adv mac src dst ck tgt mac2) = 94%nat.
Proof. unfold adv. rewrite !length_app. cbn. lia. Qed.

Lemma adv_zlen : zlen (adv mac src dst ck tgt mac2) = 94.
Proof. unfold zlen. by rewrite adv_length. Qed.

(** The parts the checksum reads. *)
Lemma adv_split_addresses : adv mac src dst ck tgt mac2 = (mac ++ h_eth) ++ (src ++ dst) ++ adv_icmp ck tgt mac2.
Proof. unfold adv, adv_icmp. by rewrite <- !app_assoc. Qed.
Lemma adv_split_icmp : adv mac src dst ck tgt mac2 = (mac ++ h_eth ++ src ++ dst) ++ adv_icmp ck tgt mac2 ++ [].
Proof. unfold adv, adv_icmp. by rewrite <- !app_assoc, app_nil_r. Qed.

(** Writing one field. *)
Lemma patch_mac x : length x = 6%nat -> patch (adv mac src dst ck tgt mac2) 0 x = adv x src dst ck tgt mac2.
Proof. intros L. apply (patch_mid [] mac). lia. Qed.
Lemma patch_src x : length x = 16%nat -> patch (adv mac src dst ck tgt mac2) 22 x = adv mac x dst ck tgt mac2.
Proof.
  intros L. rewrite <- (zlen_22 mac) by done. unfold adv.
  rewrite !(app_assoc mac h_eth). apply (patch_mid (mac ++ h_eth) src). lia.
Qed.
Lemma patch_dst x : length x = 16%nat -> patch (adv mac src dst ck tgt mac2) 38 x = adv mac src x ck tgt mac2.
Proof.
  intros L. replace 38 with (zlen (mac ++ h_eth ++ src)) by (unfold zlen; rewrite !length_app; cbn; lia). unfold adv.
  rewrite !(app_assoc h_eth src), !(app_assoc mac). apply patch_mid. lia.
Qed.
Lemma patch_ck x : length x = 2%nat -> patch (adv mac src dst ck tgt mac2) 56 x = adv mac src dst x tgt mac2.
Proof.
  intros L. replace 56 with (zlen (mac ++ h_eth ++ src ++ dst ++ octets [136; 0])) by (unfold zlen; rewrite !length_app; cbn; lia).
  unfold adv. rewrite !(app_assoc dst), !(app_assoc src), !(app_assoc h_eth), !(app_assoc mac). apply patch_mid. lia.
Qed.
Lemma patch_tgt x : length x = 16%nat -> patch (adv mac src dst ck tgt mac2) 62 x = adv mac src dst ck x mac2.
Proof.
  intros L. replace 62 with (zlen (mac ++ h_eth ++ src ++ dst ++ octets [136; 0] ++ ck ++ h_flags)) by (unfold zlen; rewrite !length_app; cbn; lia).
  unfold adv. rewrite !(app_assoc ck), !(app_assoc (octets [136; 0])), !(app_assoc dst), !(app_assoc src), !(app_assoc h_eth), !(app_assoc mac).
  apply patch_mid. lia.
Qed.
Lemma patch_mac2 x : length x = 6%nat -> patch (adv mac src dst ck tgt mac2) 88 x = adv mac src dst ck tgt x.
Proof.
  intros L. replace 88 with (zlen (mac ++ h_eth ++ src ++ dst ++ octets [136; 0] ++ ck ++ h_flags ++ tgt ++ h_options))
    by (unfold zlen; rewrite !length_app; cbn; lia).
  unfold adv. rewrite !(app_assoc tgt), !(app_assoc h_flags), !(app_assoc ck), !(app_assoc (octets [136; 0])), !(app_assoc dst), !(app_assoc src), !(app_assoc h_eth), !(app_assoc mac).
  rewrite <- (app_nil_r mac2) at 1. rewrite patch_mid by lia. by rewrite app_nil_r.
Qed.
End Fields.

Lemma patch_two l a b i : 0 <= i -> i + 2 <= zlen l -> patch (patch l i [a]) (i + 1) [b] = patch l i [a; b].
Proof.
  intros Hi Hl. apply list_eq. intros j.
  rewrite !lookup_patch; rewrite ?length_patch; change (zlen [a]) with 1; change (zlen [b]) with 1; change (zlen [a; b]) with 2; try lia.
  2: { unfold zlen in *. rewrite length_patch; [lia|lia|change (zlen [a]) with 1; unfold zlen; lia]. }
  destruct (Z.leb_spec (i + 1) (Z.of_nat j)), (Z.ltb_spec (Z.of_nat j) (i + 1 + 1)), (Z.leb_spec i (Z.of_nat j)),
    (Z.ltb_spec (Z.of_nat j) (i + 1)), (Z.ltb_spec (Z.of_nat j) (i + 2)); cbn [andb]; try lia; try done.
  - replace (Z.of_nat j - (i + 1)) with 0 by lia. replace (Z.of_nat j - i) with 1 by lia. done.
  - replace (Z.of_nat j - i) with 0 by lia. done.
Qed.

Lemma set_two c v w m mac src dst ck tgt mac2 {B} (rest : M octet_memory B) :
  length mac = 6%nat -> length src = 16%nat -> length dst = 16%nat -> length ck = 2%nat -> length tgt = 16%nat -> length mac2 = 6%nat ->
  c_size c = 94 -> block m (c_begin c) (adv mac src dst ck tgt mac2) ->
  exists m', (set_at c 56 v;; set_at c 57 w;; rest) m = rest m'
    /\ block m' (c_begin c) (adv mac src dst [byte_of_Z v; byte_of_Z w] tgt mac2) /\ same_outside c m m'.
Proof.
  intros L1 L2 L3 L4 L5 L6 Sc Bl. pose proof (adv_zlen mac src dst ck tgt mac2 L1 L2 L3 L4 L5 L6) as Hz.
  destruct (set_at_block c 56 v m _ ltac:(rewrite Hz; lia) ltac:(by rewrite Hz) Bl) as (m1 & E1 & B1 & O1).
  assert (zlen (patch (adv mac src dst ck tgt mac2) 56 [byte_of_Z v]) = 94) as Hz1
    by (unfold zlen in *; rewrite length_patch; [done|lia|change (zlen [byte_of_Z v]) with 1; unfold zlen; lia]).
  destruct (set_at_block c 57 w m1 _ ltac:(rewrite Hz1; lia) ltac:(by rewrite Hz1) B1) as (m2 & E2 & B2 & O2).
  exists m2. split; [by rewrite bind_eq, E1, bind_eq, E2|]. split; [|by eapply same_outside_trans].
  change 57 with (56 + 1) in B2. rewrite patch_two in B2 by (rewrite ?Hz; lia). by rewrite patch_ck in B2.
Qed.

(** The checksum of the parts of an advertisement, however they are read. *)
Lemma adv_checksum {St} (sd_at hc_at : Z -> M St Byte.byte) s src dst tgt mac2 :
  length src = 16%nat -> length dst = 16%nat -> length tgt = 16%nat -> length mac2 = 6%nat ->
  reads sd_at s (src ++ dst) -> reads hc_at s (adv_icmp zero2 tgt mac2) ->
  checksum_body true sd_at hc_at 40 58 s = (Ret (adv_sum src dst tgt mac2), s) /\ 0 <= adv_sum src dst tgt mac2 <= 65535.
Proof.
  intros Ls Ld Lt Lm Hsd Hhc. pose proof (adv_icmp_zlen zero2 tgt mac2 eq_refl Lt Lm) as Hz.
  destruct (checksum_body_even sd_at hc_at s (src ++ dst) (adv_icmp zero2 tgt mac2) 58 Hsd Hhc) as (c & E & -> & Hc).
  - rewrite length_app. lia.
  - exists 20%nat. unfold zlen in Hz. lia.
  - lia.
  - lia.
  - by rewrite Hz in E.
Qed.

Lemma insert_patch (l : bytes) i b : (i < length l)%nat -> <[i := b]> l = patch l (Z.of_nat i) [b].
Proof. intros Hi. unfold patch. rewrite insert_take_drop by done. rewrite Nat2Z.id. cbn. by replace (i + 1)%nat with (S i) by lia. Qed.

Lemma length_sub (l : bytes) i n : 0 <= i -> 0 <= n -> i + n <= zlen l -> length (sub l i n) = Z.to_nat n.
Proof. intros. pose proof (zlen_sub l i n ltac:(done) ltac:(done) ltac:(done)) as E. unfold zlen in E. lia. Qed.

(** The deprecated generator. *)
Lemma old_advertisement pkt : 78 <= zlen pkt ->
  generate_neighbor_advertisement true pkt = Ret (advertisement (sub pkt 6 6) (sub pkt 62 16) (sub pkt 22 16)).
Proof.
  intros Hp. unfold generate_neighbor_advertisement, array_sub.
  rewrite !(proj2 (Z.leb_le _ (zlen pkt))) by lia. cbn [mbind outcome_mbind outcome_bind andb]. change (54 + 8) with 62.
  change (0 <=? 6) with true. change (0 <=? 62) with true. change (0 <=? 22) with true. cbn [mbind outcome_mbind outcome_bind andb].
  pose proof (length_sub pkt 6 6 ltac:(lia) ltac:(lia) ltac:(lia)) as Lm.
  pose proof (length_sub pkt 62 16 ltac:(lia) ltac:(lia) ltac:(lia)) as Lt.
  pose proof (length_sub pkt 22 16 ltac:(lia) ltac:(lia) ltac:(lia)) as Ls.
  set (mac := sub pkt 6 6) in *. set (tgt := sub pkt 62 16) in *. set (src := sub pkt 22 16) in *.
  match goal with |- context [checksum_ipv6_packet_old _ _ _ _ _ ?l] => replace l with (adv mac tgt src zero2 tgt mac)
    by (unfold adv, h_eth, h_options; rewrite <- !app_assoc; done) end.
  destruct (adv_checksum (array_at 22) (array_at 54) (adv mac tgt src zero2 tgt mac) tgt src tgt mac Lt Ls Lt Lm) as [E _].
  - rewrite adv_split_addresses. rewrite <- (zlen_22 mac Lm). apply array_reads.
  - rewrite adv_split_icmp. rewrite <- (zlen_54 mac tgt src Lm Lt Ls). apply array_reads.
  - rewrite checksum_array_body, E. unfold mbind, outcome_mbind. cbn [outcome_bind]. f_equal.
    rewrite (insert_patch _ 57) by (rewrite length_insert, adv_length by done; lia).
    rewrite (insert_patch _ 56) by (rewrite adv_length by done; lia).
    change (Z.of_nat 57) with (Z.of_nat 56 + 1). rewrite patch_two by (rewrite ?adv_zlen; (lia || done)).
    by apply patch_ck.
Qed.

Lemma sub_mid (a b c : bytes) i n : zlen a = i -> zlen b = n -> sub (a ++ b ++ c) i n = b.
Proof. intros <- <-. apply sub_app_exact. Qed.

(** What a receiver checks: the advertisement answers the solicitation, and
    its ICMPv6 checksum is right. *)
Lemma advertisement_checks mac tgt sol : length mac = 6%nat -> length tgt = 16%nat -> length sol = 16%nat ->
  let r := advertisement mac tgt sol in
  zlen r = 94 /\ sub r 0 6 = mac /\ sub r 22 16 = tgt /\ sub r 38 16 = sol /\ sub r 62 16 = tgt
  /\ oc_sum 0 (covered (sub r 22 32) (sub r 54 40) 58) = 65535.
Proof.
  intros Lm Lt Ls r. unfold r, advertisement.
  destruct (adv_checksum (array_at 22) (array_at 54) (adv mac tgt sol zero2 tgt mac) tgt sol tgt mac Lt Ls Lt Lm) as [_ Hc].
  { rewrite adv_split_addresses. rewrite <- (zlen_22 mac Lm). apply array_reads. }
  { rewrite adv_split_icmp. rewrite <- (zlen_54 mac tgt sol Lm Lt Ls). apply array_reads. }
  set (c := adv_sum tgt sol tgt mac) in *. set (ck := sum_octets c).
  split; [by apply adv_zlen|].
  split; [apply (sub_mid [] mac); [done|unfold zlen; lia]|].
  assert (zlen mac = 6 /\ zlen tgt = 16 /\ zlen sol = 16) as (Zm & Zt & Zs) by (unfold zlen; lia).
  split; [unfold adv; rewrite (app_assoc mac h_eth); apply sub_mid; [by apply zlen_22|done]|].
  split.
  { unfold adv. rewrite (app_assoc h_eth), (app_assoc mac). apply sub_mid; [|done]. rewrite !zlen_app. change (zlen h_eth) with 16. lia. }
  split.
  { unfold adv. rewrite (app_assoc ck), (app_assoc (octets [136; 0])), (app_assoc sol), (app_assoc tgt), (app_assoc h_eth), (app_assoc mac).
    apply sub_mid; [|done]. rewrite !zlen_app. change (zlen h_eth) with 16. change (zlen ck) with 2. change (zlen h_flags) with 4.
    change (zlen (octets [136; 0])) with 2. lia. }
  rewrite adv_split_addresses at 1. rewrite sub_mid by first [by apply zlen_22 | rewrite zlen_app; lia].
  rewrite adv_split_icmp, sub_mid by first [by apply zlen_54 | by apply adv_icmp_zlen].
  apply (checksum_completes (tgt ++ sol) (octets [136; 0]) (h_flags ++ tgt ++ h_options ++ mac) 58 c); [|by exists 1%nat|lia|done|done].
  exists 16%nat. rewrite length_app. lia.
Qed.

(** The static array at any time: an advertisement, whatever its fields. *)
Definition template_ok (l : bytes) : Prop := exists mac src dst ck tgt mac2, l = adv mac src dst ck tgt mac2 /\
  length mac = 6%nat /\ length src = 16%nat /\ length dst = 16%nat /\ length ck = 2%nat /\ length tgt = 16%nat /\ length mac2 = 6%nat.

Lemma template_ok_start : template_ok m_generate_neighbor_advertisement_packet.
Proof.
  exists (replicate 6 Byte.x00), (replicate 16 Byte.x00), (replicate 16 Byte.x00), zero2, (replicate 16 Byte.x00), (replicate 6 Byte.x00).
  split; [vm_compute; reflexivity|]. by rewrite !length_replicate.
Qed.

(** The new generator, whatever it made before. *)
Lemma new_advertisement m c mac_c pkt_c l mac pkt :
  c_size c = 94 -> c_size mac_c = zlen mac -> c_size pkt_c = zlen pkt -> 6 <= zlen mac -> 78 <= zlen pkt ->
  containers_apart mac_c c -> containers_apart pkt_c c ->
  block m (c_begin c) l -> template_ok l -> block m (c_begin mac_c) mac -> block m (c_begin pkt_c) pkt ->
  let r := advertisement (sub mac 0 6) (sub pkt 62 16) (sub pkt 22 16) in
  exists m', generate_neighbor_advertisement_new true c mac_c pkt_c m = (Ret r, m')
    /\ block m' (c_begin c) r /\ template_ok r /\ same_outside c m m'.
Proof.
  intros Sc Smac Spkt Hmac Hpkt Amac Apkt Bc (m1 & s1 & d1 & k1 & t1 & n1 & -> & L1 & L2 & L3 & L4 & L5 & L6) Bmac Bpkt r.
  pose proof (length_sub mac 0 6 ltac:(lia) ltac:(lia) ltac:(lia)) as Lm.
  pose proof (length_sub pkt 62 16 ltac:(lia) ltac:(lia) ltac:(lia)) as Lt.
  pose proof (length_sub pkt 22 16 ltac:(lia) ltac:(lia) ltac:(lia)) as Ls.
  set (mac' := sub mac 0 6) in *. set (tgt := sub pkt 62 16) in *. set (src := sub pkt 22 16) in *.
  unfold generate_neighbor_advertisement_new.
  destruct (copy_into 6 mac_c c 0 0 m mac (adv m1 s1 d1 k1 t1 n1) ltac:(lia) ltac:(lia) ltac:(lia) Smac ltac:(by rewrite adv_zlen)
    ltac:(lia) ltac:(rewrite adv_zlen by done; lia) Amac Bmac Bc) as (ma & Ea & Ba & Oa).
  rewrite bind_eq, Ea. clear Ea. rewrite patch_mac in Ba by done.
  destruct (copy_into 16 pkt_c c 62 22 ma pkt (adv mac' s1 d1 k1 t1 n1) ltac:(lia) ltac:(lia) ltac:(lia) Spkt ltac:(by rewrite adv_zlen)
    ltac:(lia) ltac:(rewrite adv_zlen by done; lia) Apkt (block_outside c m ma pkt_c pkt Spkt Apkt Oa Bpkt) Ba) as (mb & Eb & Bb & Ob).
  rewrite bind_eq, Eb. clear Eb. rewrite patch_src in Bb by done.
  pose proof (same_outside_trans _ _ _ _ Oa Ob) as Oab. clear Ob.
  destruct (copy_into 16 pkt_c c 22 38 mb pkt (adv mac' tgt d1 k1 t1 n1) ltac:(lia) ltac:(lia) ltac:(lia) Spkt ltac:(by rewrite adv_zlen)
    ltac:(lia) ltac:(rewrite adv_zlen by done; lia) Apkt (block_outside c m mb pkt_c pkt Spkt Apkt Oab Bpkt) Bb) as (md & Ed & Bd & Od).
  rewrite bind_eq, Ed. clear Ed. rewrite patch_dst in Bd by done.
  pose proof (same_outside_trans _ _ _ _ Oab Od) as Oad. clear Od.
  destruct (copy_into 16 pkt_c c 62 62 md pkt (adv mac' tgt src k1 t1 n1) ltac:(lia) ltac:(lia) ltac:(lia) Spkt ltac:(by rewrite adv_zlen)
    ltac:(lia) ltac:(rewrite adv_zlen by done; lia) Apkt (block_outside c m md pkt_c pkt Spkt Apkt Oad Bpkt) Bd) as (me & Ee & Be & Oe).
  rewrite bind_eq, Ee. clear Ee. rewrite patch_tgt in Be by done.
  pose proof (same_outside_trans _ _ _ _ Oad Oe) as Oae. clear Oe.
  destruct (copy_into 6 mac_c c 0 88 me mac (adv mac' tgt src k1 tgt n1) ltac:(lia) ltac:(lia) ltac:(lia) Smac ltac:(by rewrite adv_zlen)
    ltac:(lia) ltac:(rewrite adv_zlen by done; lia) Amac (block_outside c m me mac_c mac Smac Amac Oae Bmac) Be) as (mf & Ef & Bf & Of).
  rewrite bind_eq, Ef. clear Ef. rewrite patch_mac2 in Bf by done.
  pose proof (same_outside_trans _ _ _ _ Oae Of) as Oaf. clear Of.
  destruct (set_two c 0 0 mf mac' tgt src k1 tgt mac' (source_destination_addr ← mlift (tab_view_part c 22 (22 + 32));
    header_with_content ← mlift (tab_view_part c 54 (54 + 40));
    checksum ← checksum_ipv6_packet true source_destination_addr header_with_content 58;
    set_at c 56 (Z.land checksum 0xFF);; set_at c 57 (Z.shiftr checksum 8);; read_array 94 (c_begin c)))
    as (mg & Eg & Bg & Og); [done..|]. rewrite Eg. clear Eg. change [byte_of_Z 0; byte_of_Z 0] with zero2 in Bg.
  pose proof (same_outside_trans _ _ _ _ Oaf Og) as Oag. clear Og.
  rewrite !tab_view_part_spec by lia. rewrite Sc. change (22 + 32 - 22) with 32. change (54 + 40 - 54) with 40.
  change (22 + 32 <? 22) with false. change (54 + 40 <? 54) with false.
  change ((22 <? 94) && (1 <=? 22 + 32) && (22 + 32 <=? 94)) with true. change ((54 <? 94) && (1 <=? 54 + 40) && (54 + 40 <=? 94)) with true.
  cbn beta iota. rewrite !bind_lift.
  destruct (adv_checksum (view_at (TabView (Some (c_begin c + 22)) 32)) (view_at (TabView (Some (c_begin c + 54)) 40)) mg tgt src tgt mac'
    Lt Ls Lt Lm) as [Eck Hck].
  { replace 32 with (zlen (tgt ++ src)) by (unfold zlen; rewrite length_app; lia). apply view_reads.
    rewrite adv_split_addresses in Bg. apply block_part in Bg. by rewrite zlen_22 in Bg by done. }
  { replace 40 with (zlen (adv_icmp zero2 tgt mac')) by (by apply adv_icmp_zlen). apply view_reads.
    rewrite adv_split_icmp in Bg. apply block_part in Bg. by rewrite zlen_54 in Bg by done. }
  rewrite bind_eq. rewrite checksum_view_body. cbn [v_size]. change (wrap 16 40) with 40. rewrite Eck.
  set (ck := adv_sum tgt src tgt mac') in *.
  destruct (set_two c (Z.land ck 0xFF) (Z.shiftr ck 8) mg mac' tgt src zero2 tgt mac' (read_array 94 (c_begin c))) as (mh & Eh & Bh & Oh); [done..|].
  rewrite Eh. pose proof (same_outside_trans _ _ _ _ Oag Oh) as Oah. clear Oh.
  exists mh. split; [apply read_array_block; [by apply adv_length|done]|]. split; [done|]. split; [|done].
  by exists mac', tgt, src, (sum_octets ck), tgt, mac'.
Qed.

(** Whatever the template was used for before, the generator answers a
    solicitation with a packet to the solicitor's MAC and address, from and
    about the address asked for, whose ICMPv6 checksum a receiver accepts (the
    one's-complement sum over pseudo header and message is 0xFFFF); it changes
    nothing but the template, which can be used again. *)
Lemma advertisement_is_accepted m c mac_c pkt_c l mac pkt :
  c_size c = 94 -> c_size mac_c = zlen mac -> c_size pkt_c = zlen pkt -> 6 <= zlen mac -> 78 <= zlen pkt ->
  containers_apart mac_c c -> containers_apart pkt_c c ->
  block m (c_begin c) l -> template_ok l -> block m (c_begin mac_c) mac -> block m (c_begin pkt_c) pkt ->
  exists r m', generate_neighbor_advertisement_new true c mac_c pkt_c m = (Ret r, m')
    /\ zlen r = 94 /\ sub r 0 6 = sub mac 0 6 /\ sub r 22 16 = sub pkt 62 16 /\ sub r 38 16 = sub pkt 22 16 /\ sub r 62 16 = sub pkt 62 16
    /\ oc_sum 0 (covered (sub r 22 32) (sub r 54 40) 58) = 65535
    /\ block m' (c_begin c) r /\ template_ok r /\ same_outside c m m'.
Proof.
  intros Sc Smac Spkt Hmac Hpkt Amac Apkt Bc Tl Bmac Bpkt.
  destruct (new_advertisement m c mac_c pkt_c l mac pkt) as (m' & E & B & T & O); [done..|].
  exists (advertisement (sub mac 0 6) (sub pkt 62 16) (sub pkt 22 16)), m'. split; [done|].
  destruct (advertisement_checks (sub mac 0 6) (sub pkt 62 16) (sub pkt 22 16)) as (H1 & H2 & H3 & H4 & H5 & H6);
    [apply length_sub; lia..|]. done.
Qed.

(** C37: the generator with the static template makes the packet the deprecated
    one makes, of every solicitation that carries the device's own MAC. *)
Theorem generators_agree m c mac_c pkt_c l mac pkt :
  c_size c = 94 -> c_size mac_c = zlen mac -> c_size pkt_c = zlen pkt -> 6 <= zlen mac -> 78 <= zlen pkt ->
  containers_apart mac_c c -> containers_apart pkt_c c ->
  block m (c_begin c) l -> template_ok l -> block m (c_begin mac_c) mac -> block m (c_begin pkt_c) pkt ->
  sub pkt 6 6 = sub mac 0 6 ->
  (generate_neighbor_advertisement_new true c mac_c pkt_c m).1 = generate_neighbor_advertisement true pkt.
Proof.
  intros Sc Smac Spkt Hmac Hpkt Amac Apkt Bc Tl Bmac Bpkt Em.
  destruct (new_advertisement m c mac_c pkt_c l mac pkt) as (m' & E & B & T & O); [done..|].
  rewrite old_advertisement, Em by done. by rewrite E.
Qed.

(** A solicitation, with the device's memory around it. *)
Definition demo_mac : bytes := octets [0; 0xFF; 0xC0; 0xFF; 0xEE; 1].
Definition demo_solicitation : bytes :=
  octets [0x33; 0x33; 0xFF; 0; 0; 2] ++ demo_mac ++ octets [0x86; 0xDD] ++ octets [0x60; 0; 0; 0; 0; 32; 58; 255]
  ++ octets (0xFD :: 0x42 :: repeat 17 14) ++ octets (0xFF :: 2 :: repeat 0 13 ++ [1]) ++ octets [135; 0; 1; 2; 0; 0; 0; 0]
  ++ octets (0xFD :: 0x42 :: repeat 34 14) ++ octets [1; 1] ++ demo_mac.
Definition place (p : Z) (l : bytes) : octet_memory := list_to_map (zip (map Z.of_nat (seq (Z.to_nat p) (length l))) l).
Definition demo_ndp_memory : octet_memory :=
  place 1000 m_generate_neighbor_advertisement_packet ∪ (place 2000 demo_mac ∪ place 3000 demo_solicitation).

Lemma block_check m p l : forallb (fun i => bool_decide (m !! (p + Z.of_nat i) = l !! i)) (seq 0 (length l)) = true -> block m p l.
Proof.
  intros H i b Hi. pose proof (lookup_lt_Some _ _ _ Hi). rewrite forallb_forall in H.
  specialize (H i ltac:(apply in_seq; lia)). apply bool_decide_eq_true_1 in H. by rewrite H.
Qed.

Lemma generators_agree_witness :
  (generate_neighbor_advertisement_new true (Linear 1000 94) (Linear 2000 6) (Linear 3000 86) demo_ndp_memory).1
  = generate_neighbor_advertisement true demo_solicitation.
Proof.
  apply (generators_agree demo_ndp_memory (Linear 1000 94) (Linear 2000 6) (Linear 3000 86)
    m_generate_neighbor_advertisement_packet demo_mac demo_solicitation).
  - reflexivity.
  - reflexivity.
  - reflexivity.
  - vm_compute; discriminate.
  - vm_compute; discriminate.
  - right; vm_compute; discriminate.
  - right; vm_compute; discriminate.
  - apply block_check. vm_compute. reflexivity.
  - exact template_ok_start.
  - apply block_check. vm_compute. reflexivity.
  - apply block_check. vm_compute. reflexivity.
  - vm_compute. reflexivity.
Defined.

(** An odd number of octets: the checked version throws when it looks for the
    partner of the last octet, and never reaches the branch for it. *)
Lemma add_words_throws {St} (at_ : Z -> M St Byte.byte) s l n : reads at_ s l ->
  at_ (Z.of_nat (length l)) s = (Throw ex_out_of_range, s) -> forall i r,
  length l = (i + 2 * n + 1)%nat -> add_words at_ (S n) (Z.of_nat i) r s = (Throw ex_out_of_range, s).
Proof.
  intros Hr Ht. induction n as [|n IH]; intros i r Hl.
  - destruct (lookup_lt_is_Some_2 l i ltac:(lia)) as [a Ea]. cbn [add_words]. rewrite bind_eq, (Hr i a Ea), bind_eq.
    replace (Z.of_nat i + 1) with (Z.of_nat (length l)) by lia. by rewrite Ht.
  - destruct (lookup_lt_is_Some_2 l i ltac:(lia)) as [a Ea]. destruct (lookup_lt_is_Some_2 l (S i) ltac:(lia)) as [b Eb].
    remember (S n) as n1. cbn [add_words]. rewrite bind_eq, (Hr i a Ea), bind_eq.
    replace (Z.of_nat i + 1) with (Z.of_nat (S i)) by lia. rewrite (Hr _ b Eb).
    replace (Z.of_nat i + 2) with (Z.of_nat (S (S i))) by lia. subst n1. apply IH. lia.
Qed.

Lemma checksum_odd_throws m psd phc sd hc nh : length sd = 32%nat -> Nat.Odd (length hc) -> zlen hc < 65536 ->
  block m psd sd -> block m phc hc ->
  checksum_ipv6_packet true (TabView (Some psd) 32) (TabView (Some phc) (zlen hc)) nh m = (Throw ex_out_of_range, m).
Proof.
  intros Lsd [k Ek] Hz Bsd Bhc. rewrite checksum_view_body. cbn [v_size]. rewrite wrap_small by (unfold zlen in *; lia).
  unfold checksum_body. rewrite (proj2 (Z.ltb_lt 0 _)) by (unfold zlen; lia). cbn [oassert]. rewrite bind_lift.
  pose proof (view_reads m psd sd Bsd) as Rsd. unfold zlen in Rsd. rewrite Lsd in Rsd. change (Z.of_nat 32) with 32 in Rsd.
  pose proof (add_words_reads _ m sd 16 Rsd 0 0 ltac:(rewrite Lsd; lia) ltac:(lia) ltac:(lia)) as Ea. change (Z.of_nat 0) with 0 in Ea.
  rewrite bind_eq, Ea, bind_eq.
  replace (Z.to_nat ((zlen hc + 1) / 2)) with (S k)
    by (unfold zlen; replace (Z.of_nat (length hc) + 1) with (Z.of_nat (S k) * 2) by lia; rewrite Z.div_mul by lia; lia).
  pose proof (add_words_throws _ m hc k (view_reads m phc hc Bhc)) as Et. change 0 with (Z.of_nat 0) at 1.
  rewrite Et; [done| |lia]. unfold view_at. cbn [v_size]. by rewrite (proj2 (Z.leb_le _ _)) by (unfold zlen; lia).
Qed.

(** On a big-endian machine the words are added little-endian all the same,
    but the length and the next header are not swapped: the sum is wrong. *)
Lemma checksum_big_endian_wrong :
  match generate_neighbor_advertisement false demo_solicitation with
  | Ret r => bool_decide (oc_sum 0 (covered (sub r 22 32) (sub r 54 40) 58) = 65535)
  | _ => true end = false.
Proof. vm_compute. reflexivity. Qed.
