(* ===== verification/Devices.v ===== *)
(** * TUN device, UDP socket and waiting for both, on Linux

    Models [c_tun_device.cpp] (the base class and the Linux device),
    [c_udp_wrapper.cpp] (Linux), [c_event_manager.cpp] (Linux), the wrappers of
    system calls of [tuntap/base/tuntap_base.cpp] and the scattered reads and
    gathered writes of [tuntap/linux/c_tuntap_linux_obj.cpp].  What the
    operating system answers ([open], [ioctl], [select], [read], [recvfrom],
    ...) is an argument of each operation; a file descriptor is its number. *)
From S2P Require Import Prelude Multikeys Peering.

(** ** The TUN device *)

Record tun_device := TunDevice { m_ifr_name : bytes; m_ip6_ok : bool; m_tun_fd : Z }.

Definition tun_device_create : tun_device := TunDevice [] false (-1).

Definition get_tun_fd : M tun_device Z :=
  d ← mget; mthrow_if (m_tun_fd d <? 0) ex_runtime_error;; mret (m_tun_fd d).

(** [open_result]: what [open("/dev/net/tun")] returns. *)
Definition tun_init (open_result : Z) : M tun_device unit :=
  d ← mget; mput (TunDevice (m_ifr_name d) (m_ip6_ok d) open_result);;
  mthrow_if (open_result <? 0) ex_tuntap_error_devtun.

(** [Wrap_NetPlatform_addAddress], [Wrap_NetPlatform_setMTU]: [my_code] is the
    result of the call they wrap. *)
Definition Wrap_NetPlatform_addAddress (my_code : Z) : outcome unit := othrow_if (my_code <? 0) ex_tuntap_error_ip.
Definition Wrap_NetPlatform_setMTU (my_code : Z) : outcome unit := othrow_if (my_code <? 0) ex_tuntap_error_mtu.

(** [ifr_name]: the name the kernel gave to the interface. *)
Definition set_ipv6_address (errcode_ioctl : Z) (ifr_name : bytes) (my_code : Z) (binary_address : bytes) : M tun_device unit :=
  mthrow_if (errcode_ioctl <? 0) ex_tuntap_error_ip;;
  first ← mlift (at_ binary_address 0);
  massert (byte_val first =? 0xFD);;
  mlift (Wrap_NetPlatform_addAddress my_code);;
  mmodify (fun d => TunDevice ifr_name (m_ip6_ok d) (m_tun_fd d));;
  mmodify (fun d => TunDevice (m_ifr_name d) true (m_tun_fd d)).

Definition set_mtu (my_code : Z) : M tun_device unit :=
  d ← mget;
  mthrow_if (negb (m_ip6_ok d)) ex_runtime_error;;
  mlift (Wrap_NetPlatform_setMTU my_code).

(** [read] returned [ret]; the buffer of [count] octets holds [buf] then. *)
Definition read_from_tun (ret : Z) : outcome Z :=
  othrow_if (ret =? -1) ex_runtime_error;;
  oassert (0 <=? ret);;
  Ret ret.
Definition write_to_tun (ret : Z) : outcome Z :=
  othrow_if (ret =? -1) ex_runtime_error;;
  oassert (0 <=? ret);;
  Ret ret.

(** The base class. *)
Definition base_get_tun_fd : outcome Z := Throw ex_runtime_error.

(** ** The UDP socket *)

Record udp_wrapper := UdpWrapper { m_disabled : bool; m_socket : Z }.

(** The constructor: [socket] returned [m_socket], [bind] returned [bind_result]. *)
Definition udp_create (listen_port socket_result bind_result : Z) : outcome udp_wrapper :=
  if listen_port =? 0 then Ret (UdpWrapper true socket_result)
  else
    oassert (0 <=? socket_result);;
    oassert (0 <=? bind_result);;
    Ret (UdpWrapper false socket_result).

(** The datagrams given to [sendto]; its result is not looked at.  [get_ip4]
    asserts that the address is an IPv4 one. *)
Definition send_data (u : udp_wrapper) (dst_address : c_ip46_addr) (data : bytes) : M (list (c_ip46_addr * bytes)) unit :=
  if m_disabled u then mret tt
  else match dst_address with
  | tag_ipv4 _ _ => mmodify (fun out => out ++ [(dst_address, data)])
  | _ => mabort
  end.

Definition sizeof_sockaddr_in : Z := 16.
Definition sizeof_sockaddr_in6 : Z := 28.

(** [recvfrom] returned [size_read] and an address of [from_addr_raw_size]
    octets ([sizeof(sockaddr_in6)] when it failed); the result is a size_t. *)
Definition receive_data (u : udp_wrapper) (size_read from_addr_raw_size : Z) (addr : c_ip46_addr)
    (from_address : c_ip46_addr) : outcome (Z * c_ip46_addr) :=
  if m_disabled u then Ret (0, from_address)
  else if from_addr_raw_size =? sizeof_sockaddr_in6 then Ret (u64 size_read, from_address)
  else if from_addr_raw_size =? sizeof_sockaddr_in then Ret (u64 size_read, addr)
  else Throw ex_runtime_error.

Definition get_socket (u : udp_wrapper) : Z := if m_disabled u then 0 else m_socket u.

(** ** Waiting for events *)

(** [m_udp_socket] is the socket of the wrapper; [m_fd_set_data] the
    descriptors found ready. *)
Record event_manager := EventManager { em_tun_fd : Z; em_udp_socket : Z; m_fd_set_data : gset Z }.

Definition event_manager_create (u : udp_wrapper) : event_manager := EventManager (-1) (m_socket u) ∅.

Definition event_manager_init : M (tun_device * event_manager) unit :=
  fd ← on_fst get_tun_fd;
  on_snd (mmodify (fun e => EventManager fd (em_udp_socket e) (m_fd_set_data e)));;
  mthrow_if (fd <? 0) ex_runtime_error.

Definition int_max : Z := 2 ^ 31 - 1.

(** [select] returned [select_result] and, of the descriptors it was given,
    those of [ready]. *)
Definition wait_for_event (select_result : Z) (ready : gset Z) : M event_manager unit :=
  e ← mget;
  mthrow_if (em_tun_fd e <? 0) ex_runtime_error;;
  let watched : gset Z := {[em_udp_socket e; em_tun_fd e]} in
  mput (EventManager (em_tun_fd e) (em_udp_socket e) watched);;
  let fd_max := Z.max (em_tun_fd e) (em_udp_socket e) in
  massert (fd_max <? int_max - 1);;
  massert (1 <=? fd_max);;
  mput (EventManager (em_tun_fd e) (em_udp_socket e) (if select_result <=? 0 then ∅ else watched ∩ ready));;
  massert (0 <=? select_result).

Definition receive_udp_paket (e : event_manager) : bool := bool_decide (em_udp_socket e ∈ m_fd_set_data e).
Definition get_tun_packet (e : event_manager) : bool := bool_decide (em_tun_fd e ∈ m_fd_set_data e).

(** ** c_tuntap_linux_obj: addresses apart from the rest of a packet *)

(** [write_some] of the four buffers, [ret] octets of which were written: what
    is written, and the result. *)
Definition send_to_tun_separated_addresses (data src_binary_address dst_binary_address : bytes) (ret : Z)
    : outcome (bytes * Z) :=
  othrow_if (negb (8 <=? zlen data)) ex_err_check_input;;
  Ret (sub data 0 8 ++ src_binary_address ++ dst_binary_address ++ sub data 8 (zlen data - 8), ret).

(** [read_some] into buffers of 8, 16, 16 and [size - 8] octets: the octets of
    [packet] go to the buffers one after the other, and what does not fit is
    lost.  [data], [src], [dst] are the contents before. *)
Definition scatter (packet : bytes) (from : Z) (buffer : bytes) : bytes :=
  let part := sub packet from (zlen buffer) in part ++ drop (length part) buffer.
Definition read_from_tun_separated_addresses (packet data src dst : bytes) : outcome (Z * (bytes * bytes * bytes)) :=
  let size := zlen data in
  othrow_if (negb (8 <=? size)) ex_err_check_input;;
  let head := scatter packet 0 (take 8 data) in
  let src' := scatter packet 8 src in
  let dst' := scatter packet 24 dst in
  let tail := scatter packet 40 (drop 8 data) in
  let read_some := Z.min (zlen packet) (size + 32) in
  Ret (u64 (read_some - 16 - 16), (head ++ tail, src', dst')).

(** [c_tuntap_linux_obj::read_from_tun] and [send_to_tun]: an error of the
    stream is a warning and size 0.  [result] is that of [read_some] or
    [write_some], [None] when it throws. *)
Definition obj_read_from_tun (result : option Z) : Z := default 0 result.
Definition obj_send_to_tun (result : option Z) : Z := default 0 result.

(** The constructor: [open] returned [tun_fd], and the stream is open or not. *)
Definition tuntap_obj_create (tun_fd : Z) (stream_is_open : bool) : outcome Z :=
  othrow_if (tun_fd =? -1) ex_err_check_sys_soft;;
  othrow_if (negb stream_is_open) ex_err_check_sys;;
  Ret tun_fd.

(** [set_tun_parameters]; any code but 0 is refused, not only negative ones. *)
Definition set_tun_parameters (errcode_ioctl add_address_code set_mtu_code : Z) (binary_address : bytes) : outcome unit :=
  othrow_if (errcode_ioctl =? -1) ex_err_check_sys;;
  first ← at_ binary_address 0;
  othrow_if (negb (byte_val first =? 0xFD)) ex_err_check_input;;
  othrow_if (negb (add_address_code =? 0)) ex_runtime_error;;
  othrow_if (negb (set_mtu_code =? 0)) ex_runtime_error.

(** [c_tun_device_linux::incomming_message_form_tun] *)
Definition incomming_message_form_tun (select_result : Z) (is_set : bool) : outcome bool :=
  oassert (0 <=? select_result);;
  Ret is_set.
