(* ===== verification/DevicesFacts.v ===== *)
(** * TUN device: theorems

    Addresses kept apart from the rest of a packet: what is written with
    [send_to_tun_separated_addresses] is read back by
    [read_from_tun_separated_addresses]; what a short packet gives; the setup
    of the device. *)
From S2P Require Import Prelude Multikeys Peering Devices.

Lemma sub_at {A} (a b c : list A) i n : zlen a = i -> zlen b = n -> sub (a ++ b ++ c) i n = b.
Proof. intros <- <-. apply sub_app_exact. Qed.

Lemma sub_beyond {A} (a b : list A) i n : zlen a = i -> zlen b <= n -> sub (a ++ b) i n = b.
Proof.
  unfold sub, zlen. intros <- Hn. rewrite Nat2Z.id, drop_app_length. apply take_ge. lia.
Qed.

Lemma scatter_whole packet a b c buffer i : packet = a ++ b ++ c -> zlen a = i -> zlen b = zlen buffer -> scatter packet i buffer = b.
Proof.
  intros -> Ha Hb. unfold scatter. rewrite (sub_at a b c) by done. rewrite drop_ge, app_nil_r; [done|]. unfold zlen in Hb. lia.
Qed.

Lemma scatter_rest packet a b buffer i : packet = a ++ b -> zlen a = i -> zlen b <= zlen buffer ->
  scatter packet i buffer = b ++ drop (length b) buffer.
Proof. intros -> Ha Hb. unfold scatter. by rewrite (sub_beyond a b). Qed.

(** A packet written with its addresses apart is read back: into buffers
    that hold it come the same data, source and destination, the size is that
    of the data, and the rest of the buffer is as it was. *)
Lemma separated_addresses_roundtrip data src dst ret ret' packet buf bsrc bdst :
  zlen src = 16 -> zlen dst = 16 -> zlen bsrc = 16 -> zlen bdst = 16 -> zlen data <= zlen buf < 2 ^ 63 ->
  send_to_tun_separated_addresses data src dst ret = Ret (packet, ret') ->
  read_from_tun_separated_addresses packet buf bsrc bdst =
    Ret (zlen data, (data ++ drop (length data) buf, src, dst)).
Proof.
  intros Hs Hd Hbs Hbd Hl E. unfold send_to_tun_separated_addresses in E.
  destruct (Z.leb_spec 8 (zlen data)) as [H8|]; [|done]. unfold othrow_if, mbind, outcome_mbind, outcome_bind in E. cbn [negb] in E. injection E as <- _.
  set (h := take 8 data). set (r := drop 8 data).
  assert (data = h ++ r) as Ed by (symmetry; apply take_drop).
  assert (zlen h = 8) as Hh by (unfold zlen, h in *; rewrite length_take; lia).
  assert (zlen r = zlen data - 8) as Hr by (rewrite Ed, zlen_app; lia).
  assert (sub data 0 8 = h) as -> by done.
  assert (sub data 8 (zlen data - 8) = r) as -> by (rewrite Ed at 1; apply sub_beyond; lia).
  unfold read_from_tun_separated_addresses. rewrite (proj2 (Z.leb_le 8 (zlen buf))) by lia. 
  unfold othrow_if, mbind, outcome_mbind, outcome_bind. cbn [negb].
  assert (zlen (take 8 buf) = 8) as Hb8 by (unfold zlen in *; rewrite length_take; lia).
  assert (zlen (drop 8 buf) = zlen buf - 8) as Hbr by (unfold zlen in *; rewrite length_drop; lia).
  rewrite (scatter_whole _ [] h (src ++ dst ++ r) (take 8 buf) 0) by (done || lia).
  rewrite (scatter_whole _ h src (dst ++ r) bsrc 8) by (done || lia).
  rewrite (scatter_whole _ (h ++ src) dst r bdst 24) by (rewrite ?zlen_app, <- ?app_assoc; done || lia).
  rewrite (scatter_rest _ (h ++ src ++ dst) r (drop 8 buf) 40) by (rewrite ?zlen_app, <- ?app_assoc; done || lia).
  assert (u64 (Z.min (zlen (h ++ src ++ dst ++ r)) (zlen buf + 32) - 16 - 16) = zlen data) as ->.
  { rewrite !zlen_app, Hh, Hs, Hd, Hr, Z.min_l by lia. rewrite u64_small; unfold zlen in *; lia. }
  do 4 f_equal. rewrite app_assoc. rewrite <- Ed. f_equal.
  rewrite drop_drop. f_equal. unfold zlen in *. lia.
Qed.

(** A packet shorter than two addresses has a size near 2^64. *)
Lemma short_packet_wraps packet buf bsrc bdst : zlen packet < 32 -> 8 <= zlen buf ->
  exists r, read_from_tun_separated_addresses packet buf bsrc bdst = Ret (2 ^ 64 - (32 - zlen packet), r).
Proof.
  intros Hp Hb. unfold read_from_tun_separated_addresses. rewrite (proj2 (Z.leb_le 8 (zlen buf))) by lia. eexists.
  unfold mbind, outcome_mbind, outcome_bind, othrow_if. cbn [negb]. do 2 f_equal.
  pose proof (zlen_nonneg packet). rewrite Z.min_l by lia. unfold u64, wrap.
  replace (zlen packet - 16 - 16) with (2 ^ 64 - (32 - zlen packet) + (-1) * 2 ^ 64) by lia.
  rewrite Z_mod_plus_full, Z.mod_small by lia. done.
Qed.

(** What the setup of the device leaves behind: only a whole setup is marked. *)
Lemma set_ipv6_address_ok ioctl name code address d d' : set_ipv6_address ioctl name code address d = (Ret tt, d') ->
  d' = TunDevice name true (m_tun_fd d) /\ 0 <= code /\ exists b, address !! 0%nat = Some b /\ byte_val b = 0xFD.
Proof.
  unfold set_ipv6_address, Wrap_NetPlatform_addAddress, at_. munfold. change (0 <=? 0) with true. change (Z.to_nat 0) with 0%nat.
  destruct (ioctl <? 0); [done|]. destruct (address !! 0%nat) as [b|]; [|done]. destruct (Z.eqb_spec (byte_val b) 0xFD); [|done].
  destruct (Z.ltb_spec code 0); [done|]. intros [= <-]. split; [done|]. split; [done|]. by exists b.
Qed.
