(* ===== verification/Loop.v ===== *)
(** * The main loop with its devices and timers

    Models [c_tunserver::prepare_socket], the loop of [c_tunserver::event_loop]
    (the timer of the pings, waiting, reading the TUN device or the UDP
    socket, the handlers of exceptions) and [c_tunserver::run] of
    [tunserver.cpp], on Linux.  It composes [Devices], [Privileges] and
    [Tunpackets]: what the operating system answers in each turn is an
    argument.  Status printing is left out. *)
From S2P Require Import Prelude Cryptobasic Multikeys Crypto Peering Routing Peerref Tunserver Tunpackets Devices Caps Privileges.

(** What the operating system answers while the device is set up. *)
Record setup_os := SetupOs {
  os_open : Z; os_ioctl : Z; os_ifr_name : bytes; os_add_address : Z; os_set_mtu : Z }.

(** ... and in one turn of the loop: the clock at its start and after a ping,
    [select], [read], [recvfrom] with the buffers they fill, and whether the
    program was asked to exit. *)
Record turn_os := TurnOs {
  os_time_now : Z; os_time_pinged : Z;
  os_select : Z; os_ready : gset Z;
  os_tun_read : Z; os_tun_buff : bytes;
  os_udp_read : Z; os_udp_addr_size : Z; os_udp_from : c_ip46_addr; os_udp_buff : bytes;
  os_setup : setup_os; os_exiting : bool }.

(** The timer of the pings. *)
Record ping_timer := PingTimer { ping_all_time_last : Z; ping_all_count : Z }.

Definition second : Z := 1000000000.
Definition ping_all_frequency_low : Z := 1 * second.
Definition ping_all_count_low : Z := 2.

(** [net_hello_interval]: the option, in seconds. *)
Definition ping_freq (net_hello_interval : Z) (t : ping_timer) : Z :=
  if ping_all_count t <? ping_all_count_low then ping_all_frequency_low else net_hello_interval * second.

Section Loop.
Context {Rng : Type} `{!CryptoLib Rng} `{!NetLib}.
Context (ENABLE_CRYPTO_NTRU ENABLE_CRYPTO_SIDH : bool).
Context (ed_verify ntru_verify : bytes -> bytes -> bytes -> bool).
Context (nonce_default : bytes) (write_tun : bytes -> Z).
Context (m_udp_device : udp_wrapper) (net_hello_interval g_dbg_level : Z).

Notation node := (@tun_node Rng _).

(** The object: its devices, its timer, and what [Tunpackets] works on. *)
Notation devices := (tun_device * event_manager)%type.
Notation server := (devices * (ping_timer * (c_routing_manager * node)))%type.

Definition on_devices {A} (m : M devices A) : M server A := on_fst m.
Definition on_timer {A} (m : M ping_timer A) : M server A := on_snd (on_fst m).
Definition on_object {A} (m : M (c_routing_manager * node) A) : M server A := on_snd (on_snd m).

(** [ui::action_error_exit] *)
Definition action_error_exit {St A} : M St A := mthrow ex_exception_error_exit.

Definition prepare_socket (os : setup_os) : M server unit :=
  '(_, n) ← on_object mget;
  let address := m_my_hip n in
  first ← on_object (mlift (at_ address 0));
  on_object (massert (byte_val first =? 0xFD));;
  on_devices (mcatch
    (on_fst (tun_init (os_open os));;
     on_fst (set_ipv6_address (os_ioctl os) (os_ifr_name os) (os_add_address os) address);;
     on_fst (set_mtu (os_set_mtu os));;
     event_manager_init)
    (fun _ => action_error_exit));;
  on_object (massert (0 <=? get_socket m_udp_device)).

(** ** One turn *)

(** A datagram of [size_read] octets in [buf].  [recvfrom] fails with -1, a
    size beyond the buffer: the log line makes a string of that size, which
    throws; without it what an earlier datagram left in the buffer is taken
    for the version and command of a datagram without end. *)
Definition handle_read (now : Z) (size_read : Z) (from : c_ip46_addr) (buf : bytes) : M (c_routing_manager * node) unit :=
  if size_read =? 0 then mret tt
  else if size_read <=? zlen buf then handle_udp ENABLE_CRYPTO_NTRU ENABLE_CRYPTO_SIDH ed_verify ntru_verify nonce_default write_tun now from (take (Z.to_nat size_read) buf)
  else if g_dbg_level <=? 50 then mthrow ex_length_error
  else
    match buf with
    | version :: command :: _ =>
        mthrow_if (current_version <? byte_val version) ex_runtime_error;;
        cmd ← mlift (int_to_cmd command);
        when (negb (command_is_valid_from_unknown_peer cmd)) (_ ← recognize_sender now from size_read; mret tt);;
        mundef
    | _ => mundef
    end.

Definition read_devices (os : turn_os) : M server unit :=
  em ← on_devices (on_snd mget);
  if get_tun_packet em then
    size_read ← on_object (mlift (read_from_tun (os_tun_read os)));
    on_object (handle_tun nonce_default (os_time_now os) (take (Z.to_nat size_read) (os_tun_buff os)))
  else if receive_udp_paket em then
    '(size_read, sender_pip) ← on_object (mlift (receive_data m_udp_device (os_udp_read os) (os_udp_addr_size os) (os_udp_from os) tag_none));
    on_object (handle_read (os_time_now os) size_read sender_pip (os_udp_buff os))
  else mret tt.

Definition ping_if_time (os : turn_os) : M server unit :=
  t ← on_timer mget;
  when (ping_all_time_last t + ping_freq net_hello_interval t <? os_time_now os)
    (on_object (on_snd (peering_ping_all_peers (os_time_now os)));;
     on_timer (mput (PingTimer (os_time_pinged os) (ping_all_count t + 1)))).

Definition turn_body (os : turn_os) : M server unit :=
  ping_if_time os;;
  on_devices (on_snd (wait_for_event (os_select os) (os_ready os)));;
  read_devices os.

(** The three handlers; a failed restart is forgotten. *)
Definition loop_turn (os : turn_os) : M server unit :=
  mcatch (turn_body os) (fun e =>
    if bool_decide (e = ex_tuntap_error_devtun)
    then mcatch (prepare_socket (os_setup os)) (fun e => if bool_decide (e = ex_exception_error_exit) then mret tt else mthrow e)
    else mret tt).

(** The turns until the program exits, or for as long as the list lasts. *)
Fixpoint loop_turns (turns : list turn_os) : M server unit :=
  match turns with
  | [] => mret tt
  | os :: turns' => if os_exiting os then mret tt else loop_turn os;; loop_turns turns'
  end.

(** [event_loop]: [time_first] is the clock at the first ping and at its end. *)
Definition loop_start (time_first : Z * Z) : M server unit :=
  on_object (on_snd (peering_ping_all_peers time_first.1));;
  on_timer (mput (PingTimer time_first.2 0)).

(** ** c_tunserver::run, with the privileges of the process *)

Context {P : Type} `{!CapNg P} `{!OsUser P}.

Definition run (m_option_insecure_cap : bool) (setup : setup_os) (time_first : Z * Z) (turns : list turn_os) : M (P * server) unit :=
  on_snd (prepare_socket setup);;
  on_fst (when (negb m_option_insecure_cap) (drop_privileges_after_tuntap g_dbg_level);;
          when (negb m_option_insecure_cap) (drop_privileges_before_mainloop g_dbg_level));;
  on_snd (loop_start time_first);;
  on_fst verify_privileges_are_as_for_mainloop;;
  on_snd (loop_turns turns).
End Loop.
