(* ===== verification/LoopFacts.v ===== *)
(** * The main loop with its devices: theorems *)
From S2P Require Import Prelude Serialize Cryptobasic Multikeys Crypto Peering Routing Peerref Tunserver Tunpackets Devices Caps Privileges Loop.
From S2P Require Import CryptoFacts Toy TunpacketsFacts MeetFacts EndtoendFacts.

Section Facts.
Context {Rng : Type} `{CL : !CryptoLib Rng} `{NL : !NetLib}.
Context (NTRU SIDH : bool) (ed_verify ntru_verify : bytes -> bytes -> bytes -> bool).
Context (nonce_default : bytes) (write_tun : bytes -> Z).
Context (u : udp_wrapper) (net_hello_interval g_dbg_level : Z).

Notation node := (@tun_node Rng _).
Notation devices := (tun_device * event_manager)%type.
Notation object := (c_routing_manager * node)%type.
Notation server := (devices * (ping_timer * object))%type.
Notation events := (event_loop NTRU SIDH ed_verify ntru_verify nonce_default write_tun).
Notation turn := (loop_turn NTRU SIDH ed_verify ntru_verify nonce_default write_tun u net_hello_interval g_dbg_level).
Notation turns := (loop_turns NTRU SIDH ed_verify ntru_verify nonce_default write_tun u net_hello_interval g_dbg_level).

Definition object_of (s : server) : object := s.2.2.
Definition timer_of (s : server) : ping_timer := s.2.1.

Lemma on_object_eq {A} (m : M object A) (s : server) :
  on_object m s = ((m (object_of s)).1, (s.1, (timer_of s, (m (object_of s)).2))).
Proof. unfold on_object, on_snd, object_of, timer_of. destruct s as [d [t o]]. cbn. by destruct (m o). Qed.
Lemma on_timer_eq {A} (m : M ping_timer A) (s : server) :
  on_timer m s = ((m (timer_of s)).1, (s.1, ((m (timer_of s)).2, object_of s))).
Proof. unfold on_timer, on_snd, on_fst, object_of, timer_of. destruct s as [d [t o]]. cbn. by destruct (m t). Qed.
Lemma on_devices_eq {A} (m : M devices A) (s : server) :
  on_devices m s = ((m s.1).1, ((m s.1).2, s.2)).
Proof. unfold on_devices, on_fst. destruct s as [d [t o]]. cbn. by destruct (m d). Qed.

(** ** The loop refines the list of its events *)

(** What [m] does to the object is what at most [k] events of [al], in their
    order, do. *)
Definition acts {A} (k : nat) (al : list (Z * event)) (m : M server A) : Prop := forall s,
  exists evs, ((length evs <= k)%nat /\ evs `sublist_of` al) /\ (events evs (object_of s)).2 = object_of (m s).2
    /\ (forall a, (m s).1 = Ret a -> (events evs (object_of s)).1 = Ret tt)
    /\ (forall e, (m s).1 = Throw e -> (events evs (object_of s)).1 = Ret tt).

Lemma events_app evs evs' (o : object) : (events evs o).1 = Ret tt -> events (evs ++ evs') o = events evs' (events evs o).2.
Proof.
  revert o. induction evs as [|[now ev] evs IH]; intros o H; [done|]. cbn [event_loop app] in *. revert H. rewrite !bind_eq.
  destruct (event_turn _ _ _ _ _ _ _ _ _) as [[[]|e| |] o1]; try done. by apply IH.
Qed.

Lemma acts_bind {A B} k j al al' (m : M server A) (f : A -> M server B) : acts k al m -> (forall a, acts j al' (f a)) -> acts (k + j) (al ++ al') (m ≫= f).
Proof.
  intros Hm Hf s. destruct (Hm s) as (evs & [Hl Hb] & Hs & Hr & He). rewrite bind_eq.
  destruct (m s) as [[a|e| |] s1] eqn:E; cbn in Hs, Hr, He.
  - destruct (Hf a s1) as (evs' & [Hl' Hb'] & Hs' & Hr' & He'). exists (evs ++ evs'). rewrite length_app. specialize (Hr a eq_refl).
    rewrite events_app, Hs by done. split; [split; [lia|by apply sublist_app]|]. done.
  - exists evs. split; [split; [lia|by apply sublist_inserts_r]|]. split; [done|]. split; [done|]. intros e' [= <-]. by apply (He e).
  - exists evs. split; [split; [lia|by apply sublist_inserts_r]|]. done.
  - exists evs. split; [split; [lia|by apply sublist_inserts_r]|]. done.
Qed.

Lemma acts_mono {A} k j al al' (m : M server A) : (k <= j)%nat -> al `sublist_of` al' -> acts k al m -> acts j al' m.
Proof. intros Hk Ha Hm s. destruct (Hm s) as (evs & [Hl Hb] & H). exists evs. split; [split; [lia|by etrans]|done]. Qed.

(** Code that leaves the object alone. *)
Lemma acts_none {A} (m : M server A) : (forall s, object_of (m s).2 = object_of s) -> acts 0 [] m.
Proof. intros Hm s. exists []. split; [done|]. split; [symmetry; apply Hm|]. done. Qed.

Lemma acts_devices {A} (m : M devices A) : acts 0 [] (on_devices m).
Proof. apply acts_none. intros s. by rewrite on_devices_eq. Qed.
Lemma acts_timer {A} (m : M ping_timer A) : acts 0 [] (on_timer m).
Proof. apply acts_none. intros s. by rewrite on_timer_eq. Qed.
Lemma acts_lift {A} (o : outcome A) : acts 0 [] (on_object (mlift o)).
Proof. apply acts_none. intros s. by rewrite on_object_eq. Qed.
Lemma acts_get : acts 0 [] (on_object mget).
Proof. apply acts_none. intros s. by rewrite on_object_eq. Qed.
Lemma acts_ret {A} (a : A) : acts 0 [] (mret a).
Proof. by apply acts_none. Qed.
Lemma acts_throw {A} e : acts 0 [] (mthrow e : M server A).
Proof. by apply acts_none. Qed.

(** One event. *)
Lemma acts_event now ev : acts 1 [(now, ev)] (on_object (handle_event NTRU SIDH ed_verify ntru_verify nonce_default write_tun now ev)).
Proof.
  intros s. exists [(now, ev)]. split; [split; [done|reflexivity]|]. rewrite on_object_eq. cbn [event_loop]. rewrite bind_eq. unfold event_turn, mcatch.
  destruct (handle_event _ _ _ _ _ _ _ _ _) as [[[]|e| |] o1]; cbn; done.
Qed.

Lemma acts_catch {A} k al (m : M server A) h : acts k al m -> (forall e, acts 0 [] (h e)) -> acts k al (mcatch m h).
Proof.
  intros Hm Hh s. destruct (Hm s) as (evs & Hl & Hs & Hr & He). unfold mcatch.
  destruct (m s) as [[a|e| |] s1] eqn:E; cbn in Hs, Hr, He.
  - exists evs. split; [done|]. split; [done|]. split; [|done]. intros a' _. by apply (Hr a).
  - destruct (Hh e s1) as (evs' & [Hl' _] & Hs' & _ & _). specialize (He e eq_refl).
    assert (evs' = []) as -> by (destruct evs'; [done|cbn in Hl'; lia]). cbn in Hs'.
    exists evs. rewrite Hs. done.
  - exists evs. done.
  - exists evs. done.
Qed.

Lemma acts_prepare os : acts 0 [] (prepare_socket u os).
Proof.
  apply (acts_bind 0 0 [] []); [apply acts_get|]. intros [rm n]. apply (acts_bind 0 0 [] []); [apply acts_lift|]. intros first.
  apply (acts_bind 0 0 [] []); [apply acts_lift|]. intros _. apply (acts_bind 0 0 [] []); [apply acts_devices|]. intros _. apply acts_lift.
Qed.

(** [recvfrom] returned a datagram of an AF_INET socket. *)
Definition udp_read_ok (os : turn_os) : Prop :=
  0 <= os_udp_read os <= zlen (os_udp_buff os) /\ zlen (os_udp_buff os) < 2 ^ 64 /\ os_udp_addr_size os = sizeof_sockaddr_in.

(** The events a turn can have: the ping, then one of what was read. *)
Definition tun_event (os : turn_os) : Z * event := (os_time_now os, ev_tun (take (Z.to_nat (os_tun_read os)) (os_tun_buff os))).
Definition udp_event (os : turn_os) : Z * event :=
  (os_time_now os, ev_udp (os_udp_from os) (take (Z.to_nat (os_udp_read os)) (os_udp_buff os))).
Definition turn_events (os : turn_os) : list (Z * event) := [(os_time_now os, ev_ping); tun_event os; udp_event os].

Lemma acts_read os size from : udp_read_ok os -> size = 0 \/ (size = os_udp_read os /\ from = os_udp_from os) ->
  acts 1 [udp_event os] (on_object (handle_read NTRU SIDH ed_verify ntru_verify nonce_default write_tun g_dbg_level
    (os_time_now os) size from (os_udp_buff os))).
Proof.
  intros (Hr & _ & _) Hs. unfold handle_read. destruct (Z.eqb_spec size 0).
  - apply (acts_mono 0 _ []); [lia|apply sublist_nil_l|]. apply acts_none. intros s. by rewrite on_object_eq.
  - destruct Hs as [?|[-> ->]]; [done|]. rewrite (proj2 (Z.leb_le _ _)) by lia.
    apply (acts_event (os_time_now os) (ev_udp (os_udp_from os) (take (Z.to_nat (os_udp_read os)) (os_udp_buff os)))).
Qed.

Lemma acts_tun_read os : acts 1 [tun_event os] (size_read ← on_object (mlift (read_from_tun (os_tun_read os)));
    on_object (handle_tun nonce_default (os_time_now os) (take (Z.to_nat size_read) (os_tun_buff os)))).
Proof.
  intros s. rewrite bind_eq, on_object_eq. unfold read_from_tun. destruct s as [d [t o]]. unfold object_of, timer_of. cbn [mlift fst snd].
  destruct (os_tun_read os =? -1); cbn; [exists []; split; [split; [cbn; lia|apply sublist_nil_l]|done]|].
  destruct (0 <=? os_tun_read os); cbn; [|exists []; split; [split; [cbn; lia|apply sublist_nil_l]|done]].
  exact (acts_event (os_time_now os) (ev_tun (take (Z.to_nat (os_tun_read os)) (os_tun_buff os))) (d, (t, o))).
Qed.

Lemma acts_receive k al os (f : Z * c_ip46_addr -> M server unit) : udp_read_ok os ->
  (forall size pip, size = 0 \/ (size = os_udp_read os /\ pip = os_udp_from os) -> acts k al (f (size, pip))) ->
  acts k al (on_object (mlift (receive_data u (os_udp_read os) (os_udp_addr_size os) (os_udp_from os) tag_none)) ≫= f).
Proof.
  intros (Hr & Hb & Ha) Hf s. rewrite bind_eq, on_object_eq. unfold receive_data. rewrite u64_small, Ha by lia.
  destruct s as [d [t o]]. unfold object_of, timer_of. cbn [mlift fst snd].
  destruct (m_disabled u); [exact (Hf 0 tag_none ltac:(lia) (d, (t, o)))|].
  exact (Hf (os_udp_read os) (os_udp_from os) ltac:(by right) (d, (t, o))).
Qed.

Lemma acts_turn os : udp_read_ok os -> acts 2 (turn_events os) (turn os).
Proof.
  intros Hu. apply acts_catch; cycle 1.
  { intros e. case_bool_decide; [|apply acts_ret]. apply acts_catch; [apply acts_prepare|]. intros e'.
    case_bool_decide; [apply acts_ret|apply acts_throw]. }
  apply (acts_bind 1 1 [_] [_; _]).
  { apply (acts_bind 0 1 [] [_]); [apply acts_timer|]. intros t. unfold when.
    case_match; [|apply (acts_mono 0 _ []); [lia|apply sublist_nil_l|apply acts_ret]].
    apply (acts_bind 1 0 [_] []); [apply (acts_event (os_time_now os) ev_ping)|]. intros _. apply acts_timer. }
  intros _. apply (acts_bind 0 1 [] [_; _]); [apply acts_devices|]. intros _.
  apply (acts_bind 0 1 [] [_; _]); [apply acts_devices|]. intros em. case_match.
  - apply (acts_mono 1 _ [tun_event os]); [lia|by apply sublist_skip, sublist_nil_l|]. apply acts_tun_read.
  - case_match; [|apply (acts_mono 0 _ []); [lia|apply sublist_nil_l|apply acts_ret]].
    apply (acts_mono 1 _ [udp_event os]); [lia|by apply sublist_cons|].
    apply acts_receive; [done|]. intros size pip Hs. by apply acts_read.
Qed.

Lemma acts_turns l : Forall udp_read_ok l -> acts (2 * length l) (concat (map turn_events l)) (turns l).
Proof.
  intros Hl. induction Hl as [|os l Hos Hl IH]; [apply acts_ret|]. cbn [loop_turns map concat length].
  destruct (os_exiting os); [apply (acts_mono 0 _ []); [lia|apply sublist_nil_l|apply acts_ret]|].
  replace (2 * S (length l))%nat with (2 + 2 * length l)%nat by lia. apply acts_bind; [by apply acts_turn|]. by intros _.
Qed.

(** Whatever the operating system answers turn after turn, the loop with
    its devices and timer does to the node what the list of its events does,
    in their order: in each turn at most a ping, and after it at most the one
    packet that was read.  Errors of [select] and [read], a device that is not
    ready, and restarts of the device leave the node alone. *)
Lemma main_loop_refines l (s : server) : Forall udp_read_ok l ->
  exists evs, evs `sublist_of` concat (map turn_events l) /\ (length evs <= 2 * length l)%nat /\
    (events evs (object_of s)).2 = object_of (turns l s).2.
Proof. intros Hl. destruct (acts_turns l Hl s) as (evs & [Hn Hs] & He & _). exists evs. done. Qed.

(** ** The timer *)

Definition keeps_timer {A} (m : M server A) : Prop := forall s, timer_of (m s).2 = timer_of s.

Lemma keeps_timer_bind {A B} (m : M server A) (f : A -> M server B) :
  keeps_timer m -> (forall a, keeps_timer (f a)) -> keeps_timer (m ≫= f).
Proof.
  intros Hm Hf s. rewrite bind_eq. specialize (Hm s). destruct (m s) as [[a|e| |] s1]; cbn in *; [|done..]. by rewrite Hf.
Qed.
Lemma keeps_timer_object {A} (m : M object A) : keeps_timer (on_object m).
Proof. intros s. by rewrite on_object_eq. Qed.
Lemma keeps_timer_devices {A} (m : M devices A) : keeps_timer (on_devices m).
Proof. intros s. rewrite on_devices_eq. by destruct s as [d [t o]]. Qed.
Lemma keeps_timer_catch {A} (m : M server A) h : keeps_timer m -> (forall e, keeps_timer (h e)) -> keeps_timer (mcatch m h).
Proof.
  intros Hm Hh s. unfold mcatch. specialize (Hm s). destruct (m s) as [[a|e| |] s1]; cbn in *; [done| |done..]. by rewrite Hh.
Qed.
Lemma keeps_timer_prepare os : keeps_timer (prepare_socket u os).
Proof.
  apply keeps_timer_bind; [apply keeps_timer_object|]. intros [rm n]. apply keeps_timer_bind; [apply keeps_timer_object|]. intros first.
  apply keeps_timer_bind; [apply keeps_timer_object|]. intros _. apply keeps_timer_bind; [apply keeps_timer_devices|]. intros _.
  apply keeps_timer_object.
Qed.
Lemma keeps_timer_read os : keeps_timer (read_devices NTRU SIDH ed_verify ntru_verify nonce_default write_tun u g_dbg_level os).
Proof.
  apply keeps_timer_bind; [apply keeps_timer_devices|]. intros em. case_match.
  - apply keeps_timer_bind; [apply keeps_timer_object|]. intros size. apply keeps_timer_object.
  - case_match; [|done]. apply keeps_timer_bind; [apply keeps_timer_object|]. intros [size pip]. apply keeps_timer_object.
Qed.

(** What the first step of a turn leaves is the timer at its end. *)
Lemma timer_turn os s : timer_of (turn os s).2 = timer_of (ping_if_time net_hello_interval os s).2.
Proof.
  unfold loop_turn. set (body := turn_body _ _ _ _ _ _ _ _ _ os). transitivity (timer_of (body s).2).
  - unfold mcatch at 1. destruct (body s) as [[a|e| |] s1]; try done. cbn [snd]. case_bool_decide; [|done].
    rewrite (keeps_timer_catch _ _ (keeps_timer_prepare (os_setup os))); [done|]. intros e'. by case_bool_decide.
  - unfold body, turn_body. rewrite bind_eq. destruct (ping_if_time _ _ _) as [[a|e| |] s1]; try done.
    apply (keeps_timer_bind _ _ (keeps_timer_devices _)). intros _. apply keeps_timer_read.
Qed.

(** ** Each turn, exactly *)

(** Time for a ping. *)
Definition due (t : ping_timer) (now : Z) : bool := ping_all_time_last t + ping_freq net_hello_interval t <? now.

(** The event manager can wait and [select] did not fail; a descriptor is ready. *)
Definition waits (em : event_manager) (os : turn_os) : bool :=
  let fd_max := Z.max (em_tun_fd em) (em_udp_socket em) in
  (0 <=? em_tun_fd em) && (fd_max <? int_max - 1) && (1 <=? fd_max) && (0 <=? os_select os).
Definition ready (os : turn_os) (fd : Z) : bool := (0 <? os_select os) && bool_decide (fd ∈ os_ready os).

(** The packet a turn takes: the TUN device comes before the socket. *)
Definition read_events (em : event_manager) (os : turn_os) : list (Z * event) :=
  if negb (waits em os) then []
  else if ready os (em_tun_fd em) then if 0 <=? os_tun_read os then [tun_event os] else []
  else if ready os (em_udp_socket em) && negb (m_disabled u) && (0 <? os_udp_read os) then [udp_event os]
  else [].

Definition due_events (t : ping_timer) (os : turn_os) : list (Z * event) :=
  if due t (os_time_now os) then [(os_time_now os, ev_ping)] else [].

Notation handle := (handle_event NTRU SIDH ed_verify ntru_verify nonce_default write_tun).

(** The events of a turn, given up at the first that throws. *)
Definition node_events (evs : list (Z * event)) : M object unit := mfor evs (fun ev => handle ev.1 ev.2).

Lemma object_turn os s :
  object_of (turn os s).2 = object_of (turn_body NTRU SIDH ed_verify ntru_verify nonce_default write_tun u net_hello_interval g_dbg_level os s).2.
Proof.
  unfold loop_turn, mcatch at 1. destruct (turn_body _ _ _ _ _ _ _ _ _ os s) as [[a|e| |] s1]; try done. case_bool_decide; [|done].
  assert (acts 0 [] (mcatch (prepare_socket u (os_setup os)) (fun e => if bool_decide (e = ex_exception_error_exit) then mret tt else mthrow e))) as H0.
  { apply acts_catch; [apply acts_prepare|]. intros e'. case_bool_decide; [apply acts_ret|apply acts_throw]. }
  destruct (H0 s1) as (evs & [Hl _] & He & _). destruct evs; [|cbn in Hl; lia]. exact (eq_sym He).
Qed.

Lemma wait_exact os em :
  wait_for_event (os_select os) (os_ready os) em =
    (if waits em os then Ret tt else if em_tun_fd em <? 0 then Throw ex_runtime_error else Abort_,
     (wait_for_event (os_select os) (os_ready os) em).2)
  /\ (waits em os = true -> get_tun_packet (wait_for_event (os_select os) (os_ready os) em).2 = ready os (em_tun_fd em)
      /\ receive_udp_paket (wait_for_event (os_select os) (os_ready os) em).2 = ready os (em_udp_socket em)).
Proof.
  destruct em as [tun sock set]. unfold wait_for_event, waits, ready, get_tun_packet, receive_udp_paket. cbn [em_tun_fd em_udp_socket].
  munfold. cbn. destruct (Z.ltb_spec tun 0), (Z.leb_spec 0 tun); try lia; [done|]. cbn.
  destruct (Z.max tun sock <? int_max - 1); [|done]. cbn. destruct (1 <=? Z.max tun sock); [|done]. cbn.
  destruct (Z.leb_spec 0 (os_select os)); [|done]. split; [done|]. intros _. cbn.
  destruct (Z.leb_spec (os_select os) 0), (Z.ltb_spec 0 (os_select os)); try lia; cbn.
  - rewrite !bool_decide_eq_false_2 by apply not_elem_of_empty. done.
  - split; apply bool_decide_ext; rewrite elem_of_intersection, elem_of_union, !elem_of_singleton; tauto.
Qed.

(** [read] gave a packet or failed; [recvfrom] gave a datagram, or failed while
    the level of the log is at most 50: the log line of [handle_read] throws
    then. *)
Definition answers_ok (os : turn_os) : Prop := -1 <= os_tun_read os /\
  (udp_read_ok os \/
   os_udp_read os = -1 /\ os_udp_addr_size os = sizeof_sockaddr_in6 /\ g_dbg_level <= 50 /\ zlen (os_udp_buff os) < 2 ^ 64 - 1).

(** What a [catch] of everything leaves of an outcome. *)
Definition settled (o : outcome unit) : outcome unit := match o with Throw _ => Ret tt | o => o end.

(** The outcome of [x] and the object it leaves are those of [y], but for
    exceptions that are caught later. *)
Definition settles_as (x : outcome unit * server) (y : outcome unit * object) : Prop :=
  object_of x.2 = y.2 /\ settled x.1 = settled y.1.

Lemma handle_one ev (s : server) : settles_as (on_object (handle ev.1 ev.2) s) (node_events [ev] (object_of s)).
Proof.
  unfold settles_as, node_events. rewrite on_object_eq. cbn [mfor]. rewrite bind_eq.
  by destruct (handle ev.1 ev.2 (object_of s)) as [[[]|e| |] o].
Qed.

Lemma read_exact os em (d : tun_device) t o : answers_ok os -> waits em os = true ->
  settles_as (read_devices NTRU SIDH ed_verify ntru_verify nonce_default write_tun u g_dbg_level os
      ((d, (wait_for_event (os_select os) (os_ready os) em).2), (t, o)))
    (node_events (read_events em os) o).
Proof.
  intros [Hn Hu] Hw. destruct (proj2 (wait_exact os em) Hw) as [E1 E2]. set (em' := (wait_for_event (os_select os) (os_ready os) em).2) in *.
  unfold read_devices, read_events. rewrite Hw. cbn [negb]. rewrite bind_eq, on_devices_eq. cbn [mget on_snd fst snd]. rewrite E1, E2.
  destruct (ready os (em_tun_fd em)).
  - rewrite bind_eq, on_object_eq. unfold read_from_tun, othrow_if, oassert.
    destruct (Z.eqb_spec (os_tun_read os) (-1)) as [->|]; [by split|]. rewrite (proj2 (Z.leb_le _ _)) by lia.
    apply (handle_one (tun_event os) ((d, em'), (t, o))).
  - destruct (ready os (em_udp_socket em)); [|by split]. rewrite bind_eq, on_object_eq. unfold receive_data.
    destruct (m_disabled u); [cbn [mlift fst snd andb negb]; rewrite on_object_eq; by split|]. cbn [andb negb].
    destruct Hu as [(Hr & Hb & Ha)|(Hr & Ha & Hl & Hb)]; rewrite Ha.
    + change (sizeof_sockaddr_in =? sizeof_sockaddr_in6) with false. change (sizeof_sockaddr_in =? sizeof_sockaddr_in) with true.
      rewrite u64_small by lia. cbn [mlift fst snd object_of]. unfold handle_read. destruct (Z.eqb_spec (os_udp_read os) 0) as [->|].
      { rewrite on_object_eq. by split. }
      rewrite (proj2 (Z.leb_le _ _)), (proj2 (Z.ltb_lt _ _)) by lia. apply (handle_one (udp_event os) ((d, em'), (t, o))).
    + change (sizeof_sockaddr_in6 =? sizeof_sockaddr_in6) with true. rewrite Hr. change (0 <? -1) with false. change (u64 (-1)) with (2 ^ 64 - 1).
      cbn [mlift fst snd]. unfold handle_read. change (2 ^ 64 - 1 =? 0) with false. rewrite on_object_eq.
      rewrite (proj2 (Z.leb_gt _ _)), (proj2 (Z.leb_le g_dbg_level 50)) by lia. by split.
Qed.

(** [wait_for_event] ends the program: [select] failed, or its descriptors are
    out of range. *)
Definition stuck (em : event_manager) (os : turn_os) : bool := (0 <=? em_tun_fd em) && negb (waits em os).

(** How a turn ends after its events. *)
Definition turn_end (em : event_manager) (os : turn_os) (r : outcome unit) : outcome unit :=
  match r with Ret _ => if stuck em os then Abort_ else Ret tt | r => settled r end.

Lemma wait_read os (d : tun_device) em t o : answers_ok os ->
  let x := (on_devices (on_snd (wait_for_event (os_select os) (os_ready os)));;
      read_devices NTRU SIDH ed_verify ntru_verify nonce_default write_tun u g_dbg_level os) ((d, em), (t, o)) in
  let y := node_events (read_events em os) o in
  object_of x.2 = y.2 /\ settled x.1 = turn_end em os y.1.
Proof.
  intros Hu x y. unfold x, y, turn_end, stuck. rewrite bind_eq, on_devices_eq. cbn [fst snd].
  assert (on_snd (wait_for_event (os_select os) (os_ready os)) (d, em) =
    ((wait_for_event (os_select os) (os_ready os) em).1, (d, (wait_for_event (os_select os) (os_ready os) em).2))) as ->
    by (unfold on_snd; cbn [fst snd]; by destruct (wait_for_event _ _ em)).
  cbn [fst snd]. destruct (wait_exact os em) as [E _]. rewrite E. cbn [fst snd]. destruct (waits em os) eqn:Hw; rewrite ?andb_false_r.
  - destruct (read_exact os em d t o Hu Hw) as [R1 R2]. split; [exact R1|]. eapply eq_trans; [exact R2|].
    by destruct (node_events _ _) as [[[]|e| |] ?].
  - unfold read_events. rewrite Hw. by destruct (Z.ltb_spec (em_tun_fd em) 0), (Z.leb_spec 0 (em_tun_fd em)); try lia.
Qed.

Lemma body_exact os (s : server) : answers_ok os ->
  let x := turn_body NTRU SIDH ed_verify ntru_verify nonce_default write_tun u net_hello_interval g_dbg_level os s in
  let y := node_events (due_events (timer_of s) os ++ read_events s.1.2 os) (object_of s) in
  object_of x.2 = y.2 /\ settled x.1 = turn_end s.1.2 os y.1.
Proof.
  intros Hu x y. unfold x, y. destruct s as [[d em] [t o]]. unfold turn_body, ping_if_time, due_events, timer_of. cbn [fst snd].
  rewrite bind_eq, bind_eq, on_timer_eq. cbn [mget fst snd timer_of object_of]. fold (due t (os_time_now os)).
  destruct (due t (os_time_now os)); cbn [when app]; [|apply (wait_read os d em t o Hu)].
  unfold node_events at 1 2. cbn [mfor fst snd].
  change (handle (os_time_now os) ev_ping) with (on_snd (S1 := c_routing_manager) (peering_ping_all_peers (Rng := Rng) (os_time_now os))).
  rewrite !bind_eq, on_object_eq. cbn [fst snd object_of timer_of].
  destruct (on_snd (peering_ping_all_peers (os_time_now os)) o) as [[[]|e| |] o1]; [|done..].
  rewrite on_timer_eq. cbn [mput fst snd object_of]. apply (wait_read os d em _ o1 Hu).
Qed.

(** The node's address begins with 0xFD, as the set-up of the device asserts. *)
Definition galaxy_address (n : node) : Prop := exists hip, m_my_hip n = Byte.xfd :: hip.

Lemma galaxy_events evs o : galaxy_address o.2 -> galaxy_address (node_events evs o).2.2.
Proof.
  assert (packet_closed galaxy_address) as Hc by (by split).
  assert (preserves (fun o : object => galaxy_address o.2) (node_events evs)) as Hp; [|by apply Hp].
  apply preserves_mfor. intros [now ev] o1 H1.
  pose proof (preserves_event NTRU SIDH ed_verify ntru_verify nonce_default write_tun _ Hc ltac:(done) now ev o1 H1) as H2.
  unfold event_turn, mcatch in H2. cbn [fst snd]. by destruct (handle now ev o1) as [[[]|e| |] o2].
Qed.

Lemma setup_settles os hip (dv : devices) :
  let x := mcatch (on_fst (tun_init (os_open os));;
     on_fst (set_ipv6_address (os_ioctl os) (os_ifr_name os) (os_add_address os) (Byte.xfd :: hip));;
     on_fst (set_mtu (os_set_mtu os));; event_manager_init) (fun _ => action_error_exit) dv in
  x.1 = Ret tt \/ x.1 = Throw ex_exception_error_exit.
Proof.
  destruct dv as [[name ok fd] em]. unfold mcatch, action_error_exit, tun_init, set_ipv6_address, set_mtu, event_manager_init, get_tun_fd, on_fst, on_snd,
    Wrap_NetPlatform_addAddress, Wrap_NetPlatform_setMTU. change (at_ (Byte.xfd :: hip) 0) with (Ret Byte.xfd). munfold.
  destruct (os_open os <? 0) eqn:E1; [by right|]. destruct (os_ioctl os <? 0); [by right|].
  change (byte_val Byte.xfd =? 253) with true. destruct (os_add_address os <? 0); [by right|]. destruct (os_set_mtu os <? 0); [by right|].
  cbn. rewrite E1. cbn. rewrite E1. by left.
Qed.

(** Starting the device again settles: it works, or it is given up. *)
Lemma restart_settles os (s : server) : galaxy_address (object_of s).2 -> 0 <= get_socket u ->
  (mcatch (prepare_socket u os) (fun e => if bool_decide (e = ex_exception_error_exit) then mret tt else mthrow e) s).1 = Ret tt.
Proof.
  intros [hip Hh] Hs. unfold mcatch at 1, prepare_socket. rewrite bind_eq, on_object_eq. destruct s as [[d em] [t [rm n]]].
  cbn [mget fst snd object_of] in *. rewrite Hh. rewrite !bind_eq, on_object_eq. change (at_ (Byte.xfd :: hip) 0) with (Ret Byte.xfd). cbn [mlift fst snd].
  rewrite bind_eq, on_object_eq. change (massert (byte_val Byte.xfd =? 253)) with (mret tt : M object unit). cbn [mret M_mret fst snd].
  rewrite bind_eq, on_devices_eq. cbn [fst snd]. destruct (setup_settles os hip (d, em)) as [->| ->]; [|done].
  rewrite on_object_eq. unfold massert. rewrite (proj2 (Z.leb_le _ _)) by done. done.
Qed.

(** C5: a turn, exactly.  In a turn of a node whose own address begins with 0xFD
    and whose UDP socket is open, [read] gives a packet or fails, and so does
    [recvfrom] (which may only fail while the level of the log is at most 50:
    the log line throws then, else what is in the buffer is read out of
    bounds).  The node ends the turn as the events of the turn leave it: the
    ping, when it is due, and then the packet of the TUN device when [select]
    says it is ready, else the datagram of the socket, up to the first event
    that throws: nothing is read after a ping that threw, and no datagram
    while a packet waits in the device.  No exception gets out of the turn: it
    returns, also after a failed restart of the device, unless the ping is
    done or not due and [select] failed or cannot take the descriptors, which
    aborts the program, or an event aborts it or is undefined. *)
Theorem turn_refines os (s : server) : answers_ok os -> galaxy_address (object_of s).2 -> 0 <= get_socket u ->
  let x := turn os s in
  let y := node_events (due_events (timer_of s) os ++ read_events s.1.2 os) (object_of s) in
  object_of x.2 = y.2 /\ x.1 = turn_end s.1.2 os y.1.
Proof.
  intros Hu Hg Hs x y. destruct (body_exact os s Hu) as [B1 B2]. fold y in B1, B2. unfold x. split; [by rewrite object_turn|].
  rewrite <- B2. unfold loop_turn, mcatch at 1. pose proof (galaxy_events (due_events (timer_of s) os ++ read_events s.1.2 os) (object_of s) Hg) as Hg'.
  fold y in Hg'. rewrite <- B1 in Hg'.
  destruct (turn_body _ _ _ _ _ _ _ _ _ os s) as [[[]|e| |] s1]; try done. cbn [fst snd settled] in *.
  case_bool_decide; [|done]. by apply restart_settles.
Qed.

Context `{LW : !CryptoLaws Rng}.

(** What the socket wrapper is given, goes out, if it is enabled and every
    address is an IPv4 one. *)
Lemma socket_sends out sent : m_disabled u = false -> Forall (fun d => exists a port, d.1 = tag_ipv4 a port) out ->
  mfor out (fun d => send_data u d.1 d.2) sent = (Ret tt, sent ++ out).
Proof.
  intros Hd Ho. revert sent. induction Ho as [|[dst data] out (a & port & E) Ho IH]; intros sent; [by rewrite app_nil_r|].
  cbn [fst] in E. subst dst. cbn [mfor fst snd]. rewrite bind_eq. unfold send_data at 1. rewrite Hd. cbn [mmodify]. rewrite IH. by rewrite <- app_assoc.
Qed.

(** C6: pings are on time, by the clock that a turn reads at its start.  In every
    turn of a configured node whose peers have addresses: when the last ping is
    further back than the interval (one second for the first two, then the
    option), the node first hands its "hi" for every peer it keeps to the
    wrapper of the UDP socket and the timer starts again; an enabled socket
    sends them all, if the peers have IPv4 addresses (a disabled one sends
    nothing).  Otherwise nothing is handed over and the timer is untouched.
    Either way the timer at the end of the turn is at most the interval behind
    the clock read at its start; [select] may then wait for up to three
    seconds, so this bounds the delay of a ping by one turn, not by the clock
    at the end of the turn. *)
Theorem hello_on_time os d t rm (n : node) : configured NTRU ed_verify ntru_verify n ->
  map_Forall (fun _ p => m_peering_addr p <> tag_none) (m_peer n) -> 0 <= net_hello_interval -> os_time_now os <= os_time_pinged os ->
  let s := (d, (t, (rm, n))) in
  let t' := timer_of (turn os s).2 in
  let his := map (fun kp => (m_peering_addr kp.2, hi_datagram n)) (map_items string_le (kept_peers (os_time_now os) n)) in
  (if due t (os_time_now os)
   then t' = PingTimer (os_time_pinged os) (ping_all_count t + 1) /\
     (exists n' : node, ping_if_time net_hello_interval os s = (Ret tt, (d, (t', (rm, n')))) /\ m_udp_out n' = m_udp_out n ++ his) /\
     (m_disabled u = false -> Forall (fun kp => exists a port, m_peering_addr kp.2 = tag_ipv4 a port) (map_items string_le (kept_peers (os_time_now os) n)) ->
       forall sent, mfor his (fun d => send_data u d.1 d.2) sent = (Ret tt, sent ++ his))
   else t' = t /\ ping_if_time net_hello_interval os s = (Ret tt, s))
  /\ os_time_now os <= ping_all_time_last t' + ping_freq net_hello_interval t'.
Proof.
  intros Hc Hp Hi Ht s t' his. unfold t'. rewrite timer_turn. unfold ping_if_time. rewrite bind_eq, on_timer_eq. cbn [mget fst snd].
  change (timer_of s) with t. change (object_of s) with (rm, n). fold (due t (os_time_now os)).
  destruct (due t (os_time_now os)) eqn:Ed; cbn [when].
  - destruct (ping_eval NTRU ed_verify ntru_verify (os_time_now os) n Hc Hp) as (n' & E & Ho).
    assert (on_object (on_snd (peering_ping_all_peers (os_time_now os))) (s.1, (t, (rm, n))) = (Ret tt, (d, (t, (rm, n'))))) as E'
      by (unfold on_object, on_snd; cbn; by rewrite E).
    rewrite bind_eq, E', on_timer_eq. cbn [mput fst snd]. split; [split_and!; [done|by exists n'|]|].
    { intros Hd Hv sent. apply socket_sends; [done|]. unfold his. by apply Forall_map. }
    cbn. unfold ping_freq, second, ping_all_frequency_low, second. case_match; lia.
  - cbn. unfold due in Ed. by apply Z.ltb_ge in Ed.
Qed.
End Facts.

(** ** A node with one peer *)

#[local] Existing Instance toy_lib.
#[local] Existing Instance toy_net.
#[local] Existing Instance toy_laws.
#[local] Existing Instance toy_boxes.

(** Ready: the socket (7), with a datagram of two octets; the clock is 5 s. *)
Definition toy_os (ready : gset Z) : turn_os :=
  TurnOs (5 * second) (5 * second) 1 ready (-1) [] 2 sizeof_sockaddr_in (toy_addr (str "P")) [Byte.x02; Byte.x63] (SetupOs 5 0 [] 0 0) false.

Definition toy_devices : tun_device * event_manager := (TunDevice (str "galaxy0") true 5, EventManager 5 7 ∅).

Lemma turn_refines_witness (o := (toy_rm, toy_node (str "A") ∅)) :
  let x := loop_turn true true (fun _ _ _ => true) (fun _ _ _ => true) [] (fun x => zlen x) (UdpWrapper false 7) 30 100
    (toy_os {[7]}) (toy_devices, (PingTimer 0 2, o)) in
  object_of x.2 = (node_events true true (fun _ _ _ => true) (fun _ _ _ => true) [] (fun x => zlen x)
      [(5 * second, ev_udp (toy_addr (str "P")) [Byte.x02; Byte.x63])] o).2 /\ x.1 = Ret tt.
Proof.
  destruct (turn_refines true true (fun _ _ _ => true) (fun _ _ _ => true) [] (fun x => zlen x) (UdpWrapper false 7) 30 100
    (toy_os {[7]}) (toy_devices, (PingTimer 0 2, o))) as [H1 H2].
  - split; [cbn; lia|]. left. unfold udp_read_ok, zlen. cbn. lia.
  - eexists. vm_compute. reflexivity.
  - cbn. lia.
  - split; [exact H1|]. rewrite H2. vm_compute. reflexivity.
Defined.

(** The first ping after the start: one second has gone by. *)
Lemma hello_on_time_witness :
  exists n' : @tun_node Z toy_lib,
    ping_if_time 30 (toy_os ∅) (toy_devices, (PingTimer 0 0, (toy_rm, meet_A))) =
      (Ret tt, (toy_devices, (PingTimer (5 * second) 1, (toy_rm, n')))) /\
    m_udp_out n' = [(toy_addr (str "R"), hi_datagram meet_A)].
Proof.
  destruct (hello_on_time true true (fun _ _ _ => true) (fun _ _ _ => true) [] (fun x => zlen x) (UdpWrapper false 7) 30 100
    (toy_os ∅) toy_devices (PingTimer 0 0) toy_rm meet_A (toy_configured meet_A (or_introl eq_refl))) as [(Ht & (n' & E & Ho) & _) _].
  - intros k p Hp. unfold meet_A in Hp. cbn [m_peer toy_node] in Hp. apply lookup_singleton_Some in Hp as [<- <-]. discriminate.
  - discriminate.
  - apply Z.le_refl.
  - exists n'. rewrite E, Ht, Ho. split; [reflexivity|]. vm_compute. reflexivity.
Defined.
