(* ===== verification/Cables.v ===== *)
(** * Cables: addresses, selectors, cards, and the services they run on

    Models [cable/]: the kinds of cable and their addresses with the factory
    [cable_make_addr] and the polymorphic comparison ([base], [udp], [shm],
    [simulation]), [c_card_selector], the UDP cable, the group of cards
    [c_cable_cards], and [c_asioservice_manager].

    [boost::asio]'s endpoints and addresses are the class [EndpointLib]; what
    the operating system answers when sockets are opened and threads are
    started is an argument. *)
From S2P Require Import Prelude Peerref.

(** ** kind.hpp, kind.cpp *)

Inductive t_cable_kind := kind_simul | kind_shm | kind_udp.
#[export] Instance t_cable_kind_eq_dec : EqDecision t_cable_kind.
Proof. solve_decision. Defined.

Definition cable_kind_int (k : t_cable_kind) : Z := match k with kind_simul => 1 | kind_shm => 2 | kind_udp => 3 end.
Definition cable_kind_to_string (k : t_cable_kind) : bytes :=
  match k with kind_simul => str "simul" | kind_shm => str "shm" | kind_udp => str "udp" end.

(** [udp::endpoint] with its order; [endpoint_of] is an endpoint of
    [address::from_string] and a port. *)
Class EndpointLib := {
  endpoint : Type;
  endpoint_lt : endpoint -> endpoint -> bool;
  endpoint_of : bytes -> Z -> option endpoint
}.

Section Cables.
Context `{EL : EndpointLib} `{NL : !NetLib}.

(** ** Addresses *)

(** The address of each child class. *)
Inductive any_addr := udp_addr (m_addr : endpoint) | shm_addr (m_addr : bytes) | simul_addr (m_addr : Z).

(** [m_kind] of the base class: the constructor that takes no kind sets none. *)
Record c_cable_base_addr := CableAddr { m_kind : option t_cable_kind; m_addr : any_addr }.

Definition new_udp_addr (e : endpoint) : c_cable_base_addr := CableAddr (Some kind_udp) (udp_addr e).
Definition new_shm_addr (a : bytes) : c_cable_base_addr := CableAddr (Some kind_shm) (shm_addr a).
Definition new_simul_addr (uuid : Z) : c_cable_base_addr := CableAddr (Some kind_simul) (simul_addr uuid).

(** [c_cable_udp_addr(const std::string &)] *)
Definition udp_addr_of_string (ip_string : bytes) : outcome c_cable_base_addr :=
  parsed ← match parse_ip_string ip_string with Throw ex_invalid_argument => Throw ex_err_check_input | r => r end;
  match endpoint_of parsed.1 (wrap 16 parsed.2) with
  | Some e => Ret (new_udp_addr e)
  | None => Throw ex_system_error
  end.

(** [clone]: made by the constructor of the class. *)
Definition clone (a : c_cable_base_addr) : c_cable_base_addr :=
  match m_addr a with udp_addr e => new_udp_addr e | shm_addr s => new_shm_addr s | simul_addr i => new_simul_addr i end.

Definition get_default_galaxy_port : Z := 9042.

(** [isalnum] of a char that is negative as an [int] is not defined. *)
Definition isalnum (c : Byte.byte) : outcome bool :=
  let v := byte_val c in
  if v <? 128 then Ret (((48 <=? v) && (v <=? 57)) || ((65 <=? v) && (v <=? 90)) || ((97 <=? v) && (v <=? 122))) else Undef.

(** [find_if(..., !isalnum) == end()] *)
Fixpoint all_alnum (s : bytes) : outcome bool :=
  match s with [] => Ret true | c :: s' => a ← isalnum c; if a : bool then all_alnum s' else Ret false end.

Definition cable_make_addr (s : bytes) : outcome c_cable_base_addr :=
  rethrow_as ex_err_check_input (
    match find_from s Byte.x3a 0 with
    | None => udp_addr_of_string (s ++ str ":" ++ dec get_default_galaxy_port)
    | Some pos1 =>
        othrow_if (negb (0 <? pos1)) ex_err_check_user_soft;;
        let part1 := take (Z.to_nat pos1) s in
        let part2 := drop (Z.to_nat (pos1 + 1)) s in
        if bool_decide (part1 = str "auto") || bool_decide (part1 = str "udp") then udp_addr_of_string part2
        else if bool_decide (part1 = str "tcp") then Throw ex_invalid_argument
        else if bool_decide (part1 = str "shm") then
          ok ← all_alnum part2; if ok : bool then Ret (new_shm_addr part2) else Throw ex_invalid_argument
        else udp_addr_of_string s
    end).

(** [compare_same_class] of each class: -1, 0 or 1. *)
Definition compare_by {A} (lt : A -> A -> bool) (a b : A) : Z := if lt a b then -1 else if lt b a then 1 else 0.
Definition string_lt (a b : bytes) : bool := string_leb a b && negb (bool_decide (a = b)).
Definition compare_same_class (a other : c_cable_base_addr) : outcome Z :=
  match m_addr a, m_addr other with
  | udp_addr x, udp_addr y => Ret (compare_by endpoint_lt x y)
  | shm_addr x, shm_addr y => Ret (compare_by string_lt x y)
  | simul_addr x, simul_addr y => Ret (compare_by Z.ltb x y)
  | _, _ => Throw ex_runtime_error
  end.

Definition get_kind (a : c_cable_base_addr) : outcome t_cable_kind := match m_kind a with Some k => Ret k | None => Undef end.

Definition addr_eq (a other : c_cable_base_addr) : outcome bool :=
  k ← get_kind a; k' ← get_kind other;
  if bool_decide (k = k') then c ← compare_same_class a other; Ret (c =? 0) else Ret false.
Definition addr_neq (a other : c_cable_base_addr) : outcome bool :=
  k ← get_kind a; k' ← get_kind other;
  if bool_decide (k = k') then c ← compare_same_class a other; Ret (negb (c =? 0)) else Ret true.
Definition addr_lt (a other : c_cable_base_addr) : outcome bool :=
  k ← get_kind a; k' ← get_kind other;
  if bool_decide (k = k') then c ← compare_same_class a other; Ret (c =? -1) else Ret (cable_kind_int k <? cable_kind_int k').

(** ** c_card_selector *)

(** [m_my_addr], null in a selector made without arguments. *)
Notation c_card_selector := (option c_cable_base_addr).

Definition UsePtr {A} (p : option A) : outcome A := match p with Some a => Ret a | None => Abort_ end.

Definition new_selector (my_addr : option c_cable_base_addr) : outcome c_card_selector :=
  a ← UsePtr my_addr; Ret (Some a).
Definition copy_selector (other : c_card_selector) : outcome c_card_selector := a ← UsePtr other; Ret (Some (clone a)).
(** [other.m_my_addr->clone()] is not checked. *)
Definition assign_selector (other : c_card_selector) : outcome c_card_selector :=
  match other with Some a => Ret (Some (clone a)) | None => Undef end.
Definition selector_eq (s other : c_card_selector) : outcome bool := a ← UsePtr s; b ← UsePtr other; addr_eq a b.
Definition selector_neq (s other : c_card_selector) : outcome bool := e ← selector_eq s other; Ret (negb e).
Definition selector_lt (s other : c_card_selector) : outcome bool := a ← UsePtr s; b ← UsePtr other; addr_lt a b.
Definition selector_kind (s : c_card_selector) : outcome t_cable_kind := a ← UsePtr s; get_kind a.
Definition get_my_addr (s : c_card_selector) : outcome c_cable_base_addr := UsePtr s.

(** ** c_asioservice_manager *)

(** The services are numbered; [m_stopped] says which were told to stop. *)
Record c_asioservice_manager := AsioManager {
  m_size : Z; m_last_ioservice : Z; m_stopped : list bool;
  m_ioservice_idle_works : list Z; m_ioservice_threads : list Z; m_stop : bool }.

Definition m_ioservice_max : Z := 16.

Definition Precond (m : c_asioservice_manager) : bool :=
  (m_size m <=? m_ioservice_max) && (m_size m =? zlen (m_ioservice_threads m)) && (m_size m =? zlen (m_ioservice_idle_works m)).

(** [guard_inv]: the check at the end is made by a destructor, which may not
    throw. *)
Definition check_post {A} (body : M c_asioservice_manager A) : M c_asioservice_manager A := fun s =>
  match body s with
  | (Ret a, s') => if Precond s' then (Ret a, s') else (Abort_, s')
  | (Throw e, s') => if Precond s' then (Throw e, s') else (Abort_, s')
  | r => r
  end.
Definition guard_inv {A} (body : M c_asioservice_manager A) : M c_asioservice_manager A :=
  m ← mget; mthrow_if (negb (Precond m)) ex_err_check_prog;; check_post body.
(** [noexcept] *)
Definition no_throw {S A} (m : M S A) : M S A := fun s => match m s with (Throw _, s') => (Abort_, s') | r => r end.

Definition manager_size : M c_asioservice_manager Z := no_throw (guard_inv (m ← mget; mret (m_size m))).
Definition manager_capacity : M c_asioservice_manager Z := no_throw (guard_inv (mret m_ioservice_max)).

Definition set_size (n : Z) (m : c_asioservice_manager) : c_asioservice_manager :=
  AsioManager n (m_last_ioservice m) (m_stopped m) (m_ioservice_idle_works m) (m_ioservice_threads m) (m_stop m).

(** [started index]: the thread of this service can be started. *)
Definition run_ioservice (started : Z -> bool) (index : Z) : M c_asioservice_manager unit :=
  mthrow_if (negb (index <? m_ioservice_max)) ex_out_of_range;;
  mmodify (fun m => AsioManager (m_size m) (m_last_ioservice m) (m_stopped m)
    (m_ioservice_idle_works m ++ [index]) (m_ioservice_threads m) (m_stop m));;
  mthrow_if (negb (started index)) ex_system_error;;
  mmodify (fun m => AsioManager (m_size m) (m_last_ioservice m) (m_stopped m)
    (m_ioservice_idle_works m) (m_ioservice_threads m ++ [index]) (m_stop m)).

(** The constructor.  When it throws, the members are destroyed: a thread that
    runs and was not joined ends the program. *)
Definition manager_create (started : Z -> bool) (size_ : Z) : outcome c_asioservice_manager :=
  let '(r, m) :=
    (mthrow_if (negb (size_ <=? m_ioservice_max)) ex_err_check_prog;;
     mthrow_if (negb (1 <=? size_)) ex_err_check_prog;;
     mfor (seqZ 0 size_) (run_ioservice started))
    (AsioManager size_ 0 (replicate 16 false) [] [] false) in
  match r with
  | Ret _ => Ret m
  | Throw e => if bool_decide (m_ioservice_threads m = []) then Throw e else Abort_
  | Abort_ => Abort_
  | Undef => Undef
  end.

Definition resize_to_at_least (started : Z -> bool) (size_ : Z) : M c_asioservice_manager unit :=
  guard_inv (
    manager_size;; manager_capacity;;
    m ← mget;
    if m_stop m then mret tt
    else if size_ <=? m_size m then mret tt
    else
      capacity ← manager_capacity;
      mthrow_if (negb (size_ <=? capacity)) ex_err_check_input;;
      mfor (seqZ (m_size m) (size_ - m_size m)) (fun i => mmodify (set_size (i + 1));; run_ioservice started i);;
      m ← mget;
      mthrow_if (negb (m_size m =? size_)) ex_err_check_prog).

(** The number of the service that is handed out. *)
Definition get_next_ioservice : M c_asioservice_manager Z :=
  guard_inv (
    m ← mget;
    size ← manager_size;
    if size =? 0 then mundef
    else
      let last := u64 (m_last_ioservice m + 1) mod size in
      mmodify (fun m => AsioManager (m_size m) last (m_stopped m) (m_ioservice_idle_works m) (m_ioservice_threads m) (m_stop m));;
      mthrow_if (negb (last <? m_ioservice_max)) ex_err_check_prog;;
      mret last).

Definition stop_ioservice (index : Z) : M c_asioservice_manager unit :=
  guard_inv (
    mthrow_if (negb (index <? m_ioservice_max)) ex_out_of_range;;
    mmodify (fun m => AsioManager (m_size m) (m_last_ioservice m) (<[Z.to_nat index := true]> (m_stopped m))
      (m_ioservice_idle_works m) (m_ioservice_threads m) (m_stop m))).

Definition stop_all_threadsafe : M c_asioservice_manager unit :=
  guard_inv (m ← mget; mfor (seqZ 0 (m_size m)) stop_ioservice).

(** ** The UDP cable *)

Inductive t_multisocket_kind := one_rw | separate_rw.

(** A cable: the number of its service, the address its write socket is bound
    to, the address its read socket is bound to, which sockets are open, and
    what the write socket was given to send. *)
Record c_cable_udp := CableUdp {
  u_io_service : Z; m_multisocket_kind : t_multisocket_kind;
  m_write_socket : endpoint; m_read_bound : option endpoint; m_write_open : bool; m_read_open : bool;
  m_sent : list (endpoint * bytes) }.

Definition default_multisocket_kind : t_multisocket_kind := separate_rw.
Definition has_separate_rw (c : c_cable_udp) : bool :=
  match m_multisocket_kind c with one_rw => true | separate_rw => false end.

(** [dynamic_cast<const c_cable_udp_addr &>] *)
Definition as_udp (a : c_cable_base_addr) : outcome endpoint :=
  match m_addr a with udp_addr e => Ret e | _ => Throw ex_bad_cast end.

(** [opened]: the sockets could be opened, and the write socket bound. *)
Definition new_cable_udp (opened : bool) (source_addr : c_card_selector) : M c_asioservice_manager c_cable_udp :=
  service ← get_next_ioservice;
  a ← mlift (get_my_addr source_addr);
  e ← mlift (as_udp a);
  mthrow_if (negb opened) ex_system_error;;
  mret (CableUdp service default_multisocket_kind e None true true []).

Definition listen_on (bound : bool) (local_address : c_card_selector) : M c_cable_udp unit :=
  c ← mget;
  when (has_separate_rw c)
    (a ← mlift (get_my_addr local_address);
     e ← mlift (as_udp a);
     mthrow_if (negb bound) ex_system_error;;
     mput (CableUdp (u_io_service c) (m_multisocket_kind c) (m_write_socket c) (Some e) (m_write_open c) (m_read_open c) (m_sent c))).

(** [send_to_ok]: the socket took the datagram. *)
Definition cable_send_to (send_to_ok : bool) (dest : c_cable_base_addr) (data : bytes) : M c_cable_udp unit :=
  c ← mget;
  e ← mlift (match as_udp dest with Throw ex_bad_cast => Throw ex_invalid_argument | r => r end);
  mthrow_if (negb (m_write_open c && send_to_ok)) ex_system_error;;
  mput (CableUdp (u_io_service c) (m_multisocket_kind c) (m_write_socket c) (m_read_bound c) (m_write_open c) (m_read_open c)
    (m_sent c ++ [(e, data)])).

(** [receive_from]: which socket is read, and the selector of the sender;
    [received] is the sender and the size, [None] when the socket fails. *)
Definition reads_from_write_socket (c : c_cable_udp) : bool := negb (has_separate_rw c).
Definition cable_receive_from (c : c_cable_udp) (received : option (endpoint * Z)) : outcome (c_card_selector * Z) :=
  match received with
  | Some (their_ep, readed_bytes) =>
      source ← new_selector (Some (new_udp_addr their_ep)); Ret (source, readed_bytes)
  | None => Throw ex_system_error
  end.

Definition cable_stop_threadsafe : M c_cable_udp unit :=
  c ← mget;
  mput (CableUdp (u_io_service c) (m_multisocket_kind c) (m_write_socket c) (m_read_bound c) false
    (if has_separate_rw c then false else m_read_open c) (m_sent c)).

(** ** c_cable_cards *)

(** [m_cards] is the list of its entries in their order; the manager is made
    when it is needed. *)
Record c_cable_cards := CableCards {
  m_cards : list (c_card_selector * c_cable_udp); m_asioservice_manager : option c_asioservice_manager }.

(** [m_cards.find(selector)]: the first entry that is not less, when the key is
    not less than it either. *)
Fixpoint cards_find (cards : list (c_card_selector * c_cable_udp)) (selector : c_card_selector)
    : outcome (option (c_card_selector * c_cable_udp)) :=
  match cards with
  | [] => Ret None
  | (k, c) :: cards' =>
      less ← selector_lt k selector;
      if less : bool then cards_find cards' selector
      else more ← selector_lt selector k; Ret (if more : bool then None else Some (k, c))
  end.

(** [m_cards.emplace(selector, card)] of a key that is not there. *)
Fixpoint cards_emplace (cards : list (c_card_selector * c_cable_udp)) (selector : c_card_selector) (card : c_cable_udp)
    : outcome (list (c_card_selector * c_cable_udp)) :=
  match cards with
  | [] => Ret [(selector, card)]
  | (k, c) :: cards' =>
      less ← selector_lt k selector;
      if less : bool then r ← cards_emplace cards' selector card; Ret ((k, c) :: r)
      else Ret ((selector, card) :: (k, c) :: cards')
  end.

(** What the operating system does when a card is made: threads, sockets. *)
Record card_os := CardOs { os_started : Z -> bool; os_opened : bool }.

Definition get_asioservice (os : card_os) : M c_cable_cards c_asioservice_manager :=
  g ← mget;
  match m_asioservice_manager g with
  | Some m => mret m
  | None =>
      m ← mlift (manager_create (os_started os) 1);
      mput (CableCards (m_cards g) (Some m));; mret m
  end.

(** An operation of the manager that is there. *)
Definition on_manager {A} (f : M c_asioservice_manager A) : M c_cable_cards A := fun g =>
  match m_asioservice_manager g with
  | Some m => let '(r, m') := f m in (r, CableCards (m_cards g) (Some m'))
  | None => (Abort_, g)
  end.

Definition create_card (os : card_os) (selector : c_card_selector) : M c_cable_cards c_cable_udp :=
  kind ← mlift (selector_kind selector);
  match kind with
  | kind_udp => get_asioservice os;; on_manager (new_cable_udp (os_opened os) selector)
  | _ => mthrow ex_runtime_error
  end.

(** The reference that is returned is the key of its entry. *)
Definition get_card (os : card_os) (selector : c_card_selector) : M c_cable_cards c_card_selector :=
  g ← mget;
  found ← mlift (cards_find (m_cards g) selector);
  match found with
  | Some (k, _) => mret k
  | None =>
      mlift (selector_kind selector);;
      card ← create_card os selector;
      key ← mlift (copy_selector selector);
      g ← mget;
      cards ← mlift (cards_emplace (m_cards g) key card);
      mput (CableCards cards (m_asioservice_manager g));;
      less ← mlift (selector_lt selector selector);
      mthrow_if less ex_err_check_prog;;
      found ← mlift (cards_find cards selector);
      match found with Some (k, _) => mret k | None => mthrow ex_out_of_range end
  end.

Definition cards_stop_threadsafe : M c_cable_cards unit :=
  mmodify (fun g => CableCards (map (fun kc => (kc.1, (cable_stop_threadsafe kc.2).2)) (m_cards g)) (m_asioservice_manager g));;
  g ← mget;
  match m_asioservice_manager g with Some _ => on_manager stop_all_threadsafe | None => mret tt end.
End Cables.
