(* ===== verification/CablesFacts.v ===== *)
(** * Theorems about cables

    The comparison of addresses is a strict total order; the manager hands its
    services out in turn and grows as asked; there is one card for each
    address, and it stays. *)
From S2P Require Import Prelude CryptoFacts Peerref Cables.

(** ** The order of addresses *)

Record strict_total {A} (lt : A -> A -> bool) : Prop := {
  st_irrefl : forall a, lt a a = false;
  st_trans : forall a b c, lt a b = true -> lt b c = true -> lt a c = true;
  st_total : forall a b, a = b \/ lt a b = true \/ lt b a = true
}.

Lemma st_asym {A} (lt : A -> A -> bool) a b : strict_total lt -> lt a b = true -> lt b a = false.
Proof.
  intros H E. destruct (lt b a) eqn:E'; [|done]. pose proof (st_trans _ H _ _ _ E E') as Hc. by rewrite (st_irrefl _ H) in Hc.
Qed.

Lemma compare_by_cases {A} (lt : A -> A -> bool) a b : strict_total lt ->
  (compare_by lt a b =? -1) = lt a b /\ ((compare_by lt a b =? 0) = true <-> a = b).
Proof.
  intros H. unfold compare_by. destruct (lt a b) eqn:E; [split; [done|]; split; [done|intros ->; by rewrite (st_irrefl _ H) in E]|].
  destruct (lt b a) eqn:E'; (split; [done|]); split; try done.
  - intros ->. by rewrite (st_irrefl _ H) in E'.
  - intros _. destruct (st_total _ H a b) as [?|[?|?]]; congruence.
Qed.

Lemma ltb_total : strict_total Z.ltb.
Proof. split; intros; zbool; lia. Qed.

Lemma string_leb_trans a b c : string_leb a b = true -> string_leb b c = true -> string_leb a c = true.
Proof.
  revert b c. induction a as [|x a IH]; intros [|y b] [|z c]; cbn; try done.
  intros H1 H2. zbool. repeat case_bool; zbool; try done; try lia; eauto.
Qed.

Lemma string_lt_total : strict_total string_lt.
Proof.
  unfold string_lt. split.
  - intros a. by rewrite bool_decide_true, andb_false_r.
  - intros a b c [H1 N1]%andb_true_iff [H2 N2]%andb_true_iff. apply negb_true_iff, bool_decide_eq_false in N1, N2.
    apply andb_true_iff. split; [by eapply string_leb_trans|]. apply negb_true_iff, bool_decide_eq_false. intros ->.
    rewrite (string_leb_total c b), H2 in H1 by done. done.
  - intros a b. destruct (decide (a = b)) as [|Hn]; [by left|]. right. rewrite !bool_decide_eq_false_2 by congruence.
    rewrite (string_leb_total a b) by done. destruct (string_leb b a); [by right|by left].
Qed.

(** The order of [boost::asio]'s endpoints. *)
Class EndpointLaws `{EL : EndpointLib} := endpoint_order : strict_total endpoint_lt.

Section Facts.
Context `{EL : EndpointLib} `{NL : !NetLib} `{LW : !EndpointLaws}.

(** An address made by a constructor that knows its kind. *)
Definition class_kind (a : any_addr) : t_cable_kind :=
  match a with udp_addr _ => kind_udp | shm_addr _ => kind_shm | simul_addr _ => kind_simul end.
Definition addr_ok (a : c_cable_base_addr) : Prop := m_kind a = Some (class_kind (m_addr a)).

Lemma new_udp_ok e : addr_ok (new_udp_addr e).
Proof. done. Qed.

Lemma addr_ok_clone a : addr_ok a -> clone a = a.
Proof. destruct a as [k [e|s|i]]; unfold addr_ok; cbn; by intros ->. Qed.

(** The order without the errors. *)
Definition addr_ltb (a b : any_addr) : bool :=
  match a, b with
  | udp_addr x, udp_addr y => endpoint_lt x y
  | shm_addr x, shm_addr y => string_lt x y
  | simul_addr x, simul_addr y => x <? y
  | _, _ => cable_kind_int (class_kind a) <? cable_kind_int (class_kind b)
  end.

Lemma addr_ltb_total : strict_total addr_ltb.
Proof.
  split.
  - intros [e|s|i]; cbn; [apply endpoint_order|apply string_lt_total|apply ltb_total].
  - intros [e|s|i] [e'|s'|i'] [e''|s''|i'']; cbn; try done; [apply endpoint_order|apply string_lt_total|apply ltb_total].
  - intros [e|s|i] [e'|s'|i']; cbn; auto.
    + destruct (st_total _ endpoint_order e e') as [->|?]; auto.
    + destruct (st_total _ string_lt_total s s') as [->|?]; auto.
    + destruct (st_total _ ltb_total i i') as [->|?]; auto.
Qed.

Lemma addr_lt_eval a b : addr_ok a -> addr_ok b -> addr_lt a b = Ret (addr_ltb (m_addr a) (m_addr b)).
Proof.
  destruct a as [k a], b as [k' b]. unfold addr_ok, addr_lt, get_kind. cbn [m_kind m_addr]. intros -> ->. cbn [mbind outcome_mbind outcome_bind].
  unfold mbind, outcome_mbind. cbn [outcome_bind].
  destruct a as [e|s|i], b as [e'|s'|i']; cbn; try done; f_equal;
    [apply (proj1 (compare_by_cases _ _ _ endpoint_order))|apply (proj1 (compare_by_cases _ _ _ string_lt_total))|apply (proj1 (compare_by_cases _ _ _ ltb_total))].
Qed.

Lemma addr_eq_eval a b : addr_ok a -> addr_ok b -> exists c, addr_eq a b = Ret c /\ (c = true <-> a = b).
Proof.
  destruct a as [k a], b as [k' b]. unfold addr_ok, addr_eq, get_kind. cbn [m_kind m_addr]. intros -> ->.
  unfold mbind, outcome_mbind. cbn [outcome_bind].
  destruct a as [e|s|i], b as [e'|s'|i']; cbn; eexists; (split; [reflexivity|]); try (split; [done|congruence]).
  - rewrite (proj2 (compare_by_cases _ _ _ endpoint_order)). split; congruence.
  - rewrite (proj2 (compare_by_cases _ _ _ string_lt_total)). split; congruence.
  - rewrite (proj2 (compare_by_cases _ _ _ ltb_total)). split; congruence.
Qed.

(** Addresses of all kinds are compared without an error, and strictly and
    totally ordered, as the keys of a map must be. *)
Lemma addresses_ordered a b c : addr_ok a -> addr_ok b -> addr_ok c ->
  (exists l e m, addr_lt a b = Ret l /\ addr_eq a b = Ret e /\ addr_lt b a = Ret m /\ addr_neq a b = Ret (negb e) /\
     (e = true <-> a = b) /\ ((l = true /\ e = false /\ m = false) \/ (l = false /\ e = true /\ m = false) \/ (l = false /\ e = false /\ m = true)))
  /\ (addr_lt a b = Ret true -> addr_lt b c = Ret true -> addr_lt a c = Ret true).
Proof.
  intros Ha Hb Hc. rewrite !addr_lt_eval by done. split.
  - destruct (addr_eq_eval a b Ha Hb) as (e & Ee & He). exists (addr_ltb (m_addr a) (m_addr b)), e, (addr_ltb (m_addr b) (m_addr a)).
    split; [done|]. split; [done|]. split; [done|]. split.
    { revert Ee. unfold addr_neq, addr_eq, get_kind. rewrite Ha, Hb. unfold mbind, outcome_mbind. cbn [outcome_bind].
      case_bool_decide; [|by intros [= <-]]. destruct (compare_same_class a b); cbn; try done. by intros [= <-]. }
    split; [done|]. assert (e = true <-> m_addr a = m_addr b) as He'.
    { rewrite He. split; [by intros ->|]. destruct a as [k a], b as [k' b]. unfold addr_ok in *. cbn in *. intros ->. congruence. }
    destruct (st_total _ addr_ltb_total (m_addr a) (m_addr b)) as [E|[E|E]].
    + right; left. rewrite E, (st_irrefl _ addr_ltb_total). split; [done|]. split; [by apply He'|done].
    + left. rewrite E, (st_asym _ _ _ addr_ltb_total E). split; [done|]. split; [|done].
      destruct e; [|done]. exfalso. rewrite (proj1 He' eq_refl), (st_irrefl _ addr_ltb_total) in E. done.
    + right; right. rewrite E, (st_asym _ _ _ addr_ltb_total E). split; [done|]. split; [|done].
      destruct e; [|done]. exfalso. rewrite (proj1 He' eq_refl), (st_irrefl _ addr_ltb_total) in E. done.
  - intros [= H1] [= H2]. f_equal. by eapply (st_trans _ addr_ltb_total).
Qed.
End Facts.

(** ** The manager of services *)

Definition manager_ok (m : c_asioservice_manager) : Prop :=
  1 <= m_size m <= m_ioservice_max /\ 0 <= m_last_ioservice m < m_size m /\
  m_ioservice_threads m = seqZ 0 (m_size m) /\ m_ioservice_idle_works m = seqZ 0 (m_size m) /\ length (m_stopped m) = 16%nat.

Lemma zlen_seqZ i n : 0 <= n -> zlen (seqZ i n) = n.
Proof. unfold zlen. rewrite length_seqZ. lia. Qed.

Lemma precond_ok m : manager_ok m -> Precond m = true.
Proof.
  intros ((H1 & H2) & _ & Ht & Hw & _). unfold Precond. rewrite Ht, Hw, zlen_seqZ, (proj2 (Z.leb_le _ _) H2), Z.eqb_refl by lia. done.
Qed.

Lemma guard_eval {A} (body : M c_asioservice_manager A) m r m' : Precond m = true -> body m = (r, m') -> Precond m' = true ->
  guard_inv body m = (r, m').
Proof. intros Hp E Hp'. unfold guard_inv, mthrow_if. rewrite bind_eq. cbn. rewrite bind_eq, Hp. cbn. unfold check_post. rewrite E, Hp'. by destruct r. Qed.

Lemma size_eval m : Precond m = true -> manager_size m = (Ret (m_size m), m).
Proof. intros H. unfold manager_size, no_throw. by rewrite (guard_eval _ m (Ret (m_size m)) m). Qed.
Lemma capacity_eval m : Precond m = true -> manager_capacity m = (Ret m_ioservice_max, m).
Proof. intros H. unfold manager_capacity, no_throw. by rewrite (guard_eval _ m (Ret m_ioservice_max) m). Qed.

Definition with_last (last : Z) (m : c_asioservice_manager) : c_asioservice_manager :=
  AsioManager (m_size m) last (m_stopped m) (m_ioservice_idle_works m) (m_ioservice_threads m) (m_stop m).

Lemma next_eval m : manager_ok m ->
  get_next_ioservice m = (Ret ((m_last_ioservice m + 1) mod m_size m), with_last ((m_last_ioservice m + 1) mod m_size m) m)
  /\ manager_ok (with_last ((m_last_ioservice m + 1) mod m_size m) m).
Proof.
  intros Hm. pose proof Hm as (Hs & Hl & Ht & Hw & Hst). unfold m_ioservice_max in Hs.
  pose proof (Z.mod_pos_bound (m_last_ioservice m + 1) (m_size m)) as Hb.
  split; [|split; [done|split; [cbn; lia|done]]].
  unfold get_next_ioservice. apply guard_eval; [by apply precond_ok| |exact (precond_ok m Hm)].
  rewrite bind_eq. cbn [mget]. rewrite bind_eq, size_eval by (by apply precond_ok).
  destruct (Z.eqb_spec (m_size m) 0); [lia|]. rewrite u64_small by lia. rewrite bind_eq. cbn [mmodify].
  rewrite bind_eq. unfold mthrow_if, m_ioservice_max. rewrite (proj2 (Z.ltb_lt _ _)) by lia. done.
Qed.

(** [n] requests, one after the other. *)
Fixpoint requests (n : nat) : M c_asioservice_manager (list Z) :=
  match n with O => mret [] | S n' => i ← get_next_ioservice; l ← requests n'; mret (i :: l) end.

(** Services are handed out in turn: of any [n] requests the [i]-th
    gets the service [i] places after the last one, so that every service is
    used once in as many requests as there are services. *)
Lemma services_in_turn n m : manager_ok m ->
  requests n m = (Ret (map (fun i => (m_last_ioservice m + 1 + i) mod m_size m) (seqZ 0 (Z.of_nat n))),
                  with_last ((m_last_ioservice m + Z.of_nat n) mod m_size m) m)
  /\ manager_ok (with_last ((m_last_ioservice m + Z.of_nat n) mod m_size m) m).
Proof.
  revert m. induction n as [|n IH]; intros m Hm.
  - rewrite Z.add_0_r, Z.mod_small by apply Hm. assert (with_last (m_last_ioservice m) m = m) as -> by (by destruct m). done.
  - destruct (next_eval m Hm) as [E1 Hm1]. set (l1 := (m_last_ioservice m + 1) mod m_size m) in *.
    destruct (IH _ Hm1) as [E2 Hm2]. cbn [with_last m_last_ioservice m_size] in E2, Hm2.
    assert ((l1 + Z.of_nat n) mod m_size m = (m_last_ioservice m + Z.of_nat (S n)) mod m_size m) as El.
    { unfold l1. rewrite Zplus_mod_idemp_l. f_equal. lia. }
    rewrite <- El. split; [|exact Hm2]. cbn [requests]. rewrite bind_eq, E1, bind_eq, E2. unfold mret, M_mret.
    enough (l1 :: map (fun i => (l1 + 1 + i) mod m_size m) (seqZ 0 (Z.of_nat n))
      = map (fun i => (m_last_ioservice m + 1 + i) mod m_size m) (seqZ 0 (Z.of_nat (S n)))) as ->; [done|].
    rewrite Nat2Z.inj_succ, <- Z.add_1_l, seqZ_app by lia. change (seqZ 0 1) with [0]. cbn [map app]. f_equal; [by rewrite Z.add_0_r|].
    rewrite <- (fmap_add_seqZ 1 0), map_map. apply map_ext. intros i. unfold l1.
    rewrite <- (Z.add_assoc _ 1 i), Zplus_mod_idemp_l. f_equal; lia.
Qed.

(** The manager with [n] services. *)
Definition grown (n : Z) (m : c_asioservice_manager) : c_asioservice_manager :=
  AsioManager n (m_last_ioservice m) (m_stopped m) (seqZ 0 n) (seqZ 0 n) (m_stop m).

Lemma grown_ok n m : 0 <= m_last_ioservice m < n -> n <= 16 -> length (m_stopped m) = 16%nat -> manager_ok (grown n m).
Proof. intros Hl Hn Hs. unfold manager_ok, grown, m_ioservice_max. cbn. repeat split; (done || lia). Qed.

Lemma seqZ_snoc n : 0 <= n -> seqZ 0 n ++ [n] = seqZ 0 (n + 1).
Proof. intros H. by rewrite seqZ_app by lia. Qed.

Lemma run_eval started i m : 0 <= i < 16 -> started i = true ->
  run_ioservice started i (AsioManager (m_size m) (m_last_ioservice m) (m_stopped m) (seqZ 0 i) (seqZ 0 i) (m_stop m)) =
    (Ret tt, AsioManager (m_size m) (m_last_ioservice m) (m_stopped m) (seqZ 0 (i + 1)) (seqZ 0 (i + 1)) (m_stop m)).
Proof.
  intros Hi E. unfold run_ioservice, m_ioservice_max. munfold. rewrite (proj2 (Z.ltb_lt i 16)) by lia. rewrite E. cbn -[seqZ].
  by rewrite seqZ_snoc by lia.
Qed.

Lemma grow_eval started (n : nat) m k : 0 <= k -> k + Z.of_nat n <= 16 -> (forall i, k <= i < k + Z.of_nat n -> started i = true) ->
  mfor (seqZ k (Z.of_nat n)) (fun i => mmodify (set_size (i + 1));; run_ioservice started i) (grown k m) = (Ret tt, grown (k + Z.of_nat n) m).
Proof.
  revert k. induction n as [|n IH]; intros k Hk Hn Hi; [by rewrite Z.add_0_r|].
  rewrite Nat2Z.inj_succ, seqZ_cons, Z.pred_succ by lia. cbn [mfor]. rewrite bind_eq, bind_eq. cbn [mmodify set_size grown].
  pose proof (run_eval started k (AsioManager (k + 1) (m_last_ioservice m) (m_stopped m) [] [] (m_stop m))) as E. cbn in E.
  unfold set_size. cbn [m_size m_last_ioservice m_stopped m_ioservice_idle_works m_ioservice_threads m_stop grown].
  rewrite E by (lia || apply Hi; lia). change (AsioManager (k + 1) _ _ (seqZ 0 (k + 1)) (seqZ 0 (k + 1)) _) with (grown (k + 1) m).
  replace (Z.succ k) with (k + 1) by lia. rewrite IH by (lia || intros; apply Hi; lia). do 2 f_equal. lia.
Qed.

(** [resize_to_at_least] grows to the size that is asked for and never
    shrinks; more than the capacity is refused and changes nothing. *)
Lemma resize_exact started k m : manager_ok m -> m_stop m = false -> (forall i, started i = true) ->
  resize_to_at_least started k m =
    if k <=? m_size m then (Ret tt, m) else if k <=? m_ioservice_max then (Ret tt, grown k m) else (Throw ex_err_check_input, m).
Proof.
  intros Hm Hs Hst. pose proof Hm as (Hsz & Hl & Ht & Hw & Hls). pose proof (precond_ok m Hm) as Hp. unfold m_ioservice_max in *.
  assert (m = grown (m_size m) m) as Eg by (unfold grown; rewrite <- Ht at 1; rewrite <- Hw; destruct m; cbn in *; congruence).
  assert (forall r m', (let _ := m in (manager_size;; manager_capacity;; m ← mget;
      if m_stop m then mret tt else if k <=? m_size m then mret tt else capacity ← manager_capacity;
      mthrow_if (negb (k <=? capacity)) ex_err_check_input;;
      mfor (seqZ (m_size m) (k - m_size m)) (fun i => mmodify (set_size (i + 1));; run_ioservice started i);;
      m ← mget; mthrow_if (negb (m_size m =? k)) ex_err_check_prog) m) = (r, m') -> Precond m' = true ->
      resize_to_at_least started k m = (r, m')) as Hg by (intros; by apply guard_eval).
  destruct (Z.leb_spec k (m_size m)) as [H1|H1]; [|destruct (Z.leb_spec k 16) as [H2|H2]].
  - apply Hg; [|done]. cbn zeta. rewrite bind_eq, size_eval, bind_eq, capacity_eval, bind_eq by done. cbn [mget].
    by rewrite Hs, (proj2 (Z.leb_le _ _) H1).
  - apply Hg; [|by apply precond_ok, grown_ok; try lia]. cbn zeta. rewrite bind_eq, size_eval, bind_eq, capacity_eval, bind_eq by done. cbn [mget].
    rewrite Hs, (proj2 (Z.leb_gt _ _) H1), bind_eq, capacity_eval, bind_eq by done. unfold m_ioservice_max. rewrite (proj2 (Z.leb_le _ _) H2). cbn [negb mthrow_if mlift othrow_if].
    rewrite bind_eq. rewrite Eg at 3. replace (k - m_size m) with (Z.of_nat (Z.to_nat (k - m_size m))) by lia.
    rewrite grow_eval by (lia || done). rewrite bind_eq. cbn [mget m_size grown]. unfold mthrow_if.
    replace (m_size m + Z.of_nat (Z.to_nat (k - m_size m))) with k by lia. by rewrite Z.eqb_refl.
  - apply Hg; [|done]. cbn zeta. rewrite bind_eq, size_eval, bind_eq, capacity_eval, bind_eq by done. cbn [mget].
    rewrite Hs, (proj2 (Z.leb_gt _ _) H1), bind_eq, capacity_eval, bind_eq by done. unfold m_ioservice_max. by rewrite (proj2 (Z.leb_gt _ _) H2).
Qed.

(** A thread that cannot be started ends the program: the check in the
    destructor of the guard throws. *)
Lemma failed_thread_aborts started k m : manager_ok m -> m_stop m = false -> m_size m < k <= m_ioservice_max -> started (m_size m) = false ->
  (resize_to_at_least started k m).1 = Abort_.
Proof.
  intros Hm Hs Hk Hst. pose proof Hm as (Hsz & Hl & Ht & Hw & Hls). pose proof (precond_ok m Hm) as Hp. unfold m_ioservice_max in *.
  unfold resize_to_at_least, guard_inv. rewrite bind_eq. cbn [mget]. rewrite bind_eq, Hp. cbn [negb mthrow_if mlift othrow_if]. unfold check_post.
  rewrite bind_eq, size_eval, bind_eq, capacity_eval, bind_eq by done. cbn [mget].
  rewrite Hs, (proj2 (Z.leb_gt _ _)), bind_eq, capacity_eval, bind_eq by (done || lia). unfold m_ioservice_max.
  rewrite (proj2 (Z.leb_le _ _)) by lia. cbn [negb mthrow_if mlift othrow_if]. rewrite bind_eq, seqZ_cons by lia. cbn [mfor].
  rewrite bind_eq, bind_eq. cbn [mmodify]. unfold run_ioservice, mthrow_if, m_ioservice_max. rewrite bind_eq, (proj2 (Z.ltb_lt _ _)) by lia.
  cbn [negb mlift othrow_if]. rewrite bind_eq. cbn [mmodify]. rewrite bind_eq, Hst. cbn [negb mlift othrow_if].
  unfold Precond. cbn [set_size m_size m_ioservice_threads m_ioservice_idle_works]. rewrite Ht, zlen_seqZ by lia.
  destruct (Z.eqb_spec (m_size m + 1) (m_size m)); [lia|]. by rewrite andb_false_r.
Qed.

(** The first service. *)
Lemma create_eval started : manager_create started 1 = (if started 0 then Ret (grown 1 (AsioManager 1 0 (replicate 16 false) [] [] false)) else Throw ex_system_error).
Proof. unfold manager_create. change (seqZ 0 1) with [0]. cbn [mfor]. unfold run_ioservice. munfold. cbn. by destruct (started 0). Qed.

(** ** Cards *)

Section Cards.
Context `{EL : EndpointLib} `{NL : !NetLib} `{LW : !EndpointLaws}.
Notation selector e := (Some (new_udp_addr e)).
Implicit Types (l : list (endpoint * c_cable_udp)).

(** Cards by the address they send from. *)
Definition entries l : list (option c_cable_base_addr * c_cable_udp) := map (fun ec => (selector ec.1, ec.2)) l.

Record cards_ok (g : c_cable_cards) l : Prop := {
  co_entries : m_cards g = entries l;
  co_sorted : StronglySorted (fun x y => endpoint_lt x.1 y.1 = true) l;
  co_source : Forall (fun ec => m_write_socket ec.2 = ec.1) l;
  co_manager : match m_asioservice_manager g with None => True | Some m => manager_ok m end
}.

Lemma selector_lt_eval a b : addr_ok a -> addr_ok b -> selector_lt (Some a) (Some b) = Ret (addr_ltb (m_addr a) (m_addr b)).
Proof. intros Ha Hb. unfold selector_lt. cbn. by apply addr_lt_eval. Qed.

Fixpoint find_at (e : endpoint) l : option c_cable_udp :=
  match l with
  | [] => None
  | (k, c) :: l' => if endpoint_lt k e then find_at e l' else if endpoint_lt e k then None else Some c
  end.
Fixpoint insert_at (e : endpoint) (c : c_cable_udp) l : list (endpoint * c_cable_udp) :=
  match l with
  | [] => [(e, c)]
  | (k, d) :: l' => if endpoint_lt k e then (k, d) :: insert_at e c l' else (e, c) :: (k, d) :: l'
  end.

Lemma find_eval e l : cards_find (entries l) (selector e) = Ret ((fun c => (selector e, c)) <$> find_at e l).
Proof.
  induction l as [|[k c] l IH]; [done|]. cbn [entries map cards_find find_at fst snd]. rewrite !selector_lt_eval by done.
  unfold mbind, outcome_mbind. cbn [outcome_bind addr_ltb m_addr new_udp_addr]. destruct (endpoint_lt k e) eqn:E1; [apply IH|].
  destruct (endpoint_lt e k) eqn:E2; [done|]. destruct (st_total _ endpoint_order k e) as [->|[?|?]]; [done|congruence..].
Qed.

(** A selector of another kind finds nothing. *)
Lemma find_other a l : addr_ok a -> class_kind (m_addr a) <> kind_udp -> cards_find (entries l) (Some a) = Ret None.
Proof.
  intros Ha Hk. destruct l as [|[k c] l]; [done|]. cbn [entries map cards_find fst snd]. rewrite !selector_lt_eval by done.
  unfold mbind, outcome_mbind. destruct (m_addr a); done.
Qed.

Lemma emplace_eval e c l : cards_emplace (entries l) (selector e) c = Ret (entries (insert_at e c l)).
Proof.
  induction l as [|[k d] l IH]; [done|]. cbn [entries map cards_emplace insert_at fst snd]. rewrite selector_lt_eval by done.
  unfold mbind, outcome_mbind. cbn [outcome_bind addr_ltb m_addr new_udp_addr]. destruct (endpoint_lt k e) eqn:E; [|done].
  fold (entries l). by rewrite IH.
Qed.

Lemma insert_Permutation e c l : insert_at e c l ≡ₚ (e, c) :: l.
Proof. induction l as [|[k d] l IH]; cbn; [done|]. destruct (endpoint_lt k e); [|done]. rewrite IH. apply Permutation_swap. Qed.

Lemma insert_sorted e c l : StronglySorted (fun x y => endpoint_lt x.1 y.1 = true) l -> find_at e l = None ->
  StronglySorted (fun x y => endpoint_lt x.1 y.1 = true) (insert_at e c l) /\ find_at e (insert_at e c l) = Some c.
Proof.
  induction 1 as [|[k d] l Hs IH Hl]; cbn; intros Hf.
  - rewrite (st_irrefl _ endpoint_order). split; [by repeat constructor|done].
  - destruct (endpoint_lt k e) eqn:E1; cbn.
    + rewrite E1. destruct (IH Hf) as [Hs' Hf']. split; [|done]. constructor; [done|]. rewrite insert_Permutation. by constructor.
    + destruct (endpoint_lt e k) eqn:E2; [|done]. rewrite (st_irrefl _ endpoint_order). split; [|done].
      constructor; [by constructor|]. constructor; [done|]. eapply Forall_impl; [exact Hl|]. intros [k' d'] Hk. cbn in *.
      by eapply (st_trans _ endpoint_order).
Qed.

Lemma find_in e c l : StronglySorted (fun x y => endpoint_lt x.1 y.1 = true) l -> find_at e l = Some c <-> (e, c) ∈ l.
Proof.
  induction 1 as [|[k d] l Hs IH Hl]; cbn; [by rewrite elem_of_nil|]. rewrite elem_of_cons. destruct (endpoint_lt k e) eqn:E1.
  - rewrite IH. split; [by right|]. intros [[= -> ->]|?]; [by rewrite (st_irrefl _ endpoint_order) in E1|done].
  - assert (forall c', (e, c') ∈ l -> endpoint_lt k e = true) as Hin.
    { intros c' Hc'. rewrite Forall_forall in Hl. exact (Hl _ Hc'). }
    destruct (endpoint_lt e k) eqn:E2.
    + split; [done|]. intros [[= -> ->]|Hc]; [by rewrite (st_irrefl _ endpoint_order) in E2|]. apply Hin in Hc. congruence.
    + destruct (st_total _ endpoint_order k e) as [->|[?|?]]; [|congruence..]. split; [intros [= ->]; by left|].
      intros [[= ->]|Hc]; [done|]. apply Hin in Hc. by rewrite (st_irrefl _ endpoint_order) in Hc.
Qed.

(** A new UDP cable for [e] on service [i]. *)
Definition fresh_cable (e : endpoint) (i : Z) : c_cable_udp := CableUdp i default_multisocket_kind e None true true [].

Definition can_make (os : card_os) (g : c_cable_cards) : bool :=
  match m_asioservice_manager g with Some _ => true | None => os_started os 0 end && os_opened os.

Lemma new_cable_eval opened e m : manager_ok m -> exists m', manager_ok m' /\
  new_cable_udp opened (selector e) m = (if opened then Ret (fresh_cable e (m_last_ioservice m')) else Throw ex_system_error, m').
Proof.
  intros Hm. destruct (next_eval m Hm) as [E Hm']. eexists. split; [exact Hm'|].
  unfold new_cable_udp. rewrite bind_eq, E. by destruct opened.
Qed.

Definition first_manager : c_asioservice_manager := grown 1 (AsioManager 1 0 (replicate 16 false) [] [] false).
Lemma asioservice_eval os g : get_asioservice os g =
  match m_asioservice_manager g with
  | Some m => (Ret m, g)
  | None => if os_started os 0 then (Ret first_manager, CableCards (m_cards g) (Some first_manager)) else (Throw ex_system_error, g)
  end.
Proof.
  unfold get_asioservice. rewrite bind_eq. cbn [mget]. destruct (m_asioservice_manager g); [done|].
  rewrite bind_eq, create_eval. by destruct (os_started os 0).
Qed.

Lemma create_card_eval os e g l : cards_ok g l -> exists g', cards_ok g' l /\
  ((can_make os g = true /\ exists i, create_card os (selector e) g = (Ret (fresh_cable e i), g'))
   \/ (can_make os g = false /\ create_card os (selector e) g = (Throw ex_system_error, g'))).
Proof.
  intros [Hc Hs Hf Hm]. unfold create_card. rewrite bind_eq.
  change (mlift (selector_kind (selector e)) g) with (Ret kind_udp : outcome t_cable_kind, g). cbv beta iota. rewrite bind_eq, asioservice_eval.
  assert (forall m, manager_ok m -> exists g', cards_ok g' l /\ on_manager (new_cable_udp (os_opened os) (selector e)) (CableCards (m_cards g) (Some m)) =
    (if os_opened os then Ret (fresh_cable e (default 0 (m_last_ioservice <$> m_asioservice_manager g'))) else Throw ex_system_error, g')) as Hnew.
  { intros m Hok. destruct (new_cable_eval (os_opened os) e m Hok) as (m' & Hm' & E). exists (CableCards (m_cards g) (Some m')).
    split; [by split|]. unfold on_manager. cbn [m_asioservice_manager m_cards]. by rewrite E. }
  unfold can_make. destruct g as [cards [m|]]; cbn [m_asioservice_manager m_cards] in *.
  - destruct (Hnew m Hm) as (g' & Hg' & E). exists g'. split; [done|]. rewrite E. destruct (os_opened os); [left|right]; split; try done. by eexists.
  - destruct (os_started os 0); [|exists (CableCards cards None); split; [by split|by right]].
    destruct (Hnew first_manager) as (g' & Hg' & E); [apply grown_ok; cbn; done || lia|].
    exists g'. split; [done|]. rewrite E. destruct (os_opened os); [left|right]; split; try done. by eexists.
Qed.

(** C38: there is one card for each address.  [get_card] returns the card that
    sends from the address of the selector: the one that is there, which stays
    as it is, or a new one, made when the system lets it and added next to the
    others; selectors that are not UDP and failures of the system throw and
    lose no card. *)
Theorem get_card_exact os a g l : cards_ok g l -> addr_ok a ->
  match m_addr a with
  | udp_addr e =>
      match find_at e l with
      | Some c => get_card os (Some a) g = (Ret (Some a), g) /\ m_write_socket c = e
      | None =>
          if can_make os g
          then exists i g', get_card os (Some a) g = (Ret (Some a), g') /\ cards_ok g' (insert_at e (fresh_cable e i) l)
          else exists g', get_card os (Some a) g = (Throw ex_system_error, g') /\ cards_ok g' l
      end
  | _ => get_card os (Some a) g = (Throw ex_runtime_error, g)
  end.
Proof.
  intros Hg Ha. pose proof Hg as [Hc Hs Hf Hm]. unfold get_card. rewrite bind_eq. cbn [mget]. rewrite bind_eq, Hc.
  destruct (m_addr a) as [e|x|x] eqn:Ea.
  2,3: rewrite find_other by (done || by rewrite Ea); unfold addr_ok in Ha; rewrite Ea in Ha;
       unfold create_card, selector_kind, get_kind, UsePtr; munfold; cbn; rewrite Ha; done.
  assert (a = new_udp_addr e) as -> by (destruct a as [k x]; unfold addr_ok in Ha; cbn in Ea, Ha; subst; done).
  rewrite find_eval. destruct (find_at e l) as [c|] eqn:Ef.
  - cbn. split; [done|]. apply find_in in Ef; [|done]. rewrite Forall_forall in Hf. exact (Hf _ Ef).
  - cbn [fmap option_fmap option_map mlift]. rewrite bind_eq. change (mlift (selector_kind (selector e)) g) with (Ret kind_udp : outcome t_cable_kind, g).
    cbv beta iota. destruct (create_card_eval os e g l Hg) as (g' & Hg' & [[Hcan [i E]]|[Hcan E]]); rewrite Hcan, bind_eq, E; [|by exists g'].
    pose proof Hg' as [Hc' Hs' Hf' Hm']. exists i, (CableCards (entries (insert_at e (fresh_cable e i) l)) (m_asioservice_manager g')).
    destruct (insert_sorted e (fresh_cable e i) l Hs Ef) as [Hins Hfind]. split.
    + rewrite bind_eq. change (mlift (copy_selector (selector e)) g') with (Ret (selector e) : outcome (option c_cable_base_addr), g').
      cbv beta iota. rewrite bind_eq. cbn [mget]. rewrite Hc', bind_eq, emplace_eval. cbn [mlift]. rewrite bind_eq. cbn [mput].
      rewrite bind_eq, selector_lt_eval by done. cbn [mlift addr_ltb m_addr new_udp_addr]. rewrite (st_irrefl _ endpoint_order).
      rewrite bind_eq. cbn [mthrow_if mlift othrow_if]. by rewrite bind_eq, find_eval, Hfind.
    + split; [done|done| |done]. rewrite insert_Permutation. by constructor.
Qed.
End Cards.

(** Stopping sets a mark on each service and nothing else: [m_stop], which
    would keep the manager from growing, is never set, and stopped services
    are still handed out ([next_eval]). *)
Definition with_stopped (stopped : list bool) (m : c_asioservice_manager) : c_asioservice_manager :=
  AsioManager (m_size m) (m_last_ioservice m) stopped (m_ioservice_idle_works m) (m_ioservice_threads m) (m_stop m).

Lemma stop_loop l m : manager_ok m -> Forall (fun i => 0 <= i < 16) l -> exists stopped, length stopped = 16%nat /\
  mfor l stop_ioservice m = (Ret tt, with_stopped stopped m) /\ (forall i, i ∈ l -> stopped !! Z.to_nat i = Some true) /\
  (forall i : nat, m_stopped m !! i = Some true -> stopped !! i = Some true).
Proof.
  intros Hm Hl. revert m Hm. induction Hl as [|i l Hi Hl IH]; intros m Hm.
  - exists (m_stopped m). split; [apply Hm|]. split; [by destruct m|]. split; [|done]. intros i Hi. by apply elem_of_nil in Hi.
  - set (m1 := with_stopped (<[Z.to_nat i := true]> (m_stopped m)) m).
    assert (manager_ok m1) as Hm1 by (destruct Hm as (? & ? & ? & ? & Hst); do 4 (split; [done|]); cbn; by rewrite length_insert).
    assert (stop_ioservice i m = (Ret tt, m1)) as E0.
    { apply guard_eval; [by apply precond_ok| |by apply (precond_ok m1)]. unfold mthrow_if, m_ioservice_max.
      rewrite bind_eq, (proj2 (Z.ltb_lt _ _)) by lia. done. }
    destruct (IH m1 Hm1) as (st & Hst & E' & Hin & Hkeep). exists st. split; [done|]. cbn [mfor]. rewrite bind_eq, E0. split; [done|].
    assert (length (m_stopped m) = 16%nat) as Hlen by apply Hm. split.
    + intros j [->|Hj]%elem_of_cons; [|by apply Hin]. apply Hkeep. cbn. apply list_lookup_insert_eq. lia.
    + intros j Hj. apply Hkeep. cbn. destruct (decide (Z.to_nat i = j)) as [<-|Hn]; [apply list_lookup_insert_eq; lia|].
      by rewrite list_lookup_insert_ne.
Qed.

Lemma stop_all_marks m : manager_ok m -> exists stopped, stop_all_threadsafe m = (Ret tt, with_stopped stopped m) /\
  manager_ok (with_stopped stopped m) /\ forall i, 0 <= i < m_size m -> stopped !! Z.to_nat i = Some true.
Proof.
  intros Hm. pose proof Hm as (Hs & Hl & Ht & Hw & Hst). unfold m_ioservice_max in Hs.
  destruct (stop_loop (seqZ 0 (m_size m)) m Hm) as (st & Hlen & E & Hin & _).
  { apply Forall_forall. intros i Hi%elem_of_seqZ. lia. }
  exists st. assert (manager_ok (with_stopped st m)) as Hok by (do 4 (split; [done|]); done).
  split; [|split; [done|]].
  - apply guard_eval; [by apply precond_ok| |by apply precond_ok]. by rewrite bind_eq; cbn [mget].
  - intros i Hi. apply Hin, elem_of_seqZ. lia.
Qed.

(** With the default kind of sockets [listen_on] binds nothing: the read
    socket stays without an address. *)
Lemma listen_on_binds_nothing `{EL : EndpointLib} bound sel e i :
  listen_on bound sel (fresh_cable e i) = (Ret tt, fresh_cable e i) /\ m_read_bound (fresh_cable e i) = None.
Proof. done. Qed.

(** ** Endpoints that are numbers *)

Definition toy_endpoints : EndpointLib := {| endpoint := Z; endpoint_lt := Z.ltb; endpoint_of := fun _ port => Some port |}.

Lemma get_card_exact_witness :
  let E := toy_endpoints in
  let card e i : @c_cable_udp E := @fresh_cable E e i in
  let g : @c_cable_cards E := CableCards (@entries E [(9042, card 9042 0)]) (Some first_manager) in
  let a : @c_cable_base_addr E := @new_udp_addr E 9000 in
  exists i g', @get_card E (CardOs (fun _ => true) true) (Some a) g = (Ret (Some a), g') /\
    @cards_ok E g' [(9000, card 9000 i); (9042, card 9042 0)].
Proof.
  refine (@get_card_exact toy_endpoints ltb_total (CardOs (fun _ => true) true) (@new_udp_addr toy_endpoints 9000)
    (CableCards (@entries toy_endpoints [(9042, @fresh_cable toy_endpoints 9042 0)]) (Some first_manager))
    [(9042, @fresh_cable toy_endpoints 9042 0)] _ eq_refl).
  split; [reflexivity|repeat constructor|repeat constructor|].
  cbn. apply grown_ok; cbn; reflexivity || lia.
Defined.
