(* ===== verification/Config.v ===== *)
(** * Configuration files and translations

    Models [c_json_genconf.cpp] (the default configuration files),
    [c_json_load.cpp] (removal of comments, reading the configuration) and
    [mo_reader.cpp] (the translations in a .mo file).  Files are a map from
    names to contents; [nlohmann::json] is the class [JsonTree]: a parser and
    the value that an object of the library holds. *)
From S2P Require Import Prelude Cryptobasic Peering Peerref.

(** ** c_json_genconf *)

(** In the texts below [`] stands for a quotation mark and [^] for a tab; a
    line starts with a number of tabs. *)
Definition conf_char (c : Byte.byte) : Byte.byte :=
  if bool_decide (c = Byte.x60) then Byte.x22 else if bool_decide (c = Byte.x5e) then Byte.x09 else c.
Definition line (tabs : nat) (text : string) : nat * string := (tabs, text).
Definition conf_line (tabs : nat) (text : string) : bytes := replicate tabs Byte.x09 ++ map conf_char (str text) ++ [Byte.x0a].
Definition conf_text (lines : list (nat * string)) : bytes := concat (map (fun l => conf_line l.1 l.2) lines).

Definition galaxy_conf : bytes := conf_text [
    line 0 "{";
    line 1 "// Your private key - the private key should be at bottom of this file.";
    line 0 "";
    line 1 "// Your public key - this key corresponds to the private key and ipv6 address:";
    line 1 "`myself-public` : {";
    line 2 "`publicKey`: `ed25519:1111111112222222233333333344444444445555555666666666.k`,";
    line 2 "`ipv6`: `fd42:aaaa:bbbb:cccc:aaaa:bbbb:cccc:dddd`";
    line 1 "},";
    line 1 "// *** ADD(1) *** add here peers that will connect to you (and/or instead add ones to which you will connect)";
    line 1 "// 1) Here you create passwords for other nodes - anyone connecting and offering these passwords on connection will be allowed.";
    line 1 "// We strongly recommend passwords to be random string of at least 40 characters; Or for easier typing: 8 not-obvious words randomly from dictionary plus some numbers.";
    line 1 "// 2) Then you give your friend his password plus example data as seen below";
    line 0 "";
    line 1 "`authorizedPasswords` : [";
    line 2 "`connect_from.my.conf`^// <--- do not modify this line. Thanks to it, you can insert the new passwords in this file.";
    line 1 "],";
    line 0 "";
    line 0 "//^ EXAMPLE DATA FOR FRIEND:";
    line 0 "//--- Give your friend this text, after filling in the fields marked with XXX ----";
    line 0 "//^`XXX_HERE_WRITE_YOUR_OWN_IP_ADDRESS_OR_DOMAIN:9042`: {";
    line 0 "//^^`password`: `XXX_HERE_WRITE_ONE_OF_THE_PASSWORDS_ABOVE`,";
    line 0 "//^^`publicKey`: `ed25519:1111111112222222233333333344444444445555555666666666.k`,";
    line 0 "//^^`ipv6`: `fd42:aaaa:bbbb:cccc:aaaa:bbbb:cccc:dddd`,";
    line 0 "//^}";
    line 0 "//--- above is for friend ---";
    line 0 "";
    line 1 "`connectTo` : [";
    line 1 "// --- below --- insert the credentials from friends";
    line 2 "`connect_to.my.conf`, // <--- do not modify this line. Thanks to it, you can insert the friend references also to file `peers.conf` as written here.";
    line 2 "`connect_to.seed.conf` // <--- do not modify this line. It allows to use the default peers. You can remove this line or comment it out if you want.";
    line 1 "// --- above --- insert the credentials from friends";
    line 1 "],";
    line 0 "";
    line 1 "// Private key. Your confidentiality and data integrity depend on this key, keep it SECRET!!!";
    line 1 "`privateKeyType`: `master-dh`,";
    line 1 "`privateKey`: `ed25519:1fffffffffffffffffffaaaaaaaaaaabbbbbbbbbbbbbbbbcccccccccccc11111`";
    line 0 "}"].

Definition authpass_conf : bytes := conf_text [
    line 0 "{";
    line 1 "`authorizedPasswords` : [";
    line 2 "{`password`: `C3yhZ8PjPoVFYwHfw0oKtNLxgMo5V9YUr7r4UXul`, `myname`:`default_public_password`}";
    line 2 "//{`password`: `Lq6yi0Ql9lcNWSDnCPophU7R0JWgyKwY5vrVEUrF`, `myname`:`password_nr1`},";
    line 2 "//{`password`: `S417y9vFrzbm6JyxTIotylPcsqyNFMufRL6BjwrA`, `myname`:`password_nr2`},";
    line 2 "//{`password`: `rpWG35w2JAjAizvRWeydOz739Hd11xgvvDufOAgn`, `myname`:`password_nr3`}";
    line 2 "// you can add more passwords here, or change the one above, e.g. change the `myname` field";
    line 2 "// another example: {`password`: `uJUjh0wW9DW6FNri9pTVu44AsTuj9hwkfvhrBJ2z`, `myname`:`my_friend_from_the_bar`}";
    line 1 "]";
    line 0 "}"].

Definition connectto_conf : bytes := conf_text [
    line 0 "{";
    line 1 "`connectTo` : {";
    line 1 "// --- below --- insert the credentials from friends";
    line 0 "";
    line 2 "// Testing peers:";
    line 2 "// // Peer nr 0";
    line 2 "  `192.168.0.57` : {";
    line 2 "  ^`publicKey` : `fd1c:b8e7:644d:ab7c:a659:4332:47bc:67c4`";
    line 2 "  },";
    line 2 "// // Peer nr 1";
    line 2 "  `192.168.0.66:19420` : {";
    line 2 "  ^`publicKey` : `fd1d:a8e7:644d:ab7c:a659:3372:47bc:67c4`";
    line 2 "  }";
    line 0 "";
    line 1 "// --- above --- insert the credentials from friends";
    line 1 "}";
    line 0 "}"].

Notation files := (gmap bytes bytes).

(** A file that can be opened is replaced. *)
Definition generate_conf (can_write : bytes -> bool) (text filename : bytes) : M files unit :=
  mthrow_if (negb (can_write filename)) ex_invalid_argument;;
  mmodify (fun fs => <[filename := text]> fs).
Definition generate_galaxy_conf (can_write : bytes -> bool) : bytes -> M files unit := generate_conf can_write galaxy_conf.
Definition generate_authpass_conf (can_write : bytes -> bool) : bytes -> M files unit := generate_conf can_write authpass_conf.
Definition generate_connectto_conf (can_write : bytes -> bool) : bytes -> M files unit := generate_conf can_write connectto_conf.
Definition genconf (can_write : bytes -> bool) : M files unit :=
  generate_galaxy_conf can_write (str "galaxy.conf");;
  generate_authpass_conf can_write (str "connect_from.my.conf");;
  generate_connectto_conf can_write (str "connect_to.my.conf");;
  generate_connectto_conf can_write (str "connect_to.seed.conf").

(** ** json_file_parser *)

(** The lines [std::getline] gives. *)
Fixpoint lines (s : bytes) : list bytes :=
  match s with
  | [] => []
  | c :: s' =>
      if bool_decide (c = Byte.x0a) then [] :: lines s'
      else match lines s' with [] => [[c]] | l :: ls => (c :: l) :: ls end
  end.

(** [line.erase(line.find("//"))] *)
Fixpoint cut_comment (l : bytes) : bytes :=
  match l with
  | [] => []
  | x :: rest =>
      match rest with
      | y :: _ => if bool_decide (x = Byte.x2f) && bool_decide (y = Byte.x2f) then [] else x :: cut_comment rest
      | [] => [x]
      end
  end.

Definition remove_comments (s : bytes) : bytes := concat (map cut_comment (lines s)).

(** A value of the JSON library, as its documentation describes it: members are
    in the order of their names. *)
Inductive view (J : Type) := v_object (members : list (bytes * J)) | v_array (elements : list J) | v_string (s : bytes) | v_other.
Arguments v_object {J} _.
Arguments v_array {J} _.
Arguments v_string {J} _.
Arguments v_other {J}.

Class JsonTree := { tree : Type; tree_view : tree -> view tree; tree_parse : bytes -> outcome tree }.

Section Load.
Context `{JT : JsonTree} `{NL : !NetLib}.

(** [j.at("k")], [get<std::string>()], [get<std::vector<std::string>>()] *)
Fixpoint find_member (k : bytes) (l : list (bytes * tree)) : outcome tree :=
  match l with [] => Throw ex_out_of_range | (k', v) :: l' => if bool_decide (k = k') then Ret v else find_member k l' end.
Definition member (j : tree) (k : bytes) : outcome tree :=
  match tree_view j with v_object l => find_member k l | _ => Throw ex_domain_error end.
Definition get_string (j : tree) : outcome bytes := match tree_view j with v_string s => Ret s | _ => Throw ex_domain_error end.
Definition get_strings (j : tree) : outcome (list bytes) :=
  match tree_view j with v_array l => omap_list get_string l | _ => Throw ex_domain_error end.
Definition member_string (j : tree) (k : bytes) : outcome bytes := v ← member j k; get_string v.

(** A file that is not there reads as an empty text. *)
Definition parse_file (fs : files) (filename : bytes) : outcome tree := tree_parse (remove_comments (default [] (fs !! filename))).

Record t_my_keypair := MyKeypair { m_private_key_type : bytes; m_private_key : bytes; m_public_key : bytes; m_ipv6 : bytes }.
Record t_auth_password := AuthPassword { m_password : bytes; m_myname : bytes }.

(** What was pushed before an exception stays in the vector: it is the state. *)
Definition get_auth_passwords (j : tree) : M (list t_auth_password) unit :=
  v ← mlift (member j (str "authorizedPasswords"));
  match tree_view v with
  | v_array l => mfor l (fun authpass =>
      l_pass ← mlift (member_string authpass (str "password"));
      l_myname ← mlift (member_string authpass (str "myname"));
      mmodify (fun a => a ++ [AuthPassword l_pass l_myname]))
  | _ => mthrow ex_invalid_argument
  end.
Definition auth_password_load_file (fs : files) (filename : bytes) : M (list t_auth_password) unit :=
  j ← mlift (parse_file fs filename); get_auth_passwords j.

(** [t_peering_reference(l_ip, l_hip)] has port 9042. *)
Definition load_reference (l_ip l_hip : bytes) : outcome t_peering_reference :=
  if has_char l_ip Byte.x3a then pair ← parse_ip_string l_ip; peering_reference_dot pair.1 pair.2 l_hip
  else peering_reference_dot l_ip 9042 l_hip.
Definition get_peers (j : tree) : M (list t_peering_reference) unit :=
  v ← mlift (member j (str "connectTo"));
  match tree_view v with
  | v_object l => mfor l (fun kv =>
      l_hip ← mlift (member_string kv.2 (str "publicKey"));
      r ← mlift (load_reference kv.1 l_hip);
      mmodify (fun a => a ++ [r]))
  | _ => mthrow ex_invalid_argument
  end.
Definition connect_to_load_file (fs : files) (filename : bytes) : M (list t_peering_reference) unit :=
  j ← mlift (parse_file fs filename); get_peers j.

Definition my_keypair_load (j : tree) : outcome t_my_keypair :=
  private_key_type ← member_string j (str "privateKeyType");
  private_key ← member_string j (str "privateKey");
  mypub_obj ← member j (str "myself-public");
  othrow_if (match tree_view mypub_obj with v_object _ => false | _ => true end) ex_invalid_argument;;
  public_key ← member_string mypub_obj (str "publicKey");
  ipv6 ← member_string mypub_obj (str "ipv6");
  Ret (MyKeypair private_key_type private_key public_key ipv6).

(** The files named in an array. *)
Definition load_named {A} (load : bytes -> M (list A) unit) (j : tree) (k : bytes) : M (list A) unit :=
  v ← mlift (member j k);
  match tree_view v with
  | v_array _ => l ← mlift (get_strings v); mfor l load
  | _ => mthrow ex_invalid_argument
  end.
Definition auth_password_load (fs : files) (j : tree) : M (list t_auth_password) unit :=
  load_named (auth_password_load_file fs) j (str "authorizedPasswords").
Definition connect_to_load (fs : files) (j : tree) : M (list t_peering_reference) unit :=
  load_named (connect_to_load_file fs) j (str "connectTo").

(** [c_galaxyconf_load]: what [get_auth_passwords] and [get_peer_references]
    give when the constructor returns. *)
Definition galaxyconf_load (fs : files) (filename : bytes) : outcome (list t_auth_password * list t_peering_reference) :=
  j ← parse_file fs filename;
  my_keypair_load j;;
  let '(r, auth_passwords) := auth_password_load fs j [] in
  r;;
  let '(r, peer_references) := connect_to_load fs j [] in
  r;;
  Ret (auth_passwords, peer_references).
End Load.

(** ** mo_file_reader *)

(** [std::ifstream]; a seek clears the mark of the end of the file. *)
Record ifstream := Ifstream { content : bytes; position : Z; failed : bool }.

(** With the two static members, which every reader shares. *)
Record mo_file_reader := MoFileReader {
  m_translation_map : gmap bytes bytes; s_translation_map_ready : bool;
  m_ifstream : option ifstream; m_messages_dir : bytes; m_mo_filename : bytes }.

Definition add_messages_dir (path : bytes) (r : mo_file_reader) : mo_file_reader :=
  MoFileReader (m_translation_map r) (s_translation_map_ready r) (m_ifstream r) path (m_mo_filename r).
Definition add_mo_filename (name : bytes) : M mo_file_reader unit :=
  r ← mget;
  mthrow_if (negb (bool_decide (m_mo_filename r = []))) ex_runtime_error;;
  mthrow_if (zlen name <? 4) ex_invalid_argument;;
  let name' := if bool_decide (drop (length name - 3) name = str ".mo") then name else name ++ str ".mo" in
  mput (MoFileReader (m_translation_map r) (s_translation_map_ready r) (m_ifstream r) (m_messages_dir r) name').

Definition gettext (r : mo_file_reader) (original_string : bytes) : bytes :=
  if negb (s_translation_map_ready r) then original_string
  else default original_string (m_translation_map r !! original_string).

(** [islower] of a char that is negative as an [int] is not defined. *)
Definition islower (c : Byte.byte) : outcome bool :=
  if byte_val c <? 128 then Ret ((97 <=? byte_val c) && (byte_val c <=? 122)) else Undef.

(** [lang]: the variable of the environment; [setlocale_]: the result of
    [setlocale(LC_CTYPE, "")]. *)
Definition get_system_lang_short_name (lang : option bytes) (setlocale_ : bytes) : outcome bytes :=
  let lang_env := default [] lang in
  two ← match lang_env with
        | a :: b :: _ => x ← islower a; if x : bool then islower b else Ret false
        | _ => Ret false
        end;
  if two : bool then Ret (take 2 lang_env)
  else Ret (if bool_decide (setlocale_ = str "C") then str "en" else setlocale_).

Section Mo.
Context (little_edian : bool).                 (* of the machine *)
Context (can_alloc : Z -> bool).               (* a string of this size *)

Definition u32_bytes (b : bytes) : Z :=
  fold_right (fun x acc => byte_val x + 256 * acc) 0 (if little_edian then b else rev b).

Definition seekg (p : Z) : M ifstream unit :=
  mmodify (fun s => if failed s then s else Ifstream (content s) p false).

(** [read(buffer, n)] into [n] octets: those read, and whether that is all. *)
Definition stream_read (n : Z) : M ifstream bytes := fun s =>
  if failed s then (Ret [], s)
  else
    let got := sub (content s) (position s) n in
    (Ret got, Ifstream (content s) (position s + zlen got) (zlen got <? n)).

(** A section that cannot be read leaves the buffer without a value. *)
Definition read_section : M ifstream Z :=
  b ← stream_read 4;
  if zlen b =? 4 then mret (u32_bytes b) else mundef.

(** [std::string s(length, 0)], then read: the rest stays zero. *)
Definition read_text (length : Z) : M ifstream bytes :=
  mthrow_if (negb (can_alloc length)) ex_bad_alloc;;
  b ← stream_read length;
  mret (b ++ replicate (Z.to_nat (length - zlen b)) Byte.x00).

(** A string with the descriptor at [at_]. *)
Definition read_described (at_ : Z) : M ifstream bytes :=
  seekg at_;;
  length ← read_section;
  offset ← read_section;
  seekg offset;;
  read_text length.

Definition translation_emplace (k v : bytes) (m : gmap bytes bytes) : gmap bytes bytes :=
  match m !! k with Some _ => m | None => <[k := v]> m end.

Definition read_entry (originals translations i : Z) : M (ifstream * mo_file_reader) unit :=
  orig_str ← on_fst (read_described (wrap 32 (originals + wrap 32 (i * 8))));
  translate_str ← on_fst (read_described (wrap 32 (translations + wrap 32 (i * 8))));
  on_snd (mmodify (fun r => MoFileReader (translation_emplace orig_str translate_str (m_translation_map r))
    (s_translation_map_ready r) (m_ifstream r) (m_messages_dir r) (m_mo_filename r))).

Definition read_opened : M (ifstream * mo_file_reader) unit :=
  magic_number ← on_fst read_section;
  mthrow_if (magic_number =? 0xde120495) ex_runtime_error;;
  mthrow_if (negb (magic_number =? 0x950412de)) ex_runtime_error;;
  on_fst read_section;;
  number_of_strings ← on_fst read_section;
  mthrow_if (number_of_strings =? 0) ex_runtime_error;;
  offset_of_table_with_original_strings ← on_fst read_section;
  offset_of_table_with_translation_strings ← on_fst read_section;
  on_fst read_section;;
  on_fst read_section;;
  mfor (seqZ 0 number_of_strings) (read_entry offset_of_table_with_original_strings offset_of_table_with_translation_strings);;
  on_snd (mmodify (fun r => MoFileReader (m_translation_map r) true (m_ifstream r) (m_messages_dir r) (m_mo_filename r))).

(** [open]: a stream that is open stays with its file, and fails. *)
Definition open (fs : files) (filename : bytes) (s : option ifstream) : option ifstream :=
  match s with
  | Some s => Some (Ifstream (content s) (position s) true)
  | None => (fun text => Ifstream text 0 false) <$> fs !! filename
  end.

Definition read_file (fs : files) (lang : option bytes) (setlocale_ : bytes) : M mo_file_reader unit := mrun (fun r =>
  match get_system_lang_short_name lang setlocale_ with
  | Ret name =>
      match open fs (m_messages_dir r ++ str "/" ++ name ++ str "/LC_MESSAGES/" ++ m_mo_filename r) (m_ifstream r) with
      | None => (Throw ex_runtime_error, r)
      | Some s =>
          let '(res, (s', r')) := read_opened (s, r) in
          (res, MoFileReader (m_translation_map r') (s_translation_map_ready r') (Some s') (m_messages_dir r') (m_mo_filename r'))
      end
  | Throw e => (Throw e, r)
  | Abort_ => (Abort_, r)
  | Undef => (Undef, r)
  end).
End Mo.
