(* ===== verification/ConfigFacts.v ===== *)
(** * Theorems about configuration files and translations

    A well-formed .mo file gives its catalogue; a file that ends too early is
    read into uninitialised memory.  The configuration written by default is
    read back as the password and the references it shows. *)
From S2P Require Import Prelude Cryptobasic Peering Peerref Toy Config.

(** ** Translations *)

Section MoFacts.
Context (little_edian : bool) (can_alloc : Z -> bool).

Definition u32_at (text : bytes) (p : Z) : Z := u32_bytes little_edian (sub text p 4).

(** The string that the descriptor at [p] describes. *)
Record described (text : bytes) (p : Z) (s : bytes) : Prop := {
  d_inside : 0 <= p /\ p + 8 <= zlen text;
  d_length : u32_at text p = zlen s;
  d_text : 0 <= u32_at text (p + 4) /\ u32_at text (p + 4) + zlen s <= zlen text /\ sub text (u32_at text (p + 4)) (zlen s) = s;
  d_alloc : can_alloc (zlen s) = true
}.

(** The format of a .mo file, with the two tables at [o] and [t]. *)
Record mo_layout (text : bytes) (o t : Z) (catalogue : list (bytes * bytes)) : Prop := {
  l_size : 28 <= zlen text < 2 ^ 32;
  l_magic : u32_at text 0 = 0x950412de;
  l_count : u32_at text 8 = zlen catalogue;
  l_tables : u32_at text 12 = o /\ u32_at text 16 = t;
  l_entries : forall i kv, catalogue !! i = Some kv ->
    described text (o + 8 * Z.of_nat i) kv.1 /\ described text (t + 8 * Z.of_nat i) kv.2
}.

(** A stream in the middle of a file. *)
Definition at_pos (text : bytes) (p : Z) : ifstream := Ifstream text p false.

Lemma stream_read_at text p n : 0 <= p -> 0 <= n -> p + n <= zlen text ->
  stream_read n (at_pos text p) = (Ret (sub text p n), at_pos text (p + n)).
Proof. intros. unfold stream_read, at_pos. cbn [failed content position]. by rewrite zlen_sub, Z.ltb_irrefl by lia. Qed.

Lemma read_section_at text p : 0 <= p -> p + 4 <= zlen text ->
  read_section little_edian (at_pos text p) = (Ret (u32_at text p), at_pos text (p + 4)).
Proof. intros Hp Hs. unfold read_section. by rewrite bind_eq, stream_read_at, zlen_sub by lia. Qed.

Lemma read_text_at text p n : 0 <= p -> 0 <= n -> p + n <= zlen text -> can_alloc n = true ->
  read_text can_alloc n (at_pos text p) = (Ret (sub text p n), at_pos text (p + n)).
Proof.
  intros Hp Hn Hs Ha. unfold read_text. rewrite Ha, bind_eq. cbn [negb mthrow_if othrow_if mlift].
  rewrite bind_eq, stream_read_at, zlen_sub, Z.sub_diag by lia. cbn. by rewrite app_nil_r.
Qed.

Lemma seek_at text p q : seekg q (at_pos text p) = (Ret tt, at_pos text q).
Proof. done. Qed.

Lemma read_described_at text p q s : described text q s ->
  exists p', read_described little_edian can_alloc q (at_pos text p) = (Ret s, at_pos text p').
Proof.
  intros [[Hq1 Hq2] Hl (Ht1 & Ht2 & Ht3) Ha]. pose proof (zlen_nonneg s).
  exists (u32_at text (q + 4) + zlen s). unfold read_described.
  rewrite bind_eq, seek_at, bind_eq, read_section_at, bind_eq, read_section_at, bind_eq, seek_at, Hl, read_text_at by (done || lia).
  by rewrite Ht3.
Qed.

Definition with_map (f : gmap bytes bytes -> gmap bytes bytes) (r : mo_file_reader) : mo_file_reader :=
  MoFileReader (f (m_translation_map r)) (s_translation_map_ready r) (m_ifstream r) (m_messages_dir r) (m_mo_filename r).

Lemma read_entry_at text o t cat i kv p r : mo_layout text o t cat -> cat !! i = Some kv ->
  exists p', read_entry little_edian can_alloc o t (Z.of_nat i) (at_pos text p, r)
    = (Ret tt, (at_pos text p', with_map (translation_emplace kv.1 kv.2) r)).
Proof.
  intros H Hi. destruct (l_entries _ _ _ _ H i kv Hi) as [Hk Hv]. pose proof (l_size _ _ _ _ H).
  destruct (d_inside _ _ _ Hk), (d_inside _ _ _ Hv).
  assert (0 <= o /\ 0 <= t) as [Ho Ht].
  { destruct (l_entries _ _ _ _ H 0%nat (default kv (cat !! 0%nat))) as [[] []]; [|lia].
    destruct cat; [by rewrite lookup_nil in Hi|done]. }
  assert (E : wrap 32 (Z.of_nat i * 8) = 8 * Z.of_nat i) by (rewrite wrap_small; lia).
  unfold read_entry. rewrite E, !wrap_small by lia.
  destruct (read_described_at text p _ _ Hk) as [p1 E1]. destruct (read_described_at text p1 _ _ Hv) as [p2 E2].
  exists p2. unfold on_fst, on_snd. by rewrite bind_eq; cbn [fst]; rewrite E1, bind_eq; cbn [fst]; rewrite E2.
Qed.

Lemma emplace_union (k v : bytes) (m : gmap bytes bytes) (cat : list (bytes * bytes)) :
  translation_emplace k v m ∪ list_to_map cat = m ∪ (list_to_map ((k, v) :: cat) : gmap bytes bytes).
Proof.
  apply map_eq. intros x. cbn [list_to_map foldr fst snd]. unfold translation_emplace. generalize (list_to_map cat : gmap bytes bytes). intros n.
  destruct (m !! k) as [w|] eqn:E; rewrite !lookup_union; destruct (decide (x = k)) as [->|Hx];
    rewrite ?lookup_insert_ne, ?E, ?lookup_insert_eq, ?E by done; try done; by destruct (n !! k).
Qed.

(** The loop over the entries after the first [length pre]. *)
Lemma read_entries_at text o t cat : forall post pre p r, mo_layout text o t cat -> cat = pre ++ post ->
  exists p', mfor (seqZ (zlen pre) (zlen post)) (read_entry little_edian can_alloc o t) (at_pos text p, r)
    = (Ret tt, (at_pos text p', with_map (fun m => m ∪ (list_to_map post : gmap bytes bytes)) r)).
Proof.
  induction post as [|kv post IH]; intros pre p r H ->.
  - exists p. cbn. unfold mret, M_mret, with_map. rewrite (right_id_L ∅ (∪)). by destruct r.
  - rewrite zlen_cons, (Z.add_comm 1), seqZ_cons by (pose proof (zlen_nonneg post); lia).
    cbn [mfor]. destruct (read_entry_at text o t _ (length pre) kv p r H) as [p1 E1].
    { by rewrite list_lookup_middle. }
    assert (Ez : zlen pre = Z.of_nat (length pre)) by done. rewrite Ez, bind_eq, E1.
    replace (Z.pred (zlen post + 1)) with (zlen post) by lia.
    destruct (IH (pre ++ [kv]) p1 (with_map (translation_emplace kv.1 kv.2) r)) as [p2 E2]; [done|by rewrite <- app_assoc|].
    exists p2. rewrite zlen_app, zlen_cons, zlen_nil in E2.
    replace (Z.succ (Z.of_nat (length pre))) with (zlen pre + (1 + 0)) by lia. rewrite E2.
    unfold with_map. cbn. by rewrite emplace_union; destruct kv.
Qed.

Lemma section_bind {B} (f : Z -> M (ifstream * mo_file_reader) B) text p r : 0 <= p -> p + 4 <= zlen text ->
  (on_fst (read_section little_edian) ≫= f) (at_pos text p, r) = f (u32_at text p) (at_pos text (p + 4), r).
Proof. intros. unfold on_fst. rewrite bind_eq. cbn [fst snd]. by rewrite read_section_at. Qed.

Lemma read_opened_at text o t cat r : mo_layout text o t cat -> cat <> [] ->
  exists p, read_opened little_edian can_alloc (at_pos text 0, r)
    = (Ret tt, (at_pos text p, MoFileReader (m_translation_map r ∪ (list_to_map cat : gmap bytes bytes)) true (m_ifstream r) (m_messages_dir r) (m_mo_filename r))).
Proof.
  intros H Hc. pose proof (l_size _ _ _ _ H). destruct (l_tables _ _ _ _ H) as [Ho Ht].
  destruct (read_entries_at text o t cat cat [] 28 r H eq_refl) as [p E]. exists p.
  pose proof (zlen_pos cat Hc).
  unfold read_opened, mthrow_if. rewrite section_bind, (l_magic _ _ _ _ H) by lia.
  change (0x950412de =? 0xde120495) with false. rewrite Z.eqb_refl. cbn [othrow_if negb]. rewrite !bind_lift, !section_bind by lia.
  change (0 + 4 + 4) with 8. rewrite (l_count _ _ _ _ H), (proj2 (Z.eqb_neq _ 0)) by lia. cbn [othrow_if].
  rewrite bind_lift, !section_bind by lia. change (8 + 4) with 12. change (12 + 4) with 16. change (16 + 4 + 4 + 4) with 28.
  rewrite zlen_nil in E. rewrite Ho, Ht, bind_eq, E. done.
Qed.

(** C36: a well-formed .mo file is read completely, and [gettext] then gives the
    translation of each of its strings (the first one of a string that occurs
    twice; one of a file read before stays), and every other text unchanged. *)
Theorem read_file_translates fs lang loc name r text o t cat :
  get_system_lang_short_name lang loc = Ret name -> m_ifstream r = None ->
  fs !! (m_messages_dir r ++ str "/" ++ name ++ str "/LC_MESSAGES/" ++ m_mo_filename r) = Some text ->
  mo_layout text o t cat -> cat <> [] ->
  exists r', read_file little_edian can_alloc fs lang loc r = (Ret tt, r')
    /\ forall x, gettext r' x = default x ((m_translation_map r ∪ list_to_map cat : gmap bytes bytes) !! x).
Proof.
  intros Hn Hi Hf H Hc. destruct (read_opened_at text o t cat r H Hc) as [p E].
  eexists. unfold read_file, mrun, open. rewrite Hn, Hi, Hf. cbn [fmap option_fmap option_map].
  change (Ifstream text 0 false) with (at_pos text 0). rewrite E. split; [done|]. intros x. done.
Qed.

(** What goes wrong: a file in the other order of octets, one that ends too
    early, a second call. *)
Lemma other_endian_throws text r : 4 <= zlen text -> u32_at text 0 = 0xde120495 ->
  (read_opened little_edian can_alloc (at_pos text 0, r)).1 = Throw ex_runtime_error.
Proof. intros Hs Hm. unfold read_opened. by rewrite section_bind, Hm by lia. Qed.

Lemma read_section_undefined s : failed s = true \/ zlen (sub (content s) (position s) 4) < 4 ->
  (read_section little_edian s).1 = Undef.
Proof.
  intros H. unfold read_section, stream_read. rewrite bind_eq. destruct (failed s); [done|].
  destruct H as [H|H]; [done|]. cbn [zlen]. by rewrite (proj2 (Z.eqb_neq _ 4)) by lia.
Qed.

Lemma short_file_undefined text r : zlen text < 4 -> (read_opened little_edian can_alloc (at_pos text 0, r)).1 = Undef.
Proof.
  intros H. unfold read_opened, on_fst. rewrite bind_eq. cbn [fst snd].
  destruct (read_section little_edian (at_pos text 0)) as [res s'] eqn:E.
  pose proof (read_section_undefined (at_pos text 0)) as Hu. rewrite E in Hu. cbn [fst] in Hu. rewrite Hu; [done|].
  right. unfold sub, zlen, at_pos in *. cbn [content position]. rewrite length_take, length_drop. lia.
Qed.

Lemma second_read_undefined fs lang loc name r s : get_system_lang_short_name lang loc = Ret name -> m_ifstream r = Some s ->
  (read_file little_edian can_alloc fs lang loc r).1 = Undef.
Proof.
  intros Hn Hi. unfold read_file, mrun, open. rewrite Hn, Hi.
  unfold read_opened, on_fst. rewrite bind_eq. cbn [fst snd].
  destruct (read_section little_edian _) as [res s'] eqn:E.
  pose proof (read_section_undefined (Ifstream (content s) (position s) true)) as Hu. rewrite E in Hu.
  cbn [fst] in Hu. rewrite Hu; [done|by left].
Qed.
End MoFacts.

(** ** Texts of configuration files *)

(** No [//] in the text. *)
Fixpoint no_slashes (s : bytes) : bool :=
  match s with
  | x :: rest => negb (bool_decide (x = Byte.x2f) && bool_decide (head rest = Some Byte.x2f)) && no_slashes rest
  | [] => true
  end.

Lemma cut_plain l : no_slashes l = true -> cut_comment l = l.
Proof.
  induction l as [|x [|y l] IH]; [done|done|]. intros H. apply andb_true_iff in H as [H H'].
  change (cut_comment (x :: y :: l)) with
    (if bool_decide (x = Byte.x2f) && bool_decide (y = Byte.x2f) then [] else x :: cut_comment (y :: l)).
  rewrite IH by done. destruct (bool_decide (x = Byte.x2f) && bool_decide (y = Byte.x2f)) eqn:E; [|done].
  apply andb_true_iff in E as [->%bool_decide_eq_true ->%bool_decide_eq_true]. by vm_compute in H.
Qed.

Lemma head_lines y s l ls : lines (y :: s) = l :: ls -> l = [] \/ head l = Some y.
Proof. cbn [lines]. destruct (bool_decide (y = Byte.x0a)); [intros; simplify_eq; by left|]. destruct (lines s); intros; simplify_eq; by right. Qed.

Lemma lines_plain s : no_slashes s = true -> Forall (fun l => no_slashes l = true) (lines s).
Proof.
  induction s as [|x s IH]; [constructor|]. intros H. apply andb_true_iff in H as [H H0]. specialize (IH H0). cbn [lines].
  destruct (bool_decide (x = Byte.x0a)); [by constructor|].
  destruct (lines s) as [|l ls] eqn:E; [by constructor; [by destruct x|constructor]|]. apply Forall_cons in IH as [Hl Hls]. constructor; [|done].
  cbn [no_slashes]. rewrite Hl, andb_true_r. destruct s as [|y s]; [done|]. cbn [head] in H.
  destruct (head_lines y s l ls E) as [El|El]; rewrite El; [by destruct x|done].
Qed.

Lemma concat_lines s : concat (lines s) = filter (fun c => c <> Byte.x0a) s.
Proof.
  induction s as [|x s IH]; [done|]. cbn [lines]. rewrite filter_cons. case_bool_decide as Hx; destruct (decide (x <> Byte.x0a)); try done.
  cbn [concat]. destruct (lines s) as [|l ls]; cbn in *; by rewrite <- IH.
Qed.

(** A text without comments loses its line ends only, a comment goes up to the
    end of its line, and two strokes inside a string are taken for a comment. *)
Lemma remove_comments_plain s : no_slashes s = true -> remove_comments s = filter (fun c => c <> Byte.x0a) s.
Proof.
  intros H. rewrite <- concat_lines. unfold remove_comments. f_equal. apply lines_plain in H.
  induction H as [|l ls Hl _ IH]; [done|]. cbn. by rewrite cut_plain, IH.
Qed.

Lemma strokes_in_a_string : remove_comments (str "{'a':'http://b'}") = str "{'a':'http:".
Proof. by vm_compute. Qed.

(** ** JSON, as far as these files use it: objects, arrays, strings

    A reference reader for RFC 8259 without numbers, escapes and empty lists; the members of
    an object are distinct, in the order of their names. *)

#[warnings="-register-all"]
Inductive json := j_object (members : list (bytes * json)) | j_array (elements : list json) | j_string (s : bytes).

Fixpoint skip (s : bytes) : bytes :=
  match s with
  | c :: s' => if bool_decide (c ∈ [Byte.x20; Byte.x09; Byte.x0a; Byte.x0d]) then skip s' else s
  | [] => []
  end.
Fixpoint text_until_quote (s : bytes) : option (bytes * bytes) :=
  match s with
  | [] => None
  | c :: s' =>
      if bool_decide (c = Byte.x22) then Some ([], s')
      else if bool_decide (c = Byte.x5c) || (byte_val c <? 32) then None
      else r ← text_until_quote s'; Some (c :: r.1, r.2)
  end.
Fixpoint insert_member (m : bytes * json) (l : list (bytes * json)) : list (bytes * json) :=
  match l with
  | [] => [m]
  | m' :: l' => if string_leb m.1 m'.1 then m :: l else m' :: insert_member m l'
  end.

Fixpoint read_value (fuel : nat) (s : bytes) : option (json * bytes) :=
  match fuel with
  | O => None
  | S n =>
      match skip s with
      | Byte.x22 :: s => r ← text_until_quote s; Some (j_string r.1, r.2)
      | Byte.x7b :: s => r ← read_members n s; Some (j_object r.1, r.2)
      | Byte.x5b :: s => r ← read_elements n s; Some (j_array r.1, r.2)
      | _ => None
      end
  end
with read_members (fuel : nat) (s : bytes) : option (list (bytes * json) * bytes) :=
  match fuel with
  | O => None
  | S n =>
      match skip s with
      | Byte.x22 :: s =>
          k ← text_until_quote s;
          match skip k.2 with
          | Byte.x3a :: s =>
              v ← read_value n s;
              match skip v.2 with
              | Byte.x2c :: s =>
                  r ← read_members n s;
                  if bool_decide (k.1 ∈ r.1.*1) then None else Some (insert_member (k.1, v.1) r.1, r.2)
              | Byte.x7d :: s => Some ([(k.1, v.1)], s)
              | _ => None
              end
          | _ => None
          end
      | _ => None
      end
  end
with read_elements (fuel : nat) (s : bytes) : option (list json * bytes) :=
  match fuel with
  | O => None
  | S n =>
      v ← read_value n s;
      match skip v.2 with
      | Byte.x2c :: s => r ← read_elements n s; Some (v.1 :: r.1, r.2)
      | Byte.x5d :: s => Some ([v.1], s)
      | _ => None
      end
  end.
Definition read_json (s : bytes) : option json :=
  match read_value (length s) s with
  | Some (j, rest) => if bool_decide (skip rest = []) then Some j else None
  | None => None
  end.

Fixpoint assoc (k : bytes) (l : list (bytes * json)) : option json :=
  match l with [] => None | (k', j) :: l' => if bool_decide (k = k') then Some j else assoc k l' end.

Section Conf.
Context `{JT : JsonTree} `{NL : !NetLib}.

(** A value of the library holds the value [j]. *)
Fixpoint denotes (j : json) (t : tree) : Prop :=
  match j with
  | j_string s => tree_view t = v_string s
  | j_array l => exists ts, tree_view t = v_array ts /\
      (fix all l ts : Prop := match l, ts with
        | [], [] => True | j :: l', t :: ts' => denotes j t /\ all l' ts' | _, _ => False end) l ts
  | j_object l => exists ms, tree_view t = v_object ms /\
      (fix all l ms : Prop := match l, ms with
        | [], [] => True | (k, j) :: l', m :: ms' => m.1 = k /\ denotes j m.2 /\ all l' ms' | _, _ => False end) l ms
  end.

(** What is used of the JSON library: it reads JSON. *)
Definition JsonLaw : Prop := forall s j, read_json s = Some j -> exists t, tree_parse s = Ret t /\ denotes j t.

Lemma denotes_array l t : denotes (j_array l) t -> exists ts, tree_view t = v_array ts /\ Forall2 denotes l ts.
Proof.
  intros (ts & Ht & H). exists ts. split; [done|]. clear Ht. revert ts H.
  induction l as [|j l IH]; intros [|u ts] H; try done. destruct H. constructor; [done|by apply IH].
Qed.

Lemma denotes_object l t : denotes (j_object l) t ->
  exists ms, tree_view t = v_object ms /\ Forall2 (fun kj m => m.1 = kj.1 /\ denotes kj.2 m.2) l ms.
Proof.
  intros (ms & Ht & H). exists ms. split; [done|]. clear Ht. revert ms H.
  induction l as [|[k j] l IH]; intros [|m ms] H; try done. destruct H as (?&?&?). constructor; [done|by apply IH].
Qed.

Lemma member_denotes l t k j : denotes (j_object l) t -> assoc k l = Some j -> exists v, member t k = Ret v /\ denotes j v.
Proof.
  intros (ms & Ht & H)%denotes_object Hk. unfold member. rewrite Ht. clear Ht. revert Hk.
  induction H as [|[k' j'] [k'' v] l ms [E Hj] _ IH]; [done|]. cbn in E. subst k''. cbn [assoc find_member].
  destruct (bool_decide (k = k')); [|done]. intros [= ->]. eauto.
Qed.

Lemma string_denotes s t : denotes (j_string s) t -> get_string t = Ret s.
Proof. unfold get_string. by intros ->. Qed.

Lemma member_string_denotes l t k s : denotes (j_object l) t -> assoc k l = Some (j_string s) -> member_string t k = Ret s.
Proof. intros Ht Hk. destruct (member_denotes _ _ _ _ Ht Hk) as (v & Hv & Hs). unfold member_string. rewrite Hv. by apply string_denotes. Qed.

Lemma strings_denote ss t : denotes (j_array (map j_string ss)) t -> get_strings t = Ret ss.
Proof.
  intros (ts & Ht & H)%denotes_array. unfold get_strings. rewrite Ht. clear Ht. revert ts H.
  induction ss as [|s ss IH]; intros ts H; inversion H as [|? v ? ts' Hv Hs]; subst; [done|].
  cbn [omap_list]. rewrite (string_denotes _ _ Hv). cbn. by rewrite (IH _ Hs).
Qed.

(** The two kinds of files that the main one names. *)
Definition j_password (p : t_auth_password) : json :=
  j_object [(str "myname", j_string (m_myname p)); (str "password", j_string (m_password p))].
Definition j_reference (r : bytes * bytes) : bytes * json := (r.1, j_object [(str "publicKey", j_string r.2)]).

Lemma passwords_load t ps acc : denotes (j_object [(str "authorizedPasswords", j_array (map j_password ps))]) t ->
  get_auth_passwords t acc = (Ret tt, acc ++ ps).
Proof.
  intros Ht. unfold get_auth_passwords.
  destruct (member_denotes _ _ (str "authorizedPasswords") _ Ht eq_refl) as (v & Hv & (ts & Hts & H)%denotes_array).
  rewrite Hv, bind_lift, Hts. clear Hv Hts Ht. revert acc ts H.
  induction ps as [|[p n] ps IH]; intros acc ts H; inversion H as [|? u ? ts' Hu Hs]; subst; [by rewrite app_nil_r|].
  cbn [mfor]. rewrite bind_eq, (member_string_denotes _ _ (str "password") p Hu eq_refl),
    (member_string_denotes _ _ (str "myname") n Hu eq_refl), !bind_lift. cbn. by rewrite (IH _ _ Hs), <- app_assoc.
Qed.

Lemma references_load t rs refs acc : denotes (j_object [(str "connectTo", j_object (map j_reference rs))]) t ->
  Forall2 (fun r p => load_reference r.1 r.2 = Ret p) rs refs -> get_peers t acc = (Ret tt, acc ++ refs).
Proof.
  intros Ht Hr. unfold get_peers.
  destruct (member_denotes _ _ (str "connectTo") _ Ht eq_refl) as (v & Hv & (ms & Hms & H)%denotes_object).
  rewrite Hv, bind_lift, Hms. clear Hv Hms Ht. revert acc ms H.
  induction Hr as [|[a h] p rs refs Hp Hr IH]; intros acc ms H; inversion H as [|? [k u] ? ms' [Hk Hu] Hs]; subst; [by rewrite app_nil_r|].
  cbn [fst snd j_reference] in Hk, Hu, Hp. subst k. cbn [mfor fst snd].
  rewrite bind_eq, (member_string_denotes _ _ (str "publicKey") h Hu eq_refl), bind_lift, Hp, bind_lift. cbn.
  by rewrite (IH _ _ Hs), <- app_assoc.
Qed.
End Conf.

(** ** The configuration written by default *)

Definition default_references : list (bytes * bytes) := [
  (str "192.168.0.57", str "fd1c:b8e7:644d:ab7c:a659:4332:47bc:67c4");
  (str "192.168.0.66:19420", str "fd1d:a8e7:644d:ab7c:a659:3372:47bc:67c4")].
Definition default_password : t_auth_password := AuthPassword (str "C3yhZ8PjPoVFYwHfw0oKtNLxgMo5V9YUr7r4UXul") (str "default_public_password").
Definition default_keys : t_my_keypair := MyKeypair (str "master-dh")
  (str "ed25519:1fffffffffffffffffffaaaaaaaaaaabbbbbbbbbbbbbbbbcccccccccccc11111")
  (str "ed25519:1111111112222222233333333344444444445555555666666666.k") (str "fd42:aaaa:bbbb:cccc:aaaa:bbbb:cccc:dddd").

Definition galaxy_members : list (bytes * json) := [
  (str "authorizedPasswords", j_array (map j_string [str "connect_from.my.conf"]));
  (str "connectTo", j_array (map j_string [str "connect_to.my.conf"; str "connect_to.seed.conf"]));
  (str "myself-public", j_object [(str "ipv6", j_string (m_ipv6 default_keys)); (str "publicKey", j_string (m_public_key default_keys))]);
  (str "privateKey", j_string (m_private_key default_keys)); (str "privateKeyType", j_string (m_private_key_type default_keys))].

Lemma galaxy_conf_reads : read_json (remove_comments galaxy_conf) = Some (j_object galaxy_members).
Proof. vm_compute. done. Qed.
Lemma authpass_conf_reads : read_json (remove_comments authpass_conf)
  = Some (j_object [(str "authorizedPasswords", j_array (map j_password [default_password]))]).
Proof. vm_compute. done. Qed.
Lemma connectto_conf_reads : read_json (remove_comments connectto_conf)
  = Some (j_object [(str "connectTo", j_object (map j_reference default_references))]).
Proof. vm_compute. done. Qed.

(** What [genconf] leaves in the directory. *)
Definition default_files (fs : files) : files :=
  <[str "connect_to.seed.conf" := connectto_conf]> (<[str "connect_to.my.conf" := connectto_conf]>
    (<[str "connect_from.my.conf" := authpass_conf]> (<[str "galaxy.conf" := galaxy_conf]> fs))).

Lemma default_lookups fs : default_files fs !! str "galaxy.conf" = Some galaxy_conf /\
  default_files fs !! str "connect_from.my.conf" = Some authpass_conf /\
  default_files fs !! str "connect_to.my.conf" = Some connectto_conf /\
  default_files fs !! str "connect_to.seed.conf" = Some connectto_conf.
Proof. unfold default_files. repeat split; by repeat (rewrite lookup_insert_eq || rewrite lookup_insert_ne by done). Qed.

Lemma genconf_writes can_write fs : (forall f, can_write f = true) -> genconf can_write fs = (Ret tt, default_files fs).
Proof.
  intros Hw. unfold genconf, generate_galaxy_conf, generate_authpass_conf, generate_connectto_conf, generate_conf.
  rewrite !Hw. done.
Qed.

Section Default.
Context `{JT : JsonTree} `{NL : !NetLib} (Law : JsonLaw).

Lemma file_reads (fs : files) filename text j : fs !! filename = Some text -> read_json (remove_comments text) = Some j ->
  exists t, parse_file fs filename = Ret t /\ denotes j t.
Proof. intros Hf Hj. unfold parse_file. rewrite Hf. by apply Law. Qed.

Lemma keys_load t : denotes (j_object galaxy_members) t -> my_keypair_load t = Ret default_keys.
Proof.
  intros Ht. unfold my_keypair_load.
  rewrite (member_string_denotes _ _ (str "privateKeyType") _ Ht eq_refl), (member_string_denotes _ _ (str "privateKey") _ Ht eq_refl).
  destruct (member_denotes _ _ (str "myself-public") _ Ht eq_refl) as (v & -> & Hv).
  destruct (denotes_object _ _ Hv) as (ms & Hms & _). unfold mbind, outcome_mbind. cbn [outcome_bind]. rewrite Hms. cbn [othrow_if outcome_bind].
  rewrite (member_string_denotes _ _ (str "publicKey") _ Hv eq_refl), (member_string_denotes _ _ (str "ipv6") _ Hv eq_refl). done.
Qed.

Lemma named_load {A} (load : bytes -> M (list A) unit) t l k ss acc : denotes (j_object l) t ->
  assoc k l = Some (j_array (map j_string ss)) -> load_named load t k acc = mfor ss load acc.
Proof.
  intros Ht Hk. unfold load_named. destruct (member_denotes _ _ _ _ Ht Hk) as (v & -> & Hv). rewrite bind_lift.
  destruct (denotes_array _ _ Hv) as (ts & Hts & _). rewrite Hts. by rewrite (strings_denote _ _ Hv), bind_lift.
Qed.

Lemma default_peers_load fs filename refs acc : fs !! filename = Some connectto_conf ->
  Forall2 (fun r p => load_reference r.1 r.2 = Ret p) default_references refs ->
  connect_to_load_file fs filename acc = (Ret tt, acc ++ refs).
Proof.
  intros Hf Hr. destruct (file_reads _ _ _ _ Hf connectto_conf_reads) as (t & E & Ht).
  unfold connect_to_load_file. rewrite E, bind_lift. by apply (references_load _ default_references).
Qed.

(** The configuration that is written by default can be loaded: it gives
    one password, and the two references of each of its two files of peers,
    provided that the two addresses shown in it are accepted. *)
Lemma default_configuration_loads can_write fs refs :
  (forall f, can_write f = true) -> Forall2 (fun r p => load_reference r.1 r.2 = Ret p) default_references refs ->
  exists fs', genconf can_write fs = (Ret tt, fs') /\
    galaxyconf_load fs' (str "galaxy.conf") = Ret ([default_password], refs ++ refs).
Proof.
  intros Hw Hr. exists (default_files fs). split; [by apply genconf_writes|].
  destruct (default_lookups fs) as (L1 & L2 & L3 & L4).
  unfold galaxyconf_load. destruct (file_reads _ _ _ _ L1 galaxy_conf_reads) as (t & -> & Ht).
  unfold mbind at 1, outcome_mbind at 1. cbn [outcome_bind]. rewrite (keys_load t Ht).
  unfold mbind at 1, outcome_mbind at 1. cbn [outcome_bind].
  unfold auth_password_load, connect_to_load.
  rewrite (named_load _ _ _ (str "authorizedPasswords") [str "connect_from.my.conf"] _ Ht eq_refl).
  rewrite (named_load _ _ _ (str "connectTo") [str "connect_to.my.conf"; str "connect_to.seed.conf"] _ Ht eq_refl).
  destruct (file_reads _ _ _ _ L2 authpass_conf_reads) as (u & Eu & Hu).
  assert (Ep : auth_password_load_file (default_files fs) (str "connect_from.my.conf") [] = (Ret tt, [default_password])).
  { unfold auth_password_load_file. by rewrite Eu, bind_lift, (passwords_load _ [default_password] [] Hu). }
  cbn [mfor]. rewrite !bind_eq, Ep. cbn [app mret M_mret]. rewrite (default_peers_load _ _ refs [] L3 Hr), bind_eq, (default_peers_load _ _ refs _ L4 Hr).
  done.
Qed.
End Default.

(** ** Witnesses *)

Definition toy_tree : JsonTree := {|
  tree := json;
  tree_view := fun j => match j with j_object l => v_object l | j_array l => v_array l | j_string s => v_string s end;
  tree_parse := fun s => match read_json s with Some j => Ret j | None => Throw ex_invalid_argument end
|}.

Lemma toy_denotes : forall j, @denotes toy_tree j j.
Proof.
  fix IH 1. intros [l|l|s]; [exists l; split; [done|]|exists l; split; [done|]|done].
  - induction l as [|[k j] l IHl]; [exact I|]. split; [done|]. split; [apply IH|exact IHl].
  - induction l as [|j l IHl]; [exact I|]. split; [apply IH|exact IHl].
Qed.

Lemma toy_json : @JsonLaw toy_tree.
Proof. intros s j H. exists j. split; [cbn; by rewrite H|apply toy_denotes]. Qed.

#[local] Existing Instances toy_net toy_tree.

Definition toy_refs : list t_peering_reference :=
  omap (fun r => match load_reference r.1 r.2 with Ret p => Some p | _ => None end) default_references.

Definition le32 (z : Z) : bytes := map (fun i => byte_of_Z (z / 256 ^ i)) [0; 1; 2; 3].
Definition toy_mo : bytes :=
  concat (map le32 [0x950412de; 0; 2; 28; 44; 0; 60;   2; 60; 3; 63;   3; 67; 3; 71])
  ++ concat (map (fun s => str s ++ [Byte.x00]) ["no"; "yes"; "nie"; "tak"]%string).
Definition toy_catalogue : list (bytes * bytes) := [(str "no", str "nie"); (str "yes", str "tak")].
Definition toy_reader : mo_file_reader := MoFileReader ∅ false None (str "locale") (str "galaxy42.mo").
Definition toy_locale : files := {[ str "locale/pl/LC_MESSAGES/galaxy42.mo" := toy_mo ]}.

Lemma toy_layout : mo_layout true (fun _ => true) toy_mo 28 44 toy_catalogue.
Proof.
  constructor; [by vm_compute|by vm_compute|by vm_compute|by vm_compute|].
  intros [|[|i]] kv; cbn; [intros [= <-]|intros [= <-]|done]; (split; constructor; by vm_compute).
Qed.

Lemma read_file_translates_witness :
  exists r', read_file true (fun _ => true) toy_locale (Some (str "pl_PL.UTF-8")) [] toy_reader = (Ret tt, r')
    /\ gettext r' (str "yes") = str "tak" /\ gettext r' (str "maybe") = str "maybe".
Proof.
  destruct (read_file_translates true (fun _ => true) toy_locale (Some (str "pl_PL.UTF-8")) [] (str "pl") toy_reader toy_mo 28 44 toy_catalogue
    eq_refl eq_refl eq_refl toy_layout ltac:(discriminate)) as (r' & E & H).
  exists r'. split; [done|]. split; rewrite H; by vm_compute.
Defined.
