(* ===== verification/Newloop.v ===== *)
(** * The new loop: server, peers, start (galaxysrv.cpp, galaxysrv_peers.cpp,
    the_program_newloop.cpp)

    Models [c_galaxysrv] - its identity, prefix, peers and cable cards - with
    its key actions, [c_galaxysrv_peers]'s references with cable addresses, and
    [c_the_program_newloop]: the self-test of a crypto tunnel, loading or
    making the identity, the TUN device, the peers of the command line and
    [main_execution].  The main loop of this server is compiled out of the
    source: what is left of it writes one line to the log.  The answers of the
    system to the setting up of the TUN device are arguments, and so is what
    the demonstrations of undefined behaviour do. *)
From S2P Require Import Prelude Serialize Cryptobasic Multikeys Crypto Peering Peerref Tunserver Datastore Keystore Caps Privileges Devices Cables.

(** ** References to peers *)

(** The map of options is there and nothing writes to it. *)
Record t_peer_reference_newloop `{!NetLib} `{!EndpointLib} := PeerReferenceNewloop { nl_hip : c_haship_addr; nl_cable_addr : list c_cable_base_addr }.
Arguments PeerReferenceNewloop {_ _} _ _.
Record c_peer_connection `{!NetLib} `{!EndpointLib} := PeerConnection { m_reference : t_peer_reference_newloop }.
Arguments PeerConnection {_ _} _.

Section Newloop.
Context {OS FS Rng : Type} `{CN : !CapNg OS} `{OU : !OsUser OS} `{FL : !FsLib FS} `{CL : !CryptoLib Rng} `{EL : !EndpointLib} `{NL : !NetLib}.
Context (ENABLE_CRYPTO_NTRU ENABLE_CRYPTO_SIDH : bool).
Context (ed_sign : bytes -> bytes -> outcome bytes) (ntru_sign : bytes -> bytes -> outcome bytes).
Context (ed_verify ntru_verify : bytes -> bytes -> bytes -> bool).
Context (home_env : option bytes).

Definition is_connected (p : c_peer_connection) : bool := true.
Definition should_connect (p : c_peer_connection) : bool := true.

(** [c_galaxysrv_peers::parse_peer_simplestring] *)
Definition parse_peer_simplestring_newloop (simple : bytes) : outcome t_peer_reference_newloop :=
  '(ids, cables) ← parse_peer_reference simple;
  hip ← (if zlen ids =? 1 then
      id ← at_ ids 0;
      match haship_of_dot address_v6_from_string id with
      | Throw ex_invalid_argument => Throw ex_err_check_input
      | r => r
      end
    else
      othrow_if (negb (zlen ids =? 0)) ex_err_check_prog;;
      Ret make_empty);
  addrs ← omap_list cable_make_addr cables;
  Ret (PeerReferenceNewloop hip addrs).

(** ** c_galaxysrv *)

Record c_galaxysrv := Galaxysrv {
  gs_my_IDC : c_multikeys_PAIR;
  gs_my_IDI_pub : c_multikeys_pub;
  gs_IDI_IDC_sig : c_multicryptostrings;
  gs_my_hip : c_haship_addr;
  m_my_hip_prefix : bytes;
  m_exiting : bool;
  m_prefix_len : Z;
  gs_peers : list c_peer_connection;
  m_cable_cards : c_cable_cards;
  gs_rng : Rng;                           (* the random sources of the keys *)
  gs_dbg_level : Z                        (* the global g_dbg_level *)
}.

Notation D := (M (@store FS)).
Notation W := (M (@store FS * c_galaxysrv)).

Definition with_gs_identity (idc : c_multikeys_PAIR) (idi : c_multikeys_pub) (sig : c_multicryptostrings) (hip : c_haship_addr)
    (prefix : bytes) (g : c_galaxysrv) : c_galaxysrv :=
  Galaxysrv idc idi sig hip prefix (m_exiting g) (m_prefix_len g) (gs_peers g) (m_cable_cards g) (gs_rng g) (gs_dbg_level g).
Definition with_gs_rng (rng : Rng) (g : c_galaxysrv) : c_galaxysrv :=
  Galaxysrv (gs_my_IDC g) (gs_my_IDI_pub g) (gs_IDI_IDC_sig g) (gs_my_hip g) (m_my_hip_prefix g) (m_exiting g) (m_prefix_len g)
    (gs_peers g) (m_cable_cards g) rng (gs_dbg_level g).
Definition with_gs_peers (peers : list c_peer_connection) (g : c_galaxysrv) : c_galaxysrv :=
  Galaxysrv (gs_my_IDC g) (gs_my_IDI_pub g) (gs_IDI_IDC_sig g) (gs_my_hip g) (m_my_hip_prefix g) (m_exiting g) (m_prefix_len g)
    peers (m_cable_cards g) (gs_rng g) (gs_dbg_level g).
Definition with_gs_run (exiting : bool) (prefix_len : Z) (cards : c_cable_cards) (g : c_galaxysrv) : c_galaxysrv :=
  Galaxysrv (gs_my_IDC g) (gs_my_IDI_pub g) (gs_IDI_IDC_sig g) (gs_my_hip g) (m_my_hip_prefix g) exiting prefix_len
    (gs_peers g) cards (gs_rng g) (gs_dbg_level g).

(** [make_unique<c_galaxysrv>()]; the two octets of [m_my_hip_prefix] are not
    set by it, nothing reads them. *)
Definition new_galaxysrv (rng : Rng) (dbg : Z) (prefix_octets : bytes) : c_galaxysrv :=
  Galaxysrv new_multikeys_PAIR new_multikeys_pub new_multisign haship_zero prefix_octets false (-1) [] (CableCards [] None) rng dbg.

(** [add_peer(unique_ptr<t_peer_reference_newloop> && ref)] *)
Definition add_peer_newloop (ref : option t_peer_reference_newloop) : M c_galaxysrv unit :=
  match ref with
  | None => mthrow ex_err_check_prog
  | Some r => mmodify (fun g => with_gs_peers (gs_peers g ++ [PeerConnection r]) g)
  end.

Definition add_peer_simplestring_newloop (simple : bytes) : M c_galaxysrv unit :=
  reference ← mlift (parse_peer_simplestring_newloop simple);
  add_peer_newloop (Some reference).

Definition start_exit : M c_galaxysrv unit :=
  mmodify (fun g => with_gs_run true (m_prefix_len g) (m_cable_cards g) g);;
  mrun (fun g => let '(o, cards) := cards_stop_threadsafe (m_cable_cards g) in
                 (o, with_gs_run (m_exiting g) (m_prefix_len g) cards g)).

Definition get_tuntap_mtu_default : Z := 16 * 1024.
Definition get_tuntap_mtu_current : Z := get_tuntap_mtu_default.

Definition get_my_hip (g : c_galaxysrv) : c_haship_addr := gs_my_hip g.
Definition set_prefix_len (prefix_len : Z) : M c_galaxysrv unit :=
  mmodify (fun g => with_gs_run (m_exiting g) prefix_len (m_cable_cards g) g).

(** The answers of the system to [m_tuntap.set_tun_parameters]. *)
Record tuntap_os := TuntapOs { errcode_ioctl : Z; add_address_code : Z; set_mtu_code : Z }.

Definition init_tuntap (os : tuntap_os) : M c_galaxysrv unit :=
  g ← mget;
  massert (negb (m_prefix_len g =? -1));;
  mlift (set_tun_parameters (errcode_ioctl os) (add_address_code os) (set_mtu_code os) (get_my_hip g)).

(** ** Its keys *)

(** An action that makes keys, with the server's source of randomness. *)
Definition with_keys_of_galaxysrv {A} (m : M (Rng * @store FS) A) : W A := fun '(st, g) =>
  let '(o, (rng, st')) := m (gs_rng g, st) in (o, (st', with_gs_rng rng g)).

(** [c_galaxysrv::program_action_set_IDI], the same code as the old server's. *)
Definition galaxysrv_set_IDI (dbg : Z) (keyname : bytes) : D unit := program_action_set_IDI home_env dbg keyname.

Definition galaxysrv_gen_key_simple : W bytes :=
  g ← on_snd mget;
  type ← mlift (t_crypto_system_type_from_string (str "ed25519"));
  with_keys_of_galaxysrv (create_keys ENABLE_CRYPTO_NTRU ENABLE_CRYPTO_SIDH home_env (gs_dbg_level g) (str "IDI") [(type, 1)] true);;
  mret (str "IDI").

Definition galaxysrv_gen_key (key_type : option (list bytes)) (new_key new_key_file : option bytes) : W unit :=
  g ← on_snd mget;
  match key_type with
  | None => mthrow ex_invalid_argument
  | Some arguments =>
      keys ← mfold (fun acc argument => k ← mlift (parse_key_type argument); mret (acc ++ [k])) [] arguments;
      let create output_file default_location := with_keys_of_galaxysrv
        (create_keys ENABLE_CRYPTO_NTRU ENABLE_CRYPTO_SIDH home_env (gs_dbg_level g) output_file keys default_location) in
      match new_key, new_key_file with
      | Some output_file, _ => create output_file true
      | None, Some output_file => create output_file false
      | None, None => mthrow ex_invalid_argument
      end
  end.

(** The check of the own address: whatever it throws, a std::runtime_error. *)
Definition check_IDI_address (IDI_ip_bin IDI_ip_hexdot : bytes) : outcome unit :=
  rethrow_as ex_runtime_error (
    first ← at_ IDI_ip_bin 0;
    othrow_if (negb (byte_val first =? 0xFD)) ex_runtime_error;;
    c0 ← at_ IDI_ip_hexdot 0;
    othrow_if (negb (bool_decide (c0 = Byte.x66))) ex_runtime_error;;
    c1 ← at_ IDI_ip_hexdot 1;
    othrow_if (negb (bool_decide (c1 = Byte.x64))) ex_runtime_error).

(** The rest of [configure_mykey], with the loaded pair.  The check of the
    address of the session key throws nothing: its handler only builds the
    message. *)
Definition configure_galaxysrv (my_IDI : c_multikeys_PAIR) : M c_galaxysrv unit :=
  let '(obin, idi) := get_ipv6_string_bin Hash1 (m_pub my_IDI) in
  IDI_ip_bin ← mlift obin;
  let '(odot, idi) := get_ipv6_string_hexdot Hash1 idi in
  IDI_ip_hexdot ← mlift odot;
  mlift (check_IDI_address IDI_ip_bin IDI_ip_hexdot);;
  IDI_hip ← mlift (haship_of_dot address_v6_from_string IDI_ip_hexdot);
  my_IDC ← (fun g : c_galaxysrv =>
    let '(o, (rng, p)) := generate_type ENABLE_CRYPTO_NTRU ENABLE_CRYPTO_SIDH gen_x25519 gen_ed25519 gen_ntru_encrypt
      gen_ntru_sign gen_sidh e_crypto_system_type_X25519 1 (gs_rng g, new_multikeys_PAIR) in
    (match o with Ret _ => Ret p | Throw e => Throw e | Abort_ => Abort_ | Undef => Undef end, with_gs_rng rng g));
  IDC_pub_to_sign ← mlift (serialize_bin (pub_keys (m_pub my_IDC)));
  IDC_IDI_signature ← mlift (multi_sign ENABLE_CRYPTO_NTRU ed_sign ntru_sign (m_PRV my_IDI) IDC_pub_to_sign);
  mlift (multi_sign_verify ENABLE_CRYPTO_NTRU ed_verify ntru_verify IDC_IDI_signature IDC_pub_to_sign (pub_keys idi));;
  mmodify (fun g => with_gs_identity (gs_my_IDC g) idi IDC_IDI_signature (gs_my_hip g) (m_my_hip_prefix g) g);;
  let '(odot, idc_pub) := get_ipv6_string_hexdot Hash1 (m_pub my_IDC) in
  IDC_ip_hexdot ← mlift odot;
  _ ← mlift (haship_of_dot address_v6_from_string IDC_ip_hexdot);
  p0 ← mlift (at_ IDI_hip 0);
  p1 ← mlift (at_ IDI_hip 1);
  mmodify (with_gs_identity (MultikeysPAIR idc_pub (m_PRV my_IDC)) idi IDC_IDI_signature IDI_hip [p0; p1]).

Definition configure_mykey_newloop (ipv6_prefix : bytes) : W unit :=
  g ← on_snd mget;
  IDI_name ← mcatch (on_fst (load_string home_env (gs_dbg_level g) e_datastore_galaxy_instalation_key_conf (str "IDI")))
    (fun e => if bool_decide (e = ex_invalid_argument) then mthrow ex_expected_not_found else mthrow e);
  my_IDI ← (fun w : @store FS * c_galaxysrv =>
    let new := MultikeysPAIR (MultikeysPub (pub_keys (m_pub new_multikeys_PAIR)) ipv6_prefix) (m_PRV new_multikeys_PAIR) in
    let '(o, (st, p)) := datastore_load_PRV_and_pub home_env (gs_dbg_level g) IDI_name (w.1, new) in
    (match o with Ret _ => Ret p | Throw e => Throw e | Abort_ => Abort_ | Undef => Undef end, (st, w.2)));
  on_snd (configure_galaxysrv my_IDI).

(** ** c_the_program_newloop: the self-test of a tunnel *)

Notation gen_keys sys count := (generate_type ENABLE_CRYPTO_NTRU ENABLE_CRYPTO_SIDH gen_x25519 gen_ed25519 gen_ntru_encrypt gen_ntru_sign gen_sidh sys count).

(** A local object of the code, made and used by [m]. *)
Definition with_local {X A} (x : X) (m : M (Rng * X) A) : M Rng (A * X) := fun rng =>
  let '(o, (rng', x')) := m (rng, x) in
  (match o with Ret a => Ret (a, x') | Throw e => Throw e | Abort_ => Abort_ | Undef => Undef end, rng').

(** The two pairs: keys are added to one and to the other in turn. *)
Definition cryptolink_pairs (level : Z) : M Rng (c_multikeys_PAIR * c_multikeys_PAIR) :=
  '(_, A) ← with_local new_multikeys_PAIR (gen_keys e_crypto_system_type_Ed25519 2);
  '(_, B) ← with_local new_multikeys_PAIR (gen_keys e_crypto_system_type_Ed25519 2);
  '(_, A) ← with_local A (when (ENABLE_CRYPTO_SIDH && (1 <=? level)) (gen_keys e_crypto_system_type_SIDH 2));
  '(_, B) ← with_local B (when (ENABLE_CRYPTO_SIDH && (1 <=? level)) (gen_keys e_crypto_system_type_SIDH 2));
  '(_, A) ← with_local A (when (ENABLE_CRYPTO_NTRU && (2 <=? level)) (gen_keys e_crypto_system_type_NTRU_sign 1));
  '(_, B) ← with_local B (when (ENABLE_CRYPTO_NTRU && (2 <=? level)) (gen_keys e_crypto_system_type_NTRU_sign 1));
  mret (A, B).

(** The tunnel between them, up to a message that the other side reads. *)
Definition cryptolink (keypairA keypairB : c_multikeys_PAIR) : M Rng unit :=
  AliceCT ← new_tunnel ENABLE_CRYPTO_NTRU ENABLE_CRYPTO_SIDH keypairA (m_pub keypairB) (str "Alice");
  '(_, AliceCT) ← with_local AliceCT (create_IDe ENABLE_CRYPTO_NTRU ENABLE_CRYPTO_SIDH);
  '(packetstart_1, AliceCT) ← with_local AliceCT (on_snd get_packetstart_ab);
  BobCT ← new_tunnel_respondent ENABLE_CRYPTO_NTRU ENABLE_CRYPTO_SIDH keypairB (m_pub keypairA) packetstart_1 (str "Bobby");
  '(packetstart_2, BobCT) ← with_local BobCT (on_snd get_packetstart_final);
  '(_, AliceCT) ← with_local AliceCT (create_CTf ENABLE_CRYPTO_NTRU ENABLE_CRYPTO_SIDH packetstart_2);
  let msg := replicate 1024 Byte.x6d in
  '((msg_encrypted, nonce_used), AliceCT) ← with_local AliceCT (on_snd (ct_box msg));
  mthrow_if (bool_decide (msg = msg_encrypted)) ex_err_check_prog;;
  '(msg_decrypted, _) ← with_local BobCT (on_snd (ct_unbox_nonce msg_encrypted nonce_used));
  mthrow_if (negb (bool_decide (msg = msg_decrypted))) ex_err_check_prog.

Definition test_create_cryptolink (number_of_test level : Z) : M Rng unit :=
  mfor (seqZ 0 number_of_test) (fun _ =>
    '(keypairA, keypairB) ← cryptolink_pairs level;
    cryptolink keypairA keypairB).

(** ** Its start *)

(** The prefix of --set-prefix; the length of its mask goes to the server. *)
Definition set_prefix_option (arg : bytes) : M c_galaxysrv bytes :=
  mlift (_check_input (zlen arg =? 4));;
  let ret := map tolower arg in
  c0 ← mlift (at_ ret 0); mlift (_check_input (bool_decide (c0 = Byte.x66)));;
  c1 ← mlift (at_ ret 1); mlift (_check_input (bool_decide (c1 = Byte.x64)));;
  c2 ← mlift (at_ ret 2); mlift (_check_input (bool_decide (c2 = Byte.x34)));;
  c3 ← mlift (at_ ret 3);
  if bool_decide (c3 = Byte.x32) then set_prefix_len 16;; mret ret
  else if bool_decide (c3 = Byte.x33) then set_prefix_len 24;; mret ret
  else mthrow ex_invalid_argument.

Definition make_default_keys (ipv6_prefix : bytes) : W unit :=
  IDI_name ← galaxysrv_gen_key_simple;
  g ← on_snd mget;
  on_fst (galaxysrv_set_IDI (gs_dbg_level g) IDI_name);;
  configure_mykey_newloop ipv6_prefix.

Definition programtask_load_my_keys (set_prefix : bytes) : W unit :=
  g ← on_snd mget;
  have ← on_fst (have_keys_configured home_env (gs_dbg_level g));
  ipv6_prefix ← on_snd (set_prefix_option set_prefix);
  if have : bool then
    ok ← mcatch (configure_mykey_newloop ipv6_prefix;; mret true) (fun _ => mret false);
    mthrow_if (negb ok) ex_exception_error_exit
  else mcatch (make_default_keys ipv6_prefix) (fun _ => mthrow ex_exception_error_exit).

Definition programtask_tuntap (os : tuntap_os) : M c_galaxysrv unit := init_tuntap os.

(** --peer, when it is given and is a list of strings. *)
Definition use_options_peerref (peer : option (list bytes)) : M c_galaxysrv unit :=
  mcatch (mfor (default [] peer) add_peer_simplestring_newloop) (fun _ => mthrow ex_exception_error_exit).

(** The demonstrations: signed overflow, two threads that write one variable,
    reading and writing outside of a vector. *)
Definition example_warn_1 : outcome unit := Ret tt.
Definition example_ubsan_1 : outcome unit := Undef.
Definition example_tsan_1 : outcome unit := Undef.
Definition example_memcheck_1 : outcome unit := Undef.
Definition example_memcheck_2 : outcome unit := Undef.

Record newloop_options := NewloopOptions {
  nl_debug : bool;                        (* --debug or --d *)
  nl_dlevel : option Z;
  nl_special_warn1 : bool; nl_special_ubsan1 : bool; nl_special_tsan1 : bool; nl_special_memcheck1 : bool; nl_special_memcheck2 : bool;
  nl_set_prefix : bytes;
  nl_peer : option (list bytes)
}.

(** [maybe_run_special]: whether the program is tainted afterwards. *)
Definition maybe_run_special (asked : bool) (func : outcome unit) (do_taint tainted : bool) : outcome bool :=
  if asked then func;; Ret (do_taint || tainted) else Ret tainted.

Definition run_special (o : newloop_options) : outcome Z :=
  tainted ← maybe_run_special (nl_special_warn1 o) example_warn_1 false false;
  tainted ← maybe_run_special (nl_special_ubsan1 o) example_ubsan_1 true tainted;
  tainted ← maybe_run_special (nl_special_tsan1 o) example_tsan_1 true tainted;
  tainted ← maybe_run_special (nl_special_memcheck1 o) example_memcheck_1 true tainted;
  tainted ← maybe_run_special (nl_special_memcheck2 o) example_memcheck_2 true tainted;
  Ret (if tainted : bool then 2 else 0).

Definition gs_dbg_level_set (level : Z) : M c_galaxysrv unit :=
  mmodify (fun g => if level =? -1 then g else
    Galaxysrv (gs_my_IDC g) (gs_my_IDI_pub g) (gs_IDI_IDC_sig g) (gs_my_hip g) (m_my_hip_prefix g) (m_exiting g) (m_prefix_len g)
      (gs_peers g) (m_cable_cards g) (gs_rng g) level).

(** The server alone, in the state of [main_execution]: the privileges of the
    process, the files and the server. *)
Definition on_server {A} (m : M c_galaxysrv A) : M (OS * (@store FS * c_galaxysrv)) A := on_snd (on_snd m).

(** The end of [main_execution], once there is an identity: the TUN device,
    the peers and the privileges. *)
Definition newloop_after_keys (os : tuntap_os) (o : newloop_options) : M (OS * (@store FS * c_galaxysrv)) Z :=
  on_server (programtask_tuntap os);;
  g ← on_server mget;
  on_fst (drop_privileges_after_tuntap (gs_dbg_level g));;
  on_server (use_options_peerref (nl_peer o));;
  on_fst (drop_privileges_before_mainloop (gs_dbg_level g));;
  mret 0.

(** [main_execution]; the server is made when nothing has used it yet. *)
Definition newloop_main_execution (os : tuntap_os) (o : newloop_options) : M (OS * (@store FS * c_galaxysrv)) Z :=
  on_server (gs_dbg_level_set 60);;
  when (nl_debug o) (on_server (gs_dbg_level_set 10));;
  match nl_dlevel o with
  | Some dlevel => when (negb (dlevel =? -1)) (on_server (gs_dbg_level_set dlevel))
  | None => mret tt
  end;;
  ret ← mlift (run_special o);
  if negb (ret =? 0) then mret ret
  else
    on_snd (programtask_load_my_keys (nl_set_prefix o));;
    newloop_after_keys os o.

(** [programtask_help] and [base_options_commands_run]: whether the program is
    done, and its exit code.  [None]: the option is not there; [Some None]: it
    is not a string. *)
Definition programtask_help (topic : bytes) : bool * Z := if bool_decide (topic = str "peer") then (true, 0) else (false, 1).

Definition newloop_options_commands_run (helptopic help : option (option bytes)) : outcome (bool * Z) :=
  match helptopic with
  | Some (Some help_cmd) => Ret (programtask_help help_cmd)
  | Some None => Throw ex_runtime_error
  | None =>
      match help with
      | Some (Some _) => Ret (true, 0)
      | Some None => Throw ex_runtime_error
      | None => Ret (false, 0)
      end
  end.
End Newloop.
