(* ===== verification/Program.v ===== *)
(** * The start of the program (g42-main.cpp, the_program.cpp, utils/misc.hpp)

    Models what [main] does around the two programs: the arguments it takes
    out of the command line itself, which program is run, the search for the
    data directory, the demonstrations of developers with the options they
    set, dropping root and privileges, and the exit code.  [main_newloop] is
    the whole start of the new loop.  What [boost::program_options] makes of
    the arguments is an argument. *)
From S2P Require Import Prelude Serialize Cryptobasic Multikeys Crypto Peering Peerref Tunserver Datastore Keystore Caps Privileges Devices Cables Newloop.

(** ** utils/misc.hpp *)

Definition contains_value (c : list bytes) (v : bytes) : bool := bool_decide (v ∈ c).
Definition remove_all (c : list bytes) (v : bytes) : list bytes := filter (fun x => x <> v) c.
(** What is left, and how many were removed; the check never fails. *)
Definition remove_and_count (c : list bytes) (v : bytes) : outcome (list bytes * Z) :=
  let c' := remove_all c v in
  if zlen c' <=? zlen c then Ret (c', zlen c - zlen c') else Abort_.

(** [check_and_remove_special_cmdline]: each turn of the loop erases the first
    occurrence. *)
Fixpoint erase_first (name : bytes) (argt : list bytes) : option (list bytes) :=
  match argt with
  | [] => None
  | x :: argt' => if bool_decide (x = name) then Some argt' else option_map (cons x) (erase_first name argt')
  end.
Fixpoint erase_loop (fuel : nat) (name : bytes) (argt : list bytes) : list bytes :=
  match fuel with
  | O => argt
  | S f => match erase_first name argt with None => argt | Some argt' => erase_loop f name argt' end
  end.
Definition check_and_remove_special_cmdline (name : bytes) : M (list bytes) bool :=
  argt ← mget;
  if contains_value argt name then mput (erase_loop (S (length argt)) name argt);; mret true
  else mret false.

(** ** The data directory *)

Definition mo_name : bytes := str "/share/locale/en/LC_MESSAGES/galaxy42_main.mo".

(** [dirs]: the current directory and the directory of the executable, unless
    [boost::filesystem] throws; [good]: a file can be opened. *)
Definition startup_data_dir (dirs : outcome (bytes * bytes)) (good : bytes -> bool) : outcome (bytes * bytes) :=
  match dirs with
  | Ret (cwd_full, selfdir) =>
      let found := list_find (fun dir => good (dir ++ mo_name) = true) [cwd_full; selfdir; str "/usr"; str "/usr/local"; str "/usr/opt"] in
      let base := match found with Some (_, dir) => dir | None => [] end in
      Ret (base, base ++ str "/share/locale")
  | Throw _ => Ret ([], str "/share/locale")
  | Abort_ => Abort_
  | Undef => Undef
  end.

(** ** Developer demonstrations *)

(** A value of [boost::program_options::variables_map]. *)
Inductive option_value := val_int (i : Z) | val_string (s : bytes) | val_strings (l : list bytes).
Notation variables_map := (gmap bytes option_value).

(** [argm[name].as<T>()]: an option that is not there is empty, and not a [T]. *)
Definition as_int (m : variables_map) (name : bytes) : outcome Z :=
  match m !! name with Some (val_int i) => Ret i | _ => Throw ex_bad_any_cast end.
Definition as_strings (m : variables_map) (name : bytes) : outcome (list bytes) :=
  match m !! name with Some (val_strings l) => Ret l | _ => Throw ex_bad_any_cast end.
(** [argm.insert]: an option that is there stays. *)
Definition argm_insert (name : bytes) (v : option_value) : M variables_map unit :=
  mmodify (fun m => match m !! name with Some _ => m | None => <[name := v]> m end).
(** [argm.at(name) = v] *)
Definition argm_assign (name : bytes) (v : option_value) : M variables_map unit :=
  m ← mget;
  match m !! name with Some _ => mput (<[name := v]> m) | None => mthrow ex_out_of_range end.

Definition make_pubkey_for_peer_nr (peer_nr : Z) : bytes := str "4a4b4c" ++ str "4" ++ [byte_of_Z (48 + peer_nr)].

Definition develnum : M variables_map Z :=
  m ← mget;
  nr ← mlift (as_int m (str "develnum"));
  massert ((1 <=? nr) && (nr <=? 254));;
  mret nr.

Definition wip_galaxy_route_star : M variables_map bool :=
  node_nr ← develnum;
  let peer_nr := if node_nr =? 1 then 2 else 1 in
  let peer_pub := make_pubkey_for_peer_nr peer_nr in
  let peer_ip := str "192.168." ++ dec peer_nr ++ str ".62" in
  argm_insert (str "peerip") (val_string peer_ip);;
  argm_assign (str "peerpub") (val_string peer_pub);;
  argm_assign (str "mypub") (val_string (make_pubkey_for_peer_nr node_nr));;
  argm_assign (str "myname") (val_string (str "testnode-" ++ dec node_nr));;
  mret true.

(** The last line shows how many there are, which throws when the option is
    there with another type. *)
Definition add_program_option_vector_strings (name value_to_append : bytes) : M variables_map unit :=
  m ← mget;
  match as_strings m name with
  | Ret old_peer => argm_assign name (val_strings (old_peer ++ [value_to_append]))
  | _ => argm_insert name (val_strings [value_to_append])
  end;;
  m ← mget;
  _ ← mlift (as_strings m name);
  mret tt.

Definition wip_galaxy_route_pair : M variables_map bool :=
  my_nr ← develnum;
  when (my_nr =? 1) (add_program_option_vector_strings (str "peer") (str "192.168.2.62:9042-fd42:10a9:4318:509b:80ab:8042:6275:609b"));;
  when (my_nr =? 2) (add_program_option_vector_strings (str "peer") (str "192.168.1.62:9042-fd42:ae11:f636:8636:ae76:acf5:e5c4:dae1"));;
  mret true.

(** The peers as given on the command line, and who peers into whom. *)
Definition peer_cmd_map : list (Z * bytes) :=
  [(1, str "192.168.1.62:9042-fd42:9fd1:ce03:9edf:1d7e:2257:b651:d89f");
   (2, str "192.168.2.62:9042-fd42:10a9:4318:509b:80ab:8042:6275:609b");
   (3, str "192.168.3.62:9042-fd42:5516:34c7:9302:890f:0a2d:5586:79ee")].
Definition peer_to_peer : list (Z * list Z) := [(1, [2; 3])].
Fixpoint int_map_at {A} (m : list (Z * A)) (k : Z) : outcome A :=
  match m with [] => Throw ex_out_of_range | (x, a) :: m' => if x =? k then Ret a else int_map_at m' k end.

Definition wip_galaxy_route_doublestar : M variables_map bool :=
  my_nr ← develnum;
  peers ← mlift (int_map_at peer_to_peer my_nr);
  mfor peers (fun peer_nr =>
    ref ← mlift (int_map_at peer_cmd_map peer_nr);
    add_program_option_vector_strings (str "peer") ref);;
  argm_assign (str "myname") (val_string (str "testnode-" ++ dec my_nr));;
  mret true.

(** The line up to the first end of line; a stream that met the end of the
    file on the way is no longer good. *)
Fixpoint getline_good (s : bytes) : option bytes :=
  match s with
  | [] => None
  | c :: s' => if bool_decide (c = Byte.x0a) then Some [] else option_map (cons c) (getline_good s')
  end.

(** [democonf_file]: what the file holds, when it can be opened. *)
Definition demoname_load_conf (democonf_file : option bytes) : bytes :=
  match democonf_file ≫= getline_good with
  | Some line => if 5 <=? zlen line then drop 5 line else str "default"
  | None => str "default"
  end.

(** Which demonstration is run; [None]: the list of them is shown. *)
Definition demo_selected (develdemo demoname_default : bytes) (democonf_file : option bytes) : option bytes :=
  if bool_decide (develdemo = str "help") || bool_decide (develdemo = str "list") then None
  else
    let demoname_loaded := demoname_load_conf democonf_file in
    let demoname := if bool_decide (demoname_loaded = str "default") then develdemo else demoname_loaded in
    Some (if bool_decide (demoname = str "hardcoded") then demoname_default else demoname).

(** Whether the program goes on.  The demonstrations that set options are run;
    the others - [others] is what they do - end the program. *)
Definition run_mode_developer_main (demoname_default : bytes) (democonf_file : option bytes) (others : bytes -> outcome unit)
    : M variables_map bool :=
  m ← mget;
  develdemo ← mlift (match m !! str "develdemo" with Some (val_string s) => Ret s | _ => Throw ex_bad_any_cast end);
  match demo_selected develdemo demoname_default democonf_file with
  | None => mret false
  | Some demoname =>
      if bool_decide (demoname = str "route_dij") || bool_decide (demoname = str "route") then wip_galaxy_route_doublestar
      else if bool_decide (demoname ∈ [str "crypto"; str "gen_key_bench"; str "crypto_stream_bench"; str "ct_bench"; str "debug"])
      then mlift (others demoname);; mret false
      else mret false
  end.

(** ** main *)

Inductive t_program_type := e_program_type_tunserver | e_program_type_newloop.

(** What [main] does with the arguments before the options are parsed: it
    prints flags and ends, runs the simulation, or starts a program with the
    arguments the program was given. *)
Inductive main_plan :=
  | plan_flavour
  | plan_bench (argt : list bytes)
  | plan_run (type : t_program_type) (argt : list bytes) (early_debug home_env : bool).

Definition main_start (argt : list bytes) : outcome main_plan :=
  let early_debug := contains_value argt (str "--d") in
  if contains_value argt (str "--print-flags-flavour") then Ret plan_flavour
  else
    '(argt, newloop) ← remove_and_count argt (str "--newloop");
    let program_type := if newloop =? 0 then e_program_type_tunserver else e_program_type_newloop in
    let taken := argt in
    '(argt, bench) ← remove_and_count argt (str "--mode-bench");
    if negb (bench =? 0) then Ret (plan_bench argt)
    else
      '(_, home) ← remove_and_count argt (str "--home-env");
      Ret (plan_run program_type taken early_debug (negb (home =? 0))).

(** The handlers around [main_execution]; the exit code it returns is not
    used.  All but two of the exceptions here are [std::exception]s. *)
Definition main_handlers {St} (m : M St Z) : M St Z :=
  mcatch (_ ← m; mret 0) (fun e => if bool_decide (e = ex_exception_error_exit) then mret 1 else mret 2).

Section Main.
Context {OS FS Rng : Type} `{CN : !CapNg OS} `{OU : !OsUser OS} `{FL : !FsLib FS} `{CL : !CryptoLib Rng} `{EL : !EndpointLib} `{NL : !NetLib}.
Context (ENABLE_CRYPTO_NTRU ENABLE_CRYPTO_SIDH : bool).
Context (ed_sign : bytes -> bytes -> outcome bytes) (ntru_sign : bytes -> bytes -> outcome bytes).
Context (ed_verify ntru_verify : bytes -> bytes -> bytes -> bool).
Context (home_env : option bytes).

(** [main] with --newloop, from dropping root to the exit code.  The data
    directory and the locales only choose the language; [sodium_ok]:
    [sodium_init] did not fail. *)
Definition main_newloop (early_debug home_always_env sodium_ok : bool) (helptopic help : option (option bytes)) (os : tuntap_os) (o : newloop_options)
    : M (OS * (@store FS * c_galaxysrv)) Z :=
  on_snd (on_snd (gs_dbg_level_set 60));;
  when early_debug (on_snd (on_snd (gs_dbg_level_set 20)));;
  g ← on_snd (on_snd mget);
  home ← on_fst (drop_root (gs_dbg_level g) home_always_env);
  on_snd (on_fst (set_home home));;
  on_fst (drop_privileges_on_startup (gs_dbg_level g));;
  mthrow_if (negb sodium_ok) ex_runtime_error;;
  '(done, ret) ← mlift (newloop_options_commands_run helptopic help);
  if done : bool then mret ret
  else main_handlers
    (newloop_main_execution ENABLE_CRYPTO_NTRU ENABLE_CRYPTO_SIDH ed_sign ntru_sign ed_verify ntru_verify home_env os o).
End Main.
