(* ===== verification/Mutexed.v ===== *)
(** * Containers shared by threads

    Models [mutex.hpp] (the shared mutex and its guards), [stdplus/with_mutex.hpp]
    and [stdplus/vector_mutexed_obj.hpp] as programs of threads that interleave
    at every access, [utils/wrap_thread.cpp] and [counter.cpp].

    A thread is a tree of its accesses to shared memory: taking and leaving a
    mutex, reading the vector of pointers, reading and writing an object.  The
    elements of a vector never move: an element is named by its index. *)
From S2P Require Import Prelude.

Inductive access := RO | RW.
#[export] Instance access_eq_dec : EqDecision access.
Proof. solve_decision. Defined.

Inductive mutex := m_mutex_all | m_mutex_of (ix : nat).
#[export] Instance mutex_eq_dec : EqDecision mutex.
Proof. solve_decision. Defined.

Section Threads.
Context {T : Type}.

(** [p_slot]: what [m_data.at(ix)] finds: nothing ([None]), a null pointer
    ([Some false]) or an element. *)
Inductive proc (R : Type) : Type :=
  | p_ret (r : R)
  | p_throw (e : exn)
  | p_undef
  | p_lock (m : mutex) (a : access) (k : proc R)
  | p_unlock (m : mutex) (a : access) (k : proc R)
  | p_size (k : nat -> proc R)
  | p_slot (ix : nat) (k : option bool -> proc R)
  | p_append (cells : list (option T)) (k : proc R)
  | p_get (ix : nat) (k : T -> proc R)
  | p_put (ix : nat) (x : T) (k : proc R).
#[global] Arguments p_ret {R} _.
#[global] Arguments p_throw {R} _.
#[global] Arguments p_undef {R}.
#[global] Arguments p_lock {R} _ _ _.
#[global] Arguments p_unlock {R} _ _ _.
#[global] Arguments p_size {R} _.
#[global] Arguments p_slot {R} _ _.
#[global] Arguments p_append {R} _ _.
#[global] Arguments p_get {R} _ _.
#[global] Arguments p_put {R} _ _ _.

(** [h] goes on after [p], whether [p] returns or throws. *)
Fixpoint p_then {A B} (p : proc A) (h : outcome A -> proc B) : proc B :=
  match p with
  | p_ret r => h (Ret r)
  | p_throw e => h (Throw e)
  | p_undef => p_undef
  | p_lock m a k => p_lock m a (p_then k h)
  | p_unlock m a k => p_unlock m a (p_then k h)
  | p_size k => p_size (fun n => p_then (k n) h)
  | p_slot ix k => p_slot ix (fun s => p_then (k s) h)
  | p_append cells k => p_append cells (p_then k h)
  | p_get ix k => p_get ix (fun x => p_then (k x) h)
  | p_put ix x k => p_put ix x (p_then k h)
  end.

Definition p_outcome {A} (o : outcome A) : proc A :=
  match o with Ret r => p_ret r | Throw e => p_throw e | Abort_ | Undef => p_undef end.

#[export] Instance proc_mret : MRet proc := fun A r => p_ret r.
#[export] Instance proc_mbind : MBind proc := fun A B f p =>
  p_then p (fun o => match o with Ret r => f r | Throw e => p_throw e | Abort_ | Undef => p_undef end).

(** [UniqueLockGuardRO] and [UniqueLockGuardRW]: the guard is destroyed when its
    block ends, also by an exception. *)
Definition guarded {A} (m : mutex) (a : access) (body : proc A) : proc A :=
  p_lock m a (p_then body (fun o => p_unlock m a (p_outcome o))).

(** ** with_mutex *)

(** A function that gets a reference to the object: its result, and the object
    as it leaves it.  The object is read, and written later. *)
Definition apply {A} (ix : nat) (fun_ : T -> outcome A * T) : proc A :=
  p_get ix (fun x => p_put ix (fun_ x).2 (p_outcome (fun_ x).1)).
Definition apply_const {A} (ix : nat) (fun_ : T -> outcome A) : proc A := p_get ix (fun x => p_outcome (fun_ x)).

Definition use_RW {A} (ix : nat) (fun_ : T -> outcome A * T) : proc A := guarded (m_mutex_of ix) RW (apply ix fun_).
Definition use_RO {A} (ix : nat) (fun_ : T -> outcome A) : proc A := guarded (m_mutex_of ix) RO (apply_const ix fun_).

(** [operator=(TObj &&)] *)
Definition assign (ix : nat) (value : T) : proc unit := guarded (m_mutex_of ix) RW (p_put ix value (p_ret tt)).

(** ** vector_mutexed_obj *)

Definition grow_to (size : nat) : proc unit :=
  guarded m_mutex_all RW (p_size (fun n => if (size <=? n)%nat then p_ret tt else p_append (replicate (size - n) None) (p_ret tt))).

Definition push_back (obj : T) : proc unit := guarded m_mutex_all RW (p_append [Some obj] (p_ret tt)).

Definition vector_size : proc nat := guarded m_mutex_all RO (p_size p_ret).

Definition run_on {A} (ix : nat) (fun_ : T -> outcome A * T) : proc A :=
  one_object_with_mutex ← guarded m_mutex_all RO (p_slot ix (fun s =>
    match s with None => p_throw ex_out_of_range | Some p => p_ret p end));
  if one_object_with_mutex : bool then use_RW ix fun_ else p_undef.

Section Matching.
Context {A : Type} (fun_test : T -> outcome bool) (fun_run : T -> outcome A * T) (limit_matched : nat).

(** One element: [Some r] when the function returns here. *)
Definition run_again (ix so_far : nat) : proc (option A * bool) :=
  guarded (m_mutex_of ix) RW (
    matched_again ← apply_const ix fun_test;
    if matched_again : bool then
      r ← apply ix fun_run;
      p_ret (if (limit_matched <=? S so_far)%nat then Some r else None, true)
    else p_ret (None, false)).

Fixpoint test_all (ixs : list nat) (so_far : nat) (is_not_enough : bool) : proc (option A) :=
  match ixs with
  | [] => if is_not_enough then p_throw ex_error_not_enough_match_found else p_ret None
  | ix :: ixs' => p_slot ix (fun s =>
      match s with
      | Some true =>
          matched ← use_RO ix fun_test;
          if matched : bool then
            again ← run_again ix so_far;
            match again with
            | (Some r, _) => p_ret (Some r)
            | (None, true) => test_all ixs' (S so_far) true
            | (None, false) => test_all ixs' so_far is_not_enough
            end
          else test_all ixs' so_far is_not_enough
      | _ => p_undef
      end)
  end.

Definition run_on_matching : proc A :=
  found ← guarded m_mutex_all RO (p_size (fun n => test_all (seq 0 n) 0 false));
  match found with Some r => p_ret r | None => p_throw ex_error_no_match_found end.
End Matching.

(** ** Threads that run together *)

(** Who holds which mutex, how. *)
Definition holding : Type := nat * mutex * access.

(** [std::shared_timed_mutex]: many readers or one writer. *)
Definition can_lock (holders : list holding) (m : mutex) (a : access) : bool :=
  forallb (fun h => negb (bool_decide (h.1.2 = m)) || (bool_decide (a = RO) && bool_decide (h.2 = RO))) holders.

Record system (R : Type) := System { memory : list (option T); holders : list holding; threads : list (proc R) }.
#[global] Arguments System {R} _ _ _.
#[global] Arguments memory {R} _.
#[global] Arguments holders {R} _.
#[global] Arguments threads {R} _.

(** One access of thread [t]; [None] when it waits or has ended. *)
Definition run_thread {R} (t : nat) (s : system R) : option (system R) :=
  let become p := System (memory s) (holders s) (<[t := p]> (threads s)) in
  match threads s !! t with
  | None | Some (p_ret _) | Some (p_throw _) | Some p_undef => None
  | Some (p_lock m a k) =>
      if can_lock (holders s) m a then Some (System (memory s) ((t, m, a) :: holders s) (<[t := k]> (threads s))) else None
  | Some (p_unlock m a k) =>
      Some (System (memory s) (base.filter (fun h => h <> (t, m, a)) (holders s)) (<[t := k]> (threads s)))
  | Some (p_size k) => Some (become (k (length (memory s))))
  | Some (p_slot ix k) => Some (become (k ((fun c => bool_decide (is_Some c)) <$> memory s !! ix)))
  | Some (p_append cells k) => Some (System (memory s ++ cells) (holders s) (<[t := k]> (threads s)))
  | Some (p_get ix k) =>
      Some (become match memory s !! ix with Some (Some x) => k x | _ => p_undef end)
  | Some (p_put ix x k) =>
      Some (System (<[ix := Some x]> (memory s)) (holders s) (<[t := k]> (threads s)))
  end.

Definition system_step {R} (s s' : system R) : Prop := exists t, run_thread t s = Some s'.
End Threads.
#[global] Arguments proc : clear implicits.
#[global] Arguments system : clear implicits.
