(* ===== verification/MutexedFacts.v ===== *)
(** * Theorems about containers shared by threads

    Programs of threads that call the container's operations on objects with an
    invariant never race, never do anything undefined and keep the invariant in
    every interleaving; they do not wait for each other forever. *)
From S2P Require Import Prelude Mutexed.
From stdpp Require Import relations.

(** ** A logic for one thread

    What a thread holds: the mutex of the container, that of one element with
    what is known of the object, and how many elements there are at least. *)
Section Logic.
Context {T : Type} (I : T -> Prop).

Record held := Held { h_all : option access; h_one : option (nat * access * option T); h_size : nat }.

Definition good_cell (c : option T) : Prop := exists x, c = Some x /\ I x.

(** [safe Q h p]: with [h] held, [p] accesses only what it may, leaves objects
    that satisfy the invariant, takes an element's mutex after the
    container's, and ends with [Q]. *)
Inductive safe {R} (Q : held -> outcome R -> Prop) : held -> proc T R -> Prop :=
  | safe_ret h r : Q h (Ret r) -> safe Q h (p_ret r)
  | safe_throw h e : Q h (Throw e) -> safe Q h (p_throw e)
  | safe_lock_all a n k : safe Q (Held (Some a) None n) k -> safe Q (Held None None n) (p_lock m_mutex_all a k)
  | safe_lock_one al ix a n k : (ix < n)%nat -> safe Q (Held al (Some (ix, a, None)) n) k ->
      safe Q (Held al None n) (p_lock (m_mutex_of ix) a k)
  | safe_unlock_all a n k : safe Q (Held None None n) k -> safe Q (Held (Some a) None n) (p_unlock m_mutex_all a k)
  | safe_unlock_one al ix a kn n k : safe Q (Held al None n) k ->
      safe Q (Held al (Some (ix, a, kn)) n) (p_unlock (m_mutex_of ix) a k)
  | safe_size a o n k : (forall n', (n <= n')%nat -> safe Q (Held (Some a) o n') (k n')) ->
      safe Q (Held (Some a) o n) (p_size k)
  | safe_slot a o n ix k : ((n <= ix)%nat -> safe Q (Held (Some a) o n) (k None)) ->
      safe Q (Held (Some a) o (Nat.max n (S ix))) (k (Some true)) -> safe Q (Held (Some a) o n) (p_slot ix k)
  | safe_append o n cells k : Forall good_cell cells -> safe Q (Held (Some RW) o n) k ->
      safe Q (Held (Some RW) o n) (p_append cells k)
  | safe_get al ix a kn n k : (forall x, I x -> (kn = None \/ kn = Some x) -> safe Q (Held al (Some (ix, a, Some x)) n) (k x)) ->
      safe Q (Held al (Some (ix, a, kn)) n) (p_get ix k)
  | safe_put al ix kn y n k : I y -> safe Q (Held al (Some (ix, RW, Some y)) n) k ->
      safe Q (Held al (Some (ix, RW, kn)) n) (p_put ix y k).
Hint Constructors safe : core.

Lemma safe_then {A B} Q Q' h (p : proc T A) (f : outcome A -> proc T B) :
  safe Q h p -> (forall h' o, Q h' o -> safe Q' h' (f o)) -> safe Q' h (p_then p f).
Proof. intros Hp Hf. induction Hp; cbn [p_then]; eauto. Qed.

Lemma safe_mono {A} Q Q' h (p : proc T A) : safe Q h p -> (forall h' o, Q h' o -> Q' h' o) -> safe Q' h p.
Proof. intros Hp Hf. induction Hp; eauto. Qed.

(** No more undefined behaviour than the functions of the caller have. *)
Definition calm {A} (o : outcome A) : Prop := match o with Ret _ | Throw _ => True | _ => False end.

(** Back to the locks of before; elements only become more. *)
Definition back {A} (al : option access) (n : nat) (h : held) (o : outcome A) : Prop :=
  h_all h = al /\ h_one h = None /\ (n <= h_size h)%nat /\ calm o.

Lemma safe_outcome {A} Q h (o : outcome A) : calm o -> Q h o -> safe Q h (p_outcome o).
Proof. destruct o; cbn; try done; eauto. Qed.

Lemma guarded_one {A} (Q : held -> outcome A -> Prop) al ix a n (body : proc T A) : (ix < n)%nat ->
  safe (fun h o => exists kn n', h = Held al (Some (ix, a, kn)) n' /\ calm o /\ Q (Held al None n') o) (Held al (Some (ix, a, None)) n) body ->
  safe Q (Held al None n) (guarded (m_mutex_of ix) a body).
Proof.
  intros Hix Hb. apply safe_lock_one; [done|]. eapply safe_then; [exact Hb|].
  intros h o (kn & n' & -> & Hc & Hq). apply safe_unlock_one. by apply safe_outcome.
Qed.

Lemma guarded_all {A} (Q : held -> outcome A -> Prop) a n (body : proc T A) :
  safe (fun h o => exists n', h = Held (Some a) None n' /\ calm o /\ Q (Held None None n') o) (Held (Some a) None n) body ->
  safe Q (Held None None n) (guarded m_mutex_all a body).
Proof.
  intros Hb. apply safe_lock_all. eapply safe_then; [exact Hb|].
  intros h o (n' & -> & Hc & Hq). apply safe_unlock_all. by apply safe_outcome.
Qed.

(** ** The operations *)

(** A function of the caller that can be run on an object. *)
Definition keeps {A} (f : T -> outcome A * T) : Prop := forall x, I x -> calm (f x).1 /\ I (f x).2.
Definition keeps_if {A} (test : T -> outcome bool) (f : T -> outcome A * T) : Prop :=
  forall x, I x -> calm (test x) /\ (test x = Ret true -> calm (f x).1 /\ I (f x).2).

Lemma use_RW_safe {A} al ix n (f : T -> outcome A * T) : (ix < n)%nat -> keeps f ->
  safe (back al n) (Held al None n) (use_RW ix f).
Proof.
  intros Hix Hf. apply guarded_one; [done|]. apply safe_get. intros x Hx _. destruct (Hf x Hx) as [Hc Hi].
  apply safe_put; [done|]. apply safe_outcome; [done|]. eexists _, _. split; [done|]. by repeat split.
Qed.

Lemma use_RO_safe {A} al ix n (f : T -> outcome A) : (ix < n)%nat -> (forall x, I x -> calm (f x)) ->
  safe (back al n) (Held al None n) (use_RO ix f).
Proof.
  intros Hix Hf. apply guarded_one; [done|]. apply safe_get. intros x Hx _. specialize (Hf x Hx).
  apply safe_outcome; [done|]. eexists _, _. split; [done|]. split; [done|]. by repeat split.
Qed.

Lemma push_back_safe n x : I x -> safe (back None n) (Held None None n) (push_back x).
Proof.
  intros Hx. apply guarded_all. apply safe_append; [repeat constructor; by exists x|]. apply safe_ret.
  exists n. by repeat split.
Qed.

Lemma vector_size_safe n : safe (back None n) (Held None None n) vector_size.
Proof. apply guarded_all. apply safe_size. intros n' Hn. apply safe_ret. exists n'. by repeat split. Qed.

Lemma run_on_safe {A} n ix (f : T -> outcome A * T) : keeps f -> safe (back None n) (Held None None n) (run_on ix f).
Proof.
  intros Hf. unfold run_on.
  eapply (safe_then (fun h o => exists n', h = Held None None n' /\ (n <= n')%nat /\
    match o with Ret b => b = true /\ (ix < n')%nat | Throw _ => True | _ => False end)).
  - apply guarded_all. apply safe_slot.
    + intros _. apply safe_throw. exists n. repeat split. exists n. by repeat split.
    + apply safe_ret. exists (Nat.max n (S ix)). repeat split. eexists. repeat split; lia.
  - intros h o (n' & -> & Hn & Ho). destruct o as [b|e| |]; try done.
    + destruct Ho as [-> Hix]. eapply safe_mono; [by apply use_RW_safe|].
      intros h o (H1 & H2 & H3 & H4). repeat split; [done|done|lia|done].
    + apply safe_throw. by repeat split.
Qed.

Section Matching.
Context {A : Type} (test : T -> outcome bool) (f : T -> outcome A * T) (limit : nat) (Hf : keeps_if test f).

Lemma run_again_safe al ix n so_far : (ix < n)%nat -> safe (back al n) (Held al None n) (run_again test f limit ix so_far).
Proof.
  intros Hix. apply guarded_one; [done|]. apply safe_get. intros x Hx _. destruct (Hf x Hx) as [Ht Hr].
  destruct (test x) as [[|]|e| |] eqn:E; try done; cbn [p_outcome p_then].
  - destruct (Hr eq_refl) as [Hc Hi]. apply safe_get. intros y _ [|[= <-]]; [done|]. apply safe_put; [done|].
    destruct (f x).1 as [r|e| |] eqn:Er; try done; cbn [p_outcome p_then].
    + apply safe_ret. eexists _, _. by repeat split.
    + apply safe_throw. eexists _, _. by repeat split.
  - apply safe_ret. eexists _, _. by repeat split.
  - apply safe_throw. eexists _, _. by repeat split.
Qed.

Lemma back_inv {B} al n h (o : outcome B) : back al n h o -> exists n', h = Held al None n' /\ (n <= n')%nat /\ calm o.
Proof. destruct h as [al' o' n']. intros (H1 & H2 & H3 & H4). cbn in *. subst. eauto. Qed.

Lemma test_all_safe a n0 : forall ixs n so_far not_enough, (n0 <= n)%nat -> Forall (fun ix => ix < n0)%nat ixs ->
  safe (fun h o => exists n', h = Held (Some a) None n' /\ calm o /\ (n0 <= n')%nat) (Held (Some a) None n)
    (test_all test f limit ixs so_far not_enough).
Proof.
  induction ixs as [|ix ixs IH]; intros n so_far not_enough Hn H; cbn [test_all].
  { destruct not_enough; [apply safe_throw|apply safe_ret]; exists n; by repeat split. }
  inversion_clear H as [|? ? Hix Hixs]. apply safe_slot; [lia|]. rewrite Nat.max_l by lia.
  eapply safe_then; [apply use_RO_safe; [lia|intros x Hx; by apply Hf]|].
  intros h o (n1 & -> & Hn1 & Ho)%back_inv.
  destruct o as [[|]|e| |]; try done; [|apply IH; [lia|done]|apply safe_throw; exists n1; repeat split; lia].
  eapply safe_then; [apply run_again_safe; lia|]. intros h o (n2 & -> & Hn2 & Ho')%back_inv.
  destruct o as [[[r|] [|]]|e| |]; try done.
  - apply safe_ret. exists n2. repeat split; lia.
  - apply safe_ret. exists n2. repeat split; lia.
  - apply IH; [lia|done].
  - apply IH; [lia|done].
  - apply safe_throw. exists n2. repeat split; lia.
Qed.

Lemma run_on_matching_safe n : safe (back None n) (Held None None n) (run_on_matching test f limit).
Proof.
  unfold run_on_matching.
  eapply (safe_then (fun h o => exists n', h = Held None None n' /\ calm o /\ (n <= n')%nat)).
  - apply guarded_all. apply safe_size. intros n' Hn. eapply safe_mono.
    + apply (test_all_safe _ n'); [done|]. apply Forall_forall. intros ix Hix%elem_of_seq. lia.
    + intros h o (n'' & -> & Hc & Hn'). exists n''. repeat split; [done|eexists; repeat split; [done|lia]].
  - intros h o (n' & -> & Hc & Hn). destruct o as [[r|]|e| |]; try done; constructor; by repeat split.
Qed.
End Matching.

(** ** Threads of a program *)

(** A thread that calls the operations one after the other, and may handle
    their exceptions. *)
Inductive client {R} : proc T R -> Prop :=
  | client_ret r : client (p_ret r)
  | client_throw e : client (p_throw e)
  | client_push_back x k : I x -> (forall o, client (k o)) -> client (p_then (push_back x) k)
  | client_size k : (forall o, client (k o)) -> client (p_then vector_size k)
  | client_run_on {A} ix (f : T -> outcome A * T) k : keeps f -> (forall o, client (k o)) -> client (p_then (run_on ix f) k)
  | client_matching {A} test (f : T -> outcome A * T) limit k : keeps_if test f -> (forall o, client (k o)) ->
      client (p_then (run_on_matching test f limit) k).

Definition ended {R} (h : held) (_ : outcome R) : Prop := h_all h = None /\ h_one h = None.

Lemma client_safe {R} (p : proc T R) : client p -> forall n, safe ended (Held None None n) p.
Proof.
  induction 1; intros n; try (by constructor); (eapply safe_then;
    [first [by apply push_back_safe|apply vector_size_safe|by apply run_on_safe|by apply run_on_matching_safe]|]);
    intros h o (n' & -> & _)%back_inv; auto.
Qed.

(** ** What holds in every interleaving *)

Definition holds (h : held) (m : mutex) (a : access) : Prop :=
  match m with m_mutex_all => h_all h = Some a | m_mutex_of ix => exists kn, h_one h = Some (ix, a, kn) end.

Definition exclusive (l : list holding) : Prop :=
  forall t t' m a a', (t, m, a) ∈ l -> (t', m, a') ∈ l -> t = t' \/ (a = RO /\ a' = RO).

(** What a thread knows is true of the memory. *)
Definition knows (mem : list (option T)) (h : held) : Prop :=
  (h_size h <= length mem)%nat /\
  forall ix a kn, h_one h = Some (ix, a, kn) -> (ix < length mem)%nat /\ forall x, kn = Some x -> mem !! ix = Some (Some x).

Record sys_ok {R} (s : system T R) (hs : list held) : Prop := {
  ok_threads : Forall2 (safe ended) hs (threads s);
  ok_holders : forall t m a, (t, m, a) ∈ holders s <-> exists h, hs !! t = Some h /\ holds h m a;
  ok_exclusive : exclusive (holders s);
  ok_memory : Forall good_cell (memory s);
  ok_knows : forall t h, hs !! t = Some h -> knows (memory s) h
}.

Lemma step_ok {R} (s : system T R) hs t h p h' p' mem' hold' :
  sys_ok s hs -> hs !! t = Some h -> threads s !! t = Some p ->
  safe ended h' p' -> Forall good_cell mem' -> exclusive hold' ->
  (forall t' m a, (t', m, a) ∈ hold' <-> (t' <> t /\ (t', m, a) ∈ holders s) \/ (t' = t /\ holds h' m a)) ->
  (forall t' h0, t' <> t -> hs !! t' = Some h0 -> knows mem' h0) -> knows mem' h' ->
  sys_ok (System mem' hold' (<[t := p']> (threads s))) (<[t := h']> hs).
Proof.
  intros H Hh Hp Hs Hm Hx Hl Hk Hk'. pose proof (lookup_lt_Some _ _ _ Hh) as Hlt. constructor; cbn; try done.
  - apply Forall2_insert; [apply (ok_threads _ _ H)|done].
  - intros t' m a. rewrite Hl. destruct (decide (t' = t)) as [->|Hne].
    + rewrite list_lookup_insert_eq by done. split; [intros [[]|[_ ?]]; [done|eauto]|intros (h0 & [= <-] & ?); auto].
    + rewrite list_lookup_insert_ne, (ok_holders _ _ H) by done. split; [intros [[_ ?]|[]]; done|auto].
  - intros t' h0 E. destruct (decide (t' = t)) as [->|Hne].
    + rewrite list_lookup_insert_eq in E by done. by injection E as <-.
    + rewrite list_lookup_insert_ne in E by done. eauto.
Qed.

(** A step that takes or leaves no mutex. *)
Lemma step_same_locks {R} (s : system T R) hs t h p h' p' mem' :
  sys_ok s hs -> hs !! t = Some h -> threads s !! t = Some p ->
  safe ended h' p' -> Forall good_cell mem' -> (forall m a, holds h' m a <-> holds h m a) ->
  (forall t' h0, t' <> t -> hs !! t' = Some h0 -> knows mem' h0) -> knows mem' h' ->
  sys_ok (System mem' (holders s) (<[t := p']> (threads s))) (<[t := h']> hs).
Proof.
  intros H Hh Hp Hs Hm Hsame Hk Hk'. eapply step_ok; try done; [apply (ok_exclusive _ _ H)|].
  intros t' m a. rewrite (ok_holders _ _ H). destruct (decide (t' = t)) as [->|Hne].
  - split; [intros (h0 & E & ?); right; rewrite Hsame; simplify_eq; done|intros [[]|[_ ?]]; [done|exists h; by rewrite <- Hsame]].
  - split; [auto|intros [[_ ?]|[]]; done].
Qed.

Lemma holder_unique {R} (s : system T R) hs t t' h h' ix a a' kn kn' : sys_ok s hs ->
  hs !! t = Some h -> hs !! t' = Some h' -> h_one h = Some (ix, a, kn) -> h_one h' = Some (ix, a', kn') -> a = RW -> t = t'.
Proof.
  intros H Hh Hh' E E' ->.
  destruct (ok_exclusive _ _ H t t' (m_mutex_of ix) RW a') as [?|[]]; try done; apply (ok_holders _ _ H); eexists; (split; [done|]); cbn; eauto.
Qed.

Lemma knows_append mem cells h : knows mem h -> knows (mem ++ cells) h.
Proof.
  intros [H1 H2]. split; [rewrite length_app; lia|]. intros ix a kn E. destruct (H2 ix a kn E) as [Hlt Hx].
  split; [rewrite length_app; lia|]. intros x Ex. by rewrite lookup_app_l, (Hx x) by done.
Qed.

Lemma knows_put mem ix y h : knows mem h -> (forall a kn, h_one h = Some (ix, a, kn) -> kn = None \/ kn = Some y) -> knows (<[ix := Some y]> mem) h.
Proof.
  intros [H1 H2] Hn. split; [by rewrite length_insert|]. intros jx a kn E. destruct (H2 jx a kn E) as [Hlt Hx].
  split; [by rewrite length_insert|]. intros x ->. destruct (decide (jx = ix)) as [->|Hne].
  - rewrite list_lookup_insert_eq by done. by destruct (Hn _ _ E) as [|[= ->]].
  - by rewrite list_lookup_insert_ne, (Hx x) by done.
Qed.

Lemma can_lock_exclusive l t m a : exclusive l -> can_lock l m a = true -> exclusive ((t, m, a) :: l).
Proof.
  intros Hx Hc t1 t2 m' a1 a2 H1 H2. unfold can_lock in Hc. rewrite forallb_forall in Hc.
  assert (Hd : forall t0 a0, (t0, m, a0) ∈ l -> a = RO /\ a0 = RO).
  { intros t0 a0 H0. specialize (Hc (t0, m, a0)). rewrite <- list_elem_of_In in Hc. specialize (Hc H0). cbn in Hc.
    rewrite bool_decide_eq_true_2 in Hc by done. cbn in Hc. apply andb_true_iff in Hc as [?%bool_decide_eq_true ?%bool_decide_eq_true]. done. }
  rewrite !elem_of_cons in H1, H2. destruct H1 as [[= -> -> ->]|H1], H2 as [E|H2]; try (injection E as -> -> ->); eauto.
  - injection E as ->. by left.
  - destruct (Hd _ _ H1). auto.
Qed.

Lemma safe_thread {R} (s : system T R) hs t p : sys_ok s hs -> threads s !! t = Some p ->
  exists h, hs !! t = Some h /\ safe ended h p.
Proof. intros H Hp. destruct (Forall2_lookup_r _ _ _ _ _ (ok_threads _ _ H) Hp) as (h & Hh & Hs). eauto. Qed.

Lemma step_lock {R} (s : system T R) hs t h p h' p' m a :
  sys_ok s hs -> hs !! t = Some h -> threads s !! t = Some p -> safe ended h' p' ->
  can_lock (holders s) m a = true -> knows (memory s) h' ->
  (forall m' a', holds h' m' a' <-> (m' = m /\ a' = a) \/ holds h m' a') ->
  sys_ok (System (memory s) ((t, m, a) :: holders s) (<[t := p']> (threads s))) (<[t := h']> hs).
Proof.
  intros H Hh Hp Hs Hc Hk Hl. eapply step_ok; try done; [apply (ok_memory _ _ H)|by apply can_lock_exclusive, Hc; apply (ok_exclusive _ _ H)| |].
  - intros t' m' a'. rewrite elem_of_cons, Hl. pose proof (ok_holders _ _ H t m' a') as Ht. split.
    + intros [[= -> -> ->]|Hin]; [by right; auto|]. destruct (decide (t' = t)) as [->|]; [|auto].
      apply Ht in Hin as (h0 & E & ?). simplify_eq. auto.
    + intros [[_ ?]|[-> [[-> ->]|?]]]; auto. right. apply Ht. eauto.
  - intros t' h0 _. apply (ok_knows _ _ H).
Qed.

Lemma step_unlock {R} (s : system T R) hs t h p h' p' m a :
  sys_ok s hs -> hs !! t = Some h -> threads s !! t = Some p -> safe ended h' p' -> knows (memory s) h' ->
  (forall m' a', holds h' m' a' <-> holds h m' a' /\ (m', a') <> (m, a)) ->
  sys_ok (System (memory s) (base.filter (fun x => x <> (t, m, a)) (holders s)) (<[t := p']> (threads s))) (<[t := h']> hs).
Proof.
  intros H Hh Hp Hs Hk Hl. eapply step_ok; try done; [apply (ok_memory _ _ H)| | |].
  - intros t1 t2 m' a1 a2 [_ H1]%list_elem_of_filter [_ H2]%list_elem_of_filter. by eapply (ok_exclusive _ _ H).
  - intros t' m' a'. rewrite list_elem_of_filter, Hl. pose proof (ok_holders _ _ H t m' a') as Ht. split.
    + intros [Hne Hin]. destruct (decide (t' = t)) as [->|]; [|auto].
      apply Ht in Hin as (h0 & E & ?). simplify_eq. right. split; [done|]. split; [done|]. by intros [= -> ->].
    + intros [[Hne ?]|[-> [? Hne]]]; (split; [by intros ?; simplify_eq|]); [done|]. apply Ht. eauto.
  - intros t' h0 _. apply (ok_knows _ _ H).
Qed.

(** What two descriptions of a thread hold, compared mutex by mutex. *)
Ltac locks :=
  let m := fresh in let a := fresh in intros m a; destruct m; cbn; clear; split; intros;
  repeat match goal with
    | H : _ /\ _ |- _ => destruct H | H : _ \/ _ |- _ => destruct H | H : exists _, _ |- _ => destruct H
    end; simplify_eq; eauto 7;
  repeat split; eauto; intros ?; simplify_eq; eauto; congruence.

Lemma run_ok {R} (s s' : system T R) hs t : sys_ok s hs -> run_thread t s = Some s' -> exists h', sys_ok s' (<[t := h']> hs).
Proof.
  intros H E. unfold run_thread in E. destruct (threads s !! t) as [p|] eqn:Hp; [|done].
  destruct (safe_thread _ _ _ _ H Hp) as (h & Hh & Hs). pose proof (ok_knows _ _ H) as Hk. pose proof (Hk _ _ Hh) as [Hn Ho].
  pose proof (ok_memory _ _ H) as Hm.
  inversion Hs as [| |a n k Hsafe|al ix a n k Hix Hsafe|a n k Hsafe|al ix a kn n k Hsafe|a o n k Hsafe|a o n ix k Hsafe1 Hsafe2
    |o n cells k Hcells Hsafe|al ix a kn n k Hsafe|al ix kn y n k Hy Hsafe]; subst; try done; cbn [h_all h_one h_size] in *.
  - destruct (can_lock (holders s) m_mutex_all a) eqn:Ec; [|done]. injection E as <-. eexists. eapply step_lock; try done.
    locks.
  - destruct (can_lock (holders s) (m_mutex_of ix) a) eqn:Ec; [|done]. injection E as <-. eexists. eapply step_lock; try done.
    + split; [done|]. intros jx b kn [= <- <- <-]. split; [lia|done].
    + locks.
  - injection E as <-. eexists. eapply step_unlock; try done. locks.
  - injection E as <-. eexists. eapply step_unlock; try done. locks.
  - injection E as <-. exists (Held (Some a) o (length (memory s))). eapply step_same_locks; try done; [by apply Hsafe|by intros t' h0 _; apply Hk].
  - injection E as <-. destruct (memory s !! ix) as [c|] eqn:Ec.
    + rewrite Forall_lookup in Hm. destruct (Hm _ _ Ec) as (x & -> & Hx). eexists.
      eapply step_same_locks; try done; [by apply Forall_lookup|by intros t' h0 _; apply Hk|].
      split; cbn; [|done]. apply lookup_lt_Some in Ec. lia.
    + apply lookup_ge_None in Ec. eexists. eapply step_same_locks; try done; [apply Hsafe1; lia|by intros t' h0 _; apply Hk].
  - injection E as <-. eexists. eapply step_same_locks; try done; [by apply Forall_app|intros t' h0 _ E0; by apply knows_append, (Hk t')|by apply knows_append].
  - injection E as <-. destruct (Ho ix a kn eq_refl) as [Hlt Hx]. destruct (lookup_lt_is_Some_2 _ _ Hlt) as [c Ec]. rewrite Ec.
    pose proof Hm as Hm'. rewrite Forall_lookup in Hm'. destruct (Hm' _ _ Ec) as (x & -> & Hi).
    exists (Held al (Some (ix, a, Some x)) n).
    eapply step_same_locks; try done.
    + apply (Hsafe x); [done|]. destruct kn as [y|]; [|by left]. right. rewrite (Hx y eq_refl) in Ec. by injection Ec as ->.
    + locks.
    + intros t' h0 _; apply Hk.
    + split; [done|]. cbn. intros jx b kn' [= <- <- <-]. split; [done|]. by intros z [= <-].
  - injection E as <-. exists (Held al (Some (ix, RW, Some y)) n). eapply step_same_locks; try done.
    + apply Forall_insert; [done|]. by exists y.
    + locks.
    + intros t' h0 Hne E0. apply knows_put; [by apply (Hk t')|]. intros b kn' E1. exfalso. apply Hne. symmetry.
      by eapply (holder_unique s hs t t' (Held al (Some (ix, RW, kn)) n) h0).
    + split; cbn; rewrite length_insert; [done|]. intros jx b kn' [= <- <- <-].
      destruct (Ho ix RW kn eq_refl) as [Hlt _]. split; [done|]. intros z [= <-]. by rewrite list_lookup_insert_eq.
Qed.

Lemma clients_safe {R} (ps : list (proc T R)) : Forall client ps -> Forall (safe ended (Held None None 0)) ps.
Proof. intros Hp. eapply Forall_impl; [exact Hp|]. intros p Hc. by apply client_safe. Qed.

Lemma runs_ok {R} (s s' : system T R) hs : sys_ok s hs -> rtc system_step s s' -> exists hs', sys_ok s' hs'.
Proof.
  intros H Hr. revert hs H. induction Hr as [s|s s1 s' [t Ht] _ IH]; intros hs H; [eauto|].
  destruct (run_ok _ _ _ _ H Ht) as [h' H']. eauto.
Qed.

(** The start: every thread holds nothing. *)
Lemma start_ok {R} (mem : list (option T)) (ps : list (proc T R)) : Forall good_cell mem -> Forall (safe ended (Held None None 0)) ps ->
  sys_ok (System mem [] ps) (replicate (length ps) (Held None None 0)).
Proof.
  intros Hm Hp. constructor; cbn; try done.
  - by apply Forall2_replicate_l.
  - intros t m a. split; [by intros ?%elem_of_nil|]. intros (h & [-> _]%lookup_replicate & Hh). destruct m; [done|by destruct Hh].
  - intros t t' m a a' ?%elem_of_nil. done.
  - intros t h [-> _]%lookup_replicate. split; cbn; [lia|done].
Qed.

(** ** Races, waiting, termination *)

(** The shared data that a thread is about to access, and whether it writes. *)
Inductive data := d_vector | d_object (ix : nat).
Definition touches {R} (p : proc T R) : option (data * bool) :=
  match p with
  | p_size _ | p_slot _ _ => Some (d_vector, false)
  | p_append _ _ => Some (d_vector, true)
  | p_get ix _ => Some (d_object ix, false)
  | p_put ix _ _ => Some (d_object ix, true)
  | _ => None
  end.
Definition race {R} (s : system T R) : Prop := exists t t' p p' d w w', t <> t' /\
  threads s !! t = Some p /\ threads s !! t' = Some p' /\
  touches p = Some (d, w) /\ touches p' = Some (d, w') /\ w || w' = true.

Definition mutex_of (d : data) : mutex := match d with d_vector => m_mutex_all | d_object ix => m_mutex_of ix end.

Lemma touch_holds {R} Q h (p : proc T R) d w : safe Q h p -> touches p = Some (d, w) ->
  exists a, holds h (mutex_of d) a /\ (w = true -> a = RW).
Proof. intros Hs E. inversion Hs; subst; cbn in E; simplify_eq; cbn; (eexists; split; [eauto|done]). Qed.

Lemma no_race {R} (s : system T R) hs : sys_ok s hs -> ~ race s.
Proof.
  intros H (t & t' & p & p' & d & w & w' & Hne & Hp & Hp' & E & E' & Hw).
  destruct (safe_thread _ _ _ _ H Hp) as (h & Hh & Hs). destruct (safe_thread _ _ _ _ H Hp') as (h' & Hh' & Hs').
  destruct (touch_holds _ _ _ _ _ Hs E) as (a & Ha & Hrw). destruct (touch_holds _ _ _ _ _ Hs' E') as (a' & Ha' & Hrw').
  assert ((t, mutex_of d, a) ∈ holders s) by (apply (ok_holders _ _ H); eauto).
  assert ((t', mutex_of d, a') ∈ holders s) by (apply (ok_holders _ _ H); eauto).
  destruct (ok_exclusive _ _ H t t' (mutex_of d) a a') as [?|[-> ->]]; try done.
  apply orb_true_iff in Hw as [->| ->]; [by specialize (Hrw eq_refl)|by specialize (Hrw' eq_refl)].
Qed.

Definition finished {R} (p : proc T R) : Prop := match p with p_ret _ | p_throw _ => True | _ => False end.
Definition takes {R} (p : proc T R) : option (mutex * access) := match p with p_lock m a _ => Some (m, a) | _ => None end.

(** Only taking a mutex can make a thread wait. *)
Lemma runs_unless {R} Q (s : system T R) t h p : threads s !! t = Some p -> safe Q h p -> ~ finished p ->
  (forall m a, takes p = Some (m, a) -> can_lock (holders s) m a = true) -> exists s', run_thread t s = Some s'.
Proof.
  intros Hp Hs Hf Hl. unfold run_thread. rewrite Hp.
  inversion Hs; subst; cbn in *; try (by destruct Hf); eauto; rewrite (Hl _ _ eq_refl); eauto.
Qed.

Lemma free_can_lock (l : list holding) m a : (forall t b, (t, m, b) ∉ l) -> can_lock l m a = true.
Proof.
  intros H. apply forallb_forall. intros [[t m'] b] Hin%list_elem_of_In. cbn.
  destruct (decide (m' = m)) as [->|Hne]; [by destruct (H t b)|]. by rewrite bool_decide_eq_false_2.
Qed.

(** Somebody can go on: a thread with an element's mutex waits for nothing, one
    with the container's only for elements, the others for these. *)
Lemma some_thread_runs {R} (s : system T R) hs : sys_ok s hs -> (exists t p, threads s !! t = Some p /\ ~ finished p) ->
  exists t s', run_thread t s = Some s'.
Proof.
  intros H (t0 & p0 & Hp0 & Hf0). destruct (safe_thread _ _ _ _ H Hp0) as (h0 & Hh0 & Hs0).
  assert (Hget : forall t h, hs !! t = Some h -> exists p, threads s !! t = Some p /\ safe ended h p).
  { intros t h E. destruct (Forall2_lookup_l _ _ _ _ _ (ok_threads _ _ H) E) as (p & ? & ?). eauto. }
  assert (Hfin : forall h (p : proc T R), safe ended h p -> finished p -> h_all h = None /\ h_one h = None).
  { intros h p Hs Hf. by inversion Hs; subst. }
  destruct (decide (Exists (fun h => is_Some (h_one h)) hs)) as [(h & Hin & [x Hx])%Exists_exists|Hno].
  { apply list_elem_of_lookup in Hin as [t Ht]. destruct (Hget _ _ Ht) as (p & Hp & Hs). exists t.
    eapply runs_unless; try done; [intros Hf; by destruct (Hfin _ _ Hs Hf); simplify_eq|].
    intros m a E. inversion Hs; subst; cbn in *; simplify_eq. }
  rewrite <- Forall_Exists_neg, Forall_lookup in Hno.
  assert (Hfree : forall ix t b, (t, m_mutex_of ix, b) ∉ holders s).
  { intros ix t b (h & E & [kn Ekn])%(ok_holders _ _ H). apply (Hno _ _ E). by rewrite Ekn. }
  destruct (decide (Exists (fun h => is_Some (h_all h)) hs)) as [(h & Hin & [x Hx])%Exists_exists|Hnone].
  { apply list_elem_of_lookup in Hin as [t Ht]. destruct (Hget _ _ Ht) as (p & Hp & Hs). exists t.
    eapply runs_unless; try done; [intros Hf; by destruct (Hfin _ _ Hs Hf); simplify_eq|].
    intros m a E. inversion Hs; subst; cbn in *; simplify_eq. by apply free_can_lock. }
  rewrite <- Forall_Exists_neg, Forall_lookup in Hnone.
  exists t0. eapply runs_unless; try done. intros m a _. apply free_can_lock. intros t b Hin. destruct m; [|by apply (Hfree ix t b)].
  apply (ok_holders _ _ H) in Hin as (h & E & Ha). apply (Hnone _ _ E). by rewrite Ha.
Qed.

(** What may be left of a thread after one access. *)
Inductive rest {R} : proc T R -> proc T R -> Prop :=
  | rest_lock m a k : rest k (p_lock m a k)
  | rest_unlock m a k : rest k (p_unlock m a k)
  | rest_size n k : rest (k n) (p_size k)
  | rest_slot ix c k : rest (k c) (p_slot ix k)
  | rest_append cells k : rest k (p_append cells k)
  | rest_get ix x k : rest (k x) (p_get ix k)
  | rest_bad_get ix k : rest p_undef (p_get ix k)
  | rest_put ix x k : rest k (p_put ix x k).

Lemma rest_wf {R} (p : proc T R) : Acc rest p.
Proof.
  assert (Acc rest (@p_undef T R)) by (constructor; intros q Hq; inversion Hq).
  induction p; constructor; intros q Hq; inversion Hq; subst; auto.
Qed.

Definition one_less {R} (l' l : list (proc T R)) : Prop := exists t p p', l !! t = Some p /\ rest p' p /\ l' = <[t := p']> l.

Lemma one_less_wf {R} (l : list (proc T R)) : Acc one_less l.
Proof.
  induction l as [|p l IHl]; [constructor; by intros l' (t & p & p' & [=] & _)|].
  revert l IHl. induction (rest_wf p) as [p _ IHp]. intros l Hl. induction Hl as [l Hl IHl]. constructor.
  intros l' ([|t] & q & q' & Hq & Hr & ->); cbn in *.
  - injection Hq as ->. apply IHp; [done|by constructor].
  - apply IHl. by exists t, q, q'.
Qed.

Lemma run_less {R} t (s s' : system T R) : run_thread t s = Some s' -> one_less (threads s') (threads s).
Proof.
  unfold run_thread. destruct (threads s !! t) as [p|] eqn:Hp; [|done]. intros E.
  destruct p; try done; try (destruct (can_lock _ _ _); [|done]); injection E as <-; exists t; eexists _, _;
    (split; [exact Hp|]); (split; [|reflexivity]); try constructor.
  destruct (memory s !! ix) as [[x|]|]; constructor.
Qed.

Definition later {R} (s' s : system T R) : Prop := system_step s s'.

Lemma later_wf {R} (s : system T R) : Acc later s.
Proof.
  remember (threads s) as l eqn:El. revert s El. induction (one_less_wf l) as [l _ IH]. intros s ->.
  constructor. intros s' [t Ht]. eapply IH; [exact (run_less _ _ _ Ht)|done].
Qed.

Lemma finished_holders {R} (s : system T R) hs : sys_ok s hs -> Forall finished (threads s) -> holders s = [].
Proof.
  intros H Hall. destruct (holders s) as [|[[t m] a] l] eqn:El; [done|]. exfalso.
  destruct (proj1 (ok_holders _ _ H t m a)) as (h & Hh & Ha); [rewrite El; left|].
  destruct (Forall2_lookup_l _ _ _ _ _ (ok_threads _ _ H) Hh) as (p & Ep & Hs). rewrite Forall_lookup in Hall. specialize (Hall _ _ Ep).
  assert (h_all h = None /\ h_one h = None) as [E1 E2] by (inversion Hs; subst; done).
  destruct m; cbn in Ha; [congruence|]. destruct Ha as [kn Ha]. congruence.
Qed.

(** C27: in every interleaving of threads that call the operations of the
    container on objects with an invariant that their functions keep, no two
    threads ever race, nothing undefined happens, and every object satisfies the
    invariant whenever no function is working on it: what a function does to an
    object while it holds the object's mutex is written in one step, so states
    in the middle of a function are not among those of the model. *)
Theorem vector_threads_safe {R} (mem : list (option T)) (ps : list (proc T R)) s' :
  Forall good_cell mem -> Forall client ps -> rtc system_step (System mem [] ps) s' ->
  ~ race s' /\ Forall good_cell (memory s') /\ Forall (fun p => p <> p_undef) (threads s').
Proof.
  intros Hm Hp Hr. destruct (runs_ok _ _ _ (start_ok _ _ Hm (clients_safe _ Hp)) Hr) as [hs H].
  split; [by eapply no_race|]. split; [by apply (ok_memory _ _ H)|].
  apply Forall_lookup. intros t p E ->. destruct (safe_thread _ _ _ _ H E) as (h & _ & Hs). inversion Hs.
Qed.

(** C28: such threads never wait for each other forever: every execution ends,
    and when nothing can go on every thread has returned or thrown and no mutex
    is held. *)
Theorem vector_threads_end {R} (mem : list (option T)) (ps : list (proc T R)) :
  Forall good_cell mem -> Forall client ps ->
  Acc later (System mem [] ps) /\
  forall s', rtc system_step (System mem [] ps) s' -> (forall s'', ~ system_step s' s'') -> Forall finished (threads s') /\ holders s' = [].
Proof.
  intros Hm Hp. split; [apply later_wf|]. intros s' Hr Hstop.
  destruct (runs_ok _ _ _ (start_ok _ _ Hm (clients_safe _ Hp)) Hr) as [hs H].
  assert (Hall : Forall finished (threads s')).
  { apply Forall_lookup. intros t p E. destruct p; try done; exfalso;
      (destruct (some_thread_runs _ _ H) as (t' & s'' & Hs); [by eexists t, _; split; [exact E|intros []]|by apply (Hstop s''); exists t']). }
  split; [done|]. by eapply finished_holders.
Qed.

(** ** One thread alone *)

Fixpoint eval {R} (p : proc T R) (mem : list (option T)) : outcome R * list (option T) :=
  match p with
  | p_ret r => (Ret r, mem)
  | p_throw e => (Throw e, mem)
  | p_undef => (Undef, mem)
  | p_lock _ _ k | p_unlock _ _ k => eval k mem
  | p_size k => eval (k (length mem)) mem
  | p_slot ix k => eval (k ((fun c => bool_decide (is_Some c)) <$> mem !! ix)) mem
  | p_append cells k => eval k (mem ++ cells)
  | p_get ix k => match mem !! ix with Some (Some x) => eval (k x) mem | _ => (Undef, mem) end
  | p_put ix x k => eval k (<[ix := Some x]> mem)
  end.

Lemma eval_then {A B} (p : proc T A) (h : outcome A -> proc T B) mem :
  eval (p_then p h) mem = match eval p mem with (Undef, mem') => (Undef, mem') | (o, mem') => eval (h o) mem' end.
Proof.
  revert mem. induction p; intros mem; cbn; auto. destruct (mem !! ix) as [[x|]|]; auto.
Qed.

Lemma eval_outcome {A} (o : outcome A) mem : calm o -> eval (p_outcome o) mem = (o, mem).
Proof. by destruct o. Qed.

Lemma eval_guarded {A} m a (body : proc T A) mem o mem' : eval body mem = (o, mem') -> calm o -> eval (guarded m a body) mem = (o, mem').
Proof. intros E Hc. unfold guarded. cbn [eval]. rewrite eval_then, E. by destruct o. Qed.

Lemma step_eval {R} t (s s' : system T R) p : threads s = [p] -> run_thread t s = Some s' ->
  exists p', threads s' = [p'] /\ eval p' (memory s') = eval p (memory s).
Proof.
  unfold run_thread. intros ->. destruct t; [cbn|done]. destruct p; try done; try (destruct (can_lock _ _ _); [|done]); intros E; injection E as <-; cbn; eauto.
  destruct (memory s !! ix) as [[x|]|] eqn:E; eauto.
Qed.

(** A thread that has all for itself runs to its end. *)
Lemma alone {R} (p : proc T R) mem o mem' : Forall good_cell mem -> safe ended (Held None None 0) p -> eval p mem = (o, mem') ->
  rtc system_step (System mem [] [p]) (System mem' [] [p_outcome o]).
Proof.
  intros Hm Hp E.
  assert (Hx : forall s hs p, sys_ok s hs -> threads s = [p] -> eval p (memory s) = (o, mem') -> rtc system_step s (System mem' [] [p_outcome o])).
  2: { eapply Hx; [apply start_ok; [done|by constructor]|done|done]. }
  clear. intros s. induction (later_wf s) as [s _ IH]. intros hs p H Ep E.
  assert (finished p \/ ~ finished p) as [Hf|Hf] by (destruct p; cbn; tauto).
  - assert (holders s = []) as Eh by (eapply finished_holders; [done|rewrite Ep; by constructor]).
    destruct s as [m l ts]. cbn in *. subst. destruct p; try done; cbn in E; injection E as <- <-; apply rtc_refl.
  - destruct (some_thread_runs _ _ H) as (t & s1 & Hs).
    { exists 0%nat, p. by rewrite Ep. }
    destruct (run_ok _ _ _ _ H Hs) as [h' H']. destruct (step_eval _ _ _ _ Ep Hs) as (p' & Ep' & E').
    eapply rtc_l; [by exists t|]. eapply IH; [by exists t|done|done|by rewrite E'].
Qed.

Lemma eval_RO {A} ix (test : T -> outcome A) mem x : mem !! ix = Some (Some x) -> calm (test x) ->
  eval (use_RO ix test) mem = (test x, mem).
Proof. intros E Hc. apply eval_guarded; [|done]. cbn. rewrite E. by apply eval_outcome. Qed.

Lemma eval_RW {A} ix (f : T -> outcome A * T) mem x : mem !! ix = Some (Some x) -> calm (f x).1 ->
  eval (use_RW ix f) mem = ((f x).1, <[ix := Some (f x).2]> mem).
Proof. intros E Hc. apply eval_guarded; [|done]. cbn. rewrite E. by apply eval_outcome. Qed.

Lemma eval_run_on {A} ix (f : T -> outcome A * T) mem : (forall x, mem !! ix = Some (Some x) -> calm (f x).1) ->
  eval (run_on ix f) mem = match mem !! ix with
    | None => (Throw ex_out_of_range, mem)
    | Some None => (Undef, mem)
    | Some (Some x) => ((f x).1, <[ix := Some (f x).2]> mem)
    end.
Proof.
  intros Hc. unfold run_on, guarded, mbind, proc_mbind. cbn [p_then eval].
  destruct (mem !! ix) as [[x|]|] eqn:E; cbn [fmap option_fmap option_map p_then eval p_outcome]; try done.
  apply eval_RW; auto.
Qed.

Section Exact.
Context {A : Type} (test : T -> bool) (f : T -> outcome A * T) (limit : nat).
Context (Hc : forall x, test x = true -> calm (f x).1).

Notation matching := (run_on_matching (fun x => Ret (test x)) f limit).
Notation visit := (test_all (fun x => Ret (test x)) f limit).

(** An object that matches is given to the function. *)
Definition visited (x : T) : T := if test x then (f x).2 else x.
Definition matches (xs : list T) : nat := length (base.filter (fun x => test x = true) xs).

Lemma eval_again ix so_far mem x : mem !! ix = Some (Some x) ->
  eval (run_again (fun x => Ret (test x)) f limit ix so_far) mem =
    if test x then (r ← (f x).1; Ret (if (limit <=? S so_far)%nat then Some r else None, true), <[ix := Some (f x).2]> mem)
    else (Ret (None, false), mem).
Proof.
  intros E. destruct (test x) eqn:Et.
  - specialize (Hc x Et). apply eval_guarded; [|by destruct (f x).1]. cbn. rewrite E. cbn. rewrite Et. cbn. rewrite E. by destruct (f x).1.
  - apply eval_guarded; [|done]. cbn. rewrite E. cbn. by rewrite Et.
Qed.

(** One more element. *)
Lemma eval_visit ix ixs so_far ne mem x : mem !! ix = Some (Some x) ->
  eval (visit (ix :: ixs) so_far ne) mem =
    if test x then
      match (f x).1 with
      | Ret r => if (limit <=? S so_far)%nat then (Ret (Some r), <[ix := Some (f x).2]> mem)
                 else eval (visit ixs (S so_far) true) (<[ix := Some (f x).2]> mem)
      | o => (o ≫= (fun _ => Ret None), <[ix := Some (f x).2]> mem)
      end
    else eval (visit ixs so_far ne) mem.
Proof.
  intros E. cbn [test_all eval]. rewrite E. cbn [fmap option_fmap option_map].
  replace (bool_decide (is_Some (Some x))) with true by (symmetry; by apply bool_decide_eq_true).
  unfold mbind, proc_mbind. rewrite eval_then, (eval_RO _ _ _ x) by done. destruct (test x) eqn:Et; [|done].
  rewrite eval_then, (eval_again _ _ _ x), Et by done. specialize (Hc x Et).
  destruct (f x).1 as [r|e| |]; try done; cbn. by destruct (limit <=? S so_far)%nat.
Qed.

Lemma eval_visits : forall xs pre post n so_far ne, (so_far + matches xs < Nat.max limit 1)%nat ->
  (forall x, x ∈ xs -> test x = true -> exists r, (f x).1 = Ret r) ->
  eval (visit (seq (length pre) (length xs + n)) so_far ne) (map Some (pre ++ xs ++ post)) =
  eval (visit (seq (length pre + length xs) n) (so_far + matches xs) (ne || (0 <? matches xs)%nat)) (map Some (pre ++ map visited xs ++ post)).
Proof.
  induction xs as [|x xs IH]; intros pre post n so_far ne Hl Hr.
  { cbn. by rewrite !Nat.add_0_r, orb_false_r. }
  assert (E : map Some (pre ++ (x :: xs) ++ post) !! length pre = Some (Some x)) by (by rewrite list_lookup_fmap, lookup_app_r, Nat.sub_diag).
  cbn [length Nat.add seq]. rewrite (eval_visit _ _ _ _ _ x E). unfold matches in *. cbn [map] in *.
  assert (Hstep : forall y so_far' ne', (so_far' + length (base.filter (fun x => test x = true) xs) < Nat.max limit 1)%nat ->
    eval (visit (seq (S (length pre)) (length xs + n)) so_far' ne') (map Some (pre ++ (y :: xs) ++ post)) =
    eval (visit (seq (length pre + S (length xs)) n) (so_far' + length (base.filter (fun x => test x = true) xs)) (ne' || (0 <? length (base.filter (fun x => test x = true) xs))%nat))
      (map Some (pre ++ (y :: map visited xs) ++ post))).
  { intros y sf ne' Hl'. specialize (IH (pre ++ [y]) post n sf ne' Hl'). rewrite length_app, <- !app_assoc in IH. cbn [length app] in IH.
    rewrite Nat.add_1_r in IH. cbn [app]. rewrite IH by (intros z Hz; apply Hr; by right). do 2 f_equal; [|lia..]. f_equal. lia. }
  rewrite filter_cons in *. unfold visited at 1. destruct (decide (test x = true)) as [Et|Et].
  - rewrite Et. cbn [length] in *. destruct (Hr x (list_elem_of_here _ _) Et) as [r Er]. rewrite Er.
    rewrite (proj2 (Nat.leb_gt limit (S so_far))) by lia.
    rewrite !map_app, insert_app_r_alt, length_map, Nat.sub_diag by (by rewrite length_map). cbn [map app list_insert insert].
    specialize (Hstep (f x).2 (S so_far) true ltac:(lia)). rewrite !map_app in Hstep. cbn [map app] in Hstep. rewrite Hstep.
    rewrite orb_true_r. cbn. do 2 f_equal. lia.
  - apply not_true_iff_false in Et as Et'. rewrite Et'. apply Hstep. lia.
Qed.

(** The whole search: the element found, too few, or none. *)
Lemma eval_matching_found pre x post : S (matches pre) = Nat.max limit 1 -> test x = true ->
  (forall y, y ∈ pre -> test y = true -> exists r, (f y).1 = Ret r) ->
  eval matching (map Some (pre ++ x :: post)) = ((f x).1, map Some (map visited pre ++ (f x).2 :: post)).
Proof.
  intros Hl Hx Hr. unfold run_on_matching, guarded, mbind, proc_mbind. cbn [p_then eval].
  rewrite !eval_then, length_map, length_app. change (length (x :: post)) with (S (length post)).
  pose proof (eval_visits pre [] (x :: post) (S (length post)) 0 false ltac:(lia) Hr) as E. cbn [length app Nat.add] in E. rewrite E.
  assert (El : map Some (map visited pre ++ x :: post) !! length pre = Some (Some x)).
  { rewrite list_lookup_fmap, lookup_app_r, length_map, Nat.sub_diag by (by rewrite length_map). done. }
  cbn [seq]. rewrite (eval_visit _ _ _ _ _ x El), Hx. specialize (Hc x Hx).
  assert (Ei : <[length pre := Some (f x).2]> (map Some (map visited pre ++ x :: post)) = map Some (map visited pre ++ (f x).2 :: post)).
  { rewrite !map_app, insert_app_r_alt, !length_map, Nat.sub_diag by (by rewrite !length_map). done. }
  rewrite (proj2 (Nat.leb_le limit (S (matches pre)))), Ei by lia. by destruct (f x).1.
Qed.

Lemma eval_matching_none xs : (matches xs < Nat.max limit 1)%nat ->
  (forall y, y ∈ xs -> test y = true -> exists r, (f y).1 = Ret r) ->
  eval matching (map Some xs) =
    (Throw (if (0 <? matches xs)%nat then ex_error_not_enough_match_found else ex_error_no_match_found), map Some (map visited xs)).
Proof.
  intros Hl Hr. unfold run_on_matching, guarded, mbind, proc_mbind. cbn [p_then eval]. rewrite !eval_then, length_map.
  pose proof (eval_visits xs [] [] 0 0 false ltac:(lia) Hr) as E. rewrite !Nat.add_0_r, !app_nil_r in E. cbn [length app] in E. rewrite E.
  cbn [seq test_all orb]. by destruct (0 <? matches xs)%nat.
Qed.
End Exact.
End Logic.

(** What one thread alone does from a memory of objects. *)
Definition does {T R} (xs : list T) (p : proc T R) (o : outcome R) (xs' : list T) : Prop :=
  rtc system_step (System (map Some xs) [] [p]) (System (map Some xs') [] [p_outcome o]).

Section Alone.
Context {T A : Type} (test : T -> bool) (f : T -> outcome A * T) (limit : nat).
Notation matching := (run_on_matching (fun x => Ret (test x)) f limit).

Lemma matching_does xs o xs' : (forall x, test x = true -> calm (f x).1) ->
  eval matching (map Some xs) = (o, map Some xs') -> does xs matching o xs'.
Proof.
  intros Hc E. apply (alone (fun _ => True)); [|eapply safe_mono; [apply run_on_matching_safe|]|done].
  - apply Forall_fmap, Forall_true. intros x. by exists x.
  - intros x _. split; [done|]. intros [= E']. by split; [apply Hc|].
  - intros h o' (n & -> & _)%back_inv. done.
Qed.

(** What run_on_matching does when it is alone: the function is run on the
    first [limit] objects that pass the test, in their order, and the result of
    its last run is returned; with too few of them it has
    been run on all there are and error_not_enough_match_found is thrown, with
    none error_no_match_found, and no other object changes. *)
Lemma run_on_matching_exact : (forall x, test x = true -> exists r, (f x).1 = Ret r) ->
  (forall pre x post, S (matches test pre) = Nat.max limit 1 -> test x = true ->
     does (pre ++ x :: post) matching (f x).1 (map (visited test f) pre ++ (f x).2 :: post)) /\
  (forall xs, (0 < matches test xs < limit)%nat -> does xs matching (Throw ex_error_not_enough_match_found) (map (visited test f) xs)) /\
  (forall xs, matches test xs = 0%nat -> does xs matching (Throw ex_error_no_match_found) xs).
Proof.
  intros Hr. assert (Hc : forall x, test x = true -> calm (f x).1) by (intros x Hx; by destruct (Hr x Hx) as [r ->]).
  split; [|split].
  - intros pre x post Hl Hx. apply matching_does; [done|]. apply eval_matching_found; auto.
  - intros xs Hl. apply matching_does; [done|]. rewrite eval_matching_none by (auto || lia). by rewrite (proj2 (Nat.ltb_lt 0 _)) by lia.
  - intros xs Hl. apply matching_does; [done|]. rewrite eval_matching_none, Hl by (auto || lia). cbn [Nat.ltb Nat.leb].
    do 2 f_equal. unfold matches in Hl. apply length_zero_iff_nil in Hl.
    rewrite <- (map_id xs) at 2. apply map_ext_in. intros x Hx%list_elem_of_In. unfold visited.
    destruct (test x) eqn:E; [|done]. exfalso. eapply filter_nil_not_elem_of; [exact Hl|exact E|exact Hx].
Qed.
End Alone.

(** [grow_to] puts null pointers into the vector, which the other operations
    follow. *)
Lemma grow_to_adds_nulls {T} (xs : list T) n : (length xs < n)%nat ->
  eval (grow_to n) (map Some xs) = (Ret tt, map Some xs ++ replicate (n - length xs) None).
Proof. intros H. unfold grow_to. apply eval_guarded; [|done]. cbn. rewrite length_map, (proj2 (Nat.leb_gt _ _)) by lia. done. Qed.

Lemma null_element_undefined {T A} (xs : list T) cells (f : T -> outcome A * T) :
  (eval (run_on (length xs) f) (map Some xs ++ None :: cells)).1 = Undef.
Proof.
  assert (E : (map Some xs ++ None :: cells) !! length xs = Some None) by (by rewrite lookup_app_r, length_map, Nat.sub_diag by (by rewrite length_map)).
  rewrite eval_run_on, E; [done|]. intros x. by rewrite E.
Qed.

(** ** Witnesses: buffers of ten octets, half of them used *)

Local Open Scope Z_scope.
Definition toy_buffer : Type := Z * Z.
Definition toy_fits (b : toy_buffer) : Prop := 0 <= b.2 <= b.1.
Definition toy_find (n : Z) (b : toy_buffer) : bool := n <=? b.1 - b.2.
Definition toy_use (n : Z) (b : toy_buffer) : outcome Z * toy_buffer := (Ret b.2, (b.1, b.2 + n)).

Definition toy_done {A} (o : outcome A) : proc toy_buffer bool := p_ret (match o with Ret _ => true | _ => false end).
Definition toy_user (n : Z) : proc toy_buffer bool := p_then (run_on_matching (fun b => Ret (toy_find n b)) (toy_use n) 1) toy_done.
Definition toy_threads : list (proc toy_buffer bool) := [toy_user 4; toy_user 4; p_then (push_back (10, 0)) toy_done; toy_user 4].
Definition toy_memory : list (option toy_buffer) := [Some (10, 5)].

Lemma toy_clients : Forall (client toy_fits) toy_threads.
Proof.
  assert (Hr : client toy_fits (toy_user 4)).
  { apply (client_matching toy_fits (fun b => Ret (toy_find 4 b)) (toy_use 4) 1 toy_done); [|intros o; apply client_ret]. intros [size used] H. split; [done|]. intros [= E]. split; [done|].
    unfold toy_fits, toy_find in *. cbn in *. zbool. lia. }
  assert (Hp : client toy_fits (p_then (push_back (10, 0)) toy_done)).
  { apply (client_push_back toy_fits (10, 0) toy_done); [done|intros o; apply client_ret]. }
  exact (Forall_cons_2 _ _ _ Hr (Forall_cons_2 _ _ _ Hr (Forall_cons_2 _ _ _ Hp (Forall_cons_2 _ _ _ Hr (Forall_nil_2 _))))).
Qed.

Lemma toy_good : Forall (good_cell toy_fits) toy_memory.
Proof. repeat constructor. by exists (10, 5). Qed.

(** The threads in turn, as far as they can. *)
Definition run_in_turn {T R} (s : system T R) (t : nat) : system T R := default s (run_thread t s).
Lemma turns_rtc {T R} ts (s : system T R) : rtc system_step s (fold_left run_in_turn ts s).
Proof.
  revert s. induction ts as [|t ts IH]; intros s; [done|]. cbn. unfold run_in_turn at 2.
  destruct (run_thread t s) as [s'|] eqn:E; [|apply IH]. eapply rtc_l; [by exists t|apply IH].
Qed.
Definition toy_end : system toy_buffer bool := fold_left run_in_turn (concat (replicate 60 [0%nat; 1%nat; 2%nat; 3%nat])) (System toy_memory [] toy_threads).

Lemma vector_threads_safe_witness : memory toy_end = [Some (10, 9); Some (10, 0)] /\ Forall (good_cell toy_fits) (memory toy_end).
Proof.
  split; [by vm_compute|].
  apply (vector_threads_safe toy_fits toy_memory toy_threads toy_end toy_good toy_clients (turns_rtc _ _)).
Defined.

Lemma toy_stops t : run_thread t toy_end = None.
Proof. destruct t as [|[|[|[|t]]]]; vm_compute; reflexivity. Qed.

Lemma vector_threads_end_witness : Acc later (System toy_memory [] toy_threads) /\ Forall finished (threads toy_end).
Proof.
  destruct (vector_threads_end toy_fits toy_memory toy_threads toy_good toy_clients) as [H1 H2]. split; [done|].
  apply (H2 toy_end (turns_rtc _ _)). intros s [t Ht]. rewrite toy_stops in Ht. discriminate.
Defined.

