(* ===== verification/Threads.v ===== *)
(** * Threads that join themselves, and counters

    Models [utils/wrap_thread.hpp/cpp], a thread with a time after which its
    destruction aborts the program, and [counter.cpp], the counter of packets
    with its window; with what they do and do not keep. *)
From S2P Require Import Prelude.

(** ** wrap_thread *)

Section Wrap.
(** [std::future] of [std::async]: whether waiting for some seconds finds it
    ready, and the exception that the function left in it. *)
Context {future : Type} (wait_for : future -> Z -> bool) (left_exception : future -> option exn).

(** [None]: not valid; not initialised. *)
Record wrap_thread := WrapThread { m_future : option future; m_destroy_timeout : option Z }.

Definition new_thread : wrap_thread := WrapThread None (Some 0).
Definition start_thread (f : future) : wrap_thread := WrapThread (Some f) (Some 0).
Definition start_thread_for (destroy_time : Z) (f : future) : wrap_thread := WrapThread (Some f) (Some destroy_time).

(** [m_future.get()] *)
Definition get_future (f : future) : M wrap_thread unit :=
  mmodify (fun w => WrapThread None (m_destroy_timeout w));;
  match left_exception f with Some e => mthrow e | None => mret tt end.

Definition join : M wrap_thread unit :=
  w ← mget;
  match m_future w, m_destroy_timeout w with
  | None, _ => mret tt
  | Some _, None => mundef
  | Some f, Some t =>
      if t =? 0 then mabort
      else if wait_for f t then get_future f else mabort
  end.

(** [duration_cast<seconds>] of the argument. *)
Definition try_join (dest_time : Z) : M wrap_thread bool :=
  w ← mget;
  match m_future w with
  | None => mret true
  | Some f => if wait_for f dest_time then get_future f;; mret false else mret true
  end.

(** An exception that leaves a destructor or a function that is noexcept. *)
Definition noexcept_ {St A} (m : M St A) : M St A := mcatch m (fun _ => mabort).

Definition destructor : M wrap_thread unit := noexcept_ (
  w ← mget;
  match m_future w, m_destroy_timeout w with
  | None, _ => mret tt
  | Some _, None => mundef
  | Some f, Some t =>
      if negb (t =? 0) then (if wait_for f t then get_future f else mabort) else mabort
  end).

(** The new object, and what is left of the other one. *)
Definition move_construct (rhs : wrap_thread) : wrap_thread * wrap_thread :=
  (WrapThread (m_future rhs) None, WrapThread None (m_destroy_timeout rhs)).
Definition move_assign (onto_myself : bool) : M (wrap_thread * wrap_thread) unit :=
  if onto_myself then mret tt
  else noexcept_ (
    on_fst join;;
    mmodify (fun w => (WrapThread (m_future w.2) (m_destroy_timeout w.1), WrapThread None (m_destroy_timeout w.2)))).

(** Destruction returns only when no thread is left: there was none, or it has
    ended in the time given and left no exception. *)
Lemma destructor_returns w w' : destructor w = (Ret tt, w') ->
  m_future w = None \/ exists f t, m_future w = Some f /\ m_destroy_timeout w = Some t /\ wait_for f t = true /\ left_exception f = None.
Proof.
  unfold destructor, noexcept_, mcatch, get_future. munfold. destruct w as [[f|] [t|]]; cbn; try done; [|by left|by left].
  destruct (t =? 0); cbn; [done|]. destruct (wait_for f t) eqn:Ew; [|done]. destruct (left_exception f) eqn:El; cbn; [done|].
  intros _. right. by exists f, t.
Qed.

(** [try_join] answers false exactly when the thread has been joined. *)
Lemma try_join_false w w' t : try_join t w = (Ret false, w') ->
  (exists f, m_future w = Some f /\ wait_for f t = true) /\ m_future w' = None.
Proof.
  unfold try_join, get_future. munfold. destruct w as [[f|] d]; cbn; [|done].
  destruct (wait_for f t) eqn:Ew; [|done]. destruct (left_exception f); [done|]. intros [= <-]. eauto.
Qed.
Lemma try_join_running w t f : m_future w = Some f -> wait_for f t = false -> try_join t w = (Ret true, w).
Proof. unfold try_join. munfold. intros -> ->. done. Qed.

(** Assignment does not take the time over: what was to join itself aborts. *)
Lemma assigned_thread_aborts f t : let '(_, (w, _)) := move_assign false (new_thread, start_thread_for t f) in (destructor w).1 = Abort_.
Proof. done. Qed.
Lemma moved_thread_undefined f t : (destructor (move_construct (start_thread_for t f)).1).1 = Undef.
Proof. done. Qed.
End Wrap.

(** ** c_counter *)

(** [long long]: overflow is not defined. *)
Definition ll_add (a b : Z) : outcome Z := if (- 2 ^ 63 <=? a + b) && (a + b <? 2 ^ 63) then Ret (a + b) else Undef.

Record c_counter := Counter {
  m_tick_len : Z; m_is_main : bool;
  m_pck_all : Z; m_pck_w : Z; m_bytes_all : Z; m_bytes_w : Z;
  m_time_first : Z; m_time_ws : Z; m_time_last : option Z }.   (* None: not initialised *)

Definition new_counter (tick_len : Z) (is_main : bool) (now now' : Z) : c_counter := Counter tick_len is_main 0 0 0 0 now now' None.

Definition add (bytes : Z) : M c_counter unit :=
  c ← mget;
  pck_all ← mlift (ll_add (m_pck_all c) 1);
  pck_w ← mlift (ll_add (m_pck_w c) 1);
  bytes_all ← mlift (ll_add (m_bytes_all c) bytes);
  bytes_w ← mlift (ll_add (m_bytes_w c) bytes);
  mput (Counter (m_tick_len c) (m_is_main c) pck_all pck_w bytes_all bytes_w (m_time_first c) (m_time_ws c) (m_time_last c)).

(** The text is not modelled: only that the times are read. *)
Definition print : M c_counter unit := c ← mget; match m_time_last c with Some _ => mret tt | None => mundef end.

Definition set_time_last (now : Z) : M c_counter unit := mmodify (fun c =>
  Counter (m_tick_len c) (m_is_main c) (m_pck_all c) (m_pck_w c) (m_bytes_all c) (m_bytes_w c) (m_time_first c) (m_time_ws c) (Some now)).

Definition tick (bytes now now' : Z) : M c_counter bool :=
  add bytes;;
  c ← mget;
  let first := m_pck_all c =? 1 in
  later ← (if m_pck_all c mod 1000 =? 0 then
             set_time_last now;;
             limit ← mlift (ll_add (m_time_ws c) (m_tick_len c));
             mret (limit <=? now)
           else mret false);
  let do_print := first || later in
  when do_print print;;
  when do_print (mmodify (fun c =>
    Counter (m_tick_len c) (m_is_main c) (m_pck_all c) 0 (m_bytes_all c) 0 (m_time_first c) now' (Some now')));;
  mret do_print.

(** The first tick prints with a time that has no value. *)
Lemma first_tick_undefined tick_len is_main t0 t1 bytes now now' : (tick bytes now now' (new_counter tick_len is_main t0 t1)).1 = Undef.
Proof.
  unfold tick, add. munfold. cbn. destruct (ll_add 0 bytes) as [b|e| |] eqn:E; cbn; try done;
    unfold ll_add in E; by destruct (_ && _).
Qed.

(** A tick that returns has counted its packet. *)
Lemma tick_counts bytes now now' c r c' : tick bytes now now' c = (Ret r, c') ->
  m_pck_all c' = m_pck_all c + 1 /\ m_bytes_all c' = m_bytes_all c + bytes.
Proof.
  assert (Hl : forall a b z, ll_add a b = Ret z -> z = a + b) by (intros a b z; unfold ll_add; destruct (_ && _); [by intros [= <-]|done]).
  unfold tick. intros (u & c1 & H1 & H2)%M_bind_inv.
  assert (E : m_pck_all c1 = m_pck_all c + 1 /\ m_bytes_all c1 = m_bytes_all c + bytes).
  { unfold add in H1. munfold. destruct (ll_add (m_pck_all c) 1) eqn:E1, (ll_add (m_pck_w c) 1), (ll_add (m_bytes_all c) bytes) eqn:E2, (ll_add (m_bytes_w c) bytes);
      try done. injection H1 as _ <-. cbn. auto. }
  destruct E as [<- <-]. clear H1. revert H2. munfold. unfold set_time_last, print. munfold.
  destruct (m_pck_all c1 =? 1), (m_pck_all c1 mod 1000 =? 0); cbn; try (destruct (ll_add (m_time_ws c1) (m_tick_len c1)) as [z|e| |]; cbn; try done; destruct (z <=? now); cbn);
    try (destruct (m_time_last c1); cbn; try done); by intros [= _ <-].
Qed.
