(* ===== verification/Peerlist.v ===== *)
(** * The peers that the graphical interface shows

    Models [src-gui/meshpeer], [src-gui/peersmodel], [src-gui/addressmodel],
    and what [src-gui/peerlistform] and [src-gui/mainwindow] do with them: the
    actions of the user, the requests they send and the calls that the replies
    make.  A [QString] is its UTF-8 text; an object of a list stands for the
    pointer in the list, which owns it. *)
From S2P Require Import Prelude Json Guiorders.

(** ** MeshPeer *)

Inductive commandstatus := cs_none | cs_sended | cs_recived | cs_acknowled | cs_timeout | cs_fail.
Inductive peerstatus := s_default | s_connected | s_disconnected | s_stranger | s_known | s_bfrend | s_banned.
#[export] Instance commandstatus_eq_dec : EqDecision commandstatus.
Proof. solve_decision. Defined.
#[export] Instance peerstatus_eq_dec : EqDecision peerstatus.
Proof. solve_decision. Defined.

Definition status_int (s : peerstatus) : Z :=
  match s with
  | s_default => 0 | s_connected => 1 | s_disconnected => 2 | s_stranger => 3 | s_known => 4 | s_bfrend => 5 | s_banned => 6
  end.

Record meshpeer := Mesh {
  m_name : bytes; m_ip : bytes; m_vip : bytes; m_ip_port : Z; m_vip_port : Z;
  comm_status : commandstatus; status : peerstatus; source : Z }.

Definition setName (v : bytes) (p : meshpeer) : meshpeer :=
  Mesh v (m_ip p) (m_vip p) (m_ip_port p) (m_vip_port p) (comm_status p) (status p) (source p).
Definition setIP (v : bytes) (p : meshpeer) : meshpeer :=
  Mesh (m_name p) v (m_vip p) (m_ip_port p) (m_vip_port p) (comm_status p) (status p) (source p).
Definition setVip (v : bytes) (p : meshpeer) : meshpeer :=
  Mesh (m_name p) (m_ip p) v (m_ip_port p) (m_vip_port p) (comm_status p) (status p) (source p).
Definition setPort (v : Z) (p : meshpeer) : meshpeer :=
  Mesh (m_name p) (m_ip p) (m_vip p) v (m_vip_port p) (comm_status p) (status p) (source p).
Definition setVipPort (v : Z) (p : meshpeer) : meshpeer :=
  Mesh (m_name p) (m_ip p) (m_vip p) (m_ip_port p) v (comm_status p) (status p) (source p).
Definition set_source (v : Z) (p : meshpeer) : meshpeer :=
  Mesh (m_name p) (m_ip p) (m_vip p) (m_ip_port p) (m_vip_port p) (comm_status p) (status p) v.
Definition set_comm (c : commandstatus) (p : meshpeer) : meshpeer :=
  Mesh (m_name p) (m_ip p) (m_vip p) (m_ip_port p) (m_vip_port p) c (status p) (source p).
Definition set_status (s : peerstatus) (p : meshpeer) : meshpeer :=
  Mesh (m_name p) (m_ip p) (m_vip p) (m_ip_port p) (m_vip_port p) (comm_status p) s (source p).

(** [QString::split] *)
Fixpoint split (c : Byte.byte) (s : bytes) : list bytes :=
  match s with
  | [] => [[]]
  | x :: s' =>
      if bool_decide (x = c) then [] :: split c s'
      else match split c s' with w :: ws => (x :: w) :: ws | [] => [[x]] end
  end.

Definition getInvitation (p : meshpeer) : bytes := m_vip p ++ str "@" ++ m_ip p.
Definition setInvitation (invitation : bytes) : M meshpeer unit :=
  match split Byte.x40 invitation with
  | [vip; ip] => mmodify (fun p => setIP ip (setVip vip p))
  | _ => mthrow ex_runtime_error
  end.

(** [static_cast<int>] of a number. *)
Definition to_int (z : Z) : Z := let w := z mod 2 ^ 32 in if w <? 2 ^ 31 then w else w - 2 ^ 32.

Section Peers.
Context `{JL : !JsonLib}.
(** What the members hold that no constructor sets. *)
Context (unset_port unset_vip_port unset_source : Z) (unset_comm : commandstatus).
Context (toInt : bytes -> Z).                     (* [QString::toInt] *)

Definition new_peer : meshpeer := Mesh [] [] [] unset_port unset_vip_port unset_comm s_disconnected unset_source.
(** The copy constructor leaves the ports. *)
Definition copy_peer (p : meshpeer) : meshpeer :=
  Mesh (m_name p) (m_ip p) (m_vip p) unset_port unset_vip_port (comm_status p) (status p) (source p).

Definition peer_members (p : meshpeer) : list (bytes * json) := [
  (str "obj", json_of_string (str "MeshPeer")); (str "ver", json_of_string (str "0.01"));
  (str "name", json_of_string (m_name p)); (str "ip", json_of_string (m_ip p)); (str "vip", json_of_string (m_vip p));
  (str "ip_port", json_of_number (m_ip_port p)); (str "vip_port", json_of_number (m_vip_port p)); (str "source", json_of_number (source p))].
Definition serialize (p : meshpeer) : bytes :=
  let '(_, j) := mfor (peer_members p) (fun kv => j ← mget; j' ← mlift (json_set j kv.1 kv.2); mput j') json_null in json_dump j.

(** [j.at("k")] *)
Definition at_member (j : json) (k : bytes) : outcome json :=
  match json_find j k with Some v => Ret v | None => Throw ex_out_of_range end.
Definition at_string (j : json) (k : bytes) : outcome bytes := v ← at_member j k; json_string v.
Definition at_int (j : json) (k : bytes) : outcome Z := v ← at_member j k; n ← json_number v; Ret (to_int n).

Definition deserialize_json (j : json) : M meshpeer unit :=
  obj_name ← mlift (at_string j (str "obj"));
  mthrow_if (negb (bool_decide (obj_name = str "MeshPeer"))) ex_runtime_error;;
  mcatch (
    name ← mlift (at_string j (str "name")); mmodify (setName name);;
    ip ← mlift (at_string j (str "ip")); mmodify (setIP ip);;
    vip ← mlift (at_string j (str "vip")); mmodify (setVip vip);;
    ip_port ← mlift (at_int j (str "ip_port")); mmodify (setPort ip_port);;
    vip_port ← mlift (at_int j (str "vip_port")); mmodify (setVipPort vip_port);;
    src ← mlift (at_int j (str "source")); mmodify (set_source src)) (fun _ => mret tt).
Definition deserialize (text : bytes) : M meshpeer unit := j ← mlift (json_parse text); deserialize_json j.

(** [MeshPeer(serialized_obj)] *)
Definition peer_of_text (text : bytes) : outcome meshpeer :=
  let '(o, p) := deserialize text new_peer in o;; Ret p.

(** ** peersModel *)

Notation peers := (list meshpeer).

Inductive Columns := c_name | c_ip | c_vip | c_invitation | c_status | c_icon.
Definition column_int (c : Columns) : Z :=
  match c with c_name => 0 | c_ip => 1 | c_vip => 2 | c_invitation => 3 | c_status => 4 | c_icon => 5 end.
Definition columnCount : Z := 4.
Definition rowCount (l : peers) : Z := zlen l.

(** A valid [QModelIndex]. *)
Definition index (l : peers) (row column : Z) : option (Z * Z) :=
  if (0 <=? row) && (row <? rowCount l) && (0 <=? column) && (column <? columnCount) then Some (row, column) else None.

Inductive variant := v_none | v_text (s : bytes) | v_int (z : Z) | v_icon (s : bytes) | v_brush (s : bytes).
Definition toString (v : variant) : bytes := match v with v_text s => s | v_int z => dec z | _ => [] end.

(** [m_peers_list.at(row)] *)
Definition peer_at (l : peers) (row : Z) : outcome meshpeer :=
  if (0 <=? row) then match l !! Z.to_nat row with Some p => Ret p | None => Undef end else Undef.

Inductive role := DisplayRole | DecorationRole | ForegroundRole | EditRole.

Definition headerData (horizontal : bool) (r : role) : variant :=
  match r with DisplayRole => if horizontal then v_text (str "peer list") else v_none | _ => v_none end.

Definition status_icon (p : meshpeer) : variant :=
  if bool_decide (comm_status p = cs_sended) then v_icon (str ":status-busy")
  else match status p with
  | s_default => v_icon (str ":status-offlline")
  | s_connected => v_icon (str ":status-online")
  | s_disconnected => v_icon (str ":disconnect")
  | s_banned => v_icon (str ":ladybird")
  | s_bfrend => v_icon (str ":status-online")
  | _ => v_none
  end.
Definition status_brush (p : meshpeer) : variant :=
  match comm_status p with
  | cs_sended => v_brush (str "darkYellow") | cs_recived => v_brush (str "blue")
  | cs_acknowled => v_brush (str "darkGreen") | _ => v_brush (str "gray")
  end.

Definition data (l : peers) (idx : option (Z * Z)) (r : role) : outcome variant :=
  match idx with
  | None => Ret v_none
  | Some (row, column) =>
      match r with
      | DisplayRole =>
          if column =? 0 then p ← peer_at l row; Ret (v_text (m_name p))
          else if column =? 1 then p ← peer_at l row; Ret (v_text (m_ip p))
          else if column =? 2 then p ← peer_at l row; Ret (v_text (m_vip p))
          else if column =? 3 then p ← peer_at l row; Ret (v_text (getInvitation p))
          else if column =? 4 then p ← peer_at l row; Ret (v_int (status_int (status p)))
          else Ret v_none
      | DecorationRole => p ← peer_at l row; Ret (status_icon p)
      | ForegroundRole => p ← peer_at l row; Ret (status_brush p)
      | EditRole => Ret v_none
      end
  end.

Definition peerExist (vip : bytes) (l : peers) : bool := existsb (fun p => bool_decide (m_vip p = vip)) l.

(** The first peer with this address; [None]: std::runtime_error. *)
Fixpoint update_first (vip : bytes) (f : meshpeer -> meshpeer) (l : peers) : option peers :=
  match l with
  | [] => None
  | p :: l' => if bool_decide (m_vip p = vip) then Some (f p :: l') else (p ::.) <$> update_first vip f l'
  end.

(** Only std::runtime_error is caught. *)
Definition addPeer_text (serialized_peer : bytes) : M peers unit := fun l =>
  match peer_of_text serialized_peer with
  | Ret peer => (Ret tt, if peerExist (m_vip peer) l then l else l ++ [set_comm cs_sended (set_status s_connected peer)])
  | Throw e => if bool_decide (e = ex_runtime_error) then (Ret tt, l) else (Throw e, l)
  | Abort_ => (Abort_, l)
  | Undef => (Undef, l)
  end.
Definition addPeer_copy (pp : meshpeer) (l : peers) : peers := if peerExist (m_vip pp) l then l else l ++ [copy_peer pp].

(** [QList::removeAt] of an index out of range does nothing. *)
Definition removeAt {A} (i : Z) (l : list A) : list A := if 0 <=? i then take (Z.to_nat i) l ++ drop (S (Z.to_nat i)) l else l.
Definition removePeer (idx : option (Z * Z)) (l : peers) : peers :=
  match idx with None => l | Some (row, _) => removeAt row l end.

Definition confirmAddPeer (peer : meshpeer) (l : peers) : peers :=
  match update_first (m_vip peer) (fun p => set_comm cs_acknowled (set_status s_connected p)) l with
  | Some l' => l'
  | None => l ++ [setName (str "quick add") (set_comm cs_acknowled (set_status s_connected (copy_peer peer)))]
  end.
Fixpoint confirmDeletePeer (peer : meshpeer) (l : peers) : peers :=
  match l with [] => [] | p :: l' => if bool_decide (m_vip p = m_vip peer) then l' else p :: confirmDeletePeer peer l' end.
Definition confirmBanPeer (peer : meshpeer) (l : peers) : peers :=
  default l (update_first (m_vip peer) (fun p => set_comm cs_recived (set_status s_banned p)) l).

(** The peers of the new list are other objects than those of the old one. *)
Definition updatePeerList (new_list : peers) (_ : peers) : peers := map (set_comm cs_acknowled) new_list.
Definition deletaAllPeers (_ : peers) : peers := [].
Definition banAllPeers (l : peers) : peers := map (set_status s_banned) l.

Definition startActionOnIndex (idx : option (Z * Z)) : M peers unit := fun l =>
  match idx with
  | Some (row, _) =>
      match l !! Z.to_nat row with
      | Some p => if 0 <=? row then (Ret tt, <[Z.to_nat row := set_comm cs_sended p]> l) else (Undef, l)
      | None => (Undef, l)
      end
  | None => (Undef, l)
  end.

(** [findIndex], and the loop of [findPeer] by a column. *)
Fixpoint find_row (value : bytes) (col : Columns) (l : peers) (rows : list Z) : outcome (option Z) :=
  match rows with
  | [] => Ret None
  | i :: rows' =>
      v ← data l (index l i (column_int col)) DisplayRole;
      if bool_decide (toString v = value) then Ret (Some i) else find_row value col l rows'
  end.
Definition findPeer (value : bytes) (col : Columns) (l : peers) : outcome Z :=
  r ← find_row value col l (seqZ 0 (zlen l));
  match r with Some i => Ret i | None => Throw ex_runtime_error end.
Definition findIndex (value : bytes) (col : Columns) (l : peers) : outcome (option (Z * Z)) :=
  r ← find_row value col l (seqZ 0 (zlen l));
  Ret (match r with Some i => index l i (column_int col) | None => None end).

(** ** addressModel *)

Inductive ColumnRoles := r_state | r_name | r_ip | r_port | r_vip | r_vip_port | r_source | r_comm_status.
Definition column_role (column : Z) : option ColumnRoles :=
  nth (Z.to_nat column) (map Some [r_state; r_name; r_ip; r_port; r_vip; r_vip_port; r_source; r_comm_status]) None.

Definition address_header (section : Z) (r : role) : variant :=
  match r with
  | DisplayRole =>
      match column_role section with
      | Some r_state => v_text (str "State") | Some r_name => v_text (str "Name") | Some r_ip => v_text (str "IP")
      | Some r_vip => v_text (str "VIP") | Some r_port => v_text (str "Port") | Some r_vip_port => v_text (str "virtual Port")
      | Some r_source => v_text (str "Source") | Some r_comm_status => v_text (str "Command status") | None => v_none
      end
  | _ => v_none
  end.

(** The table has no rows and no valid index at all. *)
Definition address_index (row column : Z) : option (Z * Z) := None.
Definition address_rowCount (parent_valid : bool) (l : peers) : Z := if parent_valid then zlen l else 0.

Definition getData (row column : Z) (l : peers) : outcome variant :=
  match column_role column with
  | Some r_state | Some r_comm_status => p ← peer_at l row; Ret (v_int (status_int (status p)))
  | Some r_name => p ← peer_at l row; Ret (v_text (m_name p))
  | Some r_ip => p ← peer_at l row; Ret (v_text (m_ip p))
  | Some r_vip => p ← peer_at l row; Ret (v_text (m_vip p))
  | Some r_port => p ← peer_at l row; Ret (v_int (m_ip_port p))
  | Some r_vip_port => p ← peer_at l row; Ret (v_int (m_vip_port p))
  | Some r_source | None => Ret v_none
  end.

Definition variant_int (v : variant) : Z := match v with v_int z => z | v_text s => toInt s | _ => 0 end.
Definition setValue (r : option ColumnRoles) (row : Z) (value : variant) : M peers unit := fun l =>
  match peer_at l row with
  | Ret p =>
      let p' := match r with
        | Some r_ip => setIP (toString value) p
        | Some r_port => setPort (variant_int value) p
        | Some r_name => setName (toString value) p
        | Some r_vip_port => setVipPort (variant_int value) p
        | Some r_vip => setName (toString value) p
        | _ => p
        end in
      (Ret tt, <[Z.to_nat row := p']> l)
  | _ => (Undef, l)
  end.

Definition editable (idx : option (Z * Z)) : bool :=
  match idx with
  | None => false
  | Some (_, column) => match column_role column with Some r_source | Some r_comm_status => false | _ => true end
  end.

Fixpoint removeRows_loop (row count : Z) (is_ : list Z) (l : peers) : bool * peers :=
  match is_ with
  | [] => (false, l)
  | i :: is_' => if zlen l <? row + count - i then (true, l) else removeRows_loop row count is_' (removeAt (row + count - i) l)
  end.
Definition removeRows (row count : Z) (l : peers) : bool * peers := removeRows_loop row count (seqZ 0 count) l.
Definition address_addPeers (new_peers : peers) (l : peers) : peers := l ++ new_peers.

(** ** PeerListForm and MainWindow *)

(** The sender of the requests, the list, and the index of the menu. *)
Record window := Window { w_gui : gui; w_peers : peers; m_index : option (Z * Z) }.
Definition on_gui {A} (m : M gui A) : M window A := fun w =>
  let '(o, g) := m (w_gui w) in (o, Window g (w_peers w) (m_index w)).
Definition on_peers {A} (m : M peers A) : M window A := fun w =>
  let '(o, l) := m (w_peers w) in (o, Window (w_gui w) l (m_index w)).
Definition set_index (idx : option (Z * Z)) : M window unit := mmodify (fun w => Window (w_gui w) (w_peers w) idx).

(** What a request needs of a peer; nobody sets the account. *)
Definition order_peer (p : meshpeer) : MeshPeer := Peer (m_vip p) (m_ip p) [] 0.
(** [MeshPeer peer; peer.setInvitation(invitation)] *)
Definition invited (invitation : bytes) : outcome meshpeer := let '(o, p) := setInvitation invitation new_peer in o;; Ret p.

(** Slots of the main window: those of the requests catch what they throw,
    except the ones without a peer. *)
Definition window_onAddPeer (peer_str : bytes) : M window unit :=
  try_log (peer ← mlift (invited peer_str); on_gui (sendCommand_peer ADDPEER (order_peer peer))).
Definition window_onBanPeer (vip : bytes) : M window unit := try_log (on_gui (sendCommand_peer BANPEER (order_peer (setVip vip new_peer)))).
Definition window_onRemovePeer (vip : bytes) : M window unit := try_log (on_gui (sendCommand_peer DELETEPEER (order_peer (setVip vip new_peer)))).
Definition window_onBanAll : M window unit := on_gui (sendCommand BANALL).
Definition window_onDeleteAll : M window unit := on_gui (sendCommand DELETEALL).
Definition on_ping_clicked : M window unit := on_gui (sendCommand PING).
Definition connectToNet (working : bool) (net_id : bytes) : M window unit :=
  when working (try_log (
    peer ← mlift (invited net_id);
    w ← mget;
    if peerExist (m_vip peer) (w_peers w) then mret tt else on_gui (sendCommand_peer ADDPEER (order_peer peer)))).

(** Slots of the form that the main window calls. *)
Definition form_onPeerBanned (vip : bytes) : M peers unit := mmodify (confirmBanPeer (setVip vip new_peer)).
Definition form_onPeerRemoved (vip : bytes) : M peers unit := mmodify (confirmDeletePeer (setVip vip new_peer)).
Definition form_onPeerAdded (invitation : bytes) : M peers unit :=
  try_log (peer ← mlift (invited invitation); mmodify (confirmAddPeer peer)).
Definition form_onPeerFounded (invitation vip : bytes) : M peers unit :=
  l ← mget;
  i ← mlift (findPeer vip c_vip l);
  peer ← mlift (peer_at l i);
  let '(o, peer') := setInvitation invitation peer in
  mput (<[Z.to_nat i := peer']> l);;
  mlift o;;
  mput (<[Z.to_nat i := set_status s_connected peer']> l).

(** Actions of the user; the answers in the dialogs are arguments. *)
Definition vip_of (idx : option (Z * Z)) (l : peers) : outcome bytes :=
  match idx with
  | None => Ret []
  | Some (row, _) => v ← data l (index l row (column_int c_vip)) DisplayRole; Ret (toString v)
  end.

Definition addActionSlot (invitation name ip vip : bytes) : M window unit :=
  if bool_decide (invitation = []) then mret tt
  else
    let peer := set_comm cs_sended (setVip vip (setIP ip (setName name new_peer))) in
    on_peers (addPeer_text (serialize peer));;
    window_onAddPeer invitation.
Definition banActionSlot (yes : bool) : M window unit :=
  w ← mget;
  match m_index w with
  | None => mret tt
  | Some _ =>
      vip ← mlift (vip_of (m_index w) (w_peers w));
      when yes (
        on_peers (startActionOnIndex (m_index w));;
        on_peers (form_onPeerBanned vip);;
        window_onBanPeer vip)
  end.
Definition removeActionSlot (selection : option (Z * Z)) (yes : bool) : M window unit :=
  set_index selection;;
  when yes (
    w ← mget;
    match m_index w with
    | None => mret tt
    | Some (row, _) =>
        let work_index := index (w_peers w) row (column_int c_vip) in
        vip ← mlift (vip_of (m_index w) (w_peers w));
        on_peers (startActionOnIndex work_index);;
        window_onRemovePeer vip;;
        on_peers (form_onPeerRemoved vip)
    end).
Definition banAllSlot (yes : bool) : M window unit :=
  when yes (on_peers (mmodify banAllPeers);; set_index None;; window_onBanAll).
Definition deleteAllSlot (yes yes_again : bool) : M window unit :=
  when yes (
    if yes_again then on_peers (mmodify deletaAllPeers);; set_index None;; window_onDeleteAll
    else set_index None).
(** [contextMenuEvent]: the index the menu works on. *)
Definition contextMenuEvent (working : bool) (selection : option (Z * Z)) : M window unit := when working (set_index selection).

(** The calls that a reply makes to the window. *)
Definition on_window_call (c : window_call) : M window unit :=
  match c with
  | onPeerAdded invitation => on_peers (form_onPeerAdded invitation)
  | onPeerBanned vip => on_peers (form_onPeerBanned vip)
  | onDeletePeer vip => on_peers (form_onPeerRemoved vip)
  | _ => mret tt
  end.
(** A message of the node: the calls leave the sender alone, so that they may
    be made when it has been handled. *)
Definition receive (msg : bytes) : M window unit := fun w =>
  let '(o, g) := parseAndExecMsg msg (w_gui w) in
  let '(o', w') := mfor (drop (length (g_window (w_gui w))) (g_window g)) on_window_call (Window g (w_peers w) (m_index w)) in
  (o';; o, w').
End Peers.
