(* ===== verification/PeerlistFacts.v ===== *)
(** * Theorems about the peers that the graphical interface shows *)
From S2P Require Import Prelude Json Guiorders Peerlist.

(** ** Lists of peers as maps from addresses *)

Notation peers := (list meshpeer).
Definition distinct (l : peers) : Prop := NoDup (map m_vip l).

(** What the list shows of a peer. *)
Definition shown (p : meshpeer) : peerstatus * commandstatus := (status p, comm_status p).
Definition view (l : peers) : gmap bytes (peerstatus * commandstatus) := list_to_map (map (fun p => (m_vip p, shown p)) l).

Lemma view_nil : view [] = ∅.
Proof. done. Qed.
Lemma view_cons p l : view (p :: l) = <[m_vip p := shown p]> (view l).
Proof. done. Qed.

Lemma view_absent l vip : vip ∉ map m_vip l -> view l !! vip = None.
Proof. intros H. apply not_elem_of_list_to_map. rewrite <- list_fmap_compose. exact H. Qed.

Lemma view_app_new l p : m_vip p ∉ map m_vip l -> view (l ++ [p]) = <[m_vip p := shown p]> (view l).
Proof.
  induction l as [|q l IH]; intros H; [done|]. cbn [app map] in *. apply not_elem_of_cons in H as [Hne H].
  rewrite !view_cons, IH by done. by apply insert_insert_ne.
Qed.

Lemma peerExist_elem vip l : peerExist vip l = bool_decide (vip ∈ map m_vip l).
Proof.
  induction l as [|p l IH]; [done|]. cbn [peerExist existsb map]. change (existsb _ l) with (peerExist vip l). rewrite IH.
  destruct (decide (m_vip p = vip)) as [E|Hne].
  - rewrite (bool_decide_eq_true_2 (m_vip p = vip)) by done. symmetry. apply bool_decide_eq_true. rewrite E. by left.
  - rewrite bool_decide_eq_false_2 by done. cbn. apply bool_decide_ext. rewrite elem_of_cons. split; [auto|intros [->|]; done].
Qed.

Section UpdateFirst.
Context (vip : bytes) (f : meshpeer -> meshpeer) (Hf : forall p, m_vip (f p) = m_vip p).

Lemma update_first_vips l l' : update_first vip f l = Some l' -> map m_vip l' = map m_vip l.
Proof.
  revert l'. induction l as [|p l IH]; intros l'; cbn; [done|]. case_bool_decide; [intros [= <-]; cbn; by rewrite Hf|].
  destruct (update_first vip f l) as [k|]; [|done]. intros [= <-]. cbn. by rewrite (IH k).
Qed.

Lemma update_first_none l : update_first vip f l = None <-> vip ∉ map m_vip l.
Proof.
  induction l as [|p l IH]; cbn; [split; [intros _; apply not_elem_of_nil|done]|]. rewrite not_elem_of_cons.
  case_bool_decide; [split; [done|intros [? _]; congruence]|]. rewrite <- IH. destruct (update_first vip f l); cbn; [|split; [intros _; split; [congruence|done]|done]].
  split; [done|intros [_ ?]; done].
Qed.

Lemma view_update_first g l l' : (forall p, shown (f p) = g (shown p)) -> distinct l -> update_first vip f l = Some l' ->
  view l' = alter g vip (view l).
Proof.
  intros Hg. revert l'. induction l as [|p l IH]; intros l'; cbn [update_first]; [done|]. intros [Hp Hd]%NoDup_cons. case_bool_decide as E.
  - intros [= <-]. rewrite !view_cons, Hf, Hg, E, alter_insert_eq. done.
  - destruct (update_first vip f l) as [k|] eqn:Ek; [|done]. intros [= <-]. rewrite !view_cons, (IH k Hd eq_refl). by rewrite alter_insert_ne.
Qed.
End UpdateFirst.

Section Lists.
Context `{JL : !JsonLib}.
Context (unset_port unset_vip_port unset_source : Z) (unset_comm : commandstatus).
Notation new_peer := (new_peer unset_port unset_vip_port unset_source unset_comm).
Notation copy_peer := (copy_peer unset_port unset_vip_port).
Notation peer_of_text := (peer_of_text unset_port unset_vip_port unset_source unset_comm).
Notation addPeer_text := (addPeer_text unset_port unset_vip_port unset_source unset_comm).
Notation addPeer_copy := (addPeer_copy unset_port unset_vip_port).
Notation confirmAddPeer := (confirmAddPeer unset_port unset_vip_port).

Lemma distinct_snoc l p : distinct l -> m_vip p ∉ map m_vip l -> distinct (l ++ [p]).
Proof.
  intros Hl Hp. unfold distinct. rewrite map_app. apply NoDup_app. split; [done|]. split.
  - intros x Hx ->%list_elem_of_singleton. done.
  - apply NoDup_singleton.
Qed.

Lemma distinct_same l l' : map m_vip l' = map m_vip l -> distinct l -> distinct l'.
Proof. unfold distinct. by intros ->. Qed.

Lemma distinct_addPeer_text text l : distinct l -> distinct (addPeer_text text l).2.
Proof.
  intros H. unfold Peerlist.addPeer_text. destruct (peer_of_text text) as [p|e| |]; cbn; try done; [|by case_bool_decide].
  rewrite peerExist_elem. case_bool_decide as E; [done|]. by apply distinct_snoc.
Qed.

Lemma distinct_confirmAddPeer p l : distinct l -> distinct (confirmAddPeer p l).
Proof.
  intros H. unfold Peerlist.confirmAddPeer. destruct (update_first _ _ l) as [l'|] eqn:E.
  - eapply distinct_same; [|exact H]. by eapply update_first_vips; [|exact E].
  - apply distinct_snoc; [done|]. by apply update_first_none in E.
Qed.

Lemma distinct_confirmBanPeer p l : distinct l -> distinct (confirmBanPeer p l).
Proof.
  intros H. unfold confirmBanPeer. destruct (update_first _ _ l) as [l'|] eqn:E; [|done]. cbn.
  eapply distinct_same; [|exact H]. by eapply update_first_vips; [|exact E].
Qed.

Lemma delete_vips p l : map m_vip (confirmDeletePeer p l) `sublist_of` map m_vip l.
Proof. induction l as [|q l IH]; cbn; [done|]. case_bool_decide; [by apply sublist_cons|by apply sublist_skip]. Qed.

Lemma distinct_confirmDeletePeer p l : distinct l -> distinct (confirmDeletePeer p l).
Proof. intros H. unfold distinct. eapply sublist_NoDup; [exact H|apply delete_vips]. Qed.

Lemma distinct_banAllPeers l : distinct l -> distinct (banAllPeers l).
Proof. intros H. eapply distinct_same; [|exact H]. unfold banAllPeers. by rewrite map_map. Qed.

Lemma distinct_startAction idx l : distinct l -> distinct (startActionOnIndex idx l).2.
Proof.
  intros H. unfold startActionOnIndex. destruct idx as [[row c]|]; [|done]. destruct (l !! Z.to_nat row) as [p|] eqn:E; [|done].
  destruct (0 <=? row); [|done]. cbn [snd]. eapply distinct_same; [|exact H].
  etransitivity; [apply (list_fmap_insert m_vip)|].
  apply list_insert_id. rewrite (list_lookup_fmap m_vip). by rewrite E.
Qed.

Lemma view_delete p l : distinct l -> view (confirmDeletePeer p l) = delete (m_vip p) (view l).
Proof.
  induction l as [|q l IH]; cbn [confirmDeletePeer]; [by rewrite view_nil, delete_empty|]. intros [Hq Hd]%NoDup_cons.
  case_bool_decide as E; rewrite view_cons.
  - rewrite E, delete_insert_eq. symmetry. apply delete_id. apply view_absent. by rewrite <- E.
  - rewrite view_cons, IH by done. by rewrite delete_insert_ne.
Qed.

Lemma view_map f g l : (forall p, m_vip (f p) = m_vip p) -> (forall p, shown (f p) = g (shown p)) -> view (map f l) = g <$> view l.
Proof.
  intros Hf Hg. induction l as [|p l IH]; cbn [map]; [by rewrite view_nil, fmap_empty|]. by rewrite !view_cons, IH, fmap_insert, Hf, Hg.
Qed.

Lemma view_lookup l vip : is_Some (view l !! vip) <-> vip ∈ map m_vip l.
Proof.
  split.
  - intros [x E]. destruct (decide (vip ∈ map m_vip l)) as [|Hn]; [done|]. by rewrite (view_absent _ _ Hn) in E.
  - induction l as [|p l IH]; cbn [map]; [by intros ?%not_elem_of_nil|]. rewrite view_cons, elem_of_cons.
    destruct (decide (m_vip p = vip)) as [->|Hne]; [by rewrite lookup_insert_eq|]. intros [->|Hin]; [done|].
    rewrite lookup_insert_ne by done. by apply IH.
Qed.

Lemma view_confirmAdd p l : distinct l -> view (confirmAddPeer p l) = <[m_vip p := (s_connected, cs_acknowled)]> (view l).
Proof.
  intros H. unfold Peerlist.confirmAddPeer. destruct (update_first _ _ l) as [l'|] eqn:E.
  - rewrite (view_update_first _ (fun p => set_comm cs_acknowled (set_status s_connected p)) (fun _ => eq_refl) (fun _ => (s_connected, cs_acknowled)) l l' (fun _ => eq_refl) H E).
    apply map_eq. intros k. destruct (decide (k = m_vip p)) as [->|Hne]; [|by rewrite lookup_alter_ne, lookup_insert_ne].
    rewrite lookup_alter_eq, lookup_insert_eq. destruct (view l !! m_vip p) as [x|] eqn:Ex; [done|].
    exfalso. assert (m_vip p ∈ map m_vip l) as Hin.
    { destruct (decide (m_vip p ∈ map m_vip l)) as [|Hn]; [done|]. apply (update_first_none _ (fun p => set_comm cs_acknowled (set_status s_connected p))) in Hn. congruence. }
    apply view_lookup in Hin as [x Hx]. congruence.
  - apply view_app_new. by apply update_first_none in E.
Qed.

Lemma view_confirmBan p l : distinct l -> view (confirmBanPeer p l) = alter (fun _ => (s_banned, cs_recived)) (m_vip p) (view l).
Proof.
  intros H. unfold confirmBanPeer. destruct (update_first _ _ l) as [l'|] eqn:E; cbn [default].
  - exact (view_update_first _ (fun p => set_comm cs_recived (set_status s_banned p)) (fun _ => eq_refl) (fun _ => (s_banned, cs_recived)) l l' (fun _ => eq_refl) H E).
  - apply update_first_none, view_absent in E. apply map_eq. intros k. destruct (decide (k = m_vip p)) as [->|Hne]; [|by rewrite lookup_alter_ne].
    by rewrite lookup_alter_eq, E.
Qed.

Lemma view_start i p l : distinct l -> l !! i = Some p -> view (<[i := set_comm cs_sended p]> l) = alter (fun x => (x.1, cs_sended)) (m_vip p) (view l).
Proof.
  revert i. induction l as [|q l IH]; [done|]. intros [|i] [Hq Hd]%NoDup_cons E; cbn in E.
  - injection E as ->. cbn [list_insert insert]. rewrite !view_cons. by rewrite alter_insert_eq.
  - change (view (q :: <[i := set_comm cs_sended p]> l) = alter (fun x => (x.1, cs_sended)) (m_vip p) (view (q :: l))).
    rewrite !view_cons, (IH i Hd E). rewrite alter_insert_ne; [done|]. intros Hv. apply Hq. rewrite <- Hv.
    apply list_elem_of_In, in_map, list_elem_of_In. by eapply list_elem_of_lookup_2.
Qed.

(** *** The text of a peer *)

Context `{LW : !JsonLaws}.

Lemma build_object members j0 j : ofold (fun j kv => json_set j kv.1 kv.2) j0 members = Ret j ->
  mfor members (fun kv => j ← mget; j' ← mlift (json_set j kv.1 kv.2); mput j') j0 = (Ret tt, j).
Proof.
  revert j0. induction members as [|kv members IH]; intros j0 E; cbn [ofold mfor] in *; [by injection E as <-|].
  unfold mbind, outcome_mbind in E. destruct (json_set j0 kv.1 kv.2) as [j1|e| |] eqn:E1; try done. cbn in E.
  rewrite !bind_eq. cbn [mget]. rewrite bind_eq, E1. cbn. by apply IH.
Qed.

Definition int_range (z : Z) : Prop := - 2 ^ 31 <= z < 2 ^ 31.
Lemma to_int_id z : int_range z -> to_int z = z.
Proof.
  unfold int_range, to_int. intros H. pose proof (Z.mod_pos_bound z (2 ^ 32) ltac:(lia)).
  assert (z mod 2 ^ 32 = z \/ z mod 2 ^ 32 = z + 2 ^ 32) as [->| ->].
  { destruct (decide (0 <= z)); [left; apply Z.mod_small; lia|right]. rewrite <- (Z.mod_small (z + 2 ^ 32) (2 ^ 32)) by lia.
    rewrite <- Zplus_mod_idemp_r, Z_mod_same_full by lia. by rewrite Z.add_0_r. }
  - destruct (z <? 2 ^ 31) eqn:E; zbool; lia.
  - destruct (z + 2 ^ 32 <? 2 ^ 31) eqn:E; zbool; lia.
Qed.

Record writable (p : meshpeer) : Prop := {
  w_texts : text_ok (m_name p) /\ text_ok (m_ip p) /\ text_ok (m_vip p);
  w_ports : int_range (m_ip_port p) /\ int_range (m_vip_port p) /\ int_range (source p)
}.

Lemma at_string_find j k s : json_find j k = Some (json_of_string s) -> at_string j k = Ret s.
Proof. intros E. unfold at_string, at_member. rewrite E. apply json_string_of. Qed.
Lemma at_int_find j k n : json_find j k = Some (json_of_number n) -> int_range n -> at_int j k = Ret n.
Proof. intros E Hn. unfold at_int, at_member. rewrite E. unfold mbind, outcome_mbind. cbn [outcome_bind]. rewrite json_number_of. cbn. by rewrite to_int_id. Qed.

Lemma peer_text p : writable p ->
  peer_of_text (serialize p) = Ret (Mesh (m_name p) (m_ip p) (m_vip p) (m_ip_port p) (m_vip_port p) unset_comm s_disconnected (source p)).
Proof.
  intros [(Hn & Hi & Hv) (Hp & Hvp & Hs)].
  destruct (json_object_find (peer_members p)) as (j & E & _ & _ & Hf); [apply (bool_decide_eq_true_1 (NoDup _)); vm_compute; reflexivity|].
  assert (Ht : json_text j).
  { eapply json_object_text; [|exact E]. unfold int_range in *. repeat constructor; cbn;
      try (by apply text_ascii); try (apply json_text_string; first [done|by apply text_ascii]); apply json_text_number; lia. }
  unfold serialize. rewrite (build_object _ _ _ E). unfold Peerlist.peer_of_text, deserialize. rewrite (json_parse_dump _ Ht), bind_lift.
  unfold deserialize_json, mcatch. rewrite (at_string_find j (str "obj") (str "MeshPeer")) by (apply Hf; left). rewrite bind_lift.
  rewrite (at_string_find j (str "name") (m_name p)) by (apply Hf; do 2 right; left).
  rewrite (at_string_find j (str "ip") (m_ip p)) by (apply Hf; do 3 right; left).
  rewrite (at_string_find j (str "vip") (m_vip p)) by (apply Hf; do 4 right; left).
  rewrite (at_int_find j (str "ip_port") (m_ip_port p)) by (done || (apply Hf; do 5 right; left)).
  rewrite (at_int_find j (str "vip_port") (m_vip_port p)) by (done || (apply Hf; do 6 right; left)).
  rewrite (at_int_find j (str "source") (source p)) by (done || (apply Hf; do 7 right; left)).
  done.
Qed.

(** ** The window *)

Notation window_onAddPeer := (window_onAddPeer unset_port unset_vip_port unset_source unset_comm).
Notation addActionSlot := (addActionSlot unset_port unset_vip_port unset_source unset_comm).
Notation banActionSlot := (banActionSlot unset_port unset_vip_port unset_source unset_comm).
Notation removeActionSlot := (removeActionSlot unset_port unset_vip_port unset_source unset_comm).
Notation connectToNet := (connectToNet unset_port unset_vip_port unset_source unset_comm).
Notation on_window_call := (on_window_call unset_port unset_vip_port unset_source unset_comm).
Notation receive := (receive unset_port unset_vip_port unset_source unset_comm).

(** What the user does and what the node sends. *)
Inductive event :=
  | ev_add (invitation name ip vip : bytes) | ev_ban (yes : bool) | ev_remove (selection : option (Z * Z)) (yes : bool)
  | ev_ban_all (yes : bool) | ev_delete_all (yes yes_again : bool) | ev_menu (working : bool) (selection : option (Z * Z))
  | ev_connect (working : bool) (net_id : bytes) | ev_ping | ev_message (msg : bytes).
Definition handle (e : event) : M window unit :=
  match e with
  | ev_add invitation name ip vip => addActionSlot invitation name ip vip
  | ev_ban yes => banActionSlot yes
  | ev_remove selection yes => removeActionSlot selection yes
  | ev_ban_all yes => banAllSlot yes
  | ev_delete_all yes yes_again => deleteAllSlot yes yes_again
  | ev_menu working selection => contextMenuEvent working selection
  | ev_connect working net_id => connectToNet working net_id
  | ev_ping => on_ping_clicked
  | ev_message msg => receive msg
  end.

Definition ok_window (w : window) : Prop := distinct (w_peers w).

Lemma ok_on_gui {A} (m : M gui A) : preserves ok_window (on_gui m).
Proof. intros w H. unfold on_gui. by destruct (m (w_gui w)). Qed.
Lemma ok_on_peers {A} (m : M peers A) : (forall l, distinct l -> distinct (m l).2) -> preserves ok_window (on_peers m).
Proof. intros Hm w H. unfold on_peers, ok_window in *. specialize (Hm _ H). by destruct (m (w_peers w)). Qed.
Lemma ok_modify (f : peers -> peers) : (forall l, distinct l -> distinct (f l)) -> preserves ok_window (on_peers (mmodify f)).
Proof. intros Hf. by apply ok_on_peers. Qed.
Lemma ok_set_index idx : preserves ok_window (set_index idx).
Proof. by intros w H. Qed.
Lemma ok_get : preserves ok_window mget.
Proof. by intros w H. Qed.
Lemma ok_try_log (m : M window unit) : preserves ok_window m -> preserves ok_window (try_log m).
Proof. intros Hm. apply preserves_catch; [done|]. intros e. apply preserves_ret. Qed.
Lemma ok_start idx : preserves ok_window (on_peers (startActionOnIndex idx)).
Proof. apply ok_on_peers. intros l. apply distinct_startAction. Qed.
Lemma ok_banned vip : preserves ok_window (on_peers (form_onPeerBanned unset_port unset_vip_port unset_source unset_comm vip)).
Proof. apply ok_modify. intros l. apply distinct_confirmBanPeer. Qed.
Lemma ok_removed vip : preserves ok_window (on_peers (form_onPeerRemoved unset_port unset_vip_port unset_source unset_comm vip)).
Proof. apply ok_modify. intros l. apply distinct_confirmDeletePeer. Qed.
Lemma ok_added invitation : preserves ok_window (on_peers (form_onPeerAdded unset_port unset_vip_port unset_source unset_comm invitation)).
Proof.
  apply ok_on_peers. intros l H. unfold form_onPeerAdded, try_log, mcatch. rewrite bind_eq. unfold mlift.
  destruct (invited _ _ _ _ invitation); cbn; try done. by apply distinct_confirmAddPeer.
Qed.
#[local] Hint Resolve ok_on_gui ok_set_index ok_get ok_try_log ok_start ok_banned ok_removed ok_added : preserves.

Lemma ok_call c : preserves ok_window (on_window_call c).
Proof. destruct c; cbn [Peerlist.on_window_call]; auto with preserves. Qed.

Ltac quick := intros; first [apply ok_on_gui|auto with preserves].

Lemma ok_handle e : preserves ok_window (handle e).
Proof.
  destruct e; cbn [handle].
  - unfold Peerlist.addActionSlot. case_bool_decide; [quick|]. apply preserves_bind.
    + apply ok_on_peers. intros l. apply distinct_addPeer_text.
    + intros _. apply ok_try_log, preserves_bind; quick.
  - apply preserves_bind; [quick|]. intros w. destruct (m_index w); [|quick].
    apply preserves_bind; [quick|]. intros vip. apply preserves_when.
    apply preserves_bind; [quick|]. intros _. apply preserves_bind; [quick|]. intros _. apply ok_try_log. quick.
  - apply preserves_bind; [quick|]. intros _. apply preserves_when. apply preserves_bind; [quick|]. intros w.
    destruct (m_index w) as [[row c]|]; [|quick]. apply preserves_bind; [quick|]. intros vip.
    apply preserves_bind; [quick|]. intros _. apply preserves_bind; [apply ok_try_log; quick|quick].
  - apply preserves_when, preserves_bind; [by apply ok_modify, distinct_banAllPeers|]. intros _. apply preserves_bind; quick.
  - apply preserves_when. destruct yes_again; [|quick].
    apply preserves_bind; [apply ok_modify; intros l _; apply NoDup_nil_2|]. intros _. apply preserves_bind; quick.
  - apply preserves_when. quick.
  - apply preserves_when, ok_try_log, preserves_bind; [quick|]. intros p. apply preserves_bind; [quick|]. intros w.
    destruct (peerExist _ _); quick.
  - quick.
  - intros w H. unfold Peerlist.receive. destruct (parseAndExecMsg msg (w_gui w)) as [o g].
    pose proof (preserves_mfor ok_window (drop (length (g_window (w_gui w))) (g_window g)) on_window_call ok_call (Window g (w_peers w) (m_index w)) H) as Hp.
    by destruct (mfor _ _ _).
Qed.

(** C21: whatever the user does and the node sends, the list never shows two
    peers with the same address. *)
Theorem addresses_stay_distinct events w : NoDup (map m_vip (w_peers w)) -> NoDup (map m_vip (w_peers (mfor events handle w).2)).
Proof. apply (preserves_mfor ok_window). apply ok_handle. Qed.

Lemma split_none c s : c ∉ s -> split c s = [s].
Proof.
  induction s as [|x s IH]; [done|]. intros [Hx Hs]%not_elem_of_cons. cbn [split]. rewrite IH by done.
  by rewrite bool_decide_eq_false_2.
Qed.
Lemma split_one c a b : c ∉ a -> c ∉ b -> split c (a ++ c :: b) = [a; b].
Proof.
  intros Ha Hb. induction a as [|x a IH].
  - cbn [app split]. by rewrite bool_decide_eq_true_2, split_none.
  - apply not_elem_of_cons in Ha as [Hx Ha]. cbn [app split]. rewrite IH by done. by rewrite bool_decide_eq_false_2.
Qed.

Lemma invited_text vip rest : Byte.x40 ∉ vip -> Byte.x40 ∉ rest ->
  invited unset_port unset_vip_port unset_source unset_comm (vip ++ str "@" ++ rest) = Ret (setIP rest (setVip vip new_peer)).
Proof.
  intros Hv Hr. unfold invited, setInvitation. change (str "@" ++ rest) with (Byte.x40 :: rest). by rewrite split_one.
Qed.

(** C20: seen as a map from addresses to what is shown, the list does what each
    call means: adding a peer shows it as asked for unless it is there; the
    reply that it was added shows it as connected; banning, deleting, starting
    an action, and the same for all peers. *)
Theorem list_refines_map l : NoDup (map m_vip l) ->
  (forall p, writable p -> exists l', addPeer_text (serialize p) l = (Ret tt, l') /\
     view l' = match view l !! m_vip p with Some _ => view l | None => <[m_vip p := (s_connected, cs_sended)]> (view l) end) /\
  (forall vip rest, Byte.x40 ∉ vip -> Byte.x40 ∉ rest -> exists l',
     form_onPeerAdded unset_port unset_vip_port unset_source unset_comm (vip ++ str "@" ++ rest) l = (Ret tt, l') /\
     view l' = <[vip := (s_connected, cs_acknowled)]> (view l)) /\
  (forall vip, exists l', form_onPeerBanned unset_port unset_vip_port unset_source unset_comm vip l = (Ret tt, l') /\
     view l' = alter (fun _ => (s_banned, cs_recived)) vip (view l)) /\
  (forall vip, exists l', form_onPeerRemoved unset_port unset_vip_port unset_source unset_comm vip l = (Ret tt, l') /\
     view l' = delete vip (view l)) /\
  (forall i p c, l !! i = Some p -> exists l', startActionOnIndex (Some (Z.of_nat i, c)) l = (Ret tt, l') /\
     view l' = alter (fun x => (x.1, cs_sended)) (m_vip p) (view l)) /\
  view (banAllPeers l) = (fun x => (s_banned, x.2)) <$> view l /\ view (deletaAllPeers l) = ∅.
Proof.
  intros H. split_and!.
  - intros p Hp. eexists. unfold Peerlist.addPeer_text. rewrite (peer_text _ Hp). split; [done|]. rewrite peerExist_elem.
    case_bool_decide as E; cbn [m_vip] in *.
    + apply view_lookup in E as [x E]. by rewrite E.
    + rewrite (view_absent _ _ E). by rewrite view_app_new.
  - intros vip rest Hv Hr. unfold form_onPeerAdded, try_log, mcatch. rewrite invited_text, bind_lift by done. eexists. split; [done|].
    by rewrite view_confirmAdd.
  - intros vip. eexists. split; [done|]. by apply (view_confirmBan (setVip vip new_peer)).
  - intros vip. eexists. split; [done|]. by apply (view_delete (setVip vip new_peer)).
  - intros i p c E. unfold startActionOnIndex. rewrite Nat2Z.id, E, (proj2 (Z.leb_le 0 _)) by lia. eexists. split; [done|]. by apply view_start.
  - by apply view_map.
  - done.
Qed.

(** ** What does not work *)

(** The column of the status is out of the range that the model declares. *)
Lemma status_never_found value l : value <> [] -> findPeer value c_status l = Throw ex_runtime_error.
Proof.
  intros Hv. unfold findPeer. assert (E : forall rows, find_row value c_status l rows = Ret None).
  { induction rows as [|i rows IH]; [done|]. cbn [find_row]. unfold index. cbn [column_int]. unfold columnCount.
    replace (4 <? 4) with false by done. rewrite !andb_false_r. cbn. unfold mbind, outcome_mbind. cbn. rewrite bool_decide_eq_false_2 by done. exact IH. }
  by rewrite E.
Qed.

(** Banning or deleting all peers, or a ping, before the node has sent its
    name: nothing catches the exception. *)
Lemma all_uncaught_while_waiting w : m_wait_name_flag (w_gui w) = true ->
  (window_onBanAll w).1 = Throw ex_runtime_error /\ (window_onDeleteAll w).1 = Throw ex_runtime_error /\ (on_ping_clicked w).1 = Throw ex_runtime_error.
Proof.
  intros Hw. unfold window_onBanAll, window_onDeleteAll, on_ping_clicked, on_gui, sendCommand. rewrite !bind_eq. cbn [mget]. rewrite Hw.
  unfold mthrow_if. cbn [andb othrow_if]. by rewrite !bind_throw.
Qed.

(** The table of addresses removes the rows after the ones asked for, and puts a
    new address into the name. *)
Lemma removeRows_one_too_far a b : removeRows 0 1 [a; b] = (false, [a]).
Proof. done. Qed.
Lemma setValue_vip_sets_name toInt s p : setValue toInt (Some r_vip) 0 (v_text s) [p] = (Ret tt, [setName s p]).
Proof. done. Qed.
End Lists.

(** ** Witnesses *)
#[local] Existing Instances toy_json_lib.
Definition toy_peer (vip : bytes) : meshpeer := Mesh (str "a") (str "1.2.3.4") vip 1 2 cs_none s_known 0.
Definition toy_window : window := Window (Gui [] (str "fla") 100 ∅ false [] []) [toy_peer (str "fd42::1")] None.

Lemma addresses_stay_distinct_witness :
  let events := [ev_add (str "fd42::2@1.2.3.4") (str "b") (str "1.2.3.4") (str "fd42::2"); ev_add (str "fd42::2@1.2.3.4") (str "c") (str "1.2.3.4") (str "fd42::2"); ev_menu true (Some (0, 0)); ev_ban true] in
  map m_vip (w_peers (mfor events (handle 0 0 0 cs_none) toy_window).2) = [str "fd42::1"; str "fd42::2"] /\
  NoDup (map m_vip (w_peers (mfor events (handle 0 0 0 cs_none) toy_window).2)).
Proof. split; [by vm_compute|]. apply addresses_stay_distinct. repeat constructor. apply not_elem_of_nil. Defined.

Lemma list_refines_map_witness : exists l',
  form_onPeerAdded 0 0 0 cs_none (str "fd42::2" ++ str "@" ++ str "(udp:1.2.3.4:9042)") [toy_peer (str "fd42::1")] = (Ret tt, l') /\
  view l' = <[str "fd42::2" := (s_connected, cs_acknowled)]> (view [toy_peer (str "fd42::1")]).
Proof.
  destruct (@list_refines_map _ 0 0 0 cs_none toy_json_laws [toy_peer (str "fd42::1")]) as (_ & H & _); [repeat constructor; apply not_elem_of_nil|].
  apply H; by apply (bool_decide_eq_true_1 (_ ∉ _)); vm_compute.
Defined.
