(* ===== verification/ProgramFacts.v ===== *)
(** * The start of the new loop

    Theorems about [Newloop.v] and [Program.v]: what holds when the start of
    the new loop reaches its main loop, the references of its peers, the
    arguments [main] takes for itself and its exit code. *)
From S2P Require Import Prelude Serialize Hexstr Cryptobasic Multikeys Crypto Peering Peerref Tunserver Datastore Keystore Caps Privileges CapsFacts PrivilegesFacts Devices Cables Newloop Program CryptoFacts HandshakeFacts Toy DatastoreFacts CablesFacts.

(** One step of a program that returned. *)
Ltac ret_step E x s := let E1 := fresh "St" in apply M_bind_inv in E as (x & s & E1 & E).

(** ** Addresses and hashes *)

(** The same public keys, but for the cached hash. *)
Definition rehashed (pk pk' : c_multikeys_pub) : Prop := exists h, pk' = MultikeysPub (set_hash h (pub_keys pk)) (m_ipv6_prefix pk).

Lemma rehashed_refl pk : rehashed pk pk.
Proof. exists (m_hash_cached (pub_keys pk)). by destruct pk as [[l h u] p]. Qed.

Lemma rehashed_trans a b c : rehashed a b -> rehashed b c -> rehashed a c.
Proof. intros (h & ->) (h' & ->). by exists h'. Qed.

Lemma get_hash_rehashes H k : exists h, (get_hash H k).2 = set_hash h k.
Proof.
  unfold get_hash, update_hash, when, mbind, M_mbind, mget, mlift, mmodify, massert, oassert, mret, M_mret.
  destruct (bool_decide (m_hash_cached k = [])).
  - destruct (fingerprint_serial H (m_cryptolists_general k)) as [d|e| |].
    + destruct (negb _); by exists (H d).
    + exists (m_hash_cached k). by destruct k.
    + exists (m_hash_cached k). by destruct k.
    + exists (m_hash_cached k). by destruct k.
  - destruct (negb _); exists (m_hash_cached k); by destruct k.
Qed.

Lemma ipv6_bin_rehashed H pk : rehashed pk (get_ipv6_string_bin H pk).2.
Proof.
  destruct (get_hash_rehashes H (pub_keys pk)) as [h E].
  assert (rehashed pk (on_pub_keys (get_hash H) pk).2) as HR.
  { unfold on_pub_keys. destruct (get_hash H (pub_keys pk)) as [o k]. cbn [snd] in E. subst k. by exists h. }
  unfold get_ipv6_string_bin, mbind, M_mbind, mget, mlift, mret, M_mret.
  destruct (on_pub_keys (get_hash H) pk) as [[hash|e| |] p]; try exact HR. by destruct (bin_of_hex (m_ipv6_prefix p)).
Qed.

Lemma ipv6_hexdot_rehashed H pk : rehashed pk (get_ipv6_string_hexdot H pk).2.
Proof.
  pose proof (ipv6_bin_rehashed H pk) as HR. unfold get_ipv6_string_hexdot, get_ipv6_string_hex, mbind, M_mbind, mlift, mret, M_mret.
  destruct (get_ipv6_string_bin H pk) as [[b|e| |] p]; try exact HR. by destruct (hex_of_bin b).
Qed.

Section Newloop.
Context {OS FS Rng : Type} `{CN : !CapNg OS} `{OU : !OsUser OS} `{CNL : !CapNgLaws OS} `{FL : !FsLib FS} `{CL : !CryptoLib Rng} `{EL : !EndpointLib} `{NL : !NetLib}.
Context (NTRU SIDH : bool).
Context (ed_sign ntru_sign : bytes -> bytes -> outcome bytes) (ed_verify ntru_verify : bytes -> bytes -> bytes -> bool).
Context (home_env : option bytes).

Notation configure := (configure_galaxysrv NTRU SIDH ed_sign ntru_sign ed_verify ntru_verify).
Notation configure_stored := (configure_mykey_newloop NTRU SIDH ed_sign ntru_sign ed_verify ntru_verify home_env).
Notation W := (M (@store FS * @c_galaxysrv Rng EL NL)).

(** ** The identity *)

(** The server holds an identity: its address is the one of the public keys of
    the identity, these carry the prefix, and they verify the signature of the
    session keys. *)
Record identified (prefix : bytes) (g : @c_galaxysrv Rng EL NL) : Prop := {
  id_prefix : m_ipv6_prefix (gs_my_IDI_pub g) = prefix;
  id_address : exists pk dot, rehashed pk (gs_my_IDI_pub g) /\ (get_ipv6_string_hexdot Hash1 pk).1 = Ret dot /\
    haship_of_dot address_v6_from_string dot = Ret (gs_my_hip g);
  id_octets : exists a b, at_ (gs_my_hip g) 0 = Ret a /\ at_ (gs_my_hip g) 1 = Ret b /\ m_my_hip_prefix g = [a; b];
  id_signed : exists d, serialize_bin (pub_keys (m_pub (gs_my_IDC g))) = Ret d /\
    multi_sign_verify NTRU ed_verify ntru_verify (gs_IDI_IDC_sig g) d (pub_keys (gs_my_IDI_pub g)) = Ret tt
}.

(** What making the identity leaves alone. *)
Definition same_server (g g' : @c_galaxysrv Rng EL NL) : Prop :=
  m_exiting g' = m_exiting g /\ m_prefix_len g' = m_prefix_len g /\ gs_peers g' = gs_peers g /\ m_cable_cards g' = m_cable_cards g.

Lemma same_server_refl g : same_server g g.
Proof. by split_and!. Qed.
Lemma same_server_trans a b c : same_server a b -> same_server b c -> same_server a c.
Proof. intros (?&?&?&?) (?&?&?&?). split_and!; congruence. Qed.

Lemma configured_identity my_IDI g g' : configure my_IDI g = (Ret tt, g') ->
  identified (m_ipv6_prefix (m_pub my_IDI)) g' /\ same_server g g'.
Proof.
  unfold configure_galaxysrv. intros E. pose proof (ipv6_bin_rehashed Hash1 (m_pub my_IDI)) as R1.
  destruct (get_ipv6_string_bin Hash1 (m_pub my_IDI)) as [obin pk]. cbn [snd] in R1. ret_step E bin s1. apply mlift_ret in St as [-> ->].
  pose proof (ipv6_hexdot_rehashed Hash1 pk) as R2. destruct (get_ipv6_string_hexdot Hash1 pk) as [odot idi] eqn:Ed. cbn [snd] in R2.
  ret_step E dot s1. apply mlift_ret in St as [-> ->]. ret_step E u s1. apply mlift_ret in St as [_ ->].
  ret_step E hip s1. apply mlift_ret in St as [Hh ->]. ret_step E idc s1.
  assert (same_server g s1) as Hs1.
  { destruct (generate_type _ _ _ _ _ _ _ _ _ _) as [[[]|e| |] [r p]]; try done. injection St as <- <-. by split_and!. }
  clear St. ret_step E d s2. apply mlift_ret in St as [Hd ->]. ret_step E sg s2. apply mlift_ret in St as [_ ->].
  ret_step E u2 s2. apply mlift_ret in St as [Hv ->]. ret_step E u3 s2. injection St as _ <-.
  pose proof (ipv6_hexdot_rehashed Hash1 (m_pub idc)) as R3. destruct (get_ipv6_string_hexdot Hash1 (m_pub idc)) as [oidc idc_pub]. cbn [snd] in R3.
  ret_step E dot2 s2. apply mlift_ret in St as [_ ->]. ret_step E h2 s2. apply mlift_ret in St as [_ ->].
  ret_step E p0 s2. apply mlift_ret in St as [H0 ->]. ret_step E p1 s2. apply mlift_ret in St as [H1 ->]. injection E as <-.
  split; [|destruct Hs1 as (?&?&?&?); by split_and!]. split.
  - destruct (rehashed_trans _ _ _ R1 R2) as (h & ->). done.
  - exists pk, dot. cbn. by rewrite Ed.
  - by exists p0, p1.
  - destruct R3 as (h & ->). destruct u2. by exists d.
Qed.

Lemma load_keeps_prefix dbg name (st : @store FS) p st' p' : datastore_load_PRV_and_pub home_env dbg name (st, p) = (Ret tt, (st', p')) ->
  m_ipv6_prefix (m_pub p') = m_ipv6_prefix (m_pub p).
Proof.
  unfold datastore_load_PRV_and_pub. intros E. apply M_bind_inv in E as (u & [st1 p1] & E1 & E2). unfold on_PRV_stored in E1. unfold on_pub_stored in E2.
  destruct (datastore_load home_env dbg name (st, m_PRV p)) as [o [st2 k]]. injection E1 as _ _ <-.
  destruct (datastore_load home_env dbg name (st1, _)) as [o2 [st3 k2]]. by injection E2 as _ _ <-.
Qed.

Lemma on_fst_keeps {A} (m : M (@store FS) A) (w w' : @store FS * @c_galaxysrv Rng EL NL) o : on_fst m w = (o, w') -> w'.2 = w.2.
Proof. unfold on_fst. destruct (m w.1). by intros [= _ <-]. Qed.

Lemma stored_identity prefix (w w' : @store FS * @c_galaxysrv Rng EL NL) : configure_stored prefix w = (Ret tt, w') ->
  identified prefix w'.2 /\ same_server w.2 w'.2.
Proof.
  unfold configure_mykey_newloop. intros E. ret_step E g w1. unfold on_snd, mget in St. injection St as <- <-.
  ret_step E name w2. assert (w2.2 = w.2) as Hw.
  { unfold mcatch in St. destruct (on_fst _ _) as [[x|e| |] wx] eqn:Ef; apply on_fst_keeps in Ef; try done.
    - injection St as _ <-. done.
    - case_bool_decide; injection St; done. }
  clear St. ret_step E idi w3. destruct (datastore_load_PRV_and_pub _ _ _ _) as [[[]|e| |] [st p]] eqn:El; try done.
  apply load_keeps_prefix in El. injection St as <- <-.
  unfold on_snd in E. cbn [fst snd] in E. destruct (configure p w2.2) as [o g'] eqn:Ec. injection E as -> <-.
  apply configured_identity in Ec as [HI HS]. rewrite El in HI. by rewrite <- Hw.
Qed.

Lemma keys_keep_server {A} (m : M (Rng * @store FS) A) w o w' : with_keys_of_galaxysrv m w = (o, w') ->
  same_server w.2 w'.2.
Proof. destruct w as [st g]. unfold with_keys_of_galaxysrv. destruct (m _) as [o2 [r st2]]. intros [= _ <-]. by split_and!. Qed.

Lemma default_identity prefix (w w' : @store FS * @c_galaxysrv Rng EL NL) :
  make_default_keys NTRU SIDH ed_sign ntru_sign ed_verify ntru_verify home_env prefix w = (Ret tt, w') ->
  identified prefix w'.2 /\ same_server w.2 w'.2.
Proof.
  unfold make_default_keys. intros E. ret_step E name w1.
  assert (same_server w.2 w1.2) as H1.
  { clear E. unfold galaxysrv_gen_key_simple in St. ret_step St g w2. unfold on_snd, mget in St0. injection St0 as <- <-.
    ret_step St ty w2. apply mlift_ret in St0 as [_ ->]. ret_step St u w2. injection St as _ <-. by apply keys_keep_server in St0. }
  clear St. ret_step E g w2. unfold on_snd, mget in St. injection St as <- <-. ret_step E u w2. apply on_fst_keeps in St.
  apply stored_identity in E as [HI HS]. split; [done|]. rewrite St in HS. by eapply same_server_trans.
Qed.

(** ** The prefix *)

Lemma prefix_of_bytes (a b c d : Byte.byte) l : l = [a; b; c; d] -> at_ l 0 = Ret a /\ at_ l 1 = Ret b /\ at_ l 2 = Ret c /\ at_ l 3 = Ret d.
Proof. by intros ->. Qed.

Lemma prefix_chosen arg (g g' : @c_galaxysrv Rng EL NL) ret : set_prefix_option arg g = (Ret ret, g') ->
  ret = map tolower arg /\
  exists len, g' = with_gs_run (m_exiting g) len (m_cable_cards g) g /\ ((ret = str "fd42" /\ len = 16) \/ (ret = str "fd43" /\ len = 24)).
Proof.
  unfold set_prefix_option. intros E. ret_step E u s1. apply mlift_ret in St as [Hz ->].
  assert (length (map tolower arg) = 4%nat) as Hl.
  { rewrite length_map. unfold _check_input, othrow_if in Hz. destruct (zlen arg =? 4) eqn:E4; [|done]. zbool. unfold zlen in E4. lia. }
  destruct (map tolower arg) as [|a [|b [|c [|d [|]]]]] eqn:El; try discriminate Hl. clear Hz Hl.
  ret_step E c0 s1. apply mlift_ret in St as [H0 ->]. injection H0 as <-. ret_step E v0 s1. apply mlift_ret in St as [K0 ->].
  ret_step E c1 s1. apply mlift_ret in St as [H1 ->]. injection H1 as <-. ret_step E v1 s1. apply mlift_ret in St as [K1 ->].
  ret_step E c2 s1. apply mlift_ret in St as [H2 ->]. injection H2 as <-. ret_step E v2 s1. apply mlift_ret in St as [K2 ->].
  ret_step E c3 s1. apply mlift_ret in St as [H3 ->]. injection H3 as <-.
  assert (forall x y : Byte.byte, _check_input (bool_decide (x = y)) = Ret tt -> x = y) as Hin.
  { clear. intros x y. unfold _check_input, othrow_if. by case_bool_decide. }
  destruct v0, v1, v2. apply Hin in K0, K1, K2. subst a b c.
  case_bool_decide; [subst d; injection E as <- <-; split; [done|]; exists 16; by split; [|left; split]|].
  case_bool_decide; [subst d; injection E as <- <-; split; [done|]; exists 24; by split; [|right; split]|done].
Qed.

(** The length of the mask that goes with a prefix. *)
Definition mask_of (arg : bytes) (len : Z) : Prop :=
  (map tolower arg = str "fd42" /\ len = 16) \/ (map tolower arg = str "fd43" /\ len = 24).

Lemma keys_loaded arg (w w' : @store FS * @c_galaxysrv Rng EL NL) :
  programtask_load_my_keys NTRU SIDH ed_sign ntru_sign ed_verify ntru_verify home_env arg w = (Ret tt, w') ->
  identified (map tolower arg) w'.2 /\ mask_of arg (m_prefix_len w'.2) /\ gs_peers w'.2 = gs_peers w.2 /\
  m_exiting w'.2 = m_exiting w.2 /\ m_cable_cards w'.2 = m_cable_cards w.2.
Proof.
  unfold programtask_load_my_keys. intros E. ret_step E g w1. unfold on_snd, mget in St. injection St as <- <-.
  ret_step E have w1. apply on_fst_keeps in St. ret_step E pre w2.
  unfold on_snd in St0. destruct (set_prefix_option arg w1.2) as [o g2] eqn:Es. injection St0 as -> <-.
  apply prefix_chosen in Es as (-> & len & -> & Hlen). rewrite St in E.
  assert (identified (map tolower arg) w'.2 /\ same_server (with_gs_run (m_exiting w.2) len (m_cable_cards w.2) w.2) w'.2) as [HI (H1 & H2 & H3 & H4)].
  { destruct have.
    - ret_step E ok w3. unfold mcatch in St0. destruct ((configure_stored _;; mret true) _) as [[b|e| |] w4] eqn:Ec; try done.
      + injection St0 as -> <-. apply M_bind_inv in Ec as (u & w5 & Ec & Er). injection Er as <- <-. destruct u.
        apply stored_identity in Ec as [HI HS]. unfold mthrow_if in E. cbn in E. injection E as <-. by split.
      + injection St0 as <- <-. unfold mthrow_if in E. by cbn in E.
    - unfold mcatch in E. destruct (make_default_keys _ _ _ _ _ _ _ _ _) as [[[]|e| |] w4] eqn:Ec; try done.
      injection E as <-. by apply default_identity in Ec. }
  unfold mask_of. rewrite H2. by split_and!.
Qed.

Lemma tun_parameters_ret e1 e2 e3 hip : set_tun_parameters e1 e2 e3 hip = Ret tt -> exists c, at_ hip 0 = Ret c /\ byte_val c = 0xFD.
Proof.
  unfold set_tun_parameters, othrow_if, mbind, outcome_mbind. destruct (e1 =? -1); [done|]. cbn [outcome_bind].
  destruct (at_ hip 0) as [c|e| |]; try done. cbn [outcome_bind]. destruct (byte_val c =? 0xFD) eqn:Ec; [|done]. zbool. by exists c.
Qed.

Lemma tuntap_ready os (g g' : @c_galaxysrv Rng EL NL) : programtask_tuntap os g = (Ret tt, g') ->
  g' = g /\ exists c, at_ (gs_my_hip g) 0 = Ret c /\ byte_val c = 0xFD.
Proof.
  unfold programtask_tuntap, init_tuntap. intros E. ret_step E g1 s1. injection St as <- <-. ret_step E u s1.
  unfold massert in St. apply mlift_ret in St as [_ ->]. apply mlift_ret in E as [E ->]. split; [done|]. by eapply tun_parameters_ret.
Qed.

(** ** Peers *)

Lemma peers_added l (g g' : @c_galaxysrv Rng EL NL) : mfor l add_peer_simplestring_newloop g = (Ret tt, g') ->
  exists ps, Forall2 (fun txt p => parse_peer_simplestring_newloop txt = Ret (m_reference p)) l ps /\ g' = with_gs_peers (gs_peers g ++ ps) g.
Proof.
  revert g. induction l as [|txt l IH]; intros g E.
  - injection E as <-. exists []. rewrite app_nil_r. by destruct g.
  - cbn [mfor] in E. ret_step E u g1. unfold add_peer_simplestring_newloop in St. ret_step St ref g2. apply mlift_ret in St0 as [Hr ->].
    injection St as _ <-. apply IH in E as (ps & Hps & ->). exists (PeerConnection ref :: ps). split; [by constructor|].
    cbn [gs_peers with_gs_peers]. by rewrite <- app_assoc.
Qed.

Lemma mcatch_throws {St A} (m : M St A) e0 s a s' : mcatch m (fun _ => mthrow e0) s = (Ret a, s') -> m s = (Ret a, s').
Proof. unfold mcatch. by destruct (m s) as [[x|e| |] s1]. Qed.

(** ** At the main loop *)

Notation P := (OS * (@store FS * @c_galaxysrv Rng EL NL))%type.

(** The demonstrations but the first have undefined behaviour: the code 2
    that is meant to follow them is never a result. *)
Lemma special_zero o r : run_special o = Ret r -> r = 0.
Proof.
  unfold run_special, maybe_run_special.
  destruct (nl_special_warn1 o), (nl_special_ubsan1 o), (nl_special_tsan1 o), (nl_special_memcheck1 o), (nl_special_memcheck2 o); cbn;
    by intros [= <-].
Qed.

Lemma no_capability dbg (s s' : OS) : drop_privileges_before_mainloop dbg s = (Ret tt, s') ->
  forall a nr, in_range nr -> a <> area_bounding -> proc_has s' a nr = false.
Proof. intros E a nr Hn Ha. apply cap_change_ret in E as (_ & _ & _ & HP). rewrite HP by (done || by intros ->). by destruct a. Qed.

Lemma on_server_step {A} (m : M (@c_galaxysrv Rng EL NL) A) (s s' : P) o : on_snd (on_snd m) s = (o, s') ->
  exists g', m s.2.2 = (o, g') /\ s' = (s.1, (s.2.1, g')).
Proof. unfold on_snd. destruct (m s.2.2) as [o2 g']. intros [= -> <-]. by exists g'. Qed.

Lemma on_first_step {St1 St2 A} (m : M St1 A) (s s' : St1 * St2) o : on_fst m s = (o, s') -> exists x, m s.1 = (o, x) /\ s' = (x, s.2).
Proof. unfold on_fst. destruct (m s.1) as [o2 x]. intros [= -> <-]. by exists x. Qed.

Lemma on_second_step {St1 St2 A} (m : M St2 A) (s s' : St1 * St2) o : on_snd m s = (o, s') -> exists x, m s.2 = (o, x) /\ s' = (s.1, x).
Proof. unfold on_snd. destruct (m s.2) as [o2 x]. intros [= -> <-]. by exists x. Qed.

(** What holds of the process and the server when the main loop is entered. *)
Record ready (o : newloop_options) (s : P) : Prop := {
  ready_identity : identified (map tolower (nl_set_prefix o)) s.2.2;
  ready_address : exists c, at_ (gs_my_hip s.2.2) 0 = Ret c /\ byte_val c = 0xFD;
  ready_mask : mask_of (nl_set_prefix o) (m_prefix_len s.2.2);
  ready_peers : Forall2 (fun txt p => parse_peer_simplestring_newloop txt = Ret (m_reference p)) (default [] (nl_peer o)) (gs_peers s.2.2);
  ready_running : m_exiting s.2.2 = false /\ m_cable_cards s.2.2 = CableCards [] None;
  ready_privileges : forall a nr, in_range nr -> a <> area_bounding -> proc_has s.1 a nr = false
}.

(** The steps after the identity make the server and the process ready: when
    they end, the address lies in the network, the peers are exactly the
    references of the command line in their order, and no effective, permitted
    or inheritable capability is left. *)
Lemma after_keys_ready os o (s s' : P) r : identified (map tolower (nl_set_prefix o)) s.2.2 -> mask_of (nl_set_prefix o) (m_prefix_len s.2.2) ->
  gs_peers s.2.2 = [] -> m_exiting s.2.2 = false -> m_cable_cards s.2.2 = CableCards [] None ->
  newloop_after_keys os o s = (Ret r, s') -> r = 0 /\ ready o s'.
Proof.
  intros HI HM Hp Hx Hc E. unfold newloop_after_keys in E.
  ret_step E u6 s6. apply on_server_step in St as (g6 & Et & ->). destruct u6. apply tuntap_ready in Et as (-> & HA). cbn [fst snd] in *.
  ret_step E g7 s7. apply on_server_step in St as (gx & Ex & ->). injection Ex as <- <-.
  ret_step E u8 s8. apply on_first_step in St as (os8 & _ & ->). cbn [fst snd] in *.
  ret_step E u9 s9. apply on_server_step in St as (g9 & Ep & ->). cbn [fst snd] in *.
  apply mcatch_throws in Ep. destruct u9. apply peers_added in Ep as (ps & HF & ->).
  ret_step E u10 s10. apply on_first_step in St as (os10 & Ed & ->). destruct u10. cbn [fst snd] in *. injection E as <- <-.
  split; [done|]. split; cbn [fst snd].
  - destruct HI as [I1 I2 I3 I4]. by split.
  - exact HA.
  - exact HM.
  - cbn. by rewrite Hp.
  - by split.
  - by eapply no_capability.
Qed.

(** ** The exit code *)

(** Whatever code [main_execution] returns, the program ends with 0; only
    what it throws can be seen. *)
Lemma main_exit_code {St} (m : M St Z) s c s' : m s = (Ret c, s') -> main_handlers m s = (Ret 0, s').
Proof. unfold main_handlers, mcatch, mbind, M_mbind. by intros ->. Qed.
End Newloop.

(** ** The self-test *)

Section Cryptolink.
Context {Rng : Type} `{!CryptoLib Rng} `{!CryptoLaws Rng} `{!FreshLaws Rng} `{!BoxLaws Rng} `{!SequenceLaws Rng}.
Context (NTRU SIDH : bool).

Lemma with_local_ret {X A} (x x' : X) (m : M (Rng * X) A) rng rng' a : m (rng, x) = (Ret a, (rng', x')) -> with_local x m rng = (Ret (a, x'), rng').
Proof. unfold with_local. by intros ->. Qed.

Lemma with_local_snd {X A} (x x' : X) (m : M X A) (rng : Rng) a : m x = (Ret a, x') -> with_local x (on_snd m) rng = (Ret (a, x'), rng).
Proof. intros E. apply with_local_ret. unfold on_snd. cbn [fst snd]. by rewrite E. Qed.

(** The self-test passes for any two pairs with matching keys and different
    hashes, whatever is drawn on the way. *)
Lemma cryptolink_passes A B rng : honest A -> honest B -> modest A -> modest B -> compatible NTRU SIDH A B -> hashed A -> hashed B ->
  (get_hash Hash1 (pub_keys (m_pub A))).1 <> (get_hash Hash1 (pub_keys (m_pub B))).1 ->
  exists rng', cryptolink NTRU SIDH A B rng = (Ret tt, rng').
Proof.
  intros HA HB MA MB Hcomp hA hB Hne. unfold cryptolink.
  destruct (initiator_opens NTRU SIDH A B (str "Alice") rng HA HB MA MB Hcomp hA hB)
    as (a1 & rng1 & p & rng2 & a2 & a3 & sA & odd & k & kex & E1 & E2 & E3 & Hp & Hz & -> & Hu & HBob).
  rewrite (M_bind_ret _ _ _ _ _ E1), (M_bind_ret _ _ _ _ _ (with_local_ret _ _ _ _ _ _ E2)), (M_bind_ret _ _ _ _ _ (with_local_snd _ _ _ _ _ E3)).
  edestruct (respondent_opens NTRU SIDH A B (str "Bobby") rng2 odd k kex p Hp Hz)
    as (b1 & rngB1 & q & b2 & oddf & kf & kexf & s & E4 & E5 & Hq & Hzf & Hs & Hof & HAlice).
  { edestruct (HBob) as (odd' & kex' & sB & E & Ho & Hodd). rewrite (Hodd Hne) in Ho. exists kex', sB. split; [exact E|exact Ho]. }
  rewrite (M_bind_ret _ _ _ _ _ E4), (M_bind_ret _ _ _ _ _ (with_local_snd _ _ _ _ _ E5)).
  destruct (HAlice (boxer_box (make_boxer (negb odd) k (replicate (Z.to_nat nonce_constantbytes) Byte.x00)) (ide_bytes q)).1 rngB1 (str "Alice" ++ str "-CTf"))
    as (odd' & kex' & sf & E & Ho).
  destruct (initiator_finishes NTRU SIDH rngB1 (str "Alice") sA (negb odd) k kexf p q odd' kf Hq Hzf Hu) as (a4 & s4 & E6 & Hs4 & Hk4); [by exists kex', sf|].
  rewrite (M_bind_ret _ _ _ _ _ (with_local_ret _ _ _ _ _ _ E6)).
  assert (keyed kf s) as Hks.
  { destruct Hof as (Hb & Hub & _). split; eexists; (split; [eassumption|]); [apply boxer_key_make|apply unboxer_key_make]. }
  destruct (keyed_reads kf a4 b2 s4 s Hs4 Hs Hk4 Hks (replicate 1024 Byte.x6d)) as (c & N & a5 & b3 & E7 & Hlen & E8).
  rewrite (M_bind_ret _ _ _ _ _ (with_local_snd _ _ _ _ _ E7)).
  assert (replicate 1024 Byte.x6d <> c) as Hc by (intros <-; lia).
  rewrite bool_decide_eq_false_2 by exact Hc. rewrite (M_bind_ret _ _ _ tt rngB1) by done.
  rewrite (M_bind_ret _ _ _ _ _ (with_local_snd _ _ _ _ _ E8)). rewrite bool_decide_eq_true_2 by done. by eexists.
Qed.
End Cryptolink.

(** ** Arguments and demonstrations *)

Lemma demo_conf_needs_newline : demoname_load_conf (Some (str "demo=route")) = str "default" /\
  demoname_load_conf (Some (str "demo=route" ++ [Byte.x0a])) = str "route".
Proof. by vm_compute. Qed.

Lemma remove_all_length v c : (length (remove_all c v) <= length c)%nat.
Proof. apply length_filter. Qed.

(** The check of [remove_and_count] never fails, and it counts what it took. *)
Lemma remove_and_count_ret c v : remove_and_count c v = Ret (remove_all c v, zlen (filter (fun x => x = v) c)).
Proof.
  unfold remove_and_count. pose proof (remove_all_length v c). rewrite (proj2 (Z.leb_le _ _)) by (unfold zlen; lia). do 2 f_equal.
  unfold zlen, remove_all. induction c as [|x c IH]; [done|]. rewrite !filter_cons. cbn [length] in *.
  destruct (decide (x = v)), (decide (x <> v)); try done; cbn [length]; pose proof (remove_all_length v c) as Hl; unfold remove_all in Hl; specialize (IH Hl); lia.
Qed.

Lemma erase_first_none name argt : erase_first name argt = None <-> name ∉ argt.
Proof.
  induction argt as [|x argt IH]; cbn; [split; [intros _; apply not_elem_of_nil|done]|]. rewrite not_elem_of_cons.
  case_bool_decide; [subst; split; [done|by intros [? _]]|]. destruct (erase_first name argt); cbn; [|by split; [split; [done|by apply IH]|]].
  split; [done|]. intros [_ Hn]. by apply IH in Hn.
Qed.

Lemma erase_first_some name argt argt' : erase_first name argt = Some argt' ->
  length argt = S (length argt') /\ remove_all argt' name = remove_all argt name.
Proof.
  revert argt'. induction argt as [|x argt IH]; intros argt'; cbn [erase_first]; [done|]. unfold remove_all in *. case_bool_decide as Hx.
  - intros [= <-]. subst x. split; [done|]. by rewrite filter_cons_False by (intros H; by apply H).
  - destruct (erase_first name argt) as [l|]; [|done]. cbn [option_map]. intros [= <-]. destruct (IH l eq_refl) as [IH1 IH2]. cbn [length].
    split; [lia|]. by rewrite !filter_cons_True, IH2 by done.
Qed.

Lemma remove_all_absent name argt : name ∉ argt -> remove_all argt name = argt.
Proof.
  unfold remove_all. induction argt as [|x argt IH]; [done|]. rewrite not_elem_of_cons. intros [Hx Hn].
  by rewrite filter_cons_True, IH by done.
Qed.

Lemma erase_loop_all name : forall fuel argt, (length argt < fuel)%nat -> erase_loop fuel name argt = remove_all argt name.
Proof.
  induction fuel as [|f IH]; intros argt Hf; [lia|]. cbn [erase_loop]. destruct (erase_first name argt) as [l|] eqn:E.
  - apply erase_first_some in E as [Hl <-]. apply IH. lia.
  - apply erase_first_none in E. by rewrite remove_all_absent.
Qed.

(** The loop of [check_and_remove_special_cmdline] ends, with every occurrence
    removed, like [remove_and_count]. *)
Lemma check_and_remove_exact name argt :
  check_and_remove_special_cmdline name argt = (Ret (contains_value argt name), remove_all argt name).
Proof.
  unfold check_and_remove_special_cmdline, mbind, M_mbind, mget, mput. destruct (contains_value argt name) eqn:E.
  - rewrite erase_loop_all by lia. done.
  - unfold contains_value in E. apply bool_decide_eq_false in E. by rewrite remove_all_absent.
Qed.

(** ** On small systems *)

#[local] Existing Instance toy_capng.
#[local] Existing Instance toy_user.
#[local] Existing Instance toy_capng_laws.
#[local] Existing Instance toy_lib.
#[local] Existing Instance toy_net.
#[local] Existing Instance toy_endpoints.

Definition toy_newloop_options : newloop_options :=
  NewloopOptions true None false false false false false (str "fd43") (Some [str "anyone@(udp:10.0.0.1:9042)"; str "anyone@(shm:box7)"]).

(** A pair with one Ed25519 key, with the prefix fd43. *)
Definition toy_pair_fd43 : c_multikeys_PAIR :=
  MultikeysPAIR (MultikeysPub (pub_keys (toy_identity (str "key"))) (str "fd43")) (Multicryptostrings (<[6%nat := [str "key"]]> (replicate 32 [])) [] e_crypto_use_secret).

Notation toy_start := (configure_galaxysrv true true (fun _ _ => Ret (str "sig")) (fun _ _ => Ret (str "sig")) (fun _ _ _ => true) (fun _ _ _ => true)
  toy_pair_fd43 (with_gs_run false 24 (CableCards [] None) (new_galaxysrv 7 60 []))).
Notation toy_reached := (newloop_after_keys (TuntapOs 0 0 0) toy_newloop_options (toy_full 5, (Store [] (ToyDisk ∅ ∅ []) : @store toy_disk, toy_start.2))).

(** From that pair, the server gets ready, with two peers. *)
Example newloop_gets_ready : (toy_reached).1 = Ret 0 /\ ready true (fun _ _ _ => true) (fun _ _ _ => true) toy_newloop_options (toy_reached).2 /\
  length (gs_peers (toy_reached).2.2.2) = 2%nat.
Proof.
  assert (toy_start = (Ret tt, toy_start.2)) as Es by (apply ret_pair; vm_compute; reflexivity).
  assert (toy_reached = (Ret 0, (toy_reached).2)) as E by (apply ret_pair; vm_compute; reflexivity).
  destruct (configured_identity _ _ _ _ _ _ _ _ _ Es) as [HI (H1 & H2 & H3 & H4)].
  apply after_keys_ready with (ed_verify := fun _ _ _ => true) (ntru_verify := fun _ _ _ => true) (NTRU := true) in E as HR;
    [|exact HI|right; split; [reflexivity|exact H2]|exact H3|exact H1|exact H4]. destruct HR as [_ HR].
  split_and!; [by rewrite E|exact HR|]. pose proof (Forall2_length _ _ _ (ready_peers _ _ _ _ _ HR)) as Hl. by rewrite <- Hl.
Qed.
